(** * Festivals in Morocco: ingestion, deduplication and search projection

    A shallow embedding of the TypeScript sources of the events search
    engine, with the properties its specification states.

    Conventions of the embedding.
    - A JavaScript string is the list of its UTF-16 code units ([list N]).
      [js "abc"] writes an ASCII literal.
    - [String.prototype.toLowerCase] and [String.prototype.normalize('NFD')]
      are Unicode tables of the runtime, not code of the repository: the
      functions that call them take them as the fields of a [Unicode] record.
      [AsciiUnicode] is the instance that agrees with the runtime on ASCII
      input; concrete evaluations use it on ASCII input only.
    - A JavaScript number that the code only adds and multiplies is a
      rational ([Q]); integer identifiers and counters are [Z].
    - An awaited call that may reject, or a statement that may throw, returns
      a [Completion]: [Return v] or [Throw e]. *)

From Stdlib Require Import ZArith NArith QArith Qabs Qminmax Lqa Lia Ascii String.
From Stdlib Require Import DecimalString DecimalZ DecimalPos.
From stdpp Require Import gmap list sorting.

Local Open Scope Z_scope.

(** ** Completions and nullable values *)

(** What a call that throws, or an awaited promise that rejects, hands to
    the caller. *)
Inductive Error : Type :=
  | TypeError        (* a property read on null or undefined *)
  | ObjectNotFound   (* the search engine has no such collection or document *)
  | ObjectAlreadyExists
  | RequestFailed    (* a request to an external service failed or was rejected *)
  | ImportError      (* the search engine refused a document of an import *)
  | StoreError.      (* the store answered with an error object *)

Inductive Completion (A : Type) : Type :=
  | Return (a : A)
  | Throw (e : Error).
Arguments Return {A} a.
Arguments Throw {A} e.

(** A property that may be missing ([undefined]), [null], or hold a value. *)
Inductive JsOpt (A : Type) : Type :=
  | JsUndefined
  | JsNull
  | JsVal (a : A).
Arguments JsUndefined {A}.
Arguments JsNull {A}.
Arguments JsVal {A} a.

(** ** JavaScript strings *)

Module JsString.

(** An ASCII literal as a list of code units. *)
Definition js (s : string) : list N :=
  List.map N_of_ascii (list_ascii_of_string s).

Definition is_digit (c : N) : bool := ((48 <=? c) && (c <=? 57))%N.
Definition is_lower (c : N) : bool := ((97 <=? c) && (c <=? 122))%N.
Definition is_upper (c : N) : bool := ((65 <=? c) && (c <=? 90))%N.

(** The characters the regular-expression class [\s] matches, which are also
    the ones [String.prototype.trim] strips: WhiteSpace and LineTerminator. *)
Definition is_space (c : N) : bool :=
  ((9 <=? c) && (c <=? 13) || (c =? 32) || (c =? 160) || (c =? 5760)
   || (8192 <=? c) && (c <=? 8202) || (c =? 8232) || (c =? 8233)
   || (c =? 8239) || (c =? 8287) || (c =? 12288) || (c =? 65279))%N.

(** The combining diacritical marks, U+0300 to U+036F. *)
Definition is_combining_mark (c : N) : bool := ((768 <=? c) && (c <=? 879))%N.

(** The Unicode operations of the runtime the sources call on strings. *)
Record Unicode : Type := {
  toLowerCase : list N -> list N;
  normalizeNFD : list N -> list N
}.

Definition ascii_lower (c : N) : N := if is_upper c then (c + 32)%N else c.

(** The runtime's behaviour on ASCII strings: A-Z are mapped to a-z, and the
    canonical decomposition leaves every ASCII character alone. *)
Definition AsciiUnicode : Unicode := {|
  toLowerCase := List.map ascii_lower;
  normalizeNFD := fun s => s
|}.

(** [String(n)] for an integer [n]: its decimal writing. *)
Definition String_of_Z (n : Z) : list N :=
  js (NilZero.string_of_int (Z.to_int n)).

(** [a < b], [a >= b] on strings: the lexicographic order of code units. *)
Definition compare (a b : list N) : comparison := list_compare N.compare a b.
Definition geb (a b : list N) : bool :=
  match compare a b with Lt => false | _ => true end.

(** [s.split(sep)[0]] for a one-character separator: the part before its
    first occurrence, the whole string when there is none. *)
Fixpoint before_first (sep : N) (s : list N) : list N :=
  match s with
  | [] => []
  | c :: t => if (c =? sep)%N then [] else c :: before_first sep t
  end.

End JsString.

(** ** 4.1 Text normalizer (ingestion pipeline, section 2) *)

Module Normalizer.
Import JsString.

(** [c] matches the pattern letter [p] (lower case) under the [i] flag of a
    regular expression without the [u] flag: case folding is by
    [toUpperCase] of single code units and never maps a non-ASCII character
    onto an ASCII one, so only [p] and its ASCII capital match. *)
Definition matches_letter (p c : N) : bool := ((c =? p) || (c =? p - 32))%N.

(** Does [s] start with the literal [pat] (lower-case letters), ignoring
    case? *)
Fixpoint starts_with_ci (pat s : list N) : bool :=
  match pat, s with
  | [], _ => true
  | p :: pat', c :: s' => matches_letter p c && starts_with_ci pat' s'
  | _ :: _, [] => false
  end.

(** Does [s] start with four digits, [\d{4}]? *)
Definition starts_with_year (s : list N) : bool :=
  match s with
  | a :: b :: c :: d :: _ => is_digit a && is_digit b && is_digit c && is_digit d
  | _ => false
  end.

(** Length of the match of [/festival|fest|edition|\d{4}/i] at the start of
    [s]: the alternatives are tried in the order they are written. *)
Definition noise_match (s : list N) : option nat :=
  if starts_with_ci (js "festival") s then Some 8%nat
  else if starts_with_ci (js "fest") s then Some 4%nat
  else if starts_with_ci (js "edition") s then Some 7%nat
  else if starts_with_year s then Some 4%nat
  else None.

(** [.replace(/festival|fest|edition|\d{4}/gi, '')]: one scan from the left;
    a match is dropped and the scan resumes after it. [skip] counts the
    characters of the current match still to drop. *)
Fixpoint remove_noise_from (skip : nat) (s : list N) : list N :=
  match s with
  | [] => []
  | c :: t =>
      match skip with
      | S k => remove_noise_from k t
      | O =>
          match noise_match s with
          | Some (S k) => remove_noise_from k t
          | _ => c :: remove_noise_from O t
          end
      end
  end.

Definition remove_noise (s : list N) : list N := remove_noise_from O s.

(** [.replace(/[U+0300-U+036F]/g, '')]: the diacritics go. *)
Definition remove_diacritics (s : list N) : list N :=
  List.filter (fun c => negb (is_combining_mark c)) s.

(** [.replace(/[^a-z0-9\s]/g, '')] *)
Definition keep_alphanumeric (s : list N) : list N :=
  List.filter (fun c => is_lower c || is_digit c || is_space c) s.

(** [.replace(/\s+/g, ' ')]: every maximal run of white space becomes one
    space. *)
Fixpoint collapse_spaces (s : list N) : list N :=
  match s with
  | [] => []
  | c :: t =>
      if is_space c then
        match t with
        | d :: _ => if is_space d then collapse_spaces t else 32%N :: collapse_spaces t
        | [] => [32%N]
        end
      else c :: collapse_spaces t
  end.

Fixpoint trim_start (s : list N) : list N :=
  match s with
  | c :: t => if is_space c then trim_start t else s
  | [] => []
  end.

(** [.trim()] *)
Definition trim (s : list N) : list N := rev (trim_start (rev (trim_start s))).

(** One row of the Wagner-Fischer table: [prev] is the row above without its
    first cell, [left] the cell to the left, [diag] the cell above it. *)
Fixpoint lev_row (c : N) (b : list N) (prev : list nat) (left diag : nat) : list nat :=
  match b, prev with
  | d :: b', up :: prev' =>
      let cost := if (c =? d)%N then O else 1%nat in
      let v := Nat.min (Nat.min (up + 1) (left + 1)) (diag + cost) in
      v :: lev_row c b' prev' v up
  | _, _ => []
  end.

Fixpoint lev_rows (a b : list N) (prev : list nat) (i : nat) : list nat :=
  match a with
  | [] => prev
  | c :: a' => lev_rows a' b (i :: lev_row c b (tl prev) i (hd O prev)) (S i)
  end.

(** Modelled from the spec: [levenshtein] is called by [matchCity] and
    defined nowhere in the sources; the specification names it the
    Levenshtein distance, the least number of single-character insertions,
    deletions and substitutions, computed here row by row. [matchCity] takes
    the distance as a parameter; this one serves to evaluate it. *)
Definition levenshtein_reference (a b : list N) : nat :=
  List.last (lev_rows a b (seq O (S (List.length b))) 1%nat) O.

(** The reference table of cities ([City] of the canonical types). *)
Record City : Type := {
  city_id : Z;
  city_region_id : Z;
  city_name : list N;
  city_name_ar : option (list N);
  city_name_fr : option (list N);
  city_slug : list N
}.

(** [Array.prototype.find] with a predicate that may throw: the first
    element the predicate accepts; a throw ends the scan. *)
Fixpoint find_throwing {A : Type} (p : A -> Completion bool) (l : list A)
  : Completion (option A) :=
  match l with
  | [] => Return None
  | x :: t =>
      match p x with
      | Throw e => Throw e
      | Return true => Return (Some x)
      | Return false => find_throwing p t
      end
  end.

Section WithUnicode.
Variable U : Unicode.
Variable levenshtein : list N -> list N -> nat.

Definition normalizeName (name : list N) : list N :=
  trim (collapse_spaces (keep_alphanumeric (remove_noise
    (remove_diacritics (normalizeNFD U (toLowerCase U name)))))).

(** [normalizeName] applied to a value typed [string | null]: reading
    [toLowerCase] on [null] throws. *)
Definition normalizeName_nullable (name : option (list N)) : Completion (list N) :=
  match name with
  | Some s => Return (normalizeName s)
  | None => Throw TypeError
  end.

(** The predicate of the exact scan:
    [normalizeName(c.name) === normalized || normalizeName(c.name_fr) === normalized]. *)
Definition exact_city (normalized : list N) (c : City) : Completion bool :=
  if bool_decide (normalizeName (city_name c) = normalized) then Return true
  else match normalizeName_nullable (city_name_fr c) with
       | Return fr => Return (bool_decide (fr = normalized))
       | Throw e => Throw e
       end.

(** The predicate of the fuzzy scan:
    [levenshtein(normalizeName(c.name), normalized) <= 2]. *)
Definition fuzzy_city (normalized : list N) (c : City) : bool :=
  (levenshtein (normalizeName (city_name c)) normalized <=? 2)%nat.

Definition matchCity (cities : list City) (rawCity : option (list N))
  : Completion (option Z) :=
  match rawCity with
  | None | Some [] => Return None          (* [!rawCity]: null and the empty string *)
  | Some raw =>
      let normalized := normalizeName raw in
      match find_throwing (exact_city normalized) cities with
      | Throw e => Throw e
      | Return (Some exact) => Return (Some (city_id exact))
      | Return None =>
          match List.find (fuzzy_city normalized) cities with
          | Some fuzzy => Return (Some (city_id fuzzy))
          | None => Return None
          end
      end
  end.

End WithUnicode.

End Normalizer.

(** ** Canonical types *)

Module Types.
Import JsString.

(** [type EventType = 'festival' | 'concert' | 'showcase' | 'ritual' | 'conference'] *)
Inductive EventType : Type :=
  | festival | concert | showcase | ritual | conference.

Definition EventType_value (t : EventType) : list N :=
  match t with
  | festival => js "festival"
  | concert => js "concert"
  | showcase => js "showcase"
  | ritual => js "ritual"
  | conference => js "conference"
  end.

(** The strings that inhabit the union. *)
Definition EventType_values : list (list N) :=
  List.map EventType_value [festival; concert; showcase; ritual; conference].

Inductive EventStatus : Type :=
  | announced | confirmed | cancelled | postponed | archived.

Record Event : Type := {
  id : Z;
  name : list N;
  slug : list N;
  event_type : EventType;
  start_date : list N;
  end_date : option (list N);
  start_time : option (list N);
  doors_time : option (list N);
  city_id : Z;
  region_id : Z;
  venue_id : option Z;
  organizer_id : option Z;
  description : option (list N);
  official_website : option (list N);
  status : EventStatus;
  confidence_score : Q;
  is_verified : bool;
  is_pinned : bool;
  cultural_significance : Z;
  last_verified_at : option (list N);
  created_at : list N;
  updated_at : list N
}.

Record Source : Type := {
  source_id : Z;
  source_name : list N;
  reliability_score : Q;
  is_active : bool
}.

Inductive DedupAction : Type := create | merge | review.
Inductive MatchType : Type := exact | fuzzy_name | date_location | none.

Record DeduplicationResult : Type := {
  action : DedupAction;
  existing_event_id : option Z;
  confidence : Q;
  match_type : MatchType
}.

(** JavaScript truthiness of the values the sources test with [!x], [x || y]
    and [filter(Boolean)]. *)
Definition truthy_string (s : option (list N)) : bool :=
  match s with Some (_ :: _) => true | _ => false end.

Definition truthy_number (n : option Z) : bool :=
  match n with Some 0 | None => false | Some _ => true end.

(** [a || b] on values typed [string | null | undefined]. *)
Definition or_string (a b : option (list N)) : option (list N) :=
  if truthy_string a then a else b.

End Types.

(** ** The taxonomy module *)

Module Taxonomy.
Import JsString.

(** [enum EventType] of the taxonomy, with the string each member stands for. *)
Inductive EventType : Type :=
  | FESTIVAL | CONCERT | MOUSSEM | LILA | SHOWCASE | GATHERING.

Definition EventType_value (t : EventType) : list N :=
  match t with
  | FESTIVAL => js "festival"
  | CONCERT => js "concert"
  | MOUSSEM => js "moussem"
  | LILA => js "lila"
  | SHOWCASE => js "showcase"
  | GATHERING => js "gathering"
  end.

End Taxonomy.

(** ** 4.5 Deduplication resolver (ingestion pipeline, section 4) *)

Module Dedup.
Import JsString Normalizer Types.
Local Open Scope Q_scope.

Inductive FingerprintType : Type :=
  | fp_exact | fp_fuzzy_name | fp_date_location | fp_week_location.

Record Fingerprint : Type := {
  fp_type : FingerprintType;
  fp_value : list N
}.

Record NormalizedCandidate : Type := {
  rawName : list N;
  normalizedName : list N;
  startDate : list N;
  endDate : option (list N);
  cityId : option Z;
  venueId : option Z;
  fingerprints : list Fingerprint;
  sourceId : Z;
  externalId : option (list N);
  sourceUrl : list N
}.

(** A row of the fingerprint table a lookup returns. *)
Record FingerprintMatch : Type := { eventId : Z }.

(** The helpers the resolver calls and the sources do not define: the
    string metric, the day difference of two dates, and the reads of the
    authoritative store. The resolver is stated for every such environment. *)
Record Env : Type := {
  jaroWinkler : list N -> list N -> Q;
  daysBetween : list N -> list N -> Q;
  findMatchByFingerprint : list Fingerprint -> FingerprintType -> option FingerprintMatch;
  findMatchesByFingerprint : list Fingerprint -> FingerprintType -> list FingerprintMatch;
  getEvent : Z -> Event
}.

(** *** A reference environment

    The string metric and the day difference are not code of the
    repository. The two functions below are the textbook ones; they serve to
    evaluate the resolver on concrete records, and no property of the
    resolver depends on them. *)

(** Marks the first unused character of [b] equal to [c] whose index lies in
    [lo..hi]. *)
Fixpoint jaro_mark (c : N) (lo hi j : nat) (b : list N) (used : list bool)
  : option (list bool) :=
  match b, used with
  | d :: b', u :: used' =>
      if (lo <=? j)%nat && (j <=? hi)%nat && negb u && (c =? d)%N
      then Some (true :: used')
      else cons u <$> jaro_mark c lo hi (S j) b' used'
  | _, _ => None
  end.

(** The characters of [a] that find a partner in [b] within the window [w],
    and the marks on [b]. *)
Fixpoint jaro_matches (a : list N) (i w : nat) (b : list N) (used : list bool)
  : list N * list bool :=
  match a with
  | [] => ([], used)
  | c :: a' =>
      match jaro_mark c (i - w) (i + w) O b used with
      | Some used' =>
          let (ms, u) := jaro_matches a' (S i) w b used' in (c :: ms, u)
      | None => jaro_matches a' (S i) w b used
      end
  end.

Definition of_nat (n : nat) : Q := inject_Z (Z.of_nat n).

Definition jaro (a b : list N) : Q :=
  let w := (Nat.max (length a) (length b) / 2 - 1)%nat in
  let (ma, used) := jaro_matches a O w b (replicate (length b) false) in
  let mb := List.map fst (List.filter snd (zip b used)) in
  let m := length ma in
  let t := (length (List.filter (fun p => negb (p.1 =? p.2)%N) (zip ma mb)) / 2)%nat in
  match m with
  | O => 0
  | _ => (of_nat m / of_nat (length a) + of_nat m / of_nat (length b)
          + of_nat (m - t) / of_nat m) / 3
  end.

Fixpoint common_prefix (limit : nat) (a b : list N) : nat :=
  match limit, a, b with
  | S k, c :: a', d :: b' => if (c =? d)%N then S (common_prefix k a' b') else O
  | _, _, _ => O
  end.

(** Jaro-Winkler similarity: the Jaro similarity, raised for a common prefix
    of up to four characters. *)
Definition jaroWinkler_reference (a b : list N) : Q :=
  let j := jaro a b in
  j + of_nat (common_prefix 4 a b) * 0.1 * (1 - j).

Fixpoint decimal_value (acc : Z) (s : list N) : Z :=
  match s with
  | [] => acc
  | c :: t => decimal_value (10 * acc + (Z.of_N c - 48))%Z t
  end.

(** The day number of a civil date, counted from 1970-01-01. *)
Definition days_from_civil (y m d : Z) : Z :=
  (let y' := if m <=? 2 then y - 1 else y in
   let era := y' / 400 in
   let yoe := y' - era * 400 in
   let doy := (153 * (if 2 <? m then m - 3 else m + 9) + 2) / 5 + d - 1 in
   let doe := yoe * 365 + yoe / 4 - yoe / 100 + doy in
   era * 146097 + doe - 719468)%Z.

(** The day number of a date written [YYYY-MM-DD]. *)
Definition day_number (s : list N) : Z :=
  days_from_civil (decimal_value 0 (take 4 s))
                  (decimal_value 0 (take 2 (drop 5 s)))
                  (decimal_value 0 (take 2 (drop 8 s))).

Definition daysBetween_reference (a b : list N) : Q :=
  inject_Z (day_number b - day_number a).

Section WithEnv.
Variable U : Unicode.
Variable E : Env.

Definition nameScore (candidate : NormalizedCandidate) (event : Event) : Q :=
  jaroWinkler E (normalizedName candidate) (normalizeName U (name event)).

Definition dateScore (candidate : NormalizedCandidate) (event : Event) : Q :=
  if bool_decide (startDate candidate = start_date event) then 1.0
  else if Qle_bool (Qabs (daysBetween E (startDate candidate) (start_date event))) 1 then 0.8
  else if Qle_bool (Qabs (daysBetween E (startDate candidate) (start_date event))) 7 then 0.5
  else 0.

Definition locationScore (candidate : NormalizedCandidate) (event : Event) : Q :=
  if bool_decide (cityId candidate = Some (city_id event)) then 1.0 else 0.

Definition venueScore (candidate : NormalizedCandidate) (event : Event) : Q :=
  if negb (truthy_number (venueId candidate)) || negb (truthy_number (venue_id event))
  then 0.5
  else if bool_decide (venueId candidate = venue_id event) then 1.0 else 0.

Definition calculateSimilarity (candidate : NormalizedCandidate) (event : Event) : Q :=
  0.40 * nameScore candidate event +
  0.30 * dateScore candidate event +
  0.20 * locationScore candidate event +
  0.10 * venueScore candidate event.

(** The loop of step 2: the first match whose similarity reaches 0.85. *)
Fixpoint fuzzyLoop (candidate : NormalizedCandidate) (matches : list FingerprintMatch)
  : option DeduplicationResult :=
  match matches with
  | [] => None
  | m :: rest =>
      let event := getEvent E (eventId m) in
      let similarity := calculateSimilarity candidate event in
      if Qle_bool 0.85 similarity then
        Some {| action := merge; existing_event_id := Some (eventId m);
                confidence := similarity; match_type := fuzzy_name |}
      else fuzzyLoop candidate rest
  end.

(** The loop of step 3: the first match whose name similarity reaches 0.70. *)
Fixpoint dateLocationLoop (candidate : NormalizedCandidate) (matches : list FingerprintMatch)
  : option DeduplicationResult :=
  match matches with
  | [] => None
  | m :: rest =>
      let event := getEvent E (eventId m) in
      let nameSimilarity :=
        jaroWinkler E (normalizedName candidate) (normalizeName U (name event)) in
      if Qle_bool 0.70 nameSimilarity then
        Some {| action := review; existing_event_id := Some (eventId m);
                confidence := nameSimilarity; match_type := date_location |}
      else dateLocationLoop candidate rest
  end.

Definition deduplicateCandidate (candidate : NormalizedCandidate) : DeduplicationResult :=
  match findMatchByFingerprint E (fingerprints candidate) fp_exact with
  | Some exactMatch =>
      {| action := merge; existing_event_id := Some (eventId exactMatch);
         confidence := 0.95; match_type := exact |}
  | None =>
      match fuzzyLoop candidate (findMatchesByFingerprint E (fingerprints candidate) fp_fuzzy_name) with
      | Some result => result
      | None =>
          match dateLocationLoop candidate
                  (findMatchesByFingerprint E (fingerprints candidate) fp_date_location) with
          | Some result => result
          | None =>
              {| action := create; existing_event_id := None;
                 confidence := 1.0; match_type := none |}
          end
      end
  end.

End WithEnv.

End Dedup.

(** ** 4.7 Confidence scorer (ingestion pipeline, section 6) *)

Module Confidence.
Import JsString Normalizer Types.
Local Open Scope Q_scope.

(** The properties of a source's raw payload the scorer reads:
    [rawData?.start_date], [rawData?.date], [rawData?.venue?.name] and
    [rawData?.location]; [None] when the property, or the payload, is
    missing or null. *)
Record RawData : Type := {
  raw_start_date : option (list N);
  raw_date : option (list N);
  raw_venue_name : option (list N);
  raw_location : option (list N)
}.

(** A provenance row joined with its source, as [getEventSources] returns it. *)
Record EventSource : Type := {
  es_sourceId : Z;
  es_source : Source;
  es_rawData : RawData
}.

(** The helpers the scorer calls and the sources do not define. [now] is the
    reading of the clock, [new Date()]. *)
Record Env : Type := {
  getEvent : Z -> Event;
  getEventSources : Z -> list EventSource;
  getSourceHistoricalAccuracy : option Z -> option Q;
  daysBetween : list N -> Z -> Q;
  normalizeDate : list N -> list N;
  now : Z
}.

(** [Math.max(...xs)] for a list with first element [x]. *)
Definition Math_max (x : Q) (xs : list Q) : Q := fold_left Qmax xs x.

(** [event[f] != null] for a field whose type admits null, and for one whose
    type does not. *)
Definition present {A : Type} (v : option A) : bool :=
  match v with Some _ => true | None => false end.
Definition present_required {A : Type} (v : A) : bool := true.

Definition count_true (l : list bool) : Q :=
  inject_Z (Z.of_nat (List.length (List.filter (fun b => b) l))).

Section WithEnv.
Variable U : Unicode.
Variable E : Env.

(** Factor 1: the best reliability among the sources, 0.3 without sources. *)
Definition sourceReliability (sources : list EventSource) : Q :=
  match List.map (fun s => reliability_score (es_source s)) sources with
  | [] => 0.3
  | r :: rs => Math_max r rs
  end.

(** Factor 2: the share of required and of optional fields that are set. *)
Definition completeness (event : Event) : Q :=
  let presentRequired :=
    count_true [present_required (name event); present_required (start_date event);
                present_required (city_id event); present_required (status event)] in
  let presentOptional :=
    count_true [present (end_date event); present (venue_id event);
                present (description event); present (official_website event)] in
  (presentRequired / 4) * 0.7 + (presentOptional / 4) * 0.3.

(** Factor 3: do the sources agree on the start date and on the venue? *)
Definition calculateSourceAgreement (event : Event) (sources : list EventSource) : Q :=
  if (List.length sources <=? 1)%nat then 0.5
  else
    let dates :=
      List.filter (fun d => truthy_string d)
        (List.map (fun s => or_string (raw_start_date (es_rawData s)) (raw_date (es_rawData s)))
           sources) in
    let uniqueDates := remove_dups (List.map (fun d => normalizeDate E (default [] d)) dates) in
    let dateCompared := (1 <? List.length dates)%nat in
    let dateAgreement := dateCompared && (List.length uniqueDates =? 1)%nat in
    let venues :=
      List.filter (fun v => truthy_string v)
        (List.map (fun s => or_string (raw_venue_name (es_rawData s)) (raw_location (es_rawData s)))
           sources) in
    let normalizedVenues := List.map (fun v => normalizeName U (default [] v)) venues in
    let venueCompared := (1 <? List.length venues)%nat in
    let venueAgreement :=
      venueCompared &&
      List.forallb (fun v => bool_decide (v = List.hd [] normalizedVenues)) normalizedVenues in
    let agreements := count_true [dateAgreement; venueAgreement] in
    let comparisons := count_true [dateCompared; venueCompared] in
    if Qlt_le_dec 0 comparisons then agreements / comparisons else 0.5.

(** Factor 4: decay over 90 days since the last verification. *)
Definition daysSinceVerification (event : Event) : Q :=
  if truthy_string (last_verified_at event)
  then daysBetween E (default [] (last_verified_at event)) (now E)
  else 365.

Definition recency (event : Event) : Q :=
  Qmax 0 (1 - daysSinceVerification event / 90).

(** Factor 5: the accuracy on record for the first source, 0.5 when there is
    none ([?? 0.5]). *)
Definition historicalAccuracy (sources : list EventSource) : Q :=
  default 0.5 (getSourceHistoricalAccuracy E (es_sourceId <$> List.head sources)).

Definition calculateConfidenceScore (eventId : Z) : Q :=
  let event := getEvent E eventId in
  let sources := getEventSources E eventId in
  0.35 * sourceReliability sources +
  0.25 * completeness event +
  0.20 * calculateSourceAgreement event sources +
  0.10 * recency event +
  0.10 * historicalAccuracy sources.

End WithEnv.

End Confidence.

(** ** 4.9 Search projection synchronizer *)

Module SearchSync.
Import JsString.

(** *** The authoritative store *)

(** The columns of [events] the queries read. [status] is kept as the stored
    string; [updated_at] is the timestamp in milliseconds. *)
Record EventsRow : Type := {
  e_id : Z;
  e_name : list N;
  e_slug : list N;
  e_event_type : list N;
  e_description : option (list N);
  e_start_date : list N;
  e_end_date : option (list N);
  e_status : list N;
  e_confidence_score : Q;
  e_is_verified : bool;
  e_is_pinned : bool;
  e_cultural_significance : Z;
  e_official_website : option (list N);
  e_updated_at : Z;
  e_city_id : Z;
  e_region_id : Z;
  e_venue_id : option Z;
  e_organizer_id : option Z
}.

(** The [name] and [slug] columns of a reference table. *)
Record NameSlug : Type := { ns_name : list N; ns_slug : list N }.

(** Reference tables are keyed by their primary key [id]; [events] and the
    link tables are lists of rows, in the order the store returns them.
    A link row is [(event_id, genre_id)] or [(event_id, artist_id)]; a ticket
    row is [(id, event_id)]. *)
Record Database : Type := {
  events : list EventsRow;
  cities : gmap Z NameSlug;
  regions : gmap Z NameSlug;
  venues : gmap Z NameSlug;
  organizers : gmap Z (list N);
  genres : gmap Z NameSlug;
  artists : gmap Z NameSlug;
  event_genres : list (Z * Z);
  event_artists : list (Z * Z);
  event_ticket_urls : list (Z * Z)
}.

(** [interface EventRow]: a row of the joined select. The select list names
    no [geo_lat] or [geo_lng] column, so both are [undefined] on every row
    the queries produce. *)
Record EventRow : Type := {
  id : Z;
  name : list N;
  slug : list N;
  event_type : list N;
  description : option (list N);
  start_date : list N;
  end_date : option (list N);
  city_id : Z;
  city_name : list N;
  city_slug : list N;
  region_id : Z;
  region_name : list N;
  region_slug : list N;
  venue_name : option (list N);
  venue_slug : option (list N);
  geo_lat : JsOpt Q;
  geo_lng : JsOpt Q;
  organizer_name : option (list N);
  official_website : option (list N);
  status : list N;
  confidence_score : Q;
  is_verified : bool;
  is_pinned : bool;
  cultural_significance : Z;
  updated_at : Z
}.

(** The joins of one [events] row: inner joins with [cities] and [regions]
    (no row without both), left joins with [venues] and [organizers]. *)
Definition joinEvent (db : Database) (e : EventsRow) : option EventRow :=
  c ← cities db !! e_city_id e;
  r ← regions db !! e_region_id e;
  let v := e_venue_id e ≫= (fun k => venues db !! k) in
  let o := e_organizer_id e ≫= (fun k => organizers db !! k) in
  Some {|
    id := e_id e; name := e_name e; slug := e_slug e; event_type := e_event_type e;
    description := e_description e; start_date := e_start_date e;
    end_date := e_end_date e;
    city_id := e_city_id e; city_name := ns_name c; city_slug := ns_slug c;
    region_id := e_region_id e; region_name := ns_name r; region_slug := ns_slug r;
    venue_name := ns_name <$> v; venue_slug := ns_slug <$> v;
    geo_lat := JsUndefined; geo_lng := JsUndefined;
    organizer_name := o; official_website := e_official_website e;
    status := e_status e; confidence_score := e_confidence_score e;
    is_verified := e_is_verified e; is_pinned := e_is_pinned e;
    cultural_significance := e_cultural_significance e;
    updated_at := e_updated_at e
  |}.

(** [['announced', 'confirmed'].includes(status)] and the [where] clause
    [e.status in ('announced', 'confirmed')]. *)
Definition indexable (status : list N) : bool :=
  bool_decide (status = js "announced") || bool_decide (status = js "confirmed").

(** The select of [fullReindex]. *)
Definition selectIndexable (db : Database) : list EventRow :=
  omap (joinEvent db) (List.filter (fun e => indexable (e_status e)) (events db)).

(** The select of [indexEvent]: [where e.id = eventId], first row. *)
Definition selectEvent (db : Database) (eventId : Z) : option EventRow :=
  List.head (omap (joinEvent db)
               (List.filter (fun e => bool_decide (e_id e = eventId)) (events db))).

(** The link-table selects, for the events in [eventIds]: rows
    [(event_id, name and slug)]. An empty list of ids selects no row. *)
Definition selectLinked (links : list (Z * Z)) (ref : gmap Z NameSlug) (eventIds : list Z)
  : list (Z * NameSlug) :=
  omap (fun l => g ← ref !! l.2; Some (l.1, g))
       (List.filter (fun l => bool_decide (l.1 ∈ eventIds)) links).

(** [count(id) ... group by event_id]: the number of ticket rows per event. *)
Definition selectTicketCounts (tickets : list (Z * Z)) (eventIds : list Z) : gmap Z nat :=
  fold_left (fun m t => <[t.2 := S (default O (m !! t.2))]> m)
            (List.filter (fun t => bool_decide (t.2 ∈ eventIds)) tickets) ∅.

(** The [Map] built by pushing every row onto the list of its event. *)
Definition groupByEvent (rows : list (Z * NameSlug)) : gmap Z (list NameSlug) :=
  fold_left (fun m r => <[r.1 := default [] (m !! r.1) ++ [r.2]]> m) rows ∅.

(** *** The search document *)

(** A number computed from a date: [NaN] when the date is invalid. *)
Inductive JsNumber : Type := NaN | Num (n : Z).

(** The runtime's [Date]: [parseDate s] is [new Date(s).getTime()], the
    milliseconds since the epoch, [None] for an invalid date; [getFullYear]
    and [getMonth] read a timestamp in the local time zone. *)
Record DateOps : Type := {
  parseDate : list N -> option Z;
  getFullYear : Z -> Z;
  getMonth : Z -> Z
}.

Record SearchDocument : Type := {
  doc_id : list N;
  doc_name : list N;
  doc_slug : list N;
  doc_event_type : list N;
  doc_description : option (list N);
  doc_start_date : JsNumber;
  doc_end_date : option JsNumber;
  doc_year : JsNumber;
  doc_month : JsNumber;
  doc_city_id : Z;
  doc_city_name : list N;
  doc_city_slug : list N;
  doc_region_id : Z;
  doc_region_name : list N;
  doc_region_slug : list N;
  doc_venue_name : option (list N);
  doc_venue_slug : option (list N);
  doc_geo_location : option (JsOpt Q * JsOpt Q);
  doc_genres : list (list N);
  doc_genre_slugs : list (list N);
  doc_artists : list (list N);
  doc_artist_slugs : list (list N);
  doc_organizer_name : option (list N);
  doc_official_website : option (list N);
  doc_status : list N;
  doc_confidence_score : Q;
  doc_is_verified : bool;
  doc_is_pinned : bool;
  doc_cultural_significance : Z;
  doc_has_tickets : bool;
  doc_updated_at : Z
}.

(** [if (row.f) doc.f = row.f]: set when the string is neither null nor
    empty. *)
Definition if_truthy (s : option (list N)) : option (list N) :=
  match s with Some (_ :: _) => s | _ => None end.

Definition is_null {A : Type} (v : JsOpt A) : bool :=
  match v with JsNull => true | _ => false end.

(** [Math.floor(ms / 1000)] *)
Definition seconds (ms : Z) : Z := ms / 1000.

Definition toSearchDocument (D : DateOps) (row : EventRow)
    (genres artists : list NameSlug) (hasTickets : bool) : SearchDocument :=
  let startDate := parseDate D (start_date row) in
  let number_of (f : Z -> Z) := match startDate with Some ms => Num (f ms) | None => NaN end in
  {|
    doc_id := String_of_Z (id row);
    doc_name := name row;
    doc_slug := slug row;
    doc_event_type := event_type row;
    doc_start_date := number_of seconds;
    doc_year := number_of (getFullYear D);
    doc_month := number_of (fun ms => getMonth D ms + 1);
    doc_city_id := city_id row;
    doc_city_name := city_name row;
    doc_city_slug := city_slug row;
    doc_region_id := region_id row;
    doc_region_name := region_name row;
    doc_region_slug := region_slug row;
    doc_genres := List.map ns_name genres;
    doc_genre_slugs := List.map ns_slug genres;
    doc_artists := List.map ns_name artists;
    doc_artist_slugs := List.map ns_slug artists;
    doc_status := status row;
    doc_confidence_score := confidence_score row;
    doc_is_verified := is_verified row;
    doc_is_pinned := is_pinned row;
    doc_cultural_significance := cultural_significance row;
    doc_has_tickets := hasTickets;
    doc_updated_at := seconds (updated_at row);
    doc_description := if_truthy (description row);
    doc_end_date :=
      match if_truthy (end_date row) with
      | Some d => Some (match parseDate D d with Some ms => Num (seconds ms) | None => NaN end)
      | None => None
      end;
    doc_venue_name := if_truthy (venue_name row);
    doc_venue_slug := if_truthy (venue_slug row);
    doc_organizer_name := if_truthy (organizer_name row);
    doc_official_website := if_truthy (official_website row);
    doc_geo_location :=
      if negb (is_null (geo_lat row)) && negb (is_null (geo_lng row))
      then Some (geo_lat row, geo_lng row) else None
  |}.

(** *** The search engine *)

(** The requests the client sends, in the order they are sent. *)
Inductive Call : Type :=
  | CollectionDelete
  | CollectionCreate
  | DocumentsImport (batch : list SearchDocument)
  | DocumentDelete (key : list N)
  | DocumentUpsert (doc : SearchDocument).

(** The engine: the [events] collection when it exists, keyed by document
    id, and the log of the requests received. *)
Record Engine : Type := {
  collection : option (gmap (list N) SearchDocument);
  calls : list Call
}.

(** What an import request comes to at the engine: the request fails as a
    whole, or the engine answers with one success flag per document. *)
Inductive ImportOutcome : Type :=
  | ImportRejected
  | ImportResponded (success : list bool).

(** The part of the engine the synchronizer does not control: the outcome of
    an import, which may depend on the batch and on everything that
    happened before (the log). The other requests reach the engine and fail
    only for what its state explains: a collection or a document that is not
    there, a collection that is there already. *)
Record Behaviour : Type := {
  import_outcome : list Call -> list SearchDocument -> ImportOutcome
}.

(** A computation that talks to the engine and may throw. *)
Definition M (A : Type) : Type := Engine -> Completion A * Engine.

Definition ret {A : Type} (a : A) : M A := fun s => (Return a, s).

Definition bind {A B : Type} (m : M A) (k : A -> M B) : M B :=
  fun s => match m s with
           | (Return a, s') => k a s'
           | (Throw e, s') => (Throw e, s')
           end.

(** [try { m } catch { h }] *)
Definition try_catch {A : Type} (m : M A) (h : M A) : M A :=
  fun s => match m s with
           | (Return a, s') => (Return a, s')
           | (Throw _, s') => h s'
           end.

Notation "'let!' x ':=' m 'in' k" := (bind m (fun x => k))
  (at level 10, x name, m at level 100, k at level 200).
Notation "'do!' m 'in' k" := (bind m (fun _ => k))
  (at level 10, m at level 100, k at level 200).

Definition request (c : Call) : M unit :=
  fun s => (Return tt, {| collection := collection s; calls := calls s ++ [c] |}).

Definition fail {A : Type} (e : Error) : M A := fun s => (Throw e, s).

Definition set_collection (c : option (gmap (list N) SearchDocument)) : M unit :=
  fun s => (Return tt, {| collection := c; calls := calls s |}).

Definition get_collection : M (option (gmap (list N) SearchDocument)) :=
  fun s => (Return (collection s), s).

Definition get_calls : M (list Call) := fun s => (Return (calls s), s).

(** [client.collections('events').delete()] *)
Definition collection_delete : M unit :=
  do! request CollectionDelete in
  let! c := get_collection in
  match c with
  | Some _ => set_collection None
  | None => fail ObjectNotFound
  end.

(** [client.collections().create(EVENTS_SCHEMA)] *)
Definition collection_create : M unit :=
  do! request CollectionCreate in
  let! c := get_collection in
  match c with
  | Some _ => fail ObjectAlreadyExists
  | None => set_collection (Some ∅)
  end.

(** The documents of a batch the engine accepted are written over whatever
    the collection held under their ids. *)
Fixpoint upsert_accepted (batch : list SearchDocument) (success : list bool)
    (c : gmap (list N) SearchDocument) : gmap (list N) SearchDocument :=
  match batch, success with
  | d :: batch', ok :: success' =>
      upsert_accepted batch' success' (if ok then <[doc_id d := d]> c else c)
  | _, _ => c
  end.

Section WithBehaviour.
Variable B : Behaviour.
Variable D : DateOps.

(** [client.collections('events').documents().import(batch, { action: 'upsert' })].
    The engine writes the documents it accepts and answers with the flags.
    For a batch given as an array the client resolves with the answer only
    when every flag is true: when a document failed it rejects with an
    [ImportError], and the documents the engine accepted stay written. *)
Definition documents_import (batch : list SearchDocument) : M (list bool) :=
  let! before := get_calls in
  do! request (DocumentsImport batch) in
  let! c := get_collection in
  match c with
  | None => fail ObjectNotFound
  | Some docs =>
      match import_outcome B before batch with
      | ImportRejected => fail RequestFailed
      | ImportResponded success =>
          do! set_collection (Some (upsert_accepted batch success docs)) in
          if List.forallb (fun ok => ok) success then ret success else fail ImportError
      end
  end.

(** [client.collections('events').documents(key).delete()] *)
Definition document_delete (key : list N) : M unit :=
  do! request (DocumentDelete key) in
  let! c := get_collection in
  match c with
  | None => fail ObjectNotFound
  | Some docs =>
      match docs !! key with
      | None => fail ObjectNotFound
      | Some _ => set_collection (Some (delete key docs))
      end
  end.

(** [client.collections('events').documents().upsert(document)] *)
Definition document_upsert (doc : SearchDocument) : M unit :=
  do! request (DocumentUpsert doc) in
  let! c := get_collection in
  match c with
  | None => fail ObjectNotFound
  | Some docs => set_collection (Some (<[doc_id doc := doc]> docs))
  end.

(** *** Sync operations *)

Definition BATCH_SIZE : nat := 100.

(** [documents.slice(i, j)] *)
Definition slice {A : Type} (i j : nat) (l : list A) : list A :=
  take (j - i) (drop i l).

Definition len {A : Type} (l : list A) : Z := Z.of_nat (List.length l).

(** One turn of the import loop: the [try] block and its [catch]. *)
Definition importBatch (batch : list SearchDocument) (counters : Z * Z) : M (Z * Z) :=
  try_catch
    (let! result := documents_import batch in
     let failed := List.filter (fun r => negb r) result in
     ret (counters.1 + (len batch - len failed), counters.2 + len failed))
    (ret (counters.1, counters.2 + len batch)).

(** [for (let i = 0; i < documents.length; i += BATCH_SIZE)], with [fuel] an
    upper bound on the number of turns. *)
Fixpoint importLoop (fuel : nat) (documents : list SearchDocument) (i : nat)
    (counters : Z * Z) : M (Z * Z) :=
  match fuel with
  | O => ret counters
  | S fuel' =>
      if (i <? List.length documents)%nat then
        let! counters' := importBatch (slice i (i + BATCH_SIZE) documents) counters in
        importLoop fuel' documents (i + BATCH_SIZE) counters'
      else ret counters
  end.

(** The documents [fullReindex] builds from the rows it selected. *)
Definition buildDocuments (db : Database) : list SearchDocument :=
  let events := selectIndexable db in
  let eventIds := List.map id events in
  let genresByEvent := groupByEvent (selectLinked (event_genres db) (genres db) eventIds) in
  let artistsByEvent := groupByEvent (selectLinked (event_artists db) (artists db) eventIds) in
  let ticketCounts := selectTicketCounts (event_ticket_urls db) eventIds in
  List.map (fun event =>
              toSearchDocument D event
                (default [] (genresByEvent !! id event))
                (default [] (artistsByEvent !! id event))
                (bool_decide (0 < default O (ticketCounts !! id event))%nat))
           events.

(** Returns [(indexed, errors)]. The loop makes at most one turn per
    document, so the number of documents bounds its turns. *)
Definition fullReindex (db : Database) : M (Z * Z) :=
  do! try_catch collection_delete (ret tt) in
  do! collection_create in
  let documents := buildDocuments db in
  importLoop (List.length documents) documents O (0, 0).

Definition indexEvent (db : Database) (eventId : Z) : M unit :=
  match selectEvent db eventId with
  | None =>
      try_catch (document_delete (String_of_Z eventId)) (ret tt)
  | Some event =>
      if negb (indexable (status event)) then
        try_catch (document_delete (String_of_Z eventId)) (ret tt)
      else
        let genres :=
          List.map snd (selectLinked (event_genres db) (genres db) [eventId]) in
        let artists :=
          List.map snd (selectLinked (event_artists db) (artists db) [eventId]) in
        let tickets :=
          List.length (List.filter (fun t => bool_decide (t.2 = eventId)) (event_ticket_urls db)) in
        document_upsert
          (toSearchDocument D event genres artists (bool_decide (0 < tickets)%nat))
  end.

Definition removeFromIndex (eventId : Z) : M unit :=
  try_catch (document_delete (String_of_Z eventId)) (ret tt).

End WithBehaviour.

End SearchSync.

(** ** The data client ([src/sheets/client.ts]) *)

Module SheetsClient.
Import JsString.

Record SheetEvent : Type := {
  id : list N;
  name : list N;
  slug : list N;
  event_type : list N;
  start_date : list N;
  end_date : option (list N);
  city : list N;
  city_slug : list N;
  region : list N;
  region_slug : list N;
  venue : option (list N);
  genres : list (list N);
  artists : list (list N);
  organizer : option (list N);
  official_website : option (list N);
  ticket_url : option (list N);
  status : list N;
  is_verified : bool;
  is_pinned : bool;
  cultural_significance : Z;
  description : option (list N);
  image_url : option (list N);
  title_en : list N;
  title_fr : list N;
  title_es : list N;
  title_ar : list N;
  description_fr : option (list N);
  description_es : option (list N);
  description_ar : option (list N);
  price_min : Q;
  price_max : Q;
  price_isFree : bool;
  lat : Q;
  lng : Q;
  email : option (list N);
  phone : option (list N);
  wheelchairAccess : bool;
  signLanguage : bool;
  audioDescription : bool
}.

(** *** [categoryToEventType] *)

(** What reading a property of the object literal [map] can give: one of its
    own string values, or a member that every object inherits from
    [Object.prototype]. *)
Inductive JsValue : Type :=
  | VString (s : list N)
  | VFunction (fname : list N)
  | VObjectPrototype.

(** The object literal [map]: its own properties, in the order written. *)
Definition category_map : list (list N * list N) :=
  [ (js "music", js "festival");
    (js "art", js "festival");
    (js "film", js "festival");
    (js "heritage", js "ritual");
    (js "food", js "festival");
    (js "spiritual", js "ritual");
    (js "dance", js "festival");
    (js "theatre", js "showcase");
    (js "literature", js "conference");
    (js "craft", js "festival") ].

(** The methods of [Object.prototype]. *)
Definition Object_prototype_methods : list (list N) :=
  [ js "constructor"; js "hasOwnProperty"; js "isPrototypeOf";
    js "propertyIsEnumerable"; js "toLocaleString"; js "toString"; js "valueOf";
    js "__defineGetter__"; js "__defineSetter__"; js "__lookupGetter__";
    js "__lookupSetter__" ].

(** The names an object literal answers to without owning them: the methods
    above and the accessor [__proto__]. *)
Definition inherited_names : list (list N) :=
  js "__proto__" :: Object_prototype_methods.

Fixpoint own_property (own : list (list N * list N)) (key : list N) : option (list N) :=
  match own with
  | [] => None
  | (k, v) :: rest => if bool_decide (k = key) then Some v else own_property rest key
  end.

(** [map[key]]: an own property first, then the prototype; [undefined] when
    neither has the name. *)
Definition get_property (own : list (list N * list N)) (key : list N) : JsOpt JsValue :=
  match own_property own key with
  | Some v => JsVal (VString v)
  | None =>
      if bool_decide (key = js "__proto__") then JsVal VObjectPrototype
      else if bool_decide (key ∈ Object_prototype_methods) then JsVal (VFunction key)
      else JsUndefined
  end.

(** [v || "festival"]: the default replaces [undefined] and the empty
    string; functions and objects are truthy. *)
Definition or_festival (v : JsOpt JsValue) : JsValue :=
  match v with
  | JsVal (VString []) | JsUndefined | JsNull => VString (js "festival")
  | JsVal v => v
  end.

Section WithUnicode.
Variable U : Unicode.

Definition categoryToEventType (category : list N) : JsValue :=
  or_festival (get_property category_map (toLowerCase U category)).

End WithUnicode.

(** *** The in-memory cache and [fetchEvents] *)

(** The module variables [_cachedEvents] and [_cacheTimestamp]. *)
Record Cache : Type := {
  _cachedEvents : option (list SheetEvent);
  _cacheTimestamp : Z
}.

Definition initial_cache : Cache :=
  {| _cachedEvents := None; _cacheTimestamp := 0 |}.

(** 5 minutes, in milliseconds. *)
Definition CACHE_TTL : Z := 5 * 60 * 1000.

Section WithStore.
(** A row of the [festivals] table, and its decoding [rowToEvent], which
    throws on a row whose fields have unexpected types. *)
Variable Row : Type.
Variable rowToEvent : Row -> Completion SheetEvent.

(** What awaiting the query gives: the promise rejects (or the client cannot
    be built), or it resolves to [{ data, error }]. *)
Inductive StoreResponse : Type :=
  | StoreRejects
  | StoreAnswers (data : option (list Row)) (error : option Error).

(** What one call of [fetchEvents] reads from outside: the clock when the
    cache is tested, the answer of the store, the clock when the cache is
    filled. *)
Record World : Type := {
  now_at_check : Z;
  response : StoreResponse;
  now_at_store : Z
}.

(** [rows.map(rowToEvent)]: the first row that fails to decode throws. *)
Fixpoint map_rows (rows : list Row) : Completion (list SheetEvent) :=
  match rows with
  | [] => Return []
  | r :: rest =>
      match rowToEvent r with
      | Throw e => Throw e
      | Return ev =>
          match map_rows rest with
          | Throw e => Throw e
          | Return evs => Return (ev :: evs)
          end
      end
  end.

(** The [try] block up to the assignment of the cache. *)
Definition queryEvents (resp : StoreResponse) : Completion (list SheetEvent) :=
  match resp with
  | StoreRejects => Throw RequestFailed
  | StoreAnswers _ (Some error) => Throw error
  | StoreAnswers data None => map_rows (default [] data)
  end.

Definition cache_is_fresh (c : Cache) (now : Z) : bool :=
  match _cachedEvents c with
  | Some _ => bool_decide (now - _cacheTimestamp c < CACHE_TTL)
  | None => false
  end.

Definition fetchEvents (c : Cache) (w : World) : Completion (list SheetEvent) * Cache :=
  if cache_is_fresh c (now_at_check w) then
    (Return (default [] (_cachedEvents c)), c)
  else
    match queryEvents (response w) with
    | Return events =>
        (Return events, {| _cachedEvents := Some events; _cacheTimestamp := now_at_store w |})
    | Throw _ =>
        match _cachedEvents c with
        | Some cached => (Return cached, c)
        | None => (Return [], c)
        end
    end.

End WithStore.
Arguments StoreRejects {Row}.
Arguments StoreAnswers {Row} data error.
Arguments now_at_check {Row} w.
Arguments response {Row} w.
Arguments now_at_store {Row} w.
Arguments map_rows {Row} rowToEvent rows.
Arguments queryEvents {Row} rowToEvent resp.
Arguments fetchEvents {Row} rowToEvent c w.

(** *** [getUpcomingEvents] *)

(** A reading of the clock, [new Date()], in UTC. *)
Record UtcTime : Type := {
  year : Z;
  month : Z;
  day : Z;
  hours : Z;
  minutes : Z;
  seconds : Z;
  milliseconds : Z
}.

(** The decimal digits of [|n|], padded with zeros on the left to [width]. *)
Definition pad (width : nat) (n : Z) : list N :=
  let digits := String_of_Z (Z.abs n) in
  replicate (width - List.length digits) 48%N ++ digits.

(** [Date.prototype.toISOString]: [YYYY-MM-DDTHH:mm:ss.sssZ], the year
    written with a sign and six digits outside 0..9999. *)
Definition toISOString (t : UtcTime) : list N :=
  (if (0 <=? year t) && (year t <=? 9999) then pad 4 (year t)
   else (if year t <? 0 then js "-" else js "+") ++ pad 6 (year t))
  ++ js "-" ++ pad 2 (month t) ++ js "-" ++ pad 2 (day t)
  ++ js "T" ++ pad 2 (hours t) ++ js ":" ++ pad 2 (minutes t)
  ++ js ":" ++ pad 2 (seconds t) ++ js "." ++ pad 3 (milliseconds t) ++ js "Z".

(** [new Date().toISOString().split("T")[0]] *)
Definition today (now : UtcTime) : list N := before_first 84%N (toISOString now).

(** [Array.prototype.sort(cmp)]: the sort is stable, and for a consistent
    comparator the language fixes its result; it is computed here by
    insertion from the right, which keeps equal elements in their order. *)
Fixpoint sort_insert {A : Type} (cmp : A -> A -> Z) (x : A) (l : list A) : list A :=
  match l with
  | [] => [x]
  | y :: l' => if cmp x y <=? 0 then x :: l else y :: sort_insert cmp x l'
  end.

Definition Array_sort {A : Type} (cmp : A -> A -> Z) (l : list A) : list A :=
  fold_right (sort_insert cmp) [] l.

Section WithCollation.
(** [String.prototype.localeCompare]: the collation of the runtime's locale. *)
Variable localeCompare : list N -> list N -> Z.

Definition getUpcomingEvents (now : UtcTime) (events : list SheetEvent) : list SheetEvent :=
  Array_sort (fun a b => localeCompare (start_date a) (start_date b))
    (List.filter (fun e => geb (start_date e) (today now)) events).

End WithCollation.

End SheetsClient.

(** ** Query and aggregation helpers of the data client *)

Module SheetsQueries.
Import JsString Normalizer SheetsClient.

(** *** [slugify] *)

Definition is_slug_char (c : N) : bool := is_lower c || is_digit c.

(** [.replace(/[^a-z0-9]+/g, "-")]: every maximal run of characters other
    than a-z and 0-9 becomes one hyphen. *)
Fixpoint hyphenate (s : list N) : list N :=
  match s with
  | [] => []
  | c :: t =>
      if is_slug_char c then c :: hyphenate t
      else match t with
           | d :: _ => if is_slug_char d then 45%N :: hyphenate t else hyphenate t
           | [] => [45%N]
           end
  end.

Fixpoint drop_hyphens (s : list N) : list N :=
  match s with
  | c :: t => if (c =? 45)%N then drop_hyphens t else s
  | [] => []
  end.

(** [.replace(/^-+|-+$/g, "")]: the hyphens at the start and at the end go. *)
Definition strip_hyphens (s : list N) : list N :=
  rev (drop_hyphens (rev (drop_hyphens s))).

(** [a.startsWith(b)] *)
Fixpoint startsWith (s p : list N) {struct p} : bool :=
  match p, s with
  | [], _ => true
  | c :: p', d :: s' => (c =? d)%N && startsWith s' p'
  | _ :: _, [] => false
  end.

(** [s.padStart(width, "0")] *)
Definition padStart0 (width : nat) (s : list N) : list N :=
  replicate (width - List.length s) 48%N ++ s.

(** A [Map] keyed by strings: its entries, in the order the keys were first
    set. [set] on a key that is there replaces the value where it stands. *)
Definition JsMap (V : Type) : Type := list (list N * V).

Fixpoint Map_get {V : Type} (m : JsMap V) (key : list N) : option V :=
  match m with
  | [] => None
  | (k, v) :: rest => if bool_decide (k = key) then Some v else Map_get rest key
  end.

Fixpoint Map_set {V : Type} (m : JsMap V) (key : list N) (v : V) : JsMap V :=
  match m with
  | [] => [(key, v)]
  | (k, w) :: rest =>
      if bool_decide (k = key) then (k, v) :: rest else (k, w) :: Map_set rest key v
  end.

(** [Array.from(m.values())] *)
Definition Map_values {V : Type} (m : JsMap V) : list V := List.map snd m.

(** An entry of the city list: [{ name, slug, region, count }]. *)
Record CityCount : Type := {
  cc_name : list N;
  cc_slug : list N;
  cc_region : list N;
  cc_count : Z
}.

(** An entry of the genre and region lists: [{ name, slug, count }]. *)
Record Count : Type := {
  c_name : list N;
  c_slug : list N;
  c_count : Z
}.

(** [existing.count++] on the entry the map holds. *)
Definition cc_increment (existing : CityCount) : CityCount :=
  {| cc_name := cc_name existing; cc_slug := cc_slug existing;
     cc_region := cc_region existing; cc_count := cc_count existing + 1 |}.

Definition c_increment (existing : Count) : Count :=
  {| c_name := c_name existing; c_slug := c_slug existing;
     c_count := c_count existing + 1 |}.

(** *** Query helpers *)

Definition getEventsByCity (events : list SheetEvent) (citySlug : list N) : list SheetEvent :=
  List.filter (fun e => bool_decide (city_slug e = citySlug)) events.

(** [`${year}-${String(month).padStart(2, "0")}`], for the integers below
    2^53 in absolute value, which [String] writes with all their digits. *)
Definition monthStr (year month : Z) : list N :=
  String_of_Z year ++ js "-" ++ padStart0 2 (String_of_Z month).

Definition getEventsByMonth (events : list SheetEvent) (year month : Z) : list SheetEvent :=
  List.filter (fun e => startsWith (start_date e) (monthStr year month)) events.

Definition getEventBySlug (events : list SheetEvent) (slug_ : list N) : option SheetEvent :=
  List.find (fun e => bool_decide (slug e = slug_) || bool_decide (id e = slug_)) events.

(** *** Aggregation helpers *)

Definition getUniqueCities (events : list SheetEvent) : list CityCount :=
  let cityMap :=
    fold_left
      (fun (cityMap : JsMap CityCount) event =>
         match Map_get cityMap (city_slug event) with
         | Some existing => Map_set cityMap (city_slug event) (cc_increment existing)
         | None =>
             Map_set cityMap (city_slug event)
               {| cc_name := city event; cc_slug := city_slug event;
                  cc_region := region event; cc_count := 1 |}
         end)
      events [] in
  Array_sort (fun a b => cc_count b - cc_count a) (Map_values cityMap).

Definition getUniqueRegions (events : list SheetEvent) : list Count :=
  let regionMap :=
    fold_left
      (fun (regionMap : JsMap Count) event =>
         match Map_get regionMap (region_slug event) with
         | Some existing => Map_set regionMap (region_slug event) (c_increment existing)
         | None =>
             Map_set regionMap (region_slug event)
               {| c_name := region event; c_slug := region_slug event; c_count := 1 |}
         end)
      events [] in
  Array_sort (fun a b => c_count b - c_count a) (Map_values regionMap).

Section WithUnicode.
Variable U : Unicode.

Definition slugify (text : list N) : list N :=
  strip_hyphens (hyphenate (remove_diacritics (normalizeNFD U (toLowerCase U text)))).

Definition getEventsByGenre (events : list SheetEvent) (genre : list N) : list SheetEvent :=
  let genreLower := toLowerCase U genre in
  List.filter
    (fun e => List.existsb
                (fun g => bool_decide (toLowerCase U g = genreLower)
                          || bool_decide (slugify g = genreLower))
                (genres e))
    events.

Definition getUniqueGenres (events : list SheetEvent) : list Count :=
  let genreMap :=
    fold_left
      (fun (genreMap : JsMap Count) event =>
         fold_left
           (fun (genreMap : JsMap Count) genre =>
              let gSlug := slugify genre in
              match Map_get genreMap gSlug with
              | Some existing => Map_set genreMap gSlug (c_increment existing)
              | None => Map_set genreMap gSlug {| c_name := genre; c_slug := gSlug; c_count := 1 |}
              end)
           (genres event) genreMap)
      events [] in
  Array_sort (fun a b => c_count b - c_count a) (Map_values genreMap).

End WithUnicode.

Section WithStore.
Variable Row : Type.
Variable rowToEvent : Row -> Completion SheetEvent.

(** [fetchCities] awaits [fetchEvents] and runs the loop of
    [getUniqueCities] on what it returns. *)
Definition fetchCities (c : Cache) (w : World Row) : Completion (list CityCount) * Cache :=
  match fetchEvents rowToEvent c w with
  | (Return events, c') =>
      let cityMap :=
        fold_left
          (fun (cityMap : JsMap CityCount) event =>
             match Map_get cityMap (city_slug event) with
             | Some existing => Map_set cityMap (city_slug event) (cc_increment existing)
             | None =>
                 Map_set cityMap (city_slug event)
                   {| cc_name := city event; cc_slug := city_slug event;
                      cc_region := region event; cc_count := 1 |}
             end)
          events [] in
      (Return (Array_sort (fun a b => cc_count b - cc_count a) (Map_values cityMap)), c')
  | (Throw e, c') => (Throw e, c')
  end.

End WithStore.
Arguments fetchCities {Row} rowToEvent c w.

End SheetsQueries.

(** ** The site's data layer: legal pages, settings and events behind the
    build-time cache *)

Module SiteData.
Import JsString Types SheetsClient SheetsQueries.

Record LegalPage : Type := {
  label : list N;
  href : list N
}.

Record SiteSettings : Type := {
  hero_image : list N;
  hero_title : list N;
  hero_subtitle : list N;
  hero_label : list N;
  newsletter_title : list N;
  newsletter_description : list N;
  newsletter_background_image : list N;
  site_name : list N;
  site_tagline : list N
}.

(** [globalThis.__festivalsCache]; [E] is the type of the cached events. *)
Record BuildCache (E : Type) : Type := {
  siteSettings : option SiteSettings;
  events : option (list E);
  legalPages : option (list LegalPage)
}.
Arguments siteSettings {E} b.
Arguments events {E} b.
Arguments legalPages {E} b.

(** A row of [nexus_legal_pages], as the select of [page_id, page_title]
    returns it: each column a string or null. *)
Record LegalRow : Type := {
  page_id : option (list N);
  page_title : option (list N)
}.

Definition getFallbackLegalPages : list LegalPage :=
  [ {| label := js "Privacy Policy"; href := js "/privacy" |};
    {| label := js "Terms of Service"; href := js "/terms" |};
    {| label := js "Disclaimer"; href := js "/disclaimer" |};
    {| label := js "Intellectual Property"; href := js "/intellectual-property" |} ].

Definition contentLegalPageIds : list (list N) :=
  [ js "privacy"; js "terms"; js "disclaimer"; js "intellectual-property" ].

(** The loop that fills [uniquePages]: the first row of each page that has
    both an id and a title gives the title. *)
Definition uniquePages (data : list LegalRow) : JsMap (list N) :=
  fold_left
    (fun (uniquePages : JsMap (list N)) p =>
       match page_id p, page_title p with
       | Some (c :: i), Some (d :: t) =>
           match Map_get uniquePages (c :: i) with
           | Some _ => uniquePages
           | None => Map_set uniquePages (c :: i) (d :: t)
           end
       | _, _ => uniquePages
       end)
    data [].

(** The loop over [contentLegalPageIds]. *)
Definition legalLinks (pages : JsMap (list N)) : list LegalPage :=
  List.flat_map
    (fun pageId =>
       match Map_get pages pageId with
       | Some (c :: t) => [ {| label := c :: t; href := js "/" ++ pageId |} ]
       | _ => []
       end)
    contentLegalPageIds.

(** [getLegalPages]: [response] is what awaiting the query gives, a
    rejection standing also for a client that cannot be built. The function
    returns in every case. *)
Definition getLegalPages {E : Type} (cache : BuildCache E) (response : StoreResponse LegalRow)
  : list LegalPage * BuildCache E :=
  match legalPages cache with
  | Some pages => (pages, cache)
  | None =>
      let pages :=
        match response with
        | StoreAnswers (Some data) None =>
            let result := legalLinks (uniquePages data) in
            if (0 <? List.length result)%nat then result else getFallbackLegalPages
        | _ => getFallbackLegalPages
        end in
      (pages,
       {| siteSettings := siteSettings cache; events := events cache;
          legalPages := Some pages |})
  end.

(** *** Site settings *)

Definition DEFAULT_SETTINGS : SiteSettings := {|
  hero_image := [];
  hero_title := js "Culture lives here";
  hero_subtitle :=
    js "From ancient festivals to contemporary celebrations "
    ++ [8212%N] ++ js " discover Morocco's vibrant cultural traditions";
  hero_label := js "Festivals in Morocco";
  newsletter_title := js "Stay connected";
  newsletter_description :=
    js "Festivals, events, and cultural moments "
    ++ [8212%N] ++ js " delivered when they matter.";
  newsletter_background_image := [];
  site_name := js "Festivals in Morocco";
  site_tagline := js "Discover festivals and cultural events in Morocco"
|}.

(** A row of [site_settings]: [key, value], each a string or null. *)
Record SettingRow : Type := {
  key : option (list N);
  value : option (list N)
}.

(** [settings[row.key] = row.value] on the object literal [settings]: a
    property of its own is set, except under the name [__proto__], where
    assigning a string or null creates none. A null key is the name
    [null]. *)
Definition assign_setting (settings : JsMap (option (list N))) (row : SettingRow)
  : JsMap (option (list N)) :=
  let name := default (js "null") (key row) in
  if bool_decide (name = js "__proto__") then settings
  else Map_set settings name (value row).

(** [settings.name || fallback], for a name that [Object.prototype] does not
    have. *)
Definition setting_or (settings : JsMap (option (list N))) (name fallback : list N) : list N :=
  match Map_get settings name with
  | Some (Some (c :: t)) => c :: t
  | _ => fallback
  end.

Definition getSiteSettings {E : Type} (cache : BuildCache E)
    (response : StoreResponse SettingRow) : SiteSettings * BuildCache E :=
  match siteSettings cache with
  | Some settings => (settings, cache)
  | None =>
      let result :=
        match response with
        | StoreAnswers (Some (row :: rows)) None =>
            let settings := fold_left assign_setting (row :: rows) [] in
            {| hero_image := setting_or settings (js "hero_image") (hero_image DEFAULT_SETTINGS);
               hero_title := setting_or settings (js "hero_title") (hero_title DEFAULT_SETTINGS);
               hero_subtitle :=
                 setting_or settings (js "hero_subtitle") (hero_subtitle DEFAULT_SETTINGS);
               hero_label := setting_or settings (js "hero_label") (hero_label DEFAULT_SETTINGS);
               newsletter_title :=
                 setting_or settings (js "newsletter_title") (newsletter_title DEFAULT_SETTINGS);
               newsletter_description :=
                 setting_or settings (js "newsletter_description")
                   (newsletter_description DEFAULT_SETTINGS);
               newsletter_background_image :=
                 setting_or settings (js "newsletter_background_image")
                   (newsletter_background_image DEFAULT_SETTINGS);
               site_name := setting_or settings (js "site_name") (site_name DEFAULT_SETTINGS);
               site_tagline :=
                 setting_or settings (js "site_tagline") (site_tagline DEFAULT_SETTINGS) |}
        | _ => DEFAULT_SETTINGS
        end in
      (result,
       {| siteSettings := Some result; events := events cache;
          legalPages := legalPages cache |})
  end.

(** *** Events *)

Section WithRows.
(** A row of [festivals], the event of the site's [SheetEvent] interface,
    and the object literal the [map] callback builds from a row; building it
    throws when [row.tags] is neither falsy nor a string. *)
Variable Row : Type.
Variable E : Type.
Variable toSheetEvent : Row -> Completion E.

Fixpoint map_rows (rows : list Row) : Completion (list E) :=
  match rows with
  | [] => Return []
  | r :: rest =>
      match toSheetEvent r with
      | Throw e => Throw e
      | Return ev =>
          match map_rows rest with
          | Throw e => Throw e
          | Return evs => Return (ev :: evs)
          end
      end
  end.

Definition getSheetEvents (cache : BuildCache E) (response : StoreResponse Row)
  : list E * BuildCache E :=
  match events cache with
  | Some cached => (cached, cache)
  | None =>
      let result :=
        match response with
        | StoreAnswers (Some (row :: rows)) None =>
            match map_rows (row :: rows) with
            | Return events => events
            | Throw _ => []
            end
        | _ => []
        end in
      (result,
       {| siteSettings := siteSettings cache; events := Some result;
          legalPages := legalPages cache |})
  end.

End WithRows.
Arguments map_rows {Row E} toSheetEvent rows.
Arguments getSheetEvents {Row E} toSheetEvent cache response.

End SiteData.

(** ** Schema management of the search projection *)

Module SearchSchema.
Import JsString SearchSync.

(** [client.collections('events').retrieve()]: a read, which fails when the
    engine has no such collection. It changes nothing, and the log, which
    keeps the requests that write, does not record it. *)
Definition collection_retrieve : M unit :=
  let! c := get_collection in
  match c with
  | Some _ => ret tt
  | None => fail ObjectNotFound
  end.

Definition ensureSchema : M unit :=
  try_catch collection_retrieve collection_create.

End SearchSchema.

(** ** Fingerprints and pipeline orchestration (ingestion pipeline, sections 3 and 7) *)

Module Ingestion.
Import JsString Normalizer Types Dedup.

(** [s.split(sep)] for a one-character separator: the pieces between its
    occurrences; the empty string gives one empty piece. *)
Fixpoint split (sep : N) (s : list N) : list (list N) :=
  match s with
  | [] => [[]]
  | c :: t =>
      if (c =? sep)%N then [] :: split sep t
      else match split sep t with
           | w :: ws => (c :: w) :: ws
           | [] => [[c]]
           end
  end.

(** [pieces.join(sep)] *)
Fixpoint join (sep : N) (pieces : list (list N)) : list N :=
  match pieces with
  | [] => []
  | [w] => w
  | w :: rest => w ++ sep :: join sep rest
  end.

(** [`${cityId}`] for a value typed [number | null]. *)
Definition template_number (n : option Z) : list N :=
  match n with
  | Some k => String_of_Z k
  | None => js "null"
  end.

Section WithHash.
(** [sha256] and [getWeekStart] are called and defined nowhere in the
    sources. [getWeekStart] stands for the text the template literal writes
    for its result. *)
Variable sha256 : list N -> list N.
Variable getWeekStart : list N -> list N.

Definition generateFingerprints (candidate : NormalizedCandidate) : list Fingerprint :=
  let firstWords := join 32 (take 3 (split 32 (normalizedName candidate))) in
  let weekStart := getWeekStart (startDate candidate) in
  [ {| fp_type := fp_exact;
       fp_value := sha256 (normalizedName candidate ++ js "|" ++ startDate candidate
                           ++ js "|" ++ template_number (cityId candidate)) |};
    {| fp_type := fp_fuzzy_name;
       fp_value := sha256 (firstWords ++ js "|" ++ startDate candidate
                           ++ js "|" ++ template_number (cityId candidate)) |};
    {| fp_type := fp_date_location;
       fp_value := sha256 (startDate candidate ++ js "|" ++ template_number (cityId candidate)) |};
    {| fp_type := fp_week_location;
       fp_value := sha256 (weekStart ++ js "|" ++ template_number (cityId candidate)) |} ].

End WithHash.

(** *** The pipeline run *)

(** [interface Source], as far as the run reads it. [lastFetchAt] is a
    timestamp in milliseconds. *)
Record ActiveSource : Type := {
  src_id : Z;
  src_name : list N;
  src_lastFetchAt : option Z
}.

Record SourceReport : Type := {
  sr_sourceId : Z;
  sr_sourceName : list N;
  fetched : Z;
  created : Z;
  merged : Z;
  reviewNeeded : Z
}.

Record IngestionError : Type := {
  ie_sourceId : Z;
  ie_error : list N
}.

Record IngestionReport : Type := {
  startedAt : Z;
  completedAt : option Z;
  sources : list SourceReport;
  totalFetched : Z;
  totalCreated : Z;
  totalMerged : Z;
  totalReviewNeeded : Z;
  errors : list IngestionError
}.

Section WithStores.
(** The state of everything outside the run: the stores, the upstream
    sources, the clock. *)
Variable W : Type.
(** The payload of a fetched record and the candidate an adapter makes of it. *)
Variable RawEvent : Type.
Variable EventCandidate : Type.

(** A computation that reads and writes the outside and may throw. *)
Definition P (A : Type) : Type := W -> Completion A * W.

Definition ret {A : Type} (a : A) : P A := fun w => (Return a, w).

Definition bind {A B : Type} (m : P A) (k : A -> P B) : P B :=
  fun w => match m w with
           | (Return a, w') => k a w'
           | (Throw e, w') => (Throw e, w')
           end.

(** [try { m } catch (error) { h(error) }] *)
Definition try_catch {A : Type} (m : P A) (h : Error -> P A) : P A :=
  fun w => match m w with
           | (Return a, w') => (Return a, w')
           | (Throw e, w') => h e w'
           end.

(** A synchronous call that may throw. *)
Definition lift {A : Type} (c : Completion A) : P A := fun w => (c, w).

Notation "'let!' x ':=' m 'in' k" := (bind m (fun x => k))
  (at level 10, x name, m at level 100, k at level 200).
Notation "'do!' m 'in' k" := (bind m (fun _ => k))
  (at level 10, m at level 100, k at level 200).

(** [interface SourceAdapter] *)
Record SourceAdapter : Type := {
  fetch : Z -> P (list RawEvent);               (* [fetch({ since })] *)
  normalize : RawEvent -> Completion EventCandidate
}.

(** What the run calls and the sources leave undefined, or define in terms
    of undefined helpers ([normalizeCandidate], [mergeIntoEvent]): each may
    change the outside and may throw. [deduplicateCandidate] is the resolver
    of section 4, run on the reads [dedupEnv] gives in the current state. *)
Record Services : Type := {
  now : W -> Z;                                  (* [new Date()] *)
  getActiveSources : P (list ActiveSource);
  getAdapter : ActiveSource -> P SourceAdapter;
  normalizeCandidate : EventCandidate -> P NormalizedCandidate;
  storeCandidate : NormalizedCandidate -> P Z;
  dedupEnv : W -> Dedup.Env;
  createEventFromCandidate : Z -> NormalizedCandidate -> P unit;
  mergeIntoEvent : option Z -> NormalizedCandidate -> Q -> P unit;
  flagForReview : Z -> DeduplicationResult -> P unit;
  markCandidateProcessed : Z -> DeduplicationResult -> P unit;
  updateSource : Z -> Z -> P unit;               (* [updateSource(id, { lastFetchAt })] *)
  message : Error -> list N                      (* [error.message] *)
}.

Variable U : Unicode.
Variable S : Services.

Definition deduplicateCandidate (normalized : NormalizedCandidate) : P DeduplicationResult :=
  fun w => (Return (Dedup.deduplicateCandidate U (dedupEnv S w) normalized), w).

(** [for (const raw of rawEvents) { ... }] *)
Fixpoint processRawEvents (adapter : SourceAdapter) (rawEvents : list RawEvent)
    (sourceReport : SourceReport) : P SourceReport :=
  match rawEvents with
  | [] => ret sourceReport
  | raw :: rest =>
      let! candidate := lift (normalize adapter raw) in
      let! normalized := normalizeCandidate S candidate in
      let! candidateId := storeCandidate S normalized in
      let! result := deduplicateCandidate normalized in
      let! sourceReport' :=
        match action result with
        | create =>
            do! createEventFromCandidate S candidateId normalized in
            ret {| sr_sourceId := sr_sourceId sourceReport;
                   sr_sourceName := sr_sourceName sourceReport;
                   fetched := fetched sourceReport;
                   created := created sourceReport + 1;
                   merged := merged sourceReport;
                   reviewNeeded := reviewNeeded sourceReport |}
        | merge =>
            do! mergeIntoEvent S (existing_event_id result) normalized (confidence result) in
            ret {| sr_sourceId := sr_sourceId sourceReport;
                   sr_sourceName := sr_sourceName sourceReport;
                   fetched := fetched sourceReport;
                   created := created sourceReport;
                   merged := merged sourceReport + 1;
                   reviewNeeded := reviewNeeded sourceReport |}
        | review =>
            do! flagForReview S candidateId result in
            ret {| sr_sourceId := sr_sourceId sourceReport;
                   sr_sourceName := sr_sourceName sourceReport;
                   fetched := fetched sourceReport;
                   created := created sourceReport;
                   merged := merged sourceReport;
                   reviewNeeded := reviewNeeded sourceReport + 1 |}
        end in
      do! markCandidateProcessed S candidateId result in
      processRawEvents adapter rest sourceReport'
  end.

(** The [try] block of one source. *)
Definition processSource (source : ActiveSource) (report : IngestionReport)
  : P IngestionReport :=
  let! adapter := getAdapter S source in
  let lastFetch := default 0 (src_lastFetchAt source) in
  let! rawEvents := fetch adapter lastFetch in
  let! sourceReport :=
    processRawEvents adapter rawEvents
      {| sr_sourceId := src_id source; sr_sourceName := src_name source;
         fetched := Z.of_nat (List.length rawEvents);
         created := 0; merged := 0; reviewNeeded := 0 |} in
  do! (fun w => updateSource S (src_id source) (now S w) w) in
  ret {| startedAt := startedAt report;
         completedAt := completedAt report;
         sources := sources report ++ [sourceReport];
         totalFetched := totalFetched report + fetched sourceReport;
         totalCreated := totalCreated report + created sourceReport;
         totalMerged := totalMerged report + merged sourceReport;
         totalReviewNeeded := totalReviewNeeded report + reviewNeeded sourceReport;
         errors := errors report |}.

(** [for (const source of activeSources) { try { ... } catch (error) { ... } }] *)
Fixpoint processSources (activeSources : list ActiveSource) (report : IngestionReport)
  : P IngestionReport :=
  match activeSources with
  | [] => ret report
  | source :: rest =>
      let! report' :=
        try_catch (processSource source report)
          (fun error =>
             ret {| startedAt := startedAt report;
                    completedAt := completedAt report;
                    sources := sources report;
                    totalFetched := totalFetched report;
                    totalCreated := totalCreated report;
                    totalMerged := totalMerged report;
                    totalReviewNeeded := totalReviewNeeded report;
                    errors := errors report
                              ++ [{| ie_sourceId := src_id source;
                                     ie_error := message S error |}] |}) in
      processSources rest report'
  end.

Definition runIngestionPipeline : P IngestionReport :=
  fun w =>
    let report :=
      {| startedAt := now S w; completedAt := None; sources := [];
         totalFetched := 0; totalCreated := 0; totalMerged := 0; totalReviewNeeded := 0;
         errors := [] |} in
    (let! activeSources := getActiveSources S in
     let! report' := processSources activeSources report in
     fun w' =>
       (Return {| startedAt := startedAt report';
                  completedAt := Some (now S w');
                  sources := sources report';
                  totalFetched := totalFetched report';
                  totalCreated := totalCreated report';
                  totalMerged := totalMerged report';
                  totalReviewNeeded := totalReviewNeeded report';
                  errors := errors report' |}, w')) w.

End WithStores.

End Ingestion.

(** ** The HTTP handlers ([api/*.ts]) *)

Module Api.
Import JsString SheetsClient SheetsQueries.

(** A value of [req.query]: a parameter that is missing, given once, or
    given several times. *)
Inductive QueryValue : Type :=
  | QueryUndefined
  | QueryString (s : list N)
  | QueryArray (values : list (list N)).

(** [v && typeof v === "string"]: the parameter is a non-empty string. *)
Definition string_param (v : QueryValue) : option (list N) :=
  match v with
  | QueryString (c :: s) => Some (c :: s)
  | _ => None
  end.

(** [v === s] for a string literal [s]. *)
Definition is_string (v : QueryValue) (s : list N) : bool :=
  match v with
  | QueryString s' => bool_decide (s' = s)
  | _ => false
  end.

(** [res.status(code).json(body)] *)
Record Response (Body : Type) : Type := {
  res_status : Z;
  res_json : Body
}.
Arguments res_status {Body} r.
Arguments res_json {Body} r.

(** An array of events in the hands of a handler: the very array the module
    variable [_cachedEvents] refers to, or an array made by the handler
    ([filter], [getUpcomingEvents]) or for it (the literal [[]]). *)
Inductive EventsArray : Type :=
  | CachedArray
  | OwnArray (elements : list SheetEvent).

Definition elements_of (c : Cache) (a : EventsArray) : list SheetEvent :=
  match a with
  | CachedArray => default [] (_cachedEvents c)
  | OwnArray elements => elements
  end.

(** [a.sort(cmp)] sorts the array where it stands: when it is the cached
    array, the cache holds the sorted elements afterwards. *)
Definition sort_in_place (cmp : SheetEvent -> SheetEvent -> Z) (c : Cache) (a : EventsArray)
  : EventsArray * Cache :=
  match a with
  | CachedArray =>
      (CachedArray,
       {| _cachedEvents := option_map (Array_sort cmp) (_cachedEvents c);
          _cacheTimestamp := _cacheTimestamp c |})
  | OwnArray elements => (OwnArray (Array_sort cmp elements), c)
  end.

Section WithRuntime.
Variable Row : Type.
Variable rowToEvent : Row -> Completion SheetEvent.
Variable U : Unicode.
Variable localeCompare : list N -> list N -> Z.

(** What [fetchEvents] hands to its caller. Its three returns that find or
    fill the cache ([return _cachedEvents], twice, and [_cachedEvents =
    events; return events]) return the array the variable refers to; the last
    one, [return []], a new array, and the variable is [null] then. *)
Definition fetchEvents_array (c : Cache) (w : World Row) : Completion EventsArray * Cache :=
  match fetchEvents rowToEvent c w with
  | (Return events, c') =>
      (Return (match _cachedEvents c' with
               | Some _ => CachedArray
               | None => OwnArray events
               end), c')
  | (Throw e, c') => (Throw e, c')
  end.

(** The comparator of the event and search listings: pinned first, then by
    date. *)
Definition pinned_then_date (a b : SheetEvent) : Z :=
  if is_pinned a && negb (is_pinned b) then -1
  else if negb (is_pinned a) && is_pinned b then 1
  else localeCompare (start_date a) (start_date b).

(** The comparator of the festival listing: pinned first, then the higher
    cultural significance, then by date. *)
Definition pinned_significance_date (a b : SheetEvent) : Z :=
  if is_pinned a && negb (is_pinned b) then -1
  else if negb (is_pinned a) && is_pinned b then 1
  else if negb (bool_decide (cultural_significance b = cultural_significance a))
       then cultural_significance b - cultural_significance a
  else localeCompare (start_date a) (start_date b).

(** [e.genres.some(eg => eg.toLowerCase() === g)] *)
Definition has_genre (g : list N) (e : SheetEvent) : bool :=
  List.existsb (fun eg => bool_decide (toLowerCase U eg = g)) (genres e).

(** *** [api/events.ts] *)

Record EventsQuery : Type := {
  eq_city : QueryValue;
  eq_genre : QueryValue;
  eq_type : QueryValue;
  eq_status : QueryValue;
  eq_upcoming : QueryValue;
  eq_slug : QueryValue
}.

Inductive EventsBody : Type :=
  | EventsError (error : list N)                         (* { error } *)
  | EventsOne (data : SheetEvent)                        (* { data } *)
  | EventsList (data : list SheetEvent) (total : Z).     (* { data, meta: { total } } *)

Definition events_handler (method : list N) (query : EventsQuery) (now : UtcTime)
    (c : Cache) (w : World Row) : Response EventsBody * Cache :=
  if negb (bool_decide (method = js "GET")) then
    ({| res_status := 405; res_json := EventsError (js "Method not allowed") |}, c)
  else
    match fetchEvents_array c w with
    | (Throw _, c') =>
        ({| res_status := 500; res_json := EventsError (js "Failed to fetch events") |}, c')
    | (Return events, c') =>
        match string_param (eq_slug query) with
        | Some slug_ =>
            match List.find (fun e => bool_decide (slug e = slug_) || bool_decide (id e = slug_))
                    (elements_of c' events) with
            | None => ({| res_status := 404; res_json := EventsError (js "Event not found") |}, c')
            | Some event => ({| res_status := 200; res_json := EventsOne event |}, c')
            end
        | None =>
            let events :=
              match string_param (eq_city query) with
              | Some city_ =>
                  OwnArray (List.filter (fun e => bool_decide (city_slug e = city_))
                              (elements_of c' events))
              | None => events
              end in
            let events :=
              match string_param (eq_genre query) with
              | Some genre =>
                  let g := toLowerCase U genre in
                  OwnArray (List.filter (has_genre g) (elements_of c' events))
              | None => events
              end in
            let events :=
              match string_param (eq_status query) with
              | Some status_ =>
                  OwnArray (List.filter (fun e => bool_decide (status e = status_))
                              (elements_of c' events))
              | None => events
              end in
            let events :=
              match string_param (eq_type query) with
              | Some type_ =>
                  OwnArray (List.filter (fun e => bool_decide (event_type e = type_))
                              (elements_of c' events))
              | None => events
              end in
            let events :=
              if is_string (eq_upcoming query) (js "true") || is_string (eq_upcoming query) (js "1")
              then OwnArray (getUpcomingEvents localeCompare now (elements_of c' events))
              else events in
            let '(events, c'') := sort_in_place pinned_then_date c' events in
            ({| res_status := 200;
                res_json := EventsList (elements_of c'' events)
                              (Z.of_nat (List.length (elements_of c'' events))) |}, c'')
        end
    end.

(** *** [api/festivals.ts] *)

Inductive FestivalsBody : Type :=
  | FestivalsError (error : list N)
  | FestivalsList (data : list SheetEvent) (total : Z).

Definition festivals_handler (method : list N) (all : QueryValue) (now : UtcTime)
    (c : Cache) (w : World Row) : Response FestivalsBody * Cache :=
  if negb (bool_decide (method = js "GET")) then
    ({| res_status := 405; res_json := FestivalsError (js "Method not allowed") |}, c)
  else
    match fetchEvents_array c w with
    | (Throw _, c') =>
        ({| res_status := 500; res_json := FestivalsError (js "Failed to fetch festivals") |},
         c')
    | (Return events, c') =>
        let festivals :=
          OwnArray (List.filter (fun e => bool_decide (event_type e = js "festival"))
                      (elements_of c' events)) in
        let festivals :=
          if negb (is_string all (js "true"))
          then OwnArray (getUpcomingEvents localeCompare now (elements_of c' festivals))
          else festivals in
        let '(festivals, c'') := sort_in_place pinned_significance_date c' festivals in
        ({| res_status := 200;
            res_json := FestivalsList (elements_of c'' festivals)
                          (Z.of_nat (List.length (elements_of c'' festivals))) |}, c'')
    end.

(** *** [api/cities.ts] *)

(** The head of a city page: [{ name, slug, region, region_slug }]. *)
Record CityHead : Type := {
  ch_name : list N;
  ch_slug : list N;
  ch_region : list N;
  ch_region_slug : list N
}.

(** An entry of the city list. *)
Record CityEntry : Type := {
  ce_name : list N;
  ce_slug : list N;
  ce_region : list N;
  ce_region_slug : list N;
  event_count : Z;
  upcoming_count : Z
}.

(** [existing.event_count++] and [existing.upcoming_count++], on the entry
    the map holds. *)
Definition count_event (existing : CityEntry) : CityEntry :=
  {| ce_name := ce_name existing; ce_slug := ce_slug existing;
     ce_region := ce_region existing; ce_region_slug := ce_region_slug existing;
     event_count := event_count existing + 1; upcoming_count := upcoming_count existing |}.

Definition count_upcoming (existing : CityEntry) : CityEntry :=
  {| ce_name := ce_name existing; ce_slug := ce_slug existing;
     ce_region := ce_region existing; ce_region_slug := ce_region_slug existing;
     event_count := event_count existing; upcoming_count := upcoming_count existing + 1 |}.

Inductive CitiesBody : Type :=
  | CitiesError (error : list N)
  | CityPage (city_ : CityHead) (events : list SheetEvent)
      (total_events upcoming_events : Z)
  | CityList (data : list CityEntry) (total : Z).

Definition cities_handler (method : list N) (slug_ : QueryValue) (now : UtcTime)
    (c : Cache) (w : World Row) : Response CitiesBody * Cache :=
  if negb (bool_decide (method = js "GET")) then
    ({| res_status := 405; res_json := CitiesError (js "Method not allowed") |}, c)
  else
    match string_param slug_ with
    | Some slug_ =>
        match fetchEvents rowToEvent c w with
        | (Throw _, c') =>
            ({| res_status := 500; res_json := CitiesError (js "Failed to fetch cities") |}, c')
        | (Return events, c') =>
            let cityEvents := List.filter (fun e => bool_decide (city_slug e = slug_)) events in
            match cityEvents with
            | [] => ({| res_status := 404; res_json := CitiesError (js "City not found") |}, c')
            | first :: _ =>
                let upcoming := getUpcomingEvents localeCompare now cityEvents in
                ({| res_status := 200;
                    res_json :=
                      CityPage
                        {| ch_name := city first; ch_slug := city_slug first;
                           ch_region := region first; ch_region_slug := region_slug first |}
                        upcoming
                        (Z.of_nat (List.length cityEvents))
                        (Z.of_nat (List.length upcoming)) |}, c')
            end
        end
    | None =>
        match fetchEvents rowToEvent c w with
        | (Throw _, c') =>
            ({| res_status := 500; res_json := CitiesError (js "Failed to fetch cities") |}, c')
        | (Return events, c') =>
            let upcoming := getUpcomingEvents localeCompare now events in
            let cityMap :=
              fold_left
                (fun (cityMap : JsMap CityEntry) event =>
                   let existing :=
                     default
                       {| ce_name := city event; ce_slug := city_slug event;
                          ce_region := region event; ce_region_slug := region_slug event;
                          event_count := 0; upcoming_count := 0 |}
                       (Map_get cityMap (city_slug event)) in
                   Map_set cityMap (city_slug event) (count_event existing))
                events [] in
            let cityMap :=
              fold_left
                (fun (cityMap : JsMap CityEntry) event =>
                   match Map_get cityMap (city_slug event) with
                   | Some existing =>
                       Map_set cityMap (city_slug event) (count_upcoming existing)
                   | None => cityMap
                   end)
                upcoming cityMap in
            let cities :=
              Array_sort (fun a b => upcoming_count b - upcoming_count a) (Map_values cityMap) in
            ({| res_status := 200;
                res_json := CityList cities (Z.of_nat (List.length cities)) |}, c')
        end
    end.

End WithRuntime.
Arguments fetchEvents_array {Row} rowToEvent c w.
Arguments events_handler {Row} rowToEvent U localeCompare method query now c w.
Arguments festivals_handler {Row} rowToEvent localeCompare method all now c w.
Arguments cities_handler {Row} rowToEvent localeCompare method slug_ now c w.

End Api.

(** ** The search handler ([api/search.ts]) *)

Module SearchApi.
Import JsString Normalizer SheetsClient SheetsQueries Api.

(** [s.includes(word)] *)
Fixpoint includes (s word : list N) : bool :=
  startsWith s word
  || match s with
     | [] => false
     | _ :: t => includes t word
     end.

(** [s.split(/\s+/)]: the pieces between the runs of white space. A run at
    either end leaves an empty piece there. *)
Fixpoint split_spaces_from (in_run : bool) (piece : list N) (s : list N) : list (list N) :=
  match s with
  | [] => [rev piece]
  | c :: t =>
      if is_space c then
        if in_run then split_spaces_from true piece t
        else rev piece :: split_spaces_from true [] t
      else split_spaces_from false (c :: piece) t
  end.

Definition split_spaces (s : list N) : list (list N) := split_spaces_from false [] s.

(** [[...new Set(values)]]: the distinct values, in the order they come
    first. *)
Definition Set_values (values : list (list N)) : list (list N) :=
  fold_left (fun seen v => if bool_decide (v ∈ seen) then seen else seen ++ [v]) values [].

(** [.filter(Boolean)] on strings and nulls: null and the empty string go. *)
Definition filter_Boolean (values : list (option (list N))) : list (list N) :=
  omap (fun v => match v with
                 | Some (c :: s) => Some (c :: s)
                 | _ => None
                 end) values.

Record SearchQuery : Type := {
  sq_q : QueryValue;
  sq_city : QueryValue;
  sq_genre : QueryValue;
  sq_type : QueryValue;
  sq_from : QueryValue;
  sq_to : QueryValue;
  sq_upcoming : QueryValue
}.

Record Facets : Type := {
  f_cities : list (list N);
  f_genres : list (list N);
  f_types : list (list N)
}.

Inductive SearchBody : Type :=
  | SearchError (error : list N)
  | SearchResults (data : list SheetEvent) (total : Z) (query : option (list N))
      (facets : Facets).

Section WithRuntime.
Variable Row : Type.
Variable rowToEvent : Row -> Completion SheetEvent.
Variable U : Unicode.
Variable localeCompare : list N -> list N -> Z.

(** The text of an event the words are looked up in. *)
Definition searchable (event : SheetEvent) : list N :=
  toLowerCase U
    (Ingestion.join 32
       (filter_Boolean
          ([Some (name event); Some (city event); Some (region event); venue event;
            organizer event]
           ++ List.map Some (genres event) ++ List.map Some (artists event)
           ++ [description event]))).

(** [searchEvents] returns the array it was given when the query is blank,
    and a new one otherwise. *)
Definition searchEvents (c : Cache) (events : EventsArray) (query : list N) : EventsArray :=
  let q := trim (toLowerCase U query) in
  match q with
  | [] => events
  | _ :: _ =>
      OwnArray
        (List.filter
           (fun event =>
              let words := split_spaces q in
              List.forallb (fun word => includes (searchable event) word) words)
           (elements_of c events))
  end.

Definition scoreEvent (event : SheetEvent) (query : list N) : Z :=
  let q := toLowerCase U query in
  let score := 0 in
  let score := if includes (toLowerCase U (name event)) q then score + 10 else score in
  let score :=
    if List.existsb (fun a => includes (toLowerCase U a) q) (artists event)
    then score + 5 else score in
  let score := if includes (toLowerCase U (city event)) q then score + 3 else score in
  let score :=
    if match venue event with
       | Some v => includes (toLowerCase U v) q
       | None => false
       end
    then score + 3 else score in
  let score :=
    if List.existsb (fun g => includes (toLowerCase U g) q) (genres event)
    then score + 2 else score in
  let score := if is_pinned event then score + 5 else score in
  let score := if is_verified event then score + 2 else score in
  score + cultural_significance event.

(** [(q as string) || ""] is the array itself when the parameter is
    repeated; [searchEvents] then calls [toLowerCase] on it, which an array
    does not have, and the handler answers from its [catch]. *)
Definition handler (method : list N) (query : SearchQuery) (now : UtcTime)
    (c : Cache) (w : World Row) : Response SearchBody * Cache :=
  if negb (bool_decide (method = js "GET")) then
    ({| res_status := 405; res_json := SearchError (js "Method not allowed") |}, c)
  else
    match fetchEvents_array rowToEvent c w with
    | (Throw _, c') =>
        ({| res_status := 500; res_json := SearchError (js "Search failed") |}, c')
    | (Return events, c') =>
        match sq_q query with
        | QueryArray _ =>
            ({| res_status := 500; res_json := SearchError (js "Search failed") |}, c')
        | q =>
            let query_ := match q with
                          | QueryString s => s
                          | _ => []
                          end in
            let events :=
              match query_ with
              | _ :: _ => searchEvents c' events query_
              | [] => events
              end in
            let events :=
              match string_param (sq_city query) with
              | Some city_ =>
                  OwnArray (List.filter (fun e => bool_decide (city_slug e = city_))
                              (elements_of c' events))
              | None => events
              end in
            let events :=
              match string_param (sq_genre query) with
              | Some genre =>
                  let g := toLowerCase U genre in
                  OwnArray (List.filter (has_genre U g) (elements_of c' events))
              | None => events
              end in
            let events :=
              match string_param (sq_type query) with
              | Some type_ =>
                  OwnArray (List.filter (fun e => bool_decide (event_type e = type_))
                              (elements_of c' events))
              | None => events
              end in
            let events :=
              match string_param (sq_from query) with
              | Some from =>
                  OwnArray (List.filter (fun e => geb (start_date e) from)
                              (elements_of c' events))
              | None => events
              end in
            let events :=
              match string_param (sq_to query) with
              | Some to =>
                  OwnArray (List.filter (fun e => geb to (start_date e))
                              (elements_of c' events))
              | None => events
              end in
            let events :=
              if is_string (sq_upcoming query) (js "true")
              then OwnArray (getUpcomingEvents localeCompare now (elements_of c' events))
              else events in
            let '(events, c'') :=
              match query_ with
              | _ :: _ =>
                  (OwnArray
                     (List.map fst
                        (Array_sort (fun a b => snd b - snd a)
                           (List.map (fun e => (e, scoreEvent e query_))
                              (elements_of c' events)))), c')
              | [] => sort_in_place (pinned_then_date localeCompare) c' events
              end in
            let data := elements_of c'' events in
            let facets :=
              {| f_cities := take 20 (Set_values (List.map city data));
                 f_genres := take 20 (Set_values (List.concat (List.map genres data)));
                 f_types := Set_values (List.map event_type data) |} in
            ({| res_status := 200;
                res_json :=
                  SearchResults data (Z.of_nat (List.length data))
                    (match query_ with
                     | _ :: _ => Some query_
                     | [] => None
                     end)
                    facets |}, c'')
        end
    end.

End WithRuntime.
Arguments handler {Row} rowToEvent U localeCompare method query now c w.

End SearchApi.

(** * Vocabulary of the statements and sample records *)

(** ** Scanning a list for its first match *)

Module Scan.

(** [c] is the first element of [l] that satisfies [P]. *)
Definition first_such {A : Type} (P : A -> Prop) (l : list A) (c : A) : Prop :=
  exists l1 l2, l = l1 ++ c :: l2 /\ P c /\ Forall (fun x => ~ P x) l1.

End Scan.

(** ** The text normalizer and the city matcher *)

Module NormalizerSpec.
Import JsString Normalizer Scan.

(** [c] is an exact match for the normalized input [n]: its name, or its
    French name, normalizes to [n]. *)
Definition is_exact (U : Unicode) (n : list N) (c : City) : Prop :=
  normalizeName U (city_name c) = n
  \/ exists fr, city_name_fr c = Some fr /\ normalizeName U fr = n.

(** [c] is within the ceiling: its normalized name is at distance 2 or less. *)
Definition within_ceiling (U : Unicode) (levenshtein : list N -> list N -> nat)
    (n : list N) (c : City) : Prop :=
  (levenshtein (normalizeName U (city_name c)) n <= 2)%nat.

(** The characters a normalized name is made of: the space, a-z and 0-9. *)
Definition canonical_char (c : N) : Prop :=
  c = 32%N \/ is_lower c || is_digit c = true.

(** No two spaces in a row. *)
Fixpoint no_double_space (l : list N) : Prop :=
  match l with
  | a :: (b :: _) as t => ~ (a = 32%N /\ b = 32%N) /\ no_double_space t
  | _ => True
  end.

(** The form of a normalized name: canonical characters, no two spaces in
    a row, no space at either end. *)
Definition canonical (l : list N) : Prop :=
  Forall canonical_char l /\ no_double_space l
  /\ List.hd 0%N l <> 32%N /\ List.last l 0%N <> 32%N.

(** [trim_end l] is [l] without its trailing white space. *)
Definition trim_end (l : list N) : list N := rev (trim_start (rev l)).

Definition sale : City :=
  {| city_id := 1; city_region_id := 4; city_name := js "Sale";
     city_name_ar := None; city_name_fr := Some (js "Sale"); city_slug := js "sale" |}.

Definition safi : City :=
  {| city_id := 2; city_region_id := 7; city_name := js "Safi";
     city_name_ar := None; city_name_fr := Some (js "Safi"); city_slug := js "safi" |}.

End NormalizerSpec.

(** ** The deduplication resolver *)

Module DedupSpec.
Import JsString Normalizer Types Dedup Scan.
Local Open Scope Q_scope.

(** A venue id is known when it is neither null nor 0: [!id] holds for both. *)
Definition known (v : option Z) : Prop := truthy_number v = true.

(** The similarity reaches the merge threshold. *)
Definition merges (U : Unicode) (E : Env) (c : NormalizedCandidate) (m : FingerprintMatch) : Prop :=
  0.85 <= calculateSimilarity U E c (getEvent E (eventId m)).

(** The name similarity reaches the review threshold. *)
Definition needs_review (U : Unicode) (E : Env) (c : NormalizedCandidate)
    (m : FingerprintMatch) : Prop :=
  0.70 <= jaroWinkler E (normalizedName c) (normalizeName U (name (getEvent E (eventId m)))).

(** The records of scenarios S2 and S3: an event held by the store, and a
    candidate from a second source with a shorter name. *)
Definition gnaoua : Event :=
  {| id := 10; name := js "Festival Gnaoua et Musiques du Monde 2025";
     slug := js "festival-gnaoua-2025"; event_type := festival;
     start_date := js "2025-06-26"; end_date := Some (js "2025-06-29");
     start_time := None; doors_time := None;
     city_id := 7; region_id := 3; venue_id := Some 21%Z; organizer_id := None;
     description := None; official_website := Some (js "https://festival-gnaoua.net");
     status := confirmed; confidence_score := 0.8; is_verified := true;
     is_pinned := true; cultural_significance := 10;
     last_verified_at := Some (js "2025-05-01"); created_at := js "2025-01-10";
     updated_at := js "2025-05-01" |}.

Definition candidate_on (date : string) : NormalizedCandidate :=
  {| rawName := js "Festival Gnaoua 2025 - 27e edition";
     normalizedName := normalizeName AsciiUnicode (js "Festival Gnaoua 2025 - 27e edition");
     startDate := js date; endDate := None;
     cityId := Some 7%Z; venueId := None; fingerprints := [];
     sourceId := 2; externalId := None; sourceUrl := js "https://example.org/gnaoua" |}.

(** A store that holds [gnaoua] alone, found under the fuzzy-name and the
    date-location fingerprints and not under the exact one. *)
Definition store : Env :=
  {| jaroWinkler := jaroWinkler_reference;
     daysBetween := daysBetween_reference;
     findMatchByFingerprint := fun _ _ => None;
     findMatchesByFingerprint := fun _ t =>
       match t with
       | fp_fuzzy_name | fp_date_location => [ {| eventId := 10 |} ]
       | _ => []
       end;
     getEvent := fun _ => gnaoua |}.

End DedupSpec.

(** ** The confidence scorer *)

Module ConfidenceSpec.
Import JsString Normalizer Types Confidence.
Local Open Scope Q_scope.

Definition reliability (s : EventSource) : Q := reliability_score (es_source s).

(** The sources of scenario S2: a first-party API and the official site,
    which report the same start date and venue. *)
Definition api_source : EventSource :=
  {| es_sourceId := 1;
     es_source := {| source_id := 1; source_name := js "Eventbrite";
                     reliability_score := 0.8; is_active := true |};
     es_rawData := {| raw_start_date := Some (js "2025-06-26"); raw_date := None;
                      raw_venue_name := Some (js "Place Moulay Hassan");
                      raw_location := None |} |}.

Definition official_source : EventSource :=
  {| es_sourceId := 2;
     es_source := {| source_id := 2; source_name := js "Festival Official Site";
                     reliability_score := 1.0; is_active := true |};
     es_rawData := {| raw_start_date := None; raw_date := Some (js "2025-06-26");
                      raw_venue_name := None;
                      raw_location := Some (js "PLACE Moulay Hassan") |} |}.

Definition gnaoua : Event :=
  {| id := 10; name := js "Festival Gnaoua et Musiques du Monde 2025";
     slug := js "festival-gnaoua-2025"; event_type := festival;
     start_date := js "2025-06-26"; end_date := Some (js "2025-06-29");
     start_time := None; doors_time := None;
     city_id := 7; region_id := 3; venue_id := Some 21%Z; organizer_id := None;
     description := None; official_website := Some (js "https://festival-gnaoua.net");
     status := confirmed; confidence_score := 0.8; is_verified := true;
     is_pinned := true; cultural_significance := 10;
     last_verified_at := Some (js "2025-05-01"); created_at := js "2025-01-10";
     updated_at := js "2025-05-01" |}.

(** A store that holds [gnaoua] with its two sources, read on 2025-05-19,
    eighteen days after the last verification; no accuracy is on record. *)
Definition store : Env :=
  {| getEvent := fun _ => gnaoua;
     getEventSources := fun _ => [api_source; official_source];
     getSourceHistoricalAccuracy := fun _ => None;
     daysBetween := fun _ _ => 18;
     normalizeDate := fun d => d;
     now := 1747612800000 |}.

(** The same store with other sources, another count of days since the last
    verification and another accuracy on record. *)
Definition store_with (sources : list EventSource) (days : Q) (accuracy : option Q) : Env :=
  {| getEvent := fun _ => gnaoua;
     getEventSources := fun _ => sources;
     getSourceHistoricalAccuracy := fun _ => accuracy;
     daysBetween := fun _ _ => days;
     normalizeDate := fun d => d;
     now := 1747612800000 |}.

(** The store read ninety days before the date of the last verification. *)
Definition future_store : Env := store_with [api_source; official_source] (-90) None.

(** A source whose reliability is [r]. *)
Definition rated_source (r : Q) : EventSource :=
  {| es_sourceId := 3;
     es_source := {| source_id := 3; source_name := js "Listing";
                     reliability_score := r; is_active := true |};
     es_rawData := {| raw_start_date := None; raw_date := None;
                      raw_venue_name := None; raw_location := None |} |}.

End ConfidenceSpec.

(** ** The search projection synchronizer *)

Module SearchSyncSpec.
Import JsString SearchSync.

(** Referential integrity of one [events] row: its city and its region are
    rows of the reference tables (the foreign keys of the schema). *)
Definition references_resolve (db : Database) (e : EventsRow) : Prop :=
  is_Some (cities db !! e_city_id e) /\ is_Some (regions db !! e_region_id e).

(** The inner joins of the select find the city and the region of the row. *)
Definition resolves (db : Database) (e : EventsRow) : bool :=
  bool_decide (is_Some (cities db !! e_city_id e))
  && bool_decide (is_Some (regions db !! e_region_id e)).

(** What one import adds to [(indexed, errors)]: a batch the engine accepts
    in full counts as indexed; a rejected request, and an answer in which a
    document failed, count the whole batch as errors. *)
Definition batch_counts (o : ImportOutcome) (batch : list SearchDocument) : Z * Z :=
  match o with
  | ImportRejected => (0, len batch)
  | ImportResponded success =>
      if List.forallb (fun ok => ok) success then (len batch, 0) else (0, len batch)
  end.

Definition batch_collection (o : ImportOutcome) (batch : list SearchDocument)
    (docs : gmap (list N) SearchDocument) : gmap (list N) SearchDocument :=
  match o with
  | ImportRejected => docs
  | ImportResponded success => upsert_accepted batch success docs
  end.

(** The counters and the collection after importing [batches] one after the
    other, each with the outcome the engine gives it at that point of the
    log. The documents the engine accepted are in the collection whether or
    not their batch is counted as indexed. *)
Fixpoint replay (B : Behaviour) (log : list Call) (batches : list (list SearchDocument))
    (counters : Z * Z) (docs : gmap (list N) SearchDocument)
  : (Z * Z) * gmap (list N) SearchDocument :=
  match batches with
  | [] => (counters, docs)
  | b :: rest =>
      let o := import_outcome B log b in
      replay B (log ++ [DocumentsImport b]) rest
        (counters.1 + (batch_counts o b).1, counters.2 + (batch_counts o b).2)
        (batch_collection o b docs)
  end.

(** The engine after the delete request for [key]: the document is gone if
    it was there, and nothing else changed. *)
Definition after_delete (key : list N) (s : Engine) : Engine :=
  {| collection := delete key <$> collection s;
     calls := calls s ++ [DocumentDelete key] |}.

(** The collection after every document of [l] is written over [docs]. *)
Definition upsert_all (l : list SearchDocument) (docs : gmap (list N) SearchDocument)
  : gmap (list N) SearchDocument :=
  fold_left (fun m d => <[doc_id d := d]> m) l docs.

(** An engine that accepts every document of every import. *)
Definition accepts_everything (B : Behaviour) : Prop :=
  forall log batch, import_outcome B log batch = ImportResponded (List.map (fun _ => true) batch).

(** A store with three events, of which two are indexable, and an engine
    that rejects the second document of every batch. *)
Definition essaouira : NameSlug := {| ns_name := js "Essaouira"; ns_slug := js "essaouira" |}.
Definition marrakech_safi : NameSlug :=
  {| ns_name := js "Marrakech-Safi"; ns_slug := js "marrakech-safi" |}.

Definition event_row (i : Z) (n st : string) : EventsRow :=
  {| e_id := i; e_name := js n; e_slug := js n; e_event_type := js "festival";
     e_description := None; e_start_date := js "2025-06-26"; e_end_date := None;
     e_status := js st; e_confidence_score := 0.8; e_is_verified := true;
     e_is_pinned := false; e_cultural_significance := 5; e_official_website := None;
     e_updated_at := 1750000000000; e_city_id := 7; e_region_id := 3;
     e_venue_id := None; e_organizer_id := None |}.

Definition sample_db : Database :=
  {| events := [event_row 10 "gnaoua" "confirmed"; event_row 11 "timitar" "cancelled";
                event_row 12 "mawazine" "announced"];
     cities := {[ 7 := essaouira ]};
     regions := {[ 3 := marrakech_safi ]};
     venues := ∅; organizers := ∅; genres := ∅; artists := ∅;
     event_genres := []; event_artists := []; event_ticket_urls := [(1, 10)] |}.

Definition second_fails : Behaviour :=
  {| import_outcome := fun _ batch =>
       ImportResponded (List.map (fun k => negb (k =? 1)%nat) (seq O (length batch))) |}.

Definition sample_dates : DateOps :=
  {| parseDate := fun s => Some (Dedup.day_number s * 86400000);
     getFullYear := fun _ => 2025;
     getMonth := fun _ => 5 |}.

Definition empty_engine : Engine := {| collection := None; calls := [] |}.

(** An engine that accepts every document, the engine it leaves after a
    full reindex of the sample store, and the store after event 10 is
    cancelled. *)
Definition all_accepted : Behaviour :=
  {| import_outcome := fun _ batch => ImportResponded (List.map (fun _ => true) batch) |}.

Definition indexed_engine : Engine :=
  snd (fullReindex all_accepted sample_dates sample_db empty_engine).

Definition cancelled_db : Database :=
  {| events := [event_row 10 "gnaoua" "cancelled"; event_row 11 "timitar" "cancelled";
                event_row 12 "mawazine" "announced"];
     cities := cities sample_db; regions := regions sample_db;
     venues := ∅; organizers := ∅; genres := ∅; artists := ∅;
     event_genres := []; event_artists := []; event_ticket_urls := [(1, 10)] |}.

(** The sample store with a fourth event, confirmed, whose [city_id] names
    no row of [cities]. *)
Definition stray_row : EventsRow :=
  {| e_id := 13; e_name := js "tanjazz"; e_slug := js "tanjazz"; e_event_type := js "festival";
     e_description := None; e_start_date := js "2025-09-18"; e_end_date := None;
     e_status := js "confirmed"; e_confidence_score := 0.8; e_is_verified := true;
     e_is_pinned := false; e_cultural_significance := 5; e_official_website := None;
     e_updated_at := 1750000000000; e_city_id := 8; e_region_id := 3;
     e_venue_id := None; e_organizer_id := None |}.

Definition stray_db : Database :=
  {| events := events sample_db ++ [stray_row];
     cities := cities sample_db; regions := regions sample_db;
     venues := ∅; organizers := ∅; genres := ∅; artists := ∅;
     event_genres := []; event_artists := []; event_ticket_urls := [(1, 10)] |}.

End SearchSyncSpec.

(** ** The data client *)

Module SheetsClientSpec.
Import JsString SheetsClient.

(** A collation: the order of code units. *)
Definition codeUnitCompare (a b : list N) : Z :=
  match compare a b with Lt => -1 | Eq => 0 | Gt => 1 end.

(** The order the comparator of [getUpcomingEvents] puts on events. *)
Definition starts_no_later (localeCompare : list N -> list N -> Z) (a b : SheetEvent) : Prop :=
  localeCompare (start_date a) (start_date b) <= 0.

Definition event_on (i date : string) : SheetEvent :=
  {| id := js i; name := js i; slug := js i; event_type := js "festival";
     start_date := js date; end_date := None; city := js "Essaouira";
     city_slug := js "essaouira"; region := js "Marrakech-Safi";
     region_slug := js "marrakech-safi"; venue := None; genres := []; artists := [];
     organizer := None; official_website := None; ticket_url := None;
     status := js "published"; is_verified := true; is_pinned := false;
     cultural_significance := 5; description := None; image_url := None;
     title_en := js i; title_fr := []; title_es := []; title_ar := [];
     description_fr := None; description_es := None; description_ar := None;
     price_min := 0; price_max := 0; price_isFree := false; lat := 0; lng := 0;
     email := None; phone := None; wheelchairAccess := false; signLanguage := false;
     audioDescription := false |}.

(** The clock on 3 November 2026, 05:04:09.007 UTC. *)
Definition clock : UtcTime :=
  {| year := 2026; month := 11; day := 3; hours := 5; minutes := 4; seconds := 9;
     milliseconds := 7 |}.

(** The date part of the clock's ISO string. *)
Definition date_part (now : UtcTime) : list N :=
  (if (0 <=? year now) && (year now <=? 9999) then pad 4 (year now)
   else (if year now <? 0 then js "-" else js "+") ++ pad 6 (year now))
  ++ js "-" ++ pad 2 (month now) ++ js "-" ++ pad 2 (day now).

(** A row is its own decoding; the row [None] does not decode. *)
Definition decode (r : option SheetEvent) : Completion SheetEvent :=
  match r with Some e => Return e | None => Throw TypeError end.

Definition gnaoua : SheetEvent := event_on "gnaoua-2027" "2027-06-24".
Definition timitar : SheetEvent := event_on "timitar-2026" "2026-07-10".
Definition tbd : SheetEvent := event_on "tanjazz" "TBD".

End SheetsClientSpec.

(** ** Slugs *)

Module SheetsQueriesSpec.
Import JsString Normalizer SheetsClient SheetsQueries.

(** The characters a slug is made of: a-z, 0-9 and the hyphen. *)
Definition slug_char (c : N) : Prop := c = 45%N \/ is_slug_char c = true.

(** No two hyphens in a row. *)
Fixpoint no_double_hyphen (l : list N) : Prop :=
  match l with
  | a :: (b :: _) as t => ~ (a = 45%N /\ b = 45%N) /\ no_double_hyphen t
  | _ => True
  end.

(** The form of a slug: slug characters, no two hyphens in a row, no hyphen
    at either end. *)
Definition well_formed_slug (l : list N) : Prop :=
  Forall slug_char l /\ no_double_hyphen l
  /\ List.hd 0%N l <> 45%N /\ List.last l 0%N <> 45%N.

(** [strip_end l] is [l] without its trailing hyphens. *)
Definition strip_end (l : list N) : list N := rev (drop_hyphens (rev l)).

End SheetsQueriesSpec.

(** ** Counting loops *)

Module TallySpec.
Import JsString SheetsClient SheetsQueries.

(** One turn of a counting loop over a [Map]: the entry under the item's key
    is bumped when there is one, and created otherwise. *)
Definition tally_step {A V : Type} (key : A -> list N) (init : A -> V) (bump : V -> V)
    (m : JsMap V) (x : A) : JsMap V :=
  match Map_get m (key x) with
  | Some existing => Map_set m (key x) (bump existing)
  | None => Map_set m (key x) (init x)
  end.

(** The items filed under [k]. *)
Definition filed {A : Type} (key : A -> list N) (k : list N) (items : list A) : list A :=
  List.filter (fun x => bool_decide (key x = k)) items.

Definition total (counts : list Z) : Z := fold_right Z.add 0 counts.

(** Every genre entry of every event, in order. *)
Definition genre_entries (events : list SheetEvent) : list (list N) :=
  List.concat (List.map genres events).

End TallySpec.

(** ** Queries on the events *)

Module QuerySpec.
Import JsString SheetsClient SheetsQueries.

(** A date written with a four-digit year and a hyphen after it. *)
Definition four_digit_year (s : list N) : Prop :=
  exists a b c d rest,
    s = a :: b :: c :: d :: 45%N :: rest
    /\ is_digit a = true /\ is_digit b = true /\ is_digit c = true /\ is_digit d = true.

(** A number that is an integer below 2^53 in absolute value: [String]
    writes such a number with all its digits. *)
Definition safe_integer (n : Z) : Prop := - 2 ^ 53 < n < 2 ^ 53.

(** The years and months the calendar is meant for. *)
Definition calendar_month (year month : Z) : Prop :=
  1000 <= year <= 9999 /\ 1 <= month <= 12.

(** An event of the given id, start date, city, region and genres; its slugs
    are those [slugify] gives on ASCII names. *)
Definition listing (i date c r : string) (gs : list string) : SheetEvent :=
  {| id := js i; name := js i; slug := js i; event_type := js "festival";
     start_date := js date; end_date := None; city := js c;
     city_slug := slugify AsciiUnicode (js c); region := js r;
     region_slug := slugify AsciiUnicode (js r); venue := None;
     genres := List.map js gs; artists := [];
     organizer := None; official_website := None; ticket_url := None;
     status := js "published"; is_verified := true; is_pinned := false;
     cultural_significance := 5; description := None; image_url := None;
     title_en := js i; title_fr := []; title_es := []; title_ar := [];
     description_fr := None; description_es := None; description_ar := None;
     price_min := 0; price_max := 0; price_isFree := false; lat := 0; lng := 0;
     email := None; phone := None; wheelchairAccess := false; signLanguage := false;
     audioDescription := false |}.

Definition gnaoua_2026 : SheetEvent :=
  listing "gnaoua-2026" "2026-06-25" "Essaouira" "Marrakech-Safi" ["Gnawa"; "World Music"]%string.
Definition timitar_2026 : SheetEvent :=
  listing "timitar-2026" "2026-07-09" "Agadir" "Souss-Massa" ["World music"; "Amazigh"]%string.
Definition jazz_2026 : SheetEvent :=
  listing "jazz-sous-l-arganier" "2026-12-26" "Essaouira" "Marrakech-Safi" ["Jazz"]%string.
(** A start date typed day first. *)
Definition day_first : SheetEvent :=
  listing "tanjazz" "26-06-2026" "Tangier" "Tanger-Tetouan-Al Hoceima" ["Jazz"]%string.

End QuerySpec.

(** ** The site's data layer *)

Module SiteDataSpec.
Import JsString Types SheetsClient SheetsQueries SiteData.

(** [r] is a row of the page [id] that has a title. *)
Definition titled (id : list N) (r : LegalRow) : bool :=
  bool_decide (page_id r = Some id) && truthy_string (page_title r).

(** The row that sets the name [name]: its key is the name, a null key
    standing for [null]. *)
Definition sets (name : list N) (r : SettingRow) : bool :=
  bool_decide (default (js "null") (key r) = name).

(** The value the rows leave under [name]: that of the last row that sets
    it, when it is a non-empty string; the fallback otherwise. *)
Definition last_value (rows : list SettingRow) (name fallback : list N) : list N :=
  match List.find (sets name) (rev rows) with
  | Some r => if truthy_string (value r) then default [] (value r) else fallback
  | None => fallback
  end.

(** A store response from which no row is read: the query was rejected,
    answered with an error, or answered without rows. *)
Definition no_rows {Row : Type} (response : StoreResponse Row) : Prop :=
  match response with
  | StoreAnswers (Some (_ :: _)) None => False
  | _ => True
  end.

Definition sample_legal_rows : list LegalRow :=
  [ {| page_id := Some (js "terms"); page_title := Some [] |};
    {| page_id := Some (js "terms"); page_title := Some (js "Terms") |};
    {| page_id := Some (js "privacy"); page_title := Some (js "Privacy") |};
    {| page_id := Some (js "terms"); page_title := Some (js "Terms, section 2") |};
    {| page_id := Some (js "cookies"); page_title := Some (js "Cookies") |} ].

End SiteDataSpec.

(** ** Fingerprints and the pipeline report *)

Module IngestionSpec.
Import JsString Normalizer Types Dedup Ingestion.

(** The strings the fingerprints hash. *)
Definition exact_key (c : NormalizedCandidate) : list N :=
  normalizedName c ++ js "|" ++ startDate c ++ js "|" ++ template_number (cityId c).

Definition firstWords (c : NormalizedCandidate) : list N :=
  join 32 (take 3 (split 32 (normalizedName c))).

Definition fuzzy_key (c : NormalizedCandidate) : list N :=
  firstWords c ++ js "|" ++ startDate c ++ js "|" ++ template_number (cityId c).

Definition date_location_key (c : NormalizedCandidate) : list N :=
  startDate c ++ js "|" ++ template_number (cityId c).

(** The number of spaces of a string. *)
Definition spaces (s : list N) : nat :=
  List.length (List.filter (fun c => (c =? 32)%N) s).

(** [s] has no vertical bar, the separator of the keys. *)
Definition bar_free (s : list N) : Prop := ~ In 124%N s.

(** A source report is balanced when every fetched record was counted once,
    as created, merged or flagged for review. *)
Definition balanced (r : SourceReport) : Prop :=
  0 <= created r /\ 0 <= merged r /\ 0 <= reviewNeeded r
  /\ fetched r = created r + merged r + reviewNeeded r.

Definition sum (f : SourceReport -> Z) (l : list SourceReport) : Z :=
  fold_right Z.add 0 (List.map f l).

End IngestionSpec.

(** ** Agreement of the sources *)

Module AgreementSpec.
Import JsString Normalizer Types Confidence.

(** The start dates the sources report: [start_date], or else [date], of
    each payload that has one, normalized. *)
Definition reported_dates (E : Env) (sources : list EventSource) : list (list N) :=
  List.map (fun d => normalizeDate E (default [] d))
    (List.filter (fun d => truthy_string d)
       (List.map (fun s => or_string (raw_start_date (es_rawData s)) (raw_date (es_rawData s)))
          sources)).

(** The venues the sources report: [venue.name], or else [location], of each
    payload that has one, normalized. *)
Definition reported_venues (U : Unicode) (sources : list EventSource) : list (list N) :=
  List.map (fun v => normalizeName U (default [] v))
    (List.filter (fun v => truthy_string v)
       (List.map (fun s => or_string (raw_venue_name (es_rawData s)) (raw_location (es_rawData s)))
          sources)).

(** All the elements of [l] are the same. *)
Definition unanimous {A : Type} (l : list A) : Prop :=
  forall x y, In x l -> In y l -> x = y.

End AgreementSpec.

(** ** The HTTP handlers *)

Module ApiSpec.
Import JsString SheetsClient SheetsClientSpec SheetsQueries Api.

(** A collation is consistent when it is a total preorder. *)
Definition consistent (localeCompare : list N -> list N -> Z) : Prop :=
  (forall a b, localeCompare a b <= 0 \/ localeCompare b a <= 0)
  /\ (forall a b c, localeCompare a b <= 0 -> localeCompare b c <= 0 -> localeCompare a c <= 0).

(** No parameter of the query selects: the listing is of every event. *)
Definition unfiltered (query : EventsQuery) : bool :=
  match string_param (eq_slug query), string_param (eq_city query),
        string_param (eq_genre query), string_param (eq_status query),
        string_param (eq_type query) with
  | None, None, None, None, None =>
      negb (is_string (eq_upcoming query) (js "true") || is_string (eq_upcoming query) (js "1"))
  | _, _, _, _, _ => false
  end.

(** The test a parameter puts on an event when it is given. *)
Definition when_given (v : QueryValue) (test : list N -> SheetEvent -> bool) (e : SheetEvent)
  : bool :=
  match string_param v with
  | Some s => test s e
  | None => true
  end.

(** The events a query of the event listing selects. *)
Definition selected (U : Unicode) (now : UtcTime) (query : EventsQuery) (e : SheetEvent) : bool :=
  when_given (eq_city query) (fun s e => bool_decide (city_slug e = s)) e
  && when_given (eq_genre query) (fun s e => has_genre U (toLowerCase U s) e) e
  && when_given (eq_status query) (fun s e => bool_decide (status e = s)) e
  && when_given (eq_type query) (fun s e => bool_decide (event_type e = s)) e
  && (if is_string (eq_upcoming query) (js "true") || is_string (eq_upcoming query) (js "1")
      then geb (start_date e) (today now) else true).

(** [a] may stand before [b] in the event listing. *)
Definition pinned_first_then_date (localeCompare : list N -> list N -> Z) (a b : SheetEvent)
  : Prop :=
  (is_pinned b = true -> is_pinned a = true)
  /\ (is_pinned a = is_pinned b -> localeCompare (start_date a) (start_date b) <= 0).

(** [a] may stand before [b] in the festival listing. *)
Definition pinned_first_then_significance (localeCompare : list N -> list N -> Z)
    (a b : SheetEvent) : Prop :=
  (is_pinned b = true -> is_pinned a = true)
  /\ (is_pinned a = is_pinned b -> cultural_significance b <= cultural_significance a)
  /\ (is_pinned a = is_pinned b -> cultural_significance a = cultural_significance b ->
      localeCompare (start_date a) (start_date b) <= 0).

Definition no_query : EventsQuery :=
  {| eq_city := QueryUndefined; eq_genre := QueryUndefined; eq_type := QueryUndefined;
     eq_status := QueryUndefined; eq_upcoming := QueryUndefined; eq_slug := QueryUndefined |}.

Definition pinned (e : SheetEvent) : SheetEvent :=
  {| id := id e; name := name e; slug := slug e; event_type := event_type e;
     start_date := start_date e; end_date := end_date e; city := city e;
     city_slug := city_slug e; region := region e; region_slug := region_slug e;
     venue := venue e; genres := genres e; artists := artists e; organizer := organizer e;
     official_website := official_website e; ticket_url := ticket_url e; status := status e;
     is_verified := is_verified e; is_pinned := true;
     cultural_significance := cultural_significance e; description := description e;
     image_url := image_url e; title_en := title_en e; title_fr := title_fr e;
     title_es := title_es e; title_ar := title_ar e; description_fr := description_fr e;
     description_es := description_es e; description_ar := description_ar e;
     price_min := price_min e; price_max := price_max e; price_isFree := price_isFree e;
     lat := lat e; lng := lng e; email := email e; phone := phone e;
     wheelchairAccess := wheelchairAccess e; signLanguage := signLanguage e;
     audioDescription := audioDescription e |}.

(** The store answers with two events in order of date, the later one
    pinned. *)
Definition two_events : World (option SheetEvent) :=
  {| now_at_check := 1000;
     response := StoreAnswers (Some [Some timitar; Some (pinned gnaoua)]) None;
     now_at_store := 1200 |}.

Definition a_minute_later : World (option SheetEvent) :=
  {| now_at_check := 61200; response := StoreRejects; now_at_store := 61300 |}.

(** One turn of the second loop of the city list: the entry under the
    item's key is bumped when there is one. *)
Definition bump_step {A V : Type} (key : A -> list N) (bump : V -> V)
    (m : JsMap V) (x : A) : JsMap V :=
  match Map_get m (key x) with
  | Some existing => Map_set m (key x) (bump existing)
  | None => m
  end.

(** The entry a city has after its first event. *)
Definition first_entry (event : SheetEvent) : CityEntry :=
  count_event
    {| ce_name := city event; ce_slug := city_slug event; ce_region := region event;
       ce_region_slug := region_slug event; event_count := 0; upcoming_count := 0 |}.

End ApiSpec.

(** ** The search handler *)

Module SearchApiSpec.
Import JsString Normalizer SheetsClient SheetsClientSpec SheetsQueries Api ApiSpec SearchApi.

(** The text the handler searches for: the parameter [q] when it is a
    string. *)
Definition text_of (q : QueryValue) : list N :=
  match q with
  | QueryString s => s
  | _ => []
  end.

(** The words of a query: the pieces of its lower-cased, trimmed text. *)
Definition words_of (U : Unicode) (text : list N) : list (list N) :=
  match text with
  | [] => []
  | _ :: _ =>
      match trim (toLowerCase U text) with
      | [] => []
      | q => split_spaces q
      end
  end.

(** [word] occurs in [s]: [s] is some text, then [word], then some text. *)
Definition occurs_in (word s : list N) : Prop :=
  exists before after, s = before ++ word ++ after.

(** The events a search selects. *)
Definition search_selected (U : Unicode) (now : UtcTime) (query : SearchQuery)
    (e : SheetEvent) : bool :=
  List.forallb (fun word => includes (searchable U e) word) (words_of U (text_of (sq_q query)))
  && when_given (sq_city query) (fun s e => bool_decide (city_slug e = s)) e
  && when_given (sq_genre query) (fun s e => has_genre U (toLowerCase U s) e) e
  && when_given (sq_type query) (fun s e => bool_decide (event_type e = s)) e
  && when_given (sq_from query) (fun s e => geb (start_date e) s) e
  && when_given (sq_to query) (fun s e => geb s (start_date e)) e
  && (if is_string (sq_upcoming query) (js "true") then geb (start_date e) (today now)
      else true).

Definition search_for (text : string) : SearchQuery :=
  {| sq_q := QueryString (js text); sq_city := QueryUndefined; sq_genre := QueryUndefined;
     sq_type := QueryUndefined; sq_from := QueryUndefined; sq_to := QueryUndefined;
     sq_upcoming := QueryUndefined |}.

(** The array the handler holds after its filters. *)
Definition narrowed (U : Unicode) (localeCompare : list N -> list N -> Z)
    (query : SearchQuery) (now : UtcTime) (c : Cache) (events : EventsArray)
  : EventsArray :=
  let events :=
    match text_of (sq_q query) with
    | _ :: _ => searchEvents U c events (text_of (sq_q query))
    | [] => events
    end in
  let events :=
    match string_param (sq_city query) with
    | Some city_ =>
        OwnArray (List.filter (fun e => bool_decide (city_slug e = city_))
                    (elements_of c events))
    | None => events
    end in
  let events :=
    match string_param (sq_genre query) with
    | Some genre =>
        OwnArray (List.filter (has_genre U (toLowerCase U genre)) (elements_of c events))
    | None => events
    end in
  let events :=
    match string_param (sq_type query) with
    | Some type_ =>
        OwnArray (List.filter (fun e => bool_decide (event_type e = type_))
                    (elements_of c events))
    | None => events
    end in
  let events :=
    match string_param (sq_from query) with
    | Some from =>
        OwnArray (List.filter (fun e => geb (start_date e) from) (elements_of c events))
    | None => events
    end in
  let events :=
    match string_param (sq_to query) with
    | Some to =>
        OwnArray (List.filter (fun e => geb to (start_date e)) (elements_of c events))
    | None => events
    end in
  if is_string (sq_upcoming query) (js "true")
  then OwnArray (getUpcomingEvents localeCompare now (elements_of c events))
  else events.

(** The facets of a list of results. *)
Definition facets_of (data : list SheetEvent) : Facets :=
  {| f_cities := take 20 (Set_values (List.map city data));
     f_genres := take 20 (Set_values (List.concat (List.map genres data)));
     f_types := Set_values (List.map event_type data) |}.

(** No parameter of the search selects. *)
Definition blank (query : SearchQuery) : bool :=
  match text_of (sq_q query), string_param (sq_city query), string_param (sq_genre query),
        string_param (sq_type query), string_param (sq_from query),
        string_param (sq_to query) with
  | [], None, None, None, None, None => negb (is_string (sq_upcoming query) (js "true"))
  | _, _, _, _, _, _ => false
  end.

End SearchApiSpec.

(** * Properties *)

(** ** Scanning a list for its first match *)

Module ScanProps.
Import Scan.

Lemma find_first_such {A : Type} (p : A -> bool) (l : list A) :
  (exists c, List.find p l = Some c /\ first_such (fun x => p x = true) l c)
  \/ (List.find p l = None /\ Forall (fun x => p x <> true) l).
Proof.
  induction l as [| x l IH]; simpl.
  - right. split; [reflexivity | constructor].
  - destruct (p x) eqn:Hx.
    + left. exists x. split; [reflexivity|].
      exists [], l. split; [reflexivity|]. split; [exact Hx | constructor].
    + destruct IH as [(c & Hfind & l1 & l2 & Hsplit & Hc & Hl1) | (Hfind & Hall)].
      * left. exists c. split; [exact Hfind|].
        exists (x :: l1), l2. rewrite Hsplit. split; [reflexivity|].
        split; [exact Hc | constructor; [congruence | assumption]].
      * right. split; [exact Hfind | constructor; [congruence | assumption]].
Qed.

Lemma first_such_cons_skip {A : Type} (P : A -> Prop) (x c : A) (l : list A) :
  ~ P x -> first_such P l c -> first_such P (x :: l) c.
Proof.
  intros Hx (l1 & l2 & Hsplit & Hc & Hl1).
  exists (x :: l1), l2. rewrite Hsplit. split; [reflexivity|].
  split; [exact Hc | constructor; assumption].
Qed.

Lemma first_such_here {A : Type} (P : A -> Prop) (c : A) (l : list A) :
  P c -> first_such P (c :: l) c.
Proof.
  intros Hc. exists [], l. split; [reflexivity|]. split; [exact Hc | constructor].
Qed.

End ScanProps.

(** ** The text normalizer and the city matcher *)

Module NormalizerProps.
Import JsString Normalizer Scan ScanProps NormalizerSpec.

Lemma exact_city_decides U n c fr :
  city_name_fr c = Some fr ->
  exists b, exact_city U n c = Return b /\ (b = true <-> is_exact U n c).
Proof.
  intros Hfr. unfold exact_city, is_exact.
  destruct (bool_decide (normalizeName U (city_name c) = n)) eqn:Hname.
  - exists true. split; [reflexivity|].
    apply bool_decide_eq_true in Hname. tauto.
  - apply bool_decide_eq_false in Hname. rewrite Hfr. simpl.
    exists (bool_decide (normalizeName U fr = n)). split; [reflexivity|].
    rewrite bool_decide_eq_true. split.
    + intros H. right. exists fr. auto.
    + intros [H | (fr' & Heq & H)]; [contradiction|]. congruence.
Qed.

Lemma find_throwing_exact U n cities :
  Forall (fun c => city_name_fr c <> None) cities ->
  (exists c, find_throwing (exact_city U n) cities = Return (Some c)
             /\ first_such (is_exact U n) cities c)
  \/ (find_throwing (exact_city U n) cities = Return None
      /\ Forall (fun c => ~ is_exact U n c) cities).
Proof.
  induction 1 as [| c cities Hfr _ IH]; simpl.
  - right. split; [reflexivity | constructor].
  - destruct (city_name_fr c) as [fr|] eqn:Efr; [|contradiction].
    destruct (exact_city_decides U n c fr Efr) as (b & Hb & Hiff).
    rewrite Hb. destruct b.
    + left. exists c. split; [reflexivity|].
      exists [], cities. split; [reflexivity|]. split; [apply Hiff; reflexivity | constructor].
    + assert (Hno : ~ is_exact U n c) by (intros H; apply Hiff in H; discriminate).
      destruct IH as [(c' & Hfind & l1 & l2 & Hsplit & Hc' & Hl1) | (Hfind & Hall)].
      * left. exists c'. split; [exact Hfind|].
        exists (c :: l1), l2. rewrite Hsplit. split; [reflexivity|].
        split; [exact Hc' | constructor; assumption].
      * right. split; [exact Hfind | constructor; assumption].
Qed.

Lemma fuzzy_city_true U lev n c :
  fuzzy_city U lev n c = true <-> within_ceiling U lev n c.
Proof. unfold fuzzy_city, within_ceiling. apply Nat.leb_le. Qed.

Ltac n_bool :=
  repeat (rewrite ?andb_true_iff, ?orb_true_iff, ?andb_false_iff, ?orb_false_iff,
            ?N.leb_le, ?N.leb_gt, ?N.eqb_eq, ?N.eqb_neq in * );
  lia.

Lemma alnum_not_space c : is_lower c || is_digit c = true -> is_space c = false.
Proof. unfold is_lower, is_digit, is_space. intros H. n_bool. Qed.

Lemma space_32 : is_space 32 = true.
Proof. reflexivity. Qed.

Lemma canonical_char_space c : canonical_char c -> is_space c = true -> c = 32%N.
Proof.
  intros [-> | H] Hs; [reflexivity|]. apply alnum_not_space in H. congruence.
Qed.

Lemma collapse_spaces_hd c t :
  List.hd 0%N (collapse_spaces (c :: t)) = if is_space c then 32%N else c.
Proof.
  revert c. induction t as [| d t IH]; intros c; simpl.
  - destruct (is_space c); reflexivity.
  - destruct (is_space c) eqn:Hc; [|reflexivity].
    destruct (is_space d) eqn:Hd; [|reflexivity].
    specialize (IH d). simpl in IH. rewrite Hd in IH. exact IH.
Qed.

Lemma collapse_spaces_chars s :
  Forall (fun c => is_lower c || is_digit c || is_space c = true) s ->
  Forall canonical_char (collapse_spaces s).
Proof.
  induction 1 as [| c t Hc _ IH]; [constructor|].
  simpl. destruct (is_space c) eqn:Hs.
  - destruct t as [| d t']; [repeat constructor; left; reflexivity|].
    destruct (is_space d); [exact IH|]. constructor; [left; reflexivity | exact IH].
  - constructor; [|exact IH]. right. rewrite orb_false_r in Hc. exact Hc.
Qed.

Lemma no_double_space_cons a l :
  no_double_space l -> (a = 32%N -> List.hd 0%N l <> 32%N) -> no_double_space (a :: l).
Proof.
  destruct l as [| b l]; simpl; [trivial|]. intros Hl Hab. split; [|exact Hl].
  intros [Ha Hb]. exact (Hab Ha Hb).
Qed.

Lemma collapse_spaces_no_double s : no_double_space (collapse_spaces s).
Proof.
  induction s as [| c t IH]; [exact I|].
  simpl. destruct (is_space c) eqn:Hs.
  - destruct t as [| d t']; [exact I|].
    destruct (is_space d) eqn:Hd; [exact IH|].
    apply no_double_space_cons; [exact IH|].
    intros _. rewrite collapse_spaces_hd, Hd. intros ->. discriminate Hd.
  - apply no_double_space_cons; [exact IH|]. intros ->. discriminate Hs.
Qed.

Lemma trim_end_snoc l c :
  trim_end (l ++ [c]) = if is_space c then trim_end l else l ++ [c].
Proof.
  unfold trim_end. rewrite rev_app_distr. simpl.
  destruct (is_space c); [reflexivity|].
  simpl. rewrite rev_involutive. reflexivity.
Qed.

Lemma trim_start_suffix l : exists p, l = p ++ trim_start l /\ Forall (fun c => is_space c = true) p.
Proof.
  induction l as [| c l IH]; simpl.
  - exists []. split; [reflexivity | constructor].
  - destruct (is_space c) eqn:Hc.
    + destruct IH as (p & Hp & Hall). exists (c :: p). split.
      * simpl. rewrite <- Hp. reflexivity.
      * constructor; assumption.
    + exists []. split; [reflexivity | constructor].
Qed.

Lemma trim_start_hd l : is_space (List.hd 0%N (trim_start l)) = false.
Proof.
  induction l as [| c l IH]; simpl; [reflexivity|].
  destruct (is_space c) eqn:Hc; [exact IH | exact Hc].
Qed.

Lemma trim_end_prefix l : exists q, l = trim_end l ++ q.
Proof.
  induction l as [| c l IH] using rev_ind.
  - exists []. reflexivity.
  - rewrite trim_end_snoc. destruct (is_space c).
    + destruct IH as (q & Hq). exists (q ++ [c]). rewrite app_assoc, <- Hq. reflexivity.
    + exists []. rewrite app_nil_r. reflexivity.
Qed.

Lemma trim_end_last l : is_space (List.last (trim_end l) 0%N) = false.
Proof.
  induction l as [| c l IH] using rev_ind; [reflexivity|].
  rewrite trim_end_snoc. destruct (is_space c) eqn:Hc; [exact IH|].
  rewrite last_last. exact Hc.
Qed.

Lemma trim_end_hd l :
  is_space (List.hd 0%N l) = false -> List.hd 0%N (trim_end l) = List.hd 0%N l.
Proof.
  induction l as [| c l IH] using rev_ind; [reflexivity|].
  intros Hhd. rewrite trim_end_snoc. destruct (is_space c) eqn:Hc; [|reflexivity].
  destruct l as [| a l]; [simpl in Hhd; congruence|].
  simpl in Hhd. rewrite IH by exact Hhd. reflexivity.
Qed.

Lemma no_double_space_app_r p l : no_double_space (p ++ l) -> no_double_space l.
Proof.
  induction p as [| a p IH]; simpl; [trivial|].
  destruct (p ++ l) eqn:E; [|intros [_ H]; exact (IH H)].
  apply app_eq_nil in E as [_ ->]. trivial.
Qed.

Lemma no_double_space_app_l l q : no_double_space (l ++ q) -> no_double_space l.
Proof.
  induction l as [| a l IH]; simpl; [trivial|].
  destruct l as [| b l]; [trivial|]. simpl. intros [H1 H2]. split; [exact H1|].
  apply IH. exact H2.
Qed.

Lemma space_not_32 c : is_space c = false -> c <> 32%N.
Proof. intros H ->. discriminate H. Qed.

Lemma normalizeName_canonical U s : canonical (normalizeName U s).
Proof.
  unfold normalizeName, trim.
  set (k := keep_alphanumeric _).
  assert (Hk : Forall (fun c => is_lower c || is_digit c || is_space c = true) k).
  { unfold k, keep_alphanumeric. apply List.Forall_forall. intros c Hc.
    apply filter_In in Hc. apply Hc. }
  pose proof (collapse_spaces_chars k Hk) as Hchars.
  pose proof (collapse_spaces_no_double k) as Hnd.
  destruct (trim_start_suffix (collapse_spaces k)) as (p & Hp & _).
  set (t1 := trim_start (collapse_spaces k)) in *.
  destruct (trim_end_prefix t1) as (q & Hq).
  fold (trim_end t1).
  assert (Hchars1 : Forall canonical_char t1).
  { rewrite Hp in Hchars. apply Forall_app in Hchars. apply Hchars. }
  assert (Hnd1 : no_double_space t1).
  { rewrite Hp in Hnd. exact (no_double_space_app_r _ _ Hnd). }
  split; [|split; [|split]].
  - rewrite Hq in Hchars1. apply Forall_app in Hchars1. apply Hchars1.
  - rewrite Hq in Hnd1. exact (no_double_space_app_l _ _ Hnd1).
  - rewrite trim_end_hd by apply trim_start_hd. apply space_not_32, trim_start_hd.
  - apply space_not_32, trim_end_last.
Qed.

Lemma filter_all {A : Type} (f : A -> bool) (l : list A) :
  Forall (fun x => f x = true) l -> List.filter f l = l.
Proof.
  induction 1 as [| x l Hx _ IH]; simpl; [reflexivity|]. rewrite Hx, IH. reflexivity.
Qed.

Lemma canonical_char_kept c :
  canonical_char c ->
  negb (is_combining_mark c) = true /\ is_lower c || is_digit c || is_space c = true.
Proof.
  unfold canonical_char, is_combining_mark, is_lower, is_digit, is_space.
  intros [-> | H]; [split; reflexivity|].
  split; [rewrite negb_true_iff|]; n_bool.
Qed.

Lemma collapse_spaces_canonical y :
  Forall canonical_char y -> no_double_space y -> collapse_spaces y = y.
Proof.
  induction 1 as [| c t Hc Ht IH]; [reflexivity|]. intros Hnd.
  assert (Hnd' : no_double_space t) by (destruct t; [exact I | apply Hnd]).
  simpl. destruct (is_space c) eqn:Hs.
  - apply (canonical_char_space c Hc) in Hs. subst c.
    destruct t as [| d t']; [reflexivity|].
    destruct Hnd as [Hne _]. inversion Ht as [| ? ? Hd _]; subst.
    destruct (is_space d) eqn:Hsd.
    + apply (canonical_char_space d Hd) in Hsd. subst d. exfalso. apply Hne. split; reflexivity.
    + rewrite (IH Hnd'). reflexivity.
  - rewrite (IH Hnd'). reflexivity.
Qed.

Lemma trim_canonical y : canonical y -> trim y = y.
Proof.
  intros (Hchars & _ & Hhd & Hlast). unfold trim.
  assert (Hstart : trim_start y = y).
  { destruct y as [| c t]; [reflexivity|]. simpl in *.
    destruct (is_space c) eqn:Hs; [|reflexivity].
    inversion Hchars as [| ? ? Hc _]; subst.
    exfalso. apply Hhd. exact (canonical_char_space c Hc Hs). }
  rewrite Hstart. fold (trim_end y).
  destruct y as [| c t] using rev_ind; [reflexivity|].
  rewrite trim_end_snoc. rewrite last_last in Hlast.
  destruct (is_space c) eqn:Hs; [|reflexivity].
  apply Forall_app in Hchars as [_ Hc]. inversion Hc as [| ? ? Hc' _]; subst.
  exfalso. apply Hlast. exact (canonical_char_space c Hc' Hs).
Qed.

Lemma normalizeName_fixes_canonical U y :
  canonical y -> toLowerCase U y = y -> normalizeNFD U y = y -> remove_noise y = y ->
  normalizeName U y = y.
Proof.
  intros Hcan Hlow Hnfd Hnoise. unfold normalizeName. rewrite Hlow, Hnfd.
  destruct Hcan as (Hchars & Hnd & Hhd & Hlast).
  assert (Hd : remove_diacritics y = y).
  { apply filter_all. eapply Forall_impl; [exact Hchars|]. intros c Hc.
    apply (canonical_char_kept c Hc). }
  assert (Hk : keep_alphanumeric y = y).
  { apply filter_all. eapply Forall_impl; [exact Hchars|]. intros c Hc.
    apply (canonical_char_kept c Hc). }
  rewrite Hd, Hnoise, Hk, (collapse_spaces_canonical y Hchars Hnd).
  apply trim_canonical. repeat split; assumption.
Qed.

Lemma remove_noise_from_length k s : (length (remove_noise_from k s) <= length s)%nat.
Proof.
  revert k. induction s as [| c t IH]; intros k; [simpl; lia|].
  cbn [remove_noise_from]. destruct k as [| k].
  - destruct (noise_match (c :: t)) as [[| j] |]; simpl;
      try (specialize (IH O); lia). specialize (IH j). lia.
  - specialize (IH k). simpl. lia.
Qed.

Lemma remove_noise_same_length s :
  length (remove_noise s) = length s -> remove_noise s = s.
Proof.
  unfold remove_noise. induction s as [| c t IH]; [reflexivity|].
  cbn [remove_noise_from].
  destruct (noise_match (c :: t)) as [[| j] |]; simpl; intros H;
    try (f_equal; apply IH; lia).
  pose proof (remove_noise_from_length j t). lia.
Qed.

Lemma collapse_spaces_length s : (length (collapse_spaces s) <= length s)%nat.
Proof.
  induction s as [| c t IH]; [simpl; lia|].
  simpl. destruct (is_space c).
  - destruct t as [| d t']; [simpl; lia|]. destruct (is_space d); simpl in *; lia.
  - simpl. lia.
Qed.

Lemma trim_length s : (length (trim s) <= length s)%nat.
Proof.
  unfold trim. fold (trim_end (trim_start s)).
  destruct (trim_start_suffix s) as (p & Hp & _).
  destruct (trim_end_prefix (trim_start s)) as (q & Hq).
  rewrite Hp at 2. rewrite Hq at 2. rewrite !length_app. lia.
Qed.

(** X1: the normalizer's output has the canonical form, whatever the Unicode
    tables and the input: it is made of a-z, 0-9 and spaces, has no two
    spaces in a row, and neither starts nor ends with a space. *)
Theorem normalizeName_canonical_form (U : Unicode) (s : list N) :
  Forall canonical_char (normalizeName U s)
  /\ no_double_space (normalizeName U s)
  /\ List.hd 0%N (normalizeName U s) <> 32%N
  /\ List.last (normalizeName U s) 0%N <> 32%N.
Proof. exact (normalizeName_canonical U s). Qed.

(** X2: when lower-casing and decomposition leave a normalized name alone, as
    they leave every string of a-z, 0-9 and spaces, normalizing it again
    returns it exactly when it contains no noise token, that is when the
    removal of [festival], [fest], [edition] and four-digit runs leaves it
    alone. *)
Theorem normalizeName_idempotent_iff (U : Unicode) (s : list N) :
  let y := normalizeName U s in
  toLowerCase U y = y -> normalizeNFD U y = y ->
  (normalizeName U y = y <-> remove_noise y = y).
Proof.
  intros y Hlow Hnfd.
  pose proof (normalizeName_canonical U s) as Hcan. fold y in Hcan.
  split; [|apply normalizeName_fixes_canonical; assumption].
  intros H. apply remove_noise_same_length.
  unfold normalizeName in H. rewrite Hlow, Hnfd in H.
  assert (Hd : remove_diacritics y = y).
  { apply filter_all. destruct Hcan as (Hchars & _).
    eapply Forall_impl; [exact Hchars|]. intros c Hc. apply (canonical_char_kept c Hc). }
  rewrite Hd in H.
  pose proof (trim_length (collapse_spaces (keep_alphanumeric (remove_noise y)))) as H1.
  pose proof (collapse_spaces_length (keep_alphanumeric (remove_noise y))) as H2.
  pose proof (List.filter_length_le (fun c => is_lower c || is_digit c || is_space c)
                (remove_noise y)) as H3.
  pose proof (remove_noise_from_length O y) as H4.
  fold (remove_noise y) in H4. fold (keep_alphanumeric (remove_noise y)) in H3.
  rewrite H in H1. lia.
Qed.

(** X2 at the name [Gnaoua Festival 2025], whose normalized
    form [gnaoua] has no noise token. *)
Lemma normalizeName_idempotent_iff_witness :
  let y := normalizeName AsciiUnicode (js "Gnaoua Festival 2025") in
  y = js "gnaoua"
  /\ toLowerCase AsciiUnicode y = y /\ normalizeNFD AsciiUnicode y = y
  /\ (normalizeName AsciiUnicode y = y <-> remove_noise y = y)
  /\ normalizeName AsciiUnicode y = y.
Proof.
  cbv zeta.
  assert (Hlow : toLowerCase AsciiUnicode (normalizeName AsciiUnicode (js "Gnaoua Festival 2025"))
                 = normalizeName AsciiUnicode (js "Gnaoua Festival 2025"))
    by (vm_compute; reflexivity).
  assert (Hnfd : normalizeNFD AsciiUnicode (normalizeName AsciiUnicode (js "Gnaoua Festival 2025"))
                 = normalizeName AsciiUnicode (js "Gnaoua Festival 2025"))
    by reflexivity.
  split; [vm_compute; reflexivity|]. split; [exact Hlow|]. split; [exact Hnfd|].
  split; [|vm_compute; reflexivity].
  exact (normalizeName_idempotent_iff AsciiUnicode (js "Gnaoua Festival 2025") Hlow Hnfd).
Defined.


(** C5, evaluated: the normalizer is not idempotent. On the name
    [Fes'tival] it returns [festival]: the noise words are removed before the
    apostrophe is, so the word the removal of the apostrophe forms stays.
    Normalizing that output again removes it and returns the empty string. *)
Theorem normalizeName_not_idempotent :
  normalizeName AsciiUnicode (js "Fes'tival") = js "festival"
  /\ normalizeName AsciiUnicode (js "festival") = []
  /\ normalizeName AsciiUnicode (normalizeName AsciiUnicode (js "Fes'tival"))
     <> normalizeName AsciiUnicode (js "Fes'tival").
Proof.
  split; [vm_compute; reflexivity|].
  split; [vm_compute; reflexivity|].
  vm_compute. discriminate.
Qed.

(** C6 as stated fails: with the cities Sale and Safi in this order, the
    input [Saf] has no exact match and the matcher returns Sale, at distance
    2, although Safi is at distance 1: it returns the first city within the
    ceiling, not the nearest. *)
Lemma matchCity_returns_first_not_nearest :
  matchCity AsciiUnicode levenshtein_reference [sale; safi] (Some (js "Saf"))
  = Return (Some (city_id sale))
  /\ levenshtein_reference (normalizeName AsciiUnicode (city_name sale))
                           (normalizeName AsciiUnicode (js "Saf")) = 2%nat
  /\ levenshtein_reference (normalizeName AsciiUnicode (city_name safi))
                           (normalizeName AsciiUnicode (js "Saf")) = 1%nat.
Proof. vm_compute. auto. Qed.

(** C6, amended: when every city of the table has a French name, the matcher
    returns null for a null or empty input; otherwise the id of the first
    city, in table order, whose name or French name normalizes to the
    normalized input; failing that, the id of the first city, in table
    order, whose normalized name is within Levenshtein distance 2 of it;
    and null when no city is within that ceiling. *)
Theorem matchCity_first_match (U : Unicode) (levenshtein : list N -> list N -> nat)
    (cities : list City) (rawCity : option (list N)) :
  Forall (fun c => city_name_fr c <> None) cities ->
  match rawCity with
  | None | Some [] => matchCity U levenshtein cities rawCity = Return None
  | Some raw =>
      let n := normalizeName U raw in
      (exists c, first_such (is_exact U n) cities c
                 /\ matchCity U levenshtein cities rawCity = Return (Some (city_id c)))
      \/ (Forall (fun c => ~ is_exact U n c) cities
          /\ exists c, first_such (within_ceiling U levenshtein n) cities c
                       /\ matchCity U levenshtein cities rawCity
                          = Return (Some (city_id c)))
      \/ (Forall (fun c => ~ is_exact U n c) cities
          /\ Forall (fun c => ~ within_ceiling U levenshtein n c) cities
          /\ matchCity U levenshtein cities rawCity = Return None)
  end.
Proof.
  intros Hfr. destruct rawCity as [[| ch raw] |]; try reflexivity.
  cbv zeta. unfold matchCity.
  set (n := normalizeName U (ch :: raw)).
  destruct (find_throwing_exact U n cities Hfr) as [(c & Hfind & Hfirst) | (Hfind & Hnone)];
    rewrite Hfind.
  - left. exists c. split; [exact Hfirst | reflexivity].
  - right.
    destruct (find_first_such (fuzzy_city U levenshtein n) cities)
      as [(c & Hf & l1 & l2 & Hsplit & Hc & Hl1) | (Hf & Hall)]; rewrite Hf.
    + left. split; [exact Hnone|]. exists c. split; [|reflexivity].
      exists l1, l2. split; [exact Hsplit|]. split; [apply fuzzy_city_true; exact Hc|].
      eapply Forall_impl; [exact Hl1|]. intros x Hx Hw. apply Hx, fuzzy_city_true, Hw.
    + right. split; [exact Hnone|]. split; [|reflexivity].
      eapply Forall_impl; [exact Hall|]. intros x Hx Hw. apply Hx, fuzzy_city_true, Hw.
Qed.

(** The amended C6 at the table Sale, Safi and the input [Saf]. *)
Lemma matchCity_first_match_witness :
  Forall (fun c => city_name_fr c <> None) [sale; safi]
  /\ let n := normalizeName AsciiUnicode (js "Saf") in
     (exists c, first_such (is_exact AsciiUnicode n) [sale; safi] c
                /\ matchCity AsciiUnicode levenshtein_reference [sale; safi] (Some (js "Saf"))
                   = Return (Some (city_id c)))
     \/ (Forall (fun c => ~ is_exact AsciiUnicode n c) [sale; safi]
         /\ exists c, first_such (within_ceiling AsciiUnicode levenshtein_reference n)
                        [sale; safi] c
                      /\ matchCity AsciiUnicode levenshtein_reference [sale; safi]
                                   (Some (js "Saf"))
                         = Return (Some (city_id c)))
     \/ (Forall (fun c => ~ is_exact AsciiUnicode n c) [sale; safi]
         /\ Forall (fun c => ~ within_ceiling AsciiUnicode levenshtein_reference n c)
                   [sale; safi]
         /\ matchCity AsciiUnicode levenshtein_reference [sale; safi] (Some (js "Saf"))
            = Return None).
Proof.
  assert (H : Forall (fun c => city_name_fr c <> None) [sale; safi])
    by (repeat constructor; discriminate).
  split; [exact H|].
  exact (matchCity_first_match AsciiUnicode levenshtein_reference [sale; safi]
           (Some (js "Saf")) H).
Defined.

End NormalizerProps.

(** ** The deduplication resolver *)

Module DedupProps.
Import JsString Normalizer Types Dedup Scan ScanProps DedupSpec.
Local Open Scope Q_scope.

Lemma fuzzyLoop_first U E c ms :
  (exists m, first_such (merges U E c) ms m
             /\ fuzzyLoop U E c ms
                = Some {| action := merge; existing_event_id := Some (eventId m);
                          confidence := calculateSimilarity U E c (getEvent E (eventId m));
                          match_type := fuzzy_name |})
  \/ (Forall (fun m => ~ merges U E c m) ms /\ fuzzyLoop U E c ms = None).
Proof.
  induction ms as [| m ms IH]; simpl.
  - right. split; [constructor | reflexivity].
  - destruct (Qle_bool 0.85 (calculateSimilarity U E c (getEvent E (eventId m)))) eqn:Hm.
    + left. exists m. split; [|reflexivity].
      apply first_such_here. apply Qle_bool_iff. exact Hm.
    + assert (Hno : ~ merges U E c m).
      { intros H. apply Qle_bool_iff in H. unfold merges in H. congruence. }
      destruct IH as [(m' & Hfirst & Hres) | (Hall & Hres)].
      * left. exists m'. split; [apply first_such_cons_skip; assumption | exact Hres].
      * right. split; [constructor; assumption | exact Hres].
Qed.

Lemma dateLocationLoop_first U E c ms :
  (exists m, first_such (needs_review U E c) ms m
             /\ dateLocationLoop U E c ms
                = Some {| action := review; existing_event_id := Some (eventId m);
                          confidence := jaroWinkler E (normalizedName c)
                                          (normalizeName U (name (getEvent E (eventId m))));
                          match_type := date_location |})
  \/ (Forall (fun m => ~ needs_review U E c m) ms /\ dateLocationLoop U E c ms = None).
Proof.
  induction ms as [| m ms IH]; simpl.
  - right. split; [constructor | reflexivity].
  - destruct (Qle_bool 0.70 (jaroWinkler E (normalizedName c)
                               (normalizeName U (name (getEvent E (eventId m)))))) eqn:Hm.
    + left. exists m. split; [|reflexivity].
      apply first_such_here. apply Qle_bool_iff. exact Hm.
    + assert (Hno : ~ needs_review U E c m).
      { intros H. apply Qle_bool_iff in H. unfold needs_review in H. congruence. }
      destruct IH as [(m' & Hfirst & Hres) | (Hall & Hres)].
      * left. exists m'. split; [apply first_such_cons_skip; assumption | exact Hres].
      * right. split; [constructor; assumption | exact Hres].
Qed.

(** C2: the resolver decides in four ordered steps, and the first step that
    applies wins. (1) An event found under the exact fingerprint: merge, at
    0.95, match type exact. (2) Otherwise the first event found under the
    fuzzy-name fingerprint whose weighted similarity is at least 0.85: merge,
    at that similarity, match type fuzzy_name. (3) Otherwise the first event
    found under the date-location fingerprint whose Jaro-Winkler name
    similarity is at least 0.70: review, at that similarity, match type
    date_location. (4) Otherwise create, at 1.0, match type none. *)
Theorem deduplicateCandidate_first_match_wins
    (U : Unicode) (E : Env) (c : NormalizedCandidate) :
  let fuzzy := findMatchesByFingerprint E (fingerprints c) fp_fuzzy_name in
  let dated := findMatchesByFingerprint E (fingerprints c) fp_date_location in
  (exists m, findMatchByFingerprint E (fingerprints c) fp_exact = Some m
             /\ deduplicateCandidate U E c
                = {| action := merge; existing_event_id := Some (eventId m);
                     confidence := 0.95; match_type := exact |})
  \/ (findMatchByFingerprint E (fingerprints c) fp_exact = None
      /\ exists m, first_such (merges U E c) fuzzy m
                   /\ deduplicateCandidate U E c
                      = {| action := merge; existing_event_id := Some (eventId m);
                           confidence := calculateSimilarity U E c (getEvent E (eventId m));
                           match_type := fuzzy_name |})
  \/ (findMatchByFingerprint E (fingerprints c) fp_exact = None
      /\ Forall (fun m => ~ merges U E c m) fuzzy
      /\ exists m, first_such (needs_review U E c) dated m
                   /\ deduplicateCandidate U E c
                      = {| action := review; existing_event_id := Some (eventId m);
                           confidence := jaroWinkler E (normalizedName c)
                                           (normalizeName U (name (getEvent E (eventId m))));
                           match_type := date_location |})
  \/ (findMatchByFingerprint E (fingerprints c) fp_exact = None
      /\ Forall (fun m => ~ merges U E c m) fuzzy
      /\ Forall (fun m => ~ needs_review U E c m) dated
      /\ deduplicateCandidate U E c
         = {| action := create; existing_event_id := None;
              confidence := 1.0; match_type := none |}).
Proof.
  intros fuzzy dated. unfold deduplicateCandidate.
  destruct (findMatchByFingerprint E (fingerprints c) fp_exact) as [m|] eqn:Hexact.
  - left. exists m. split; reflexivity.
  - right. fold fuzzy. fold dated.
    destruct (fuzzyLoop_first U E c fuzzy) as [(m & Hfirst & Hres) | (Hnone & Hres)];
      rewrite Hres.
    + left. split; [reflexivity|]. exists m. split; [exact Hfirst | reflexivity].
    + right.
      destruct (dateLocationLoop_first U E c dated) as [(m & Hfirst & Hres') | (Hnone' & Hres')];
        rewrite Hres'.
      * left. split; [reflexivity|]. split; [exact Hnone|].
        exists m. split; [exact Hfirst | reflexivity].
      * right. split; [reflexivity|]. split; [exact Hnone|]. split; [exact Hnone'|reflexivity].
Qed.

(** Scenario S3: the same name and city one day apart. The weighted
    similarity stays under 0.85, and the event is found under the
    date-location fingerprint with a name similarity over 0.70: review. *)
Example deduplicateCandidate_reviews_date_disagreement :
  action (deduplicateCandidate AsciiUnicode store (candidate_on "2025-06-27")) = review
  /\ match_type (deduplicateCandidate AsciiUnicode store (candidate_on "2025-06-27"))
     = date_location
  /\ existing_event_id (deduplicateCandidate AsciiUnicode store (candidate_on "2025-06-27"))
     = Some 10%Z.
Proof. vm_compute. auto. Qed.

Lemma dateScore_range E c e : 0 <= dateScore E c e <= 1.
Proof.
  unfold dateScore.
  repeat match goal with |- context [if ?b then _ else _] => destruct b end;
    split; unfold Qle; simpl; lia.
Qed.

Lemma locationScore_range c e : 0 <= locationScore c e <= 1.
Proof.
  unfold locationScore. destruct (bool_decide _); split; unfold Qle; simpl; lia.
Qed.

Lemma venueScore_range c e : 0 <= venueScore c e <= 1.
Proof.
  unfold venueScore.
  repeat match goal with |- context [if ?b then _ else _] => destruct b end;
    split; unfold Qle; simpl; lia.
Qed.

(** C3: the weighted similarity is
    0.40 nameScore + 0.30 dateScore + 0.20 locationScore + 0.10 venueScore,
    where nameScore is Jaro-Winkler over the normalized names; dateScore is
    1.0 for identical start dates, else 0.8 within 1 day, else 0.5 within 7
    days, else 0; locationScore is 1.0 when the city ids are equal and 0
    otherwise; venueScore is 0.5 when either venue id is unknown, else 1.0
    when the ids are equal and 0 when they differ. With a name score in
    [0, 1] the similarity lies in [0, 1]. *)
Theorem calculateSimilarity_weighted
    (U : Unicode) (E : Env) (c : NormalizedCandidate) (e : Event) :
  let days := Qabs (daysBetween E (startDate c) (start_date e)) in
  0 <= jaroWinkler E (normalizedName c) (normalizeName U (name e)) <= 1 ->
  calculateSimilarity U E c e
  = 0.40 * nameScore U E c e + 0.30 * dateScore E c e
    + 0.20 * locationScore c e + 0.10 * venueScore c e
  /\ nameScore U E c e = jaroWinkler E (normalizedName c) (normalizeName U (name e))
  /\ (startDate c = start_date e -> dateScore E c e = 1.0)
  /\ (startDate c <> start_date e -> days <= 1 -> dateScore E c e = 0.8)
  /\ (startDate c <> start_date e -> ~ days <= 1 -> days <= 7 -> dateScore E c e = 0.5)
  /\ (startDate c <> start_date e -> ~ days <= 7 -> dateScore E c e = 0)
  /\ (locationScore c e = 1.0 <-> cityId c = Some (city_id e))
  /\ (cityId c <> Some (city_id e) -> locationScore c e = 0)
  /\ (known (venueId c) -> known (venue_id e) -> venueId c = venue_id e ->
      venueScore c e = 1.0)
  /\ (known (venueId c) -> known (venue_id e) -> venueId c <> venue_id e ->
      venueScore c e = 0)
  /\ (~ known (venueId c) \/ ~ known (venue_id e) -> venueScore c e = 0.5)
  /\ 0 <= calculateSimilarity U E c e <= 1.
Proof.
  intros days Hname.
  split; [reflexivity|]. split; [reflexivity|].
  split. { intros H. unfold dateScore. rewrite bool_decide_eq_true_2 by exact H. reflexivity. }
  split. { intros H H1. unfold dateScore. rewrite bool_decide_eq_false_2 by exact H.
           apply Qle_bool_iff in H1. fold days. rewrite H1. reflexivity. }
  split. { intros H H1 H7. unfold dateScore. rewrite bool_decide_eq_false_2 by exact H.
           fold days. destruct (Qle_bool days 1) eqn:E1.
           - apply Qle_bool_iff in E1. contradiction.
           - apply Qle_bool_iff in H7. rewrite H7. reflexivity. }
  split. { intros H H7. unfold dateScore. rewrite bool_decide_eq_false_2 by exact H.
           fold days. destruct (Qle_bool days 1) eqn:E1.
           - apply Qle_bool_iff in E1. exfalso. apply H7.
             eapply Qle_trans; [exact E1|]. unfold Qle; simpl; lia.
           - destruct (Qle_bool days 7) eqn:E7; [|reflexivity].
             apply Qle_bool_iff in E7. contradiction. }
  split. { unfold locationScore. destruct (bool_decide (cityId c = Some (city_id e))) eqn:Hc.
           - apply bool_decide_eq_true in Hc. tauto.
           - apply bool_decide_eq_false in Hc. split; [discriminate | contradiction]. }
  split. { intros H. unfold locationScore. rewrite bool_decide_eq_false_2 by exact H.
           reflexivity. }
  split. { intros Hc He Heq. unfold venueScore, known in *. rewrite Hc, He. simpl.
           rewrite bool_decide_eq_true_2 by exact Heq. reflexivity. }
  split. { intros Hc He Hne. unfold venueScore, known in *. rewrite Hc, He. simpl.
           rewrite bool_decide_eq_false_2 by exact Hne. reflexivity. }
  split. { unfold venueScore, known.
           intros [H | H]; apply not_true_is_false in H; rewrite H; simpl;
             [reflexivity | rewrite orb_true_r; reflexivity]. }
  pose proof (dateScore_range E c e) as Hd.
  pose proof (locationScore_range c e) as Hl.
  pose proof (venueScore_range c e) as Hv.
  unfold calculateSimilarity, nameScore. split; lra.
Qed.

(** C3 at scenario S2: the candidate and the event on the same day. *)
Lemma calculateSimilarity_weighted_witness :
  0 <= jaroWinkler store (normalizedName (candidate_on "2025-06-26"))
         (normalizeName AsciiUnicode (name gnaoua)) <= 1
  /\ calculateSimilarity AsciiUnicode store (candidate_on "2025-06-26") gnaoua
     = 0.40 * nameScore AsciiUnicode store (candidate_on "2025-06-26") gnaoua
       + 0.30 * dateScore store (candidate_on "2025-06-26") gnaoua
       + 0.20 * locationScore (candidate_on "2025-06-26") gnaoua
       + 0.10 * venueScore (candidate_on "2025-06-26") gnaoua
  /\ 0 <= calculateSimilarity AsciiUnicode store (candidate_on "2025-06-26") gnaoua <= 1.
Proof.
  assert (H : 0 <= jaroWinkler store (normalizedName (candidate_on "2025-06-26"))
                     (normalizeName AsciiUnicode (name gnaoua)) <= 1).
  { split; vm_compute; discriminate. }
  split; [exact H|].
  pose proof (calculateSimilarity_weighted AsciiUnicode store
                (candidate_on "2025-06-26") gnaoua H) as T.
  split; [apply T|]. apply T.
Defined.

End DedupProps.

(** ** The confidence scorer *)

Module ConfidenceProps.
Import JsString Normalizer Types Confidence ConfidenceSpec.
Local Open Scope Q_scope.

Lemma Math_max_ge_init x xs : x <= Math_max x xs.
Proof.
  unfold Math_max. revert x. induction xs as [| y xs IH]; intros x; simpl.
  - apply Qle_refl.
  - eapply Qle_trans; [apply Q.le_max_l | apply IH].
Qed.

Lemma Math_max_upper x xs : Forall (fun y => y <= Math_max x xs) xs.
Proof.
  unfold Math_max. revert x. induction xs as [| y xs IH]; intros x; simpl.
  - constructor.
  - constructor; [|apply IH].
    eapply Qle_trans; [apply Q.le_max_r | apply (Math_max_ge_init (Qmax x y) xs)].
Qed.

Lemma Math_max_attained x xs : Exists (fun y => Math_max x xs == y) (x :: xs).
Proof.
  unfold Math_max. revert x. induction xs as [| y xs IH]; intros x; simpl.
  - constructor. reflexivity.
  - specialize (IH (Qmax x y)). inversion IH as [z l Hz | z l Hl]; subst.
    + destruct (Q.max_dec x y) as [Hx | Hy].
      * apply Exists_cons_hd. exact (Qeq_trans _ _ _ Hz Hx).
      * apply Exists_cons_tl, Exists_cons_hd. exact (Qeq_trans _ _ _ Hz Hy).
    + apply Exists_cons_tl, Exists_cons_tl. exact Hl.
Qed.

Lemma Math_max_range lo hi x xs :
  lo <= x <= hi -> Forall (fun y => lo <= y <= hi) xs -> lo <= Math_max x xs <= hi.
Proof.
  intros Hx Hxs.
  pose proof (Math_max_attained x xs) as Hex.
  apply List.Exists_exists in Hex. destruct Hex as (y & Hin & Heq).
  assert (Hy : lo <= y <= hi).
  { destruct Hin as [<- | Hin]; [exact Hx|].
    rewrite List.Forall_forall in Hxs. apply Hxs. exact Hin. }
  rewrite Heq. exact Hy.
Qed.

Lemma sourceReliability_range sources :
  Forall (fun s => 0 <= reliability s <= 1) sources ->
  0 <= sourceReliability sources <= 1.
Proof.
  intros H. unfold sourceReliability. destruct sources as [| s ss]; simpl.
  - split; unfold Qle; simpl; lia.
  - inversion H as [| ? ? Hs Hss]; subst.
    apply Math_max_range; [exact Hs|].
    clear -Hss. induction Hss; simpl; constructor; assumption.
Qed.

Lemma completeness_range event : 0 <= completeness event <= 1.
Proof.
  unfold completeness, present_required, present.
  destruct (end_date event), (venue_id event), (description event), (official_website event);
    split; vm_compute; discriminate.
Qed.

Lemma agreement_ratio_range (dc da vc va : bool) :
  let agreements := count_true [dc && da; vc && va] in
  let comparisons := count_true [dc; vc] in
  0 <= (if Qlt_le_dec 0 comparisons then agreements / comparisons else 0.5) <= 1.
Proof.
  destruct dc, da, vc, va; cbv zeta;
    match goal with |- context [Qlt_le_dec ?a ?b] => destruct (Qlt_le_dec a b) end;
    split; vm_compute; discriminate.
Qed.

Lemma calculateSourceAgreement_range U E event sources :
  0 <= calculateSourceAgreement U E event sources <= 1.
Proof.
  unfold calculateSourceAgreement.
  destruct (length sources <=? 1)%nat; [split; vm_compute; discriminate|].
  cbv zeta. apply agreement_ratio_range.
Qed.

Lemma recency_range E event :
  0 <= daysSinceVerification E event -> 0 <= recency E event <= 1.
Proof.
  intros Hd. unfold recency. split; [apply Q.le_max_l|].
  apply Q.max_lub; [unfold Qle; simpl; lia|].
  assert (0 <= daysSinceVerification E event / 90).
  { apply Qle_shift_div_l; [reflexivity | lra]. }
  lra.
Qed.

Lemma daysSinceVerification_cases E event :
  (truthy_string (last_verified_at event) = false -> daysSinceVerification E event = 365)
  /\ (forall lv, last_verified_at event = Some lv -> lv <> [] ->
                 daysSinceVerification E event = daysBetween E lv (now E)).
Proof.
  unfold daysSinceVerification. split.
  - intros ->. reflexivity.
  - intros lv -> Hne. destruct lv; [contradiction | reflexivity].
Qed.

(** C4: the confidence is 0.35 R + 0.25 C + 0.20 A + 0.10 T + 0.10 H.
    R is the greatest reliability among the event's sources, and 0.3 when
    it has none; A is 0.5 when it has at most one source; T is
    max(0, 1 - days/90) for the days since the last verification; H is 0.5
    when no accuracy is on record. When the reliabilities and the recorded
    accuracy lie in [0, 1] and the days since the last verification are not
    negative, the confidence lies in [0, 1]. *)
Theorem calculateConfidenceScore_weighted_bounded
    (U : Unicode) (E : Env) (eventId : Z) :
  let event := getEvent E eventId in
  let sources := getEventSources E eventId in
  Forall (fun s => 0 <= reliability s <= 1) sources ->
  (forall h, getSourceHistoricalAccuracy E (es_sourceId <$> List.head sources) = Some h ->
             0 <= h <= 1) ->
  0 <= daysSinceVerification E event ->
  calculateConfidenceScore U E eventId
  = 0.35 * sourceReliability sources + 0.25 * completeness event
    + 0.20 * calculateSourceAgreement U E event sources
    + 0.10 * recency E event + 0.10 * historicalAccuracy E sources
  /\ (sources = [] -> sourceReliability sources = 0.3)
  /\ (sources <> [] ->
      Forall (fun s => reliability s <= sourceReliability sources) sources
      /\ Exists (fun s => sourceReliability sources == reliability s) sources)
  /\ ((length sources <= 1)%nat -> calculateSourceAgreement U E event sources = 0.5)
  /\ recency E event = Qmax 0 (1 - daysSinceVerification E event / 90)
  /\ (truthy_string (last_verified_at event) = false -> daysSinceVerification E event = 365)
  /\ (forall lv, last_verified_at event = Some lv -> lv <> [] ->
                 daysSinceVerification E event = daysBetween E lv (now E))
  /\ (getSourceHistoricalAccuracy E (es_sourceId <$> List.head sources) = None ->
      historicalAccuracy E sources = 0.5)
  /\ 0 <= calculateConfidenceScore U E eventId <= 1.
Proof.
  intros event sources Hrel Hacc Hdays.
  split; [reflexivity|].
  split. { intros ->. reflexivity. }
  split.
  { intros Hne. unfold sourceReliability. destruct sources as [| s ss]; [contradiction|].
    simpl. split.
    - constructor; [apply Math_max_ge_init|].
      pose proof (Math_max_upper (reliability_score (es_source s))
                    (List.map (fun s0 => reliability_score (es_source s0)) ss)) as Hup.
      rewrite List.Forall_forall in Hup. apply List.Forall_forall. intros x Hx. apply Hup.
      apply in_map_iff. exists x. split; [reflexivity | exact Hx].
    - pose proof (Math_max_attained (reliability_score (es_source s))
                    (List.map (fun s0 => reliability_score (es_source s0)) ss)) as Hat.
      apply List.Exists_exists in Hat. destruct Hat as (y & Hin & Heq).
      apply List.Exists_exists. destruct Hin as [<- | Hin].
      + exists s. split; [left; reflexivity | exact Heq].
      + apply in_map_iff in Hin. destruct Hin as (s' & <- & Hs').
        exists s'. split; [right; exact Hs' | exact Heq]. }
  split.
  { intros Hlen. unfold calculateSourceAgreement.
    apply Nat.leb_le in Hlen. rewrite Hlen. reflexivity. }
  split; [reflexivity|].
  split; [apply daysSinceVerification_cases|].
  split; [apply daysSinceVerification_cases|].
  split. { intros Hnone. unfold historicalAccuracy. fold sources. rewrite Hnone. reflexivity. }
  pose proof (sourceReliability_range sources Hrel) as HR.
  pose proof (completeness_range event) as HC.
  pose proof (calculateSourceAgreement_range U E event sources) as HA.
  pose proof (recency_range E event Hdays) as HT.
  assert (HH : 0 <= historicalAccuracy E sources <= 1).
  { unfold historicalAccuracy. fold sources.
    destruct (getSourceHistoricalAccuracy E (es_sourceId <$> List.head sources)) as [h|] eqn:Hh;
      simpl; [apply Hacc; reflexivity | split; vm_compute; discriminate]. }
  unfold calculateConfidenceScore. fold event. fold sources. split; lra.
Qed.

(** C4 at the store of scenario S2. *)
Lemma calculateConfidenceScore_weighted_bounded_witness :
  Forall (fun s => 0 <= reliability s <= 1) (getEventSources store 10)
  /\ 0 <= daysSinceVerification store (getEvent store 10)
  /\ calculateConfidenceScore AsciiUnicode store 10
     == 0.35 * 1.0 + 0.25 * (0.7 + (3 / 4) * 0.3) + 0.20 * 1 + 0.10 * (1 - 18 / 90) + 0.10 * 0.5
  /\ 0 <= calculateConfidenceScore AsciiUnicode store 10 <= 1.
Proof.
  assert (Hrel : Forall (fun s => 0 <= reliability s <= 1) (getEventSources store 10)).
  { repeat constructor; vm_compute; discriminate. }
  assert (Hacc : forall h,
             getSourceHistoricalAccuracy store (es_sourceId <$> List.head (getEventSources store 10))
             = Some h -> 0 <= h <= 1).
  { intros h Hh. discriminate Hh. }
  assert (Hdays : 0 <= daysSinceVerification store (getEvent store 10)).
  { vm_compute. discriminate. }
  split; [exact Hrel|]. split; [exact Hdays|].
  split; [vm_compute; reflexivity|].
  apply (calculateConfidenceScore_weighted_bounded AsciiUnicode store 10 Hrel Hacc Hdays).
Defined.

(** C4 fails as stated: the score may leave [0, 1]. T is clamped at 0 only,
    so a last verification ninety days in the future gives T = 2 and, with
    the sources of scenario S2, a score of 1.03125. A reliability or a
    recorded accuracy outside [0, 1] moves the score out on either side. *)
Lemma calculateConfidenceScore_may_leave_unit_interval :
  (daysSinceVerification future_store (getEvent future_store 10) == -90
   /\ recency future_store (getEvent future_store 10) == 2
   /\ calculateConfidenceScore AsciiUnicode future_store 10 == 1.03125
   /\ ~ calculateConfidenceScore AsciiUnicode future_store 10 <= 1)
  /\ 1 < calculateConfidenceScore AsciiUnicode (store_with [rated_source 2] 18 None) 10
  /\ calculateConfidenceScore AsciiUnicode (store_with [rated_source (-3)] 18 None) 10 < 0
  /\ 1 < calculateConfidenceScore AsciiUnicode
           (store_with [api_source; official_source] 18 (Some 3)) 10
  /\ calculateConfidenceScore AsciiUnicode
       (store_with [api_source; official_source] 18 (Some (-10))) 10 < 0.
Proof.
  split; [|repeat split; vm_compute; reflexivity].
  split; [vm_compute; reflexivity|].
  split; [vm_compute; reflexivity|].
  split; [vm_compute; reflexivity|].
  intros H. vm_compute in H. apply H. reflexivity.
Defined.

End ConfidenceProps.

(** ** The search projection synchronizer *)

Module SearchSyncProps.
Import JsString SearchSync SearchSyncSpec.

Lemma engine_eta (s : Engine) : {| collection := collection s; calls := calls s |} = s.
Proof. destruct s; reflexivity. Qed.

Lemma try_collection_delete (s : Engine) :
  try_catch collection_delete (ret tt) s
  = (Return tt, {| collection := None; calls := calls s ++ [CollectionDelete] |}).
Proof. destruct s as [[docs|] log]; reflexivity. Qed.

Lemma collection_create_fresh (log : list Call) :
  collection_create {| collection := None; calls := log |}
  = (Return tt, {| collection := Some ∅; calls := log ++ [CollectionCreate] |}).
Proof. reflexivity. Qed.

Lemma filter_failed_all_true (success : list bool) :
  forallb (fun ok => ok) success = true -> List.filter (fun r => negb r) success = [].
Proof.
  induction success as [| [] l IH]; simpl; intros H;
    [reflexivity | apply IH; exact H | discriminate].
Qed.

Lemma importBatch_step B batch counters s docs :
  collection s = Some docs ->
  importBatch B batch counters s
  = (Return (counters.1 + (batch_counts (import_outcome B (calls s) batch) batch).1,
             counters.2 + (batch_counts (import_outcome B (calls s) batch) batch).2),
     {| collection := Some (batch_collection (import_outcome B (calls s) batch) batch docs);
        calls := calls s ++ [DocumentsImport batch] |}).
Proof.
  intros Hc. destruct s as [c log]. simpl in Hc. subst c.
  unfold importBatch, try_catch, documents_import, bind, get_calls, request, get_collection.
  simpl. destruct (import_outcome B log batch) as [| success]; simpl; unfold ret.
  - rewrite Z.add_0_r. reflexivity.
  - destruct (forallb (fun ok => ok) success) eqn:Hall; simpl.
    + rewrite (filter_failed_all_true success Hall).
      change (len (@nil bool)) with 0. rewrite Z.sub_0_r. reflexivity.
    + rewrite Z.add_0_r. reflexivity.
Qed.

Lemma concat_nonempty {A : Type} (l : list (list A)) :
  l <> [] -> Forall (fun b => (0 < length b)%nat) l -> concat l <> [].
Proof.
  destruct l as [| b l]; [contradiction|]. intros _ H.
  inversion H as [| ? ? Hb _]; subst. simpl.
  destruct b; [simpl in Hb; lia | discriminate].
Qed.

Lemma importLoop_replay B fuel documents : forall i counters s docs,
  collection s = Some docs ->
  (length documents <= i + fuel)%nat ->
  exists batches,
    concat batches = drop i documents
    /\ Forall (fun b => (0 < length b <= BATCH_SIZE)%nat) batches
    /\ Forall (fun b => length b = BATCH_SIZE) (removelast batches)
    /\ importLoop B fuel documents i counters s
       = (Return (replay B (calls s) batches counters docs).1,
          {| collection := Some (replay B (calls s) batches counters docs).2;
             calls := calls s ++ List.map DocumentsImport batches |}).
Proof.
  pose proof (eq_refl : BATCH_SIZE = 100%nat) as HB.
  induction fuel as [| fuel IH]; intros i counters s docs Hc Hfuel.
  - exists []. rewrite drop_ge by lia. simpl.
    split; [reflexivity|]. split; [constructor|]. split; [constructor|].
    unfold ret. rewrite app_nil_r, <- Hc, engine_eta. reflexivity.
  - simpl. destruct (i <? length documents)%nat eqn:Hi.
    + apply Nat.ltb_lt in Hi.
      set (batch := slice i (i + BATCH_SIZE) documents).
      assert (Hbatch : batch = take BATCH_SIZE (drop i documents)).
      { unfold batch, slice. f_equal. lia. }
      unfold bind at 1. rewrite (importBatch_step B batch counters s docs Hc).
      set (o := import_outcome B (calls s) batch).
      set (s1 := {| collection := Some (batch_collection o batch docs);
                    calls := calls s ++ [DocumentsImport batch] |}).
      destruct (IH (i + BATCH_SIZE)%nat
                  (counters.1 + (batch_counts o batch).1, counters.2 + (batch_counts o batch).2)
                  s1 (batch_collection o batch docs) eq_refl) as (rest & Hcat & Hlen & Hfull & Hrun).
      { lia. }
      exists (batch :: rest).
      assert (Hblen : length batch = Nat.min BATCH_SIZE (length documents - i)).
      { rewrite Hbatch, length_take, length_drop. reflexivity. }
      split.
      { simpl. rewrite Hcat, Hbatch, <- drop_drop. apply take_drop. }
      split.
      { constructor; [|exact Hlen]. rewrite Hblen. lia. }
      split.
      { destruct rest as [| b rest']; [constructor|].
        change (removelast (batch :: b :: rest')) with (batch :: removelast (b :: rest')).
        constructor; [|exact Hfull].
        assert (Hne : drop (i + BATCH_SIZE) documents <> []).
        { rewrite <- Hcat. apply concat_nonempty; [discriminate|].
          eapply Forall_impl; [exact Hlen|]. simpl. intros x Hx. lia. }
        assert (i + BATCH_SIZE < length documents)%nat.
        { destruct (Nat.lt_ge_cases (i + BATCH_SIZE) (length documents)) as [H|H]; [exact H|].
          exfalso. apply Hne. apply drop_ge. exact H. }
        rewrite Hblen. lia. }
      rewrite Hrun. simpl. rewrite <- app_assoc. reflexivity.
    + apply Nat.ltb_ge in Hi. exists []. rewrite drop_ge by lia. simpl.
      split; [reflexivity|]. split; [constructor|]. split; [constructor|].
      unfold ret. rewrite app_nil_r, <- Hc, engine_eta. reflexivity.
Qed.

Lemma batch_counts_sum o batch : (batch_counts o batch).1 + (batch_counts o batch).2 = len batch.
Proof.
  destruct o as [| success]; simpl; [lia|].
  destruct (forallb (fun ok => ok) success); simpl; lia.
Qed.

Lemma replay_counts_sum B batches : forall log counters docs,
  (replay B log batches counters docs).1.1 + (replay B log batches counters docs).1.2
  = counters.1 + counters.2 + len (concat batches).
Proof.
  induction batches as [| b rest IH]; intros log counters docs; simpl.
  - unfold len. simpl. lia.
  - rewrite IH. simpl.
    pose proof (batch_counts_sum (import_outcome B log b) b).
    unfold len in *. rewrite length_app. lia.
Qed.

Lemma joinEvent_Some db e :
  references_resolve db e ->
  exists r, joinEvent db e = Some r /\ id r = e_id e /\ status r = e_status e
            /\ name r = e_name e.
Proof.
  intros [[c Hc] [r Hr]]. unfold joinEvent. rewrite Hc, Hr. simpl.
  eexists. split; [reflexivity|]. simpl. auto.
Qed.

Lemma omap_joinEvent db (l : list EventsRow) :
  Forall (references_resolve db) l ->
  Forall2 (fun e r => id r = e_id e /\ status r = e_status e /\ name r = e_name e)
          l (omap (joinEvent db) l).
Proof.
  induction 1 as [| e l He _ IH]; simpl; [constructor|].
  destruct (joinEvent_Some db e He) as (r & Hr & Hfields). rewrite Hr.
  constructor; assumption.
Qed.

Lemma toSearchDocument_fields D row gs ars t :
  doc_id (toSearchDocument D row gs ars t) = String_of_Z (id row)
  /\ doc_status (toSearchDocument D row gs ars t) = status row
  /\ doc_name (toSearchDocument D row gs ars t) = name row.
Proof. auto. Qed.

Lemma buildDocuments_selected D db :
  Forall (references_resolve db)
         (List.filter (fun e => indexable (e_status e)) (events db)) ->
  Forall2 (fun e d => doc_id d = String_of_Z (e_id e) /\ doc_status d = e_status e
                      /\ doc_name d = e_name e)
          (List.filter (fun e => indexable (e_status e)) (events db))
          (buildDocuments D db).
Proof.
  intros Hfk. unfold buildDocuments, selectIndexable.
  pose proof (omap_joinEvent db _ Hfk) as H.
  apply Forall2_fmap_r.
  eapply Forall2_impl; [exact H|]. simpl.
  intros e r (Hid & Hst & Hn). rewrite <- Hid, <- Hst, <- Hn. auto.
Qed.

Lemma joinEvent_resolves db e :
  match joinEvent db e with
  | Some r => resolves db e = true
              /\ id r = e_id e /\ status r = e_status e /\ name r = e_name e
  | None => resolves db e = false
  end.
Proof.
  unfold joinEvent, resolves.
  destruct (cities db !! e_city_id e) as [c|];
    destruct (regions db !! e_region_id e) as [r|]; simpl; auto.
Qed.

Lemma omap_joinEvent_resolved db (l : list EventsRow) :
  Forall2 (fun e r => id r = e_id e /\ status r = e_status e /\ name r = e_name e)
          (List.filter (resolves db) l) (omap (joinEvent db) l).
Proof.
  induction l as [| e l IH]; simpl; [constructor|].
  pose proof (joinEvent_resolves db e) as He.
  destruct (joinEvent db e) as [r|].
  - destruct He as (-> & Hfields). constructor; assumption.
  - rewrite He. exact IH.
Qed.

Lemma buildDocuments_resolved D db :
  Forall2 (fun e d => doc_id d = String_of_Z (e_id e) /\ doc_status d = e_status e
                      /\ doc_name d = e_name e)
          (List.filter (resolves db)
             (List.filter (fun e => indexable (e_status e)) (events db)))
          (buildDocuments D db).
Proof.
  unfold buildDocuments, selectIndexable.
  pose proof (omap_joinEvent_resolved db
                (List.filter (fun e => indexable (e_status e)) (events db))) as H.
  apply Forall2_fmap_r.
  eapply Forall2_impl; [exact H|]. simpl.
  intros e r (Hid & Hst & Hn). rewrite <- Hid, <- Hst, <- Hn. auto.
Qed.

Lemma filter_resolves_all db (l : list EventsRow) :
  Forall (references_resolve db) l -> List.filter (resolves db) l = l.
Proof.
  induction 1 as [| e l [Hc Hr] _ IH]; simpl; [reflexivity|].
  unfold resolves at 1. rewrite !bool_decide_eq_true_2 by assumption. simpl.
  rewrite IH. reflexivity.
Qed.

(** C1, as the code has it: in every state of the store and of the engine,
    [fullReindex] asks the engine to delete and then to create the
    collection; selects the events whose status is announced or confirmed
    and whose city and region are rows of the store (the select joins
    both), and builds one document for each of them and for no other;
    submits these documents in that order in batches of 100 (the last one
    may be shorter), whatever the outcome of earlier batches; and returns
    [(indexed, errors)], where a batch the engine accepts in full adds its
    size to [indexed], and a batch whose request fails or in which a
    document fails adds its size to [errors], so that [indexed + errors] is
    the number of selected events. When every announced or confirmed event
    has its city and its region, the selected events are all of them. The
    collection holds, in the end, what the accepted documents make of an
    empty collection. *)
Theorem fullReindex_indexes_every_selected_event
    (B : Behaviour) (D : DateOps) (db : Database) (s : Engine) :
  let listed := List.filter (fun e => indexable (e_status e)) (events db) in
  let selected := List.filter (resolves db) listed in
  let documents := buildDocuments D db in
  let log := calls s ++ [CollectionDelete; CollectionCreate] in
  exists batches indexed errors docs,
    Forall2 (fun e d => doc_id d = String_of_Z (e_id e) /\ doc_status d = e_status e
                        /\ doc_name d = e_name e) selected documents
    /\ concat batches = documents
    /\ Forall (fun b => (0 < length b <= BATCH_SIZE)%nat) batches
    /\ Forall (fun b => length b = BATCH_SIZE) (removelast batches)
    /\ replay B log batches (0, 0) ∅ = ((indexed, errors), docs)
    /\ fullReindex B D db s
       = (Return (indexed, errors),
          {| collection := Some docs; calls := log ++ List.map DocumentsImport batches |})
    /\ indexed + errors = len selected
    /\ (Forall (references_resolve db) listed -> selected = listed).
Proof.
  intros listed selected documents log.
  pose proof (buildDocuments_resolved D db) as Hdocs.
  fold listed in Hdocs. fold selected in Hdocs. fold documents in Hdocs.
  set (s1 := {| collection := Some ∅; calls := log |}).
  destruct (importLoop_replay B (length documents) documents O (0, 0) s1 ∅ eq_refl)
    as (batches & Hcat & Hlen & Hfull & Hrun); [lia|].
  rewrite drop_0 in Hcat. simpl in Hrun.
  destruct (replay B log batches (0, 0) ∅) as [[indexed errors] docs] eqn:Hreplay.
  exists batches, indexed, errors, docs.
  split; [exact Hdocs|]. split; [exact Hcat|]. split; [exact Hlen|]. split; [exact Hfull|].
  split; [exact Hreplay|]. split; [|split].
  - unfold fullReindex. unfold bind at 1. rewrite try_collection_delete.
    unfold bind at 1. rewrite collection_create_fresh.
    rewrite <- app_assoc. exact Hrun.
  - pose proof (replay_counts_sum B batches log (0, 0) ∅) as Hsum.
    rewrite Hreplay, Hcat in Hsum. simpl in Hsum. rewrite Hsum.
    pose proof (Forall2_length _ _ _ Hdocs) as Hsame.
    unfold len. lia.
  - apply filter_resolves_all.
Qed.

(** C1 on the sample store: two of the three events are selected, they go
    out in one batch, and the engine refuses the second document. The batch
    is counted as two errors, and the document of event 10, which the engine
    accepted, is in the collection. *)
Lemma fullReindex_indexes_every_selected_event_witness :
  (exists batches indexed errors docs,
     Forall2 (fun e d => doc_id d = String_of_Z (e_id e) /\ doc_status d = e_status e
                         /\ doc_name d = e_name e)
             (List.filter (resolves sample_db)
                (List.filter (fun e => indexable (e_status e)) (events sample_db)))
             (buildDocuments sample_dates sample_db)
     /\ concat batches = buildDocuments sample_dates sample_db
     /\ Forall (fun b => (0 < length b <= BATCH_SIZE)%nat) batches
     /\ Forall (fun b => length b = BATCH_SIZE) (removelast batches)
     /\ replay second_fails (calls empty_engine ++ [CollectionDelete; CollectionCreate])
               batches (0, 0) ∅ = ((indexed, errors), docs)
     /\ fullReindex second_fails sample_dates sample_db empty_engine
        = (Return (indexed, errors),
           {| collection := Some docs;
              calls := (calls empty_engine ++ [CollectionDelete; CollectionCreate])
                       ++ List.map DocumentsImport batches |})
     /\ indexed + errors
        = len (List.filter (resolves sample_db)
                 (List.filter (fun e => indexable (e_status e)) (events sample_db)))
     /\ (Forall (references_resolve sample_db)
                (List.filter (fun e => indexable (e_status e)) (events sample_db)) ->
         List.filter (resolves sample_db)
           (List.filter (fun e => indexable (e_status e)) (events sample_db))
         = List.filter (fun e => indexable (e_status e)) (events sample_db)))
  /\ fst (fullReindex second_fails sample_dates sample_db empty_engine) = Return (0, 2)
  /\ (exists docs,
        collection (snd (fullReindex second_fails sample_dates sample_db empty_engine))
        = Some docs
        /\ is_Some (docs !! js "10") /\ docs !! js "12" = None).
Proof.
  split; [|split].
  - exact (fullReindex_indexes_every_selected_event
             second_fails sample_dates sample_db empty_engine).
  - vm_compute. reflexivity.
  - eexists. split; [vm_compute; reflexivity|]. vm_compute. eauto.
Defined.

(** C1 fails as stated: the store [stray_db] has three events whose status
    is announced or confirmed, and the city of event 13 is no row of
    [cities]. The select leaves event 13 out, and on an engine that accepts
    every document [fullReindex] returns [(2, 0)] and writes no document for
    it. *)
Lemma fullReindex_skips_event_without_city :
  List.map e_id (List.filter (fun e => indexable (e_status e)) (events stray_db))
  = [10; 12; 13]
  /\ fst (fullReindex all_accepted sample_dates stray_db empty_engine) = Return (2, 0)
  /\ 2 + 0 <> len (List.filter (fun e => indexable (e_status e)) (events stray_db))
  /\ (exists docs,
        collection (snd (fullReindex all_accepted sample_dates stray_db empty_engine))
        = Some docs
        /\ is_Some (docs !! js "10") /\ is_Some (docs !! js "12")
        /\ docs !! js "13" = None).
Proof.
  split; [vm_compute; reflexivity|].
  split; [vm_compute; reflexivity|].
  split; [vm_compute; discriminate|].
  eexists. split; [vm_compute; reflexivity|]. vm_compute. eauto.
Defined.

Lemma try_document_delete key s :
  try_catch (document_delete key) (ret tt) s = (Return tt, after_delete key s).
Proof.
  destruct s as [[docs|] log]; unfold after_delete; [|reflexivity].
  unfold try_catch, document_delete, bind, request, get_collection. simpl.
  destruct (docs !! key) eqn:Hk; simpl; [reflexivity|].
  unfold ret. rewrite delete_id by exact Hk. reflexivity.
Qed.

Lemma selectEvent_first db eventId :
  Forall (fun e => e_id e = eventId -> references_resolve db e) (events db) ->
  match List.find (fun e => bool_decide (e_id e = eventId)) (events db) with
  | Some e => e_id e = eventId
              /\ exists r, selectEvent db eventId = Some r /\ joinEvent db e = Some r
  | None => selectEvent db eventId = None
  end.
Proof.
  unfold selectEvent. induction 1 as [| e l He _ IH]; simpl; [reflexivity|].
  destruct (bool_decide (e_id e = eventId)) eqn:Hid.
  - apply bool_decide_eq_true in Hid. split; [exact Hid|].
    destruct (joinEvent_Some db e (He Hid)) as (r & Hr & _).
    exists r. simpl. rewrite Hr. split; reflexivity.
  - exact IH.
Qed.



Lemma js_inj (a b : string) : js a = js b -> a = b.
Proof.
  unfold js. intros H.
  rewrite <- (string_of_list_ascii_of_string a), <- (string_of_list_ascii_of_string b).
  f_equal. revert H.
  generalize (list_ascii_of_string a) (list_ascii_of_string b).
  induction l as [| x l IH]; intros [| y l']; simpl; intros H; try discriminate; [reflexivity|].
  injection H as Hxy Hl. f_equal; [|apply IH; exact Hl].
  rewrite <- (ascii_N_embedding x), <- (ascii_N_embedding y), Hxy. reflexivity.
Qed.

Lemma String_of_Z_inj (a b : Z) : String_of_Z a = String_of_Z b -> a = b.
Proof.
  unfold String_of_Z. intros H. apply js_inj in H.
  assert (Hisi : forall z, NilZero.int_of_string (NilZero.string_of_int (Z.to_int z))
                           = Some (Z.to_int z)).
  { intros z. apply NilZero.isi; destruct z; simpl; try discriminate;
      intros [= Hnil]; exact (Unsigned.to_uint_nonnil _ Hnil). }
  pose proof (Hisi a) as Ha. rewrite H, Hisi in Ha. injection Ha as Ha.
  rewrite <- (DecimalZ.of_to a), <- (DecimalZ.of_to b), Ha. reflexivity.
Qed.

Lemma upsert_accepted_all batch docs :
  upsert_accepted batch (List.map (fun _ => true) batch) docs = upsert_all batch docs.
Proof.
  unfold upsert_all. revert docs. induction batch as [| d batch IH]; intros docs; simpl;
    [reflexivity | apply IH].
Qed.

Lemma upsert_all_app l1 l2 docs :
  upsert_all (l1 ++ l2) docs = upsert_all l2 (upsert_all l1 docs).
Proof. unfold upsert_all. apply fold_left_app. Qed.

Lemma forallb_all_true {A : Type} (batch : list A) :
  forallb (fun ok => ok) (List.map (fun _ => true) batch) = true.
Proof. induction batch; simpl; auto. Qed.

Lemma replay_all_accepted B batches :
  accepts_everything B ->
  forall log counters docs,
    replay B log batches counters docs
    = ((counters.1 + len (concat batches), counters.2), upsert_all (concat batches) docs).
Proof.
  intros HB. induction batches as [| b rest IH]; intros log counters docs; simpl.
  - unfold len. simpl. rewrite Z.add_0_r. destruct counters. reflexivity.
  - rewrite IH, HB. simpl. rewrite forallb_all_true, upsert_accepted_all, upsert_all_app.
    unfold len. simpl. rewrite length_app. f_equal. f_equal; lia.
Qed.

Lemma upsert_all_lookup l : forall docs key d,
  upsert_all l docs !! key = Some d ->
  docs !! key = Some d \/ (In d l /\ doc_id d = key).
Proof.
  unfold upsert_all. induction l as [| x l IH]; intros docs key d; simpl; [auto|].
  intros H. apply IH in H as [H | [H1 H2]]; [|right; auto].
  destruct (decide (doc_id x = key)) as [Heq | Hne].
  - subst key. rewrite lookup_insert_eq in H. injection H as <-. right. auto.
  - rewrite lookup_insert_ne in H by exact Hne. left. exact H.
Qed.

Lemma upsert_all_present l : forall docs key,
  is_Some (upsert_all l docs !! key)
  <-> is_Some (docs !! key) \/ exists d, In d l /\ doc_id d = key.
Proof.
  unfold upsert_all. induction l as [| x l IH]; intros docs key; simpl.
  - split; [auto | intros [H | (d & [] & _)]; exact H].
  - rewrite IH. destruct (decide (doc_id x = key)) as [Heq | Hne].
    + subst key. rewrite lookup_insert_eq. split.
      * intros _. right. exists x. auto.
      * intros _. left. eauto.
    + rewrite lookup_insert_ne by exact Hne. split.
      * intros [H | (d & Hd & Hk)]; [left; exact H | right; exists d; auto].
      * intros [H | (d & [-> | Hd] & Hk)]; [left; exact H | contradiction |
                                              right; exists d; auto].
Qed.

Lemma Forall2_In_l {A B : Type} (P : A -> B -> Prop) l k x :
  Forall2 P l k -> In x l -> exists y, In y k /\ P x y.
Proof.
  induction 1 as [| a b l k Hab _ IH]; intros Hin; [contradiction|].
  destruct Hin as [-> | Hin].
  - exists b. split; [left; reflexivity | exact Hab].
  - destruct (IH Hin) as (y & Hy & Hp). exists y. split; [right; exact Hy | exact Hp].
Qed.

Lemma Forall2_In_r {A B : Type} (P : A -> B -> Prop) l k y :
  Forall2 P l k -> In y k -> exists x, In x l /\ P x y.
Proof.
  induction 1 as [| a b l k Hab _ IH]; intros Hin; [contradiction|].
  destruct Hin as [-> | Hin].
  - exists a. split; [left; reflexivity | exact Hab].
  - destruct (IH Hin) as (x & Hx & Hp). exists x. split; [right; exact Hx | exact Hp].
Qed.

(** X3, projection parity: when the engine accepts every document, a full
    reindex of a store whose indexable events reference existing cities and
    regions returns [(n, 0)] for the [n] events whose status is announced or
    confirmed, and leaves a collection whose keys are exactly the ids of
    these events, written in decimal, each key holding a document built for
    that id; different ids give different keys. *)
Theorem fullReindex_projection_parity
    (B : Behaviour) (D : DateOps) (db : Database) (s : Engine) :
  let selected := List.filter (fun e => indexable (e_status e)) (events db) in
  Forall (references_resolve db) selected ->
  accepts_everything B ->
  exists docs log,
    fullReindex B D db s
    = (Return (len selected, 0), {| collection := Some docs; calls := log |})
    /\ (forall key, is_Some (docs !! key)
                    <-> exists e, In e selected /\ key = String_of_Z (e_id e))
    /\ (forall key d, docs !! key = Some d -> doc_id d = key /\ In d (buildDocuments D db))
    /\ (forall e1 e2, String_of_Z (e_id e1) = String_of_Z (e_id e2) -> e_id e1 = e_id e2).
Proof.
  intros selected Hfk HB.
  pose proof (buildDocuments_selected D db Hfk) as Hdocs. fold selected in Hdocs.
  set (documents := buildDocuments D db) in *.
  set (log := calls s ++ [CollectionDelete; CollectionCreate]).
  destruct (importLoop_replay B (length documents) documents O (0, 0)
              {| collection := Some ∅; calls := log |} ∅ eq_refl)
    as (batches & Hcat & _ & _ & Hrun); [lia|].
  rewrite drop_0 in Hcat. simpl in Hrun.
  rewrite (replay_all_accepted B batches HB), Hcat in Hrun. simpl in Hrun.
  exists (upsert_all documents ∅), (log ++ List.map DocumentsImport batches).
  split; [|split; [|split]].
  - unfold fullReindex. unfold bind at 1. rewrite try_collection_delete.
    unfold bind at 1. rewrite collection_create_fresh.
    rewrite <- app_assoc. refine (eq_trans Hrun _).
    pose proof (Forall2_length _ _ _ Hdocs) as Hlen. unfold len. rewrite Hlen. reflexivity.
  - intros key. rewrite upsert_all_present, lookup_empty. split.
    + intros [[x Hx] | (d & Hd & Hk)]; [discriminate|].
      destruct (Forall2_In_r _ _ _ _ Hdocs Hd) as (e & He & Hid & _).
      exists e. split; [exact He|]. rewrite <- Hk, Hid. reflexivity.
    + intros (e & He & ->). right.
      destruct (Forall2_In_l _ _ _ _ Hdocs He) as (d & Hd & Hid & _).
      exists d. split; [exact Hd | exact Hid].
  - intros key d H. apply upsert_all_lookup in H as [H | [H1 H2]].
    + rewrite lookup_empty in H. discriminate.
    + split; assumption.
  - intros e1 e2. apply String_of_Z_inj.
Qed.

(** X3 on the sample store. *)
Lemma fullReindex_projection_parity_witness :
  Forall (references_resolve sample_db)
         (List.filter (fun e => indexable (e_status e)) (events sample_db))
  /\ accepts_everything all_accepted
  /\ exists docs log,
       fullReindex all_accepted sample_dates sample_db empty_engine
       = (Return (2, 0), {| collection := Some docs; calls := log |})
       /\ (forall key, is_Some (docs !! key) <-> key = js "10" \/ key = js "12").
Proof.
  assert (H : Forall (references_resolve sample_db)
                (List.filter (fun e => indexable (e_status e)) (events sample_db))).
  { simpl. repeat constructor; simpl; rewrite lookup_singleton_eq; eauto. }
  assert (HB : accepts_everything all_accepted) by (intros log batch; reflexivity).
  split; [exact H|]. split; [exact HB|].
  destruct (fullReindex_projection_parity all_accepted sample_dates sample_db empty_engine H HB)
    as (docs & log & Hrun & Hkeys & _).
  exists docs, log. split; [exact Hrun|].
  intros key. rewrite Hkeys.
  change (List.filter (fun e => indexable (e_status e)) (events sample_db))
    with [event_row 10 "gnaoua" "confirmed"; event_row 12 "mawazine" "announced"].
  split.
  - intros (e & [<- | [<- | []]] & ->); [left | right]; reflexivity.
  - intros [-> | ->].
    + exists (event_row 10 "gnaoua" "confirmed"). split; [left; reflexivity | reflexivity].
    + exists (event_row 12 "mawazine" "announced").
      split; [right; left; reflexivity | reflexivity].
Defined.


End SearchSyncProps.

(** ** Event types *)

Module EventTypeProps.
Import JsString SheetsClient.

Lemma own_property_category_map key v :
  own_property category_map key = Some v ->
  exists t, v = Types.EventType_value t.
Proof.
  unfold category_map. simpl.
  repeat (destruct (bool_decide _);
          [ intros [= <-];
            first [ exists Types.festival; reflexivity
                  | exists Types.ritual; reflexivity
                  | exists Types.showcase; reflexivity
                  | exists Types.conference; reflexivity ] | ]).
  discriminate.
Qed.

(** C8 as stated fails twice. The taxonomy's enum has the member MOUSSEM,
    whose value [moussem] is none of the five canonical strings; and for the
    category [Constructor] the lookup [map["constructor"]] finds the function
    every object inherits, which [categoryToEventType] returns as it is. *)
Lemma taxonomy_and_inherited_keys_leave_the_set :
  ~ In (Taxonomy.EventType_value Taxonomy.MOUSSEM) Types.EventType_values
  /\ categoryToEventType AsciiUnicode (js "Constructor") = VFunction (js "constructor")
  /\ forall t, categoryToEventType AsciiUnicode (js "Constructor")
               <> VString (Types.EventType_value t).
Proof.
  split; [|split].
  - vm_compute. intuition discriminate.
  - vm_compute. reflexivity.
  - intros t. vm_compute. discriminate.
Qed.

(** C8, amended: the strings of the canonical EventType union are festival,
    concert, showcase, ritual and conference, and [categoryToEventType]
    returns one of them, festival by default, for every category whose
    lower-cased form is not a name that objects inherit from
    [Object.prototype]. The enum of the taxonomy module is another set:
    festival, concert, moussem, lila, showcase and gathering. *)
Theorem event_types_of_union_and_categories (U : Unicode) (category : list N) :
  ~ In (toLowerCase U category) inherited_names ->
  (exists t, categoryToEventType U category = VString (Types.EventType_value t))
  /\ (own_property category_map (toLowerCase U category) = None ->
      categoryToEventType U category = VString (js "festival"))
  /\ Types.EventType_values
     = [js "festival"; js "concert"; js "showcase"; js "ritual"; js "conference"]
  /\ (forall t, In (Types.EventType_value t) Types.EventType_values)
  /\ (forall t, In (Taxonomy.EventType_value t)
                   [js "festival"; js "concert"; js "moussem"; js "lila";
                    js "showcase"; js "gathering"]).
Proof.
  intros Hown.
  assert (Hdefault : own_property category_map (toLowerCase U category) = None ->
                     categoryToEventType U category = VString (js "festival")).
  { intros Hnone. unfold categoryToEventType, get_property. rewrite Hnone.
    rewrite bool_decide_eq_false_2 by (intros Heq; apply Hown; left; symmetry; exact Heq).
    rewrite bool_decide_eq_false_2
      by (intros Hin; apply Hown; right; apply list_elem_of_In; exact Hin).
    reflexivity. }
  split; [|split; [exact Hdefault|split; [reflexivity|split]]].
  - destruct (own_property category_map (toLowerCase U category)) as [v|] eqn:Hv.
    + destruct (own_property_category_map _ _ Hv) as (t & ->).
      exists t. unfold categoryToEventType, get_property. rewrite Hv.
      destruct t; reflexivity.
    + exists Types.festival. apply Hdefault. reflexivity.
  - intros []; vm_compute; tauto.
  - intros []; vm_compute; tauto.
Qed.

(** The amended C8 at the category [Heritage]. *)
Lemma event_types_of_union_and_categories_witness :
  ~ In (toLowerCase AsciiUnicode (js "Heritage")) inherited_names
  /\ categoryToEventType AsciiUnicode (js "Heritage") = VString (js "ritual")
  /\ exists t, categoryToEventType AsciiUnicode (js "Heritage")
               = VString (Types.EventType_value t).
Proof.
  assert (H : ~ In (toLowerCase AsciiUnicode (js "Heritage")) inherited_names).
  { vm_compute. intuition discriminate. }
  split; [exact H|]. split; [vm_compute; reflexivity|].
  apply (event_types_of_union_and_categories AsciiUnicode (js "Heritage") H).
Defined.

End EventTypeProps.

(** ** The data client *)

Module SheetsClientProps.
Import JsString SheetsClient SheetsClientSpec.

(** *** [fetchEvents] *)


(** Three calls in a row: the first fetch succeeds; the second, ten minutes
    later, meets a store that answers with an error; the third, a minute
    after, meets a row that does not decode. The first list is returned each
    time. *)
Example fetchEvents_serves_last_success :
  let ok := {| now_at_check := 1000; response := StoreAnswers (Some [Some gnaoua]) None;
               now_at_store := 1200 |} in
  let failed := {| now_at_check := 601200;
                   response := StoreAnswers None (Some StoreError);
                   now_at_store := 601300 |} in
  let undecodable := {| now_at_check := 661200;
                        response := StoreAnswers (Some [Some timitar; None]) None;
                        now_at_store := 661300 |} in
  let c1 := snd (fetchEvents decode initial_cache ok) in
  let c2 := snd (fetchEvents decode c1 failed) in
  fst (fetchEvents decode initial_cache ok) = Return [gnaoua]
  /\ fst (fetchEvents decode c1 failed) = Return [gnaoua]
  /\ fst (fetchEvents decode c2 undecodable) = Return [gnaoua]
  /\ fst (fetchEvents decode initial_cache failed) = Return [].
Proof. vm_compute. auto. Qed.

(** *** [getUpcomingEvents] *)

Lemma string_of_uint_digits (d : Decimal.uint) :
  Forall (fun c => is_digit c = true) (js (NilEmpty.string_of_uint d)).
Proof. induction d; simpl; constructor; (reflexivity || assumption). Qed.

Lemma String_of_Z_abs_digits (n : Z) :
  Forall (fun c => is_digit c = true) (String_of_Z (Z.abs n))
  /\ String_of_Z (Z.abs n) <> [].
Proof.
  unfold String_of_Z.
  assert (H : forall d, Forall (fun c => is_digit c = true) (js (NilZero.string_of_uint d))
                        /\ js (NilZero.string_of_uint d) <> []).
  { intros d. split.
    - destruct d; try apply string_of_uint_digits. repeat constructor.
    - destruct d; discriminate. }
  destruct n as [| p | p]; simpl.
  - split; [repeat constructor | discriminate].
  - apply (H (Pos.to_uint p)).
  - apply (H (Pos.to_uint p)).
Qed.

Lemma pad_digits width n :
  Forall (fun c => is_digit c = true) (pad width n) /\ pad width n <> [].
Proof.
  unfold pad. destruct (String_of_Z_abs_digits n) as [Hd Hne]. split.
  - apply Forall_app. split; [|exact Hd].
    apply Forall_forall. intros c Hc. apply elem_of_replicate in Hc as [-> _]. reflexivity.
  - intros H. apply app_eq_nil in H. tauto.
Qed.

Lemma before_first_app sep prefix rest :
  Forall (fun c => c <> sep) prefix ->
  before_first sep (prefix ++ sep :: rest) = prefix.
Proof.
  induction 1 as [| c prefix Hc _ IH]; simpl.
  - rewrite N.eqb_refl. reflexivity.
  - apply N.eqb_neq in Hc. rewrite Hc, IH. reflexivity.
Qed.

Lemma digit_not_T c : is_digit c = true -> c <> 84%N.
Proof. unfold is_digit. intros H ->. discriminate H. Qed.

Lemma today_is_date_part now : today now = date_part now.
Proof.
  assert (Hsplit : exists rest, toISOString now = date_part now ++ 84%N :: rest).
  { eexists. unfold toISOString, date_part. repeat rewrite <- app_assoc. reflexivity. }
  destruct Hsplit as (rest & Hsplit). unfold today. rewrite Hsplit.
  apply before_first_app. unfold date_part.
  assert (Hpad : forall w n, Forall (fun c => c <> 84%N) (pad w n)).
  { intros w n. eapply Forall_impl; [apply pad_digits|]. apply digit_not_T. }
  assert (Hdash : Forall (fun c => c <> 84%N) (js "-")) by (repeat constructor; discriminate).
  apply Forall_app. split.
  - destruct ((0 <=? year now) && (year now <=? 9999)); [apply Hpad|].
    apply Forall_app. split; [|apply Hpad].
    destruct (year now <? 0); repeat constructor; discriminate.
  - repeat first [apply Hpad | exact Hdash | apply Forall_app; split].
Qed.

Lemma today_nonempty now : today now <> [].
Proof.
  rewrite today_is_date_part. unfold date_part.
  destruct ((0 <=? year now) && (year now <=? 9999)).
  - intros H. apply app_eq_nil in H as [H _]. exact (proj2 (pad_digits 4 (year now)) H).
  - destruct (year now <? 0); discriminate.
Qed.

Lemma sort_insert_Permutation {A : Type} (cmp : A -> A -> Z) x l :
  Permutation (sort_insert cmp x l) (x :: l).
Proof.
  induction l as [| y l IH]; simpl; [reflexivity|].
  destruct (cmp x y <=? 0); [reflexivity|].
  rewrite IH. apply perm_swap.
Qed.

Lemma Array_sort_Permutation {A : Type} (cmp : A -> A -> Z) l :
  Permutation (Array_sort cmp l) l.
Proof.
  unfold Array_sort. induction l as [| x l IH]; simpl; [reflexivity|].
  rewrite sort_insert_Permutation, IH. reflexivity.
Qed.

Section Sorted.
Context {A : Type} (cmp : A -> A -> Z).
Hypothesis cmp_total : forall a b, cmp a b <= 0 \/ cmp b a <= 0.
Hypothesis cmp_trans : forall a b c, cmp a b <= 0 -> cmp b c <= 0 -> cmp a c <= 0.

Lemma sort_insert_sorted x l :
  StronglySorted (fun a b => cmp a b <= 0) l ->
  StronglySorted (fun a b => cmp a b <= 0) (sort_insert cmp x l).
Proof.
  induction 1 as [| y l Hl IH Hy]; simpl.
  - repeat constructor.
  - destruct (cmp x y <=? 0) eqn:Hxy.
    + apply Z.leb_le in Hxy. constructor; [constructor; assumption|].
      constructor; [exact Hxy|].
      eapply Forall_impl; [exact Hy|]. intros z Hz. exact (cmp_trans _ _ _ Hxy Hz).
    + apply Z.leb_gt in Hxy. constructor; [exact IH|].
      eapply Permutation_Forall; [symmetry; apply sort_insert_Permutation|].
      constructor; [|exact Hy].
      destruct (cmp_total x y) as [H | H]; [lia | exact H].
Qed.

Lemma Array_sort_sorted l :
  StronglySorted (fun a b => cmp a b <= 0) (Array_sort cmp l).
Proof.
  unfold Array_sort. induction l as [| x l IH]; simpl; [constructor|].
  apply sort_insert_sorted. exact IH.
Qed.

End Sorted.

Lemma N_compare_trans (x y z : N) (c : comparison) :
  (x ?= y)%N = c -> (y ?= z)%N = c -> (x ?= z)%N = c.
Proof.
  destruct c; intros H1 H2.
  - apply N.compare_eq_iff in H1, H2. apply N.compare_eq_iff. congruence.
  - apply N.compare_lt_iff in H1. apply N.compare_lt_iff in H2.
    apply N.compare_lt_iff. exact (N.lt_trans _ _ _ H1 H2).
  - apply N.compare_gt_iff in H1. apply N.compare_gt_iff in H2.
    apply N.compare_gt_iff. exact (N.lt_trans _ _ _ H2 H1).
Qed.

Lemma compare_antisym (a b : list N) : compare b a = CompOpp (compare a b).
Proof.
  unfold compare. apply list_compare_antisym.
  - apply N.compare_eq_iff.
  - intros x y. apply N.compare_antisym.
Qed.

Lemma codeUnitCompare_total (a b : list N) :
  codeUnitCompare a b <= 0 \/ codeUnitCompare b a <= 0.
Proof.
  unfold codeUnitCompare. rewrite (compare_antisym a b).
  destruct (compare a b); simpl; lia.
Qed.

Lemma codeUnitCompare_trans (a b c : list N) :
  codeUnitCompare a b <= 0 -> codeUnitCompare b c <= 0 -> codeUnitCompare a c <= 0.
Proof.
  unfold codeUnitCompare.
  destruct (compare a b) eqn:Hab; [| |lia];
    destruct (compare b c) eqn:Hbc; try lia; intros _ _.
  - apply (list_compare_refl N.compare N.compare_eq_iff) in Hab, Hbc. subst.
    unfold compare. rewrite (proj2 (list_compare_refl N.compare N.compare_eq_iff c c) eq_refl).
    lia.
  - apply (list_compare_refl N.compare N.compare_eq_iff) in Hab. subst. rewrite Hbc. lia.
  - apply (list_compare_refl N.compare N.compare_eq_iff) in Hbc. subst. rewrite Hab. lia.
  - unfold compare in *.
    rewrite (list_compare_trans N.compare N.compare_eq_iff a b c
               N_compare_trans (fun x y => N.compare_antisym x y) Hab Hbc).
    lia.
Qed.

(** C10 as stated fails for malformed dates: on 3 November 2026 an event
    whose start date is the text [TBD] is returned as upcoming, since [T]
    comes after [2]; a past event is left out. *)
Lemma getUpcomingEvents_keeps_malformed_date :
  getUpcomingEvents codeUnitCompare clock [timitar; tbd; gnaoua] = [gnaoua; tbd]
  /\ start_date tbd = js "TBD"
  /\ today clock = js "2026-11-03".
Proof. vm_compute. auto. Qed.

(** C10, amended: for a collation that is a total preorder,
    [getUpcomingEvents] returns the events whose start date, compared as a
    string by code units, is not before today's date in UTC, written
    [YYYY-MM-DD]; it returns them in ascending order of start date under the
    collation. An event with an empty start date is left out. A malformed
    start date is treated by the same comparison: the event is kept when the
    text compares at or after today's date. *)
Theorem getUpcomingEvents_filters_and_sorts
    (localeCompare : list N -> list N -> Z) (now : UtcTime) (events : list SheetEvent) :
  (forall a b, localeCompare a b <= 0 \/ localeCompare b a <= 0) ->
  (forall a b c, localeCompare a b <= 0 -> localeCompare b c <= 0 -> localeCompare a c <= 0) ->
  let upcoming := getUpcomingEvents localeCompare now events in
  today now = date_part now
  /\ Permutation upcoming (List.filter (fun e => geb (start_date e) (today now)) events)
  /\ (forall e, In e upcoming <-> In e events /\ compare (start_date e) (today now) <> Lt)
  /\ StronglySorted (starts_no_later localeCompare) upcoming
  /\ (forall e, start_date e = [] -> ~ In e upcoming).
Proof.
  intros Htotal Htrans upcoming.
  assert (Hperm : Permutation upcoming
                    (List.filter (fun e => geb (start_date e) (today now)) events)).
  { apply Array_sort_Permutation. }
  assert (Hin : forall e, In e upcoming
                          <-> In e events /\ compare (start_date e) (today now) <> Lt).
  { intros e. split.
    - intros H. eapply Permutation_in in H; [|exact Hperm].
      apply filter_In in H as [H1 H2]. split; [exact H1|].
      unfold geb in H2. destruct (compare _ _); discriminate.
    - intros [H1 H2]. eapply Permutation_in; [symmetry; exact Hperm|].
      apply filter_In. split; [exact H1|].
      unfold geb. destruct (compare _ _); [reflexivity | contradiction | reflexivity]. }
  split; [apply today_is_date_part|]. split; [exact Hperm|]. split; [exact Hin|]. split.
  - apply (Array_sort_sorted
             (fun a b : SheetEvent => localeCompare (start_date a) (start_date b))).
    + intros a b. apply Htotal.
    + intros a b c. apply Htrans.
  - intros e Hempty He. apply Hin in He as [_ He]. apply He. rewrite Hempty.
    pose proof (today_nonempty now) as Hne.
    destruct (today now); [contradiction | reflexivity].
Qed.

(** The amended C10 on 3 November 2026, under the code-unit collation. *)
Lemma getUpcomingEvents_filters_and_sorts_witness :
  (forall a b, codeUnitCompare a b <= 0 \/ codeUnitCompare b a <= 0)
  /\ (forall a b c, codeUnitCompare a b <= 0 -> codeUnitCompare b c <= 0 ->
                    codeUnitCompare a c <= 0)
  /\ Permutation (getUpcomingEvents codeUnitCompare clock [timitar; tbd; gnaoua])
                 (List.filter (fun e => geb (start_date e) (today clock))
                              [timitar; tbd; gnaoua])
  /\ StronglySorted (starts_no_later codeUnitCompare)
                    (getUpcomingEvents codeUnitCompare clock [timitar; tbd; gnaoua]).
Proof.
  split; [exact codeUnitCompare_total|]. split; [exact codeUnitCompare_trans|].
  pose proof (getUpcomingEvents_filters_and_sorts codeUnitCompare clock
                [timitar; tbd; gnaoua] codeUnitCompare_total codeUnitCompare_trans) as T.
  split; apply T.
Defined.

End SheetsClientProps.

(** ** Slugs *)

Module SlugProps.
Import JsString Normalizer SheetsClient SheetsQueries SheetsQueriesSpec NormalizerProps.

Lemma slug_char_not_hyphen c : is_slug_char c = true -> c <> 45%N.
Proof. unfold is_slug_char, is_lower, is_digit. intros H ->. discriminate H. Qed.

Lemma hyphen_not_slug_char : is_slug_char 45 = false.
Proof. reflexivity. Qed.

Lemma hyphenate_hd c t :
  List.hd 0%N (hyphenate (c :: t)) = if is_slug_char c then c else 45%N.
Proof.
  revert c. induction t as [| d t IH]; intros c; simpl.
  - destruct (is_slug_char c); reflexivity.
  - destruct (is_slug_char c) eqn:Hc; [reflexivity|].
    destruct (is_slug_char d) eqn:Hd; [reflexivity|].
    specialize (IH d). simpl in IH. rewrite Hd in IH. exact IH.
Qed.

Lemma hyphenate_chars s : Forall slug_char (hyphenate s).
Proof.
  induction s as [| c t IH]; [constructor|].
  simpl. destruct (is_slug_char c) eqn:Hc.
  - constructor; [right; exact Hc | exact IH].
  - destruct t as [| d t']; [repeat constructor; left; reflexivity|].
    destruct (is_slug_char d); [|exact IH]. constructor; [left; reflexivity | exact IH].
Qed.

Lemma no_double_hyphen_cons a l :
  no_double_hyphen l -> (a = 45%N -> List.hd 0%N l <> 45%N) -> no_double_hyphen (a :: l).
Proof.
  destruct l as [| b l]; simpl; [trivial|]. intros Hl Hab. split; [|exact Hl].
  intros [Ha Hb]. exact (Hab Ha Hb).
Qed.

Lemma hyphenate_no_double s : no_double_hyphen (hyphenate s).
Proof.
  induction s as [| c t IH]; [exact I|].
  simpl. destruct (is_slug_char c) eqn:Hc.
  - apply no_double_hyphen_cons; [exact IH|]. intros ->. discriminate Hc.
  - destruct t as [| d t']; [exact I|].
    destruct (is_slug_char d) eqn:Hd; [|exact IH].
    apply no_double_hyphen_cons; [exact IH|].
    intros _. rewrite hyphenate_hd, Hd. exact (slug_char_not_hyphen d Hd).
Qed.

Lemma strip_end_snoc l c :
  strip_end (l ++ [c]) = if (c =? 45)%N then strip_end l else l ++ [c].
Proof.
  unfold strip_end. rewrite rev_app_distr. simpl.
  destruct (c =? 45)%N; [reflexivity|].
  simpl. rewrite rev_involutive. reflexivity.
Qed.

Lemma drop_hyphens_suffix l :
  exists p, l = p ++ drop_hyphens l /\ Forall (fun c => c = 45%N) p.
Proof.
  induction l as [| c l IH]; simpl.
  - exists []. split; [reflexivity | constructor].
  - destruct (c =? 45)%N eqn:Hc.
    + destruct IH as (p & Hp & Hall). exists (c :: p). split.
      * simpl. rewrite <- Hp. reflexivity.
      * constructor; [apply N.eqb_eq; exact Hc | exact Hall].
    + exists []. split; [reflexivity | constructor].
Qed.

Lemma drop_hyphens_hd l : List.hd 0%N (drop_hyphens l) <> 45%N.
Proof.
  induction l as [| c l IH]; simpl; [discriminate|].
  destruct (c =? 45)%N eqn:Hc; [exact IH|]. simpl. apply N.eqb_neq. exact Hc.
Qed.

Lemma strip_end_prefix l :
  exists q, l = strip_end l ++ q /\ Forall (fun c => c = 45%N) q.
Proof.
  induction l as [| c l IH] using rev_ind.
  - exists []. split; [reflexivity | constructor].
  - rewrite strip_end_snoc. destruct (c =? 45)%N eqn:Hc.
    + destruct IH as (q & Hq & Hall). exists (q ++ [c]). split.
      * rewrite app_assoc, <- Hq. reflexivity.
      * apply Forall_app. split; [exact Hall|]. repeat constructor. apply N.eqb_eq. exact Hc.
    + exists []. split; [rewrite app_nil_r; reflexivity | constructor].
Qed.

Lemma strip_end_last l : List.last (strip_end l) 0%N <> 45%N.
Proof.
  induction l as [| c l IH] using rev_ind; [discriminate|].
  rewrite strip_end_snoc. destruct (c =? 45)%N eqn:Hc; [exact IH|].
  rewrite last_last. apply N.eqb_neq. exact Hc.
Qed.

Lemma strip_end_hd l :
  List.hd 0%N l <> 45%N -> List.hd 0%N (strip_end l) <> 45%N.
Proof.
  induction l as [| c l IH] using rev_ind; [trivial|].
  intros Hhd. rewrite strip_end_snoc. destruct (c =? 45)%N eqn:Hc; [|exact Hhd].
  destruct l as [| a l]; [simpl; discriminate|].
  apply IH. exact Hhd.
Qed.

Lemma no_double_hyphen_app_r p l : no_double_hyphen (p ++ l) -> no_double_hyphen l.
Proof.
  induction p as [| a p IH]; simpl; [trivial|].
  destruct (p ++ l) eqn:E; [|intros [_ H]; exact (IH H)].
  apply app_eq_nil in E as [_ ->]. trivial.
Qed.

Lemma no_double_hyphen_app_l l q : no_double_hyphen (l ++ q) -> no_double_hyphen l.
Proof.
  induction l as [| a l IH]; simpl; [trivial|].
  destruct l as [| b l]; [trivial|]. simpl. intros [H1 H2]. split; [exact H1|].
  apply IH. exact H2.
Qed.

Lemma strip_hyphens_well_formed l :
  Forall slug_char l -> no_double_hyphen l -> well_formed_slug (strip_hyphens l).
Proof.
  intros Hchars Hnd. unfold strip_hyphens. fold (strip_end (drop_hyphens l)).
  destruct (drop_hyphens_suffix l) as (p & Hp & _).
  set (t1 := drop_hyphens l) in *.
  destruct (strip_end_prefix t1) as (q & Hq & _).
  assert (Hchars1 : Forall slug_char t1).
  { rewrite Hp in Hchars. apply Forall_app in Hchars. apply Hchars. }
  assert (Hnd1 : no_double_hyphen t1).
  { rewrite Hp in Hnd. exact (no_double_hyphen_app_r _ _ Hnd). }
  split; [|split; [|split]].
  - rewrite Hq in Hchars1. apply Forall_app in Hchars1. apply Hchars1.
  - rewrite Hq in Hnd1. exact (no_double_hyphen_app_l _ _ Hnd1).
  - apply strip_end_hd, drop_hyphens_hd.
  - apply strip_end_last.
Qed.

Lemma slugify_well_formed_slug U s : well_formed_slug (slugify U s).
Proof.
  unfold slugify. apply strip_hyphens_well_formed;
    [apply hyphenate_chars | apply hyphenate_no_double].
Qed.

(** What is left of a string whose [hyphenate] has only hyphens. *)
Lemma hyphenate_only_hyphens s :
  Forall (fun c => c = 45%N) (hyphenate s) <-> Forall (fun c => is_slug_char c = false) s.
Proof.
  induction s as [| c t IH]; [split; constructor|].
  simpl. destruct (is_slug_char c) eqn:Hc.
  - split; intros H; inversion H; subst; [discriminate Hc | congruence].
  - destruct t as [| d t'].
    + split; intros _; repeat constructor. exact Hc.
    + destruct (is_slug_char d) eqn:Hd.
      * split; intros H.
        -- inversion H as [| ? ? _ H']; subst. apply IH in H'.
           constructor; [exact Hc | exact H'].
        -- inversion H as [| ? ? _ H']; subst. constructor; [reflexivity|]. apply IH. exact H'.
      * rewrite IH. split; intros H; [constructor; [exact Hc | exact H]|].
        inversion H; subst; assumption.
Qed.

Lemma drop_hyphens_nil l : drop_hyphens l = [] <-> Forall (fun c => c = 45%N) l.
Proof.
  induction l as [| c l IH]; simpl; [split; [constructor | reflexivity]|].
  destruct (c =? 45)%N eqn:Hc.
  - rewrite IH. split; intros H; [constructor; [apply N.eqb_eq; exact Hc | exact H]|].
    inversion H; assumption.
  - split; [discriminate|]. intros H. inversion H; subst. discriminate Hc.
Qed.

Lemma strip_hyphens_nil l : strip_hyphens l = [] <-> Forall (fun c => c = 45%N) l.
Proof.
  unfold strip_hyphens. split.
  - intros H. apply (f_equal (@rev N)) in H. rewrite rev_involutive in H. simpl in H.
    apply drop_hyphens_nil in H. apply Forall_rev in H. rewrite rev_involutive in H.
    destruct (drop_hyphens_suffix l) as (p & Hp & Hall). rewrite Hp.
    apply Forall_app. split; assumption.
  - intros H. apply drop_hyphens_nil in H. rewrite H. reflexivity.
Qed.

Lemma slug_char_kept c : slug_char c -> negb (is_combining_mark c) = true.
Proof.
  unfold slug_char, is_slug_char, is_combining_mark, is_lower, is_digit.
  intros [-> | H]; [reflexivity|]. rewrite negb_true_iff. n_bool.
Qed.

Lemma hyphenate_fixes l :
  Forall slug_char l -> no_double_hyphen l -> hyphenate l = l.
Proof.
  induction 1 as [| c t Hc Ht IH]; [reflexivity|]. intros Hnd.
  assert (Hnd' : no_double_hyphen t) by (destruct t; [exact I | apply Hnd]).
  simpl. destruct (is_slug_char c) eqn:Hs; [rewrite (IH Hnd'); reflexivity|].
  destruct Hc as [-> | Hc]; [|congruence].
  destruct t as [| d t']; [reflexivity|].
  destruct Hnd as [Hne _]. inversion Ht as [| ? ? Hd _]; subst.
  destruct (is_slug_char d) eqn:Hsd; [rewrite (IH Hnd'); reflexivity|].
  destruct Hd as [-> | Hd]; [|congruence]. exfalso. apply Hne. split; reflexivity.
Qed.

Lemma strip_hyphens_fixes l :
  List.hd 0%N l <> 45%N -> List.last l 0%N <> 45%N -> strip_hyphens l = l.
Proof.
  intros Hhd Hlast. unfold strip_hyphens.
  assert (Hstart : drop_hyphens l = l).
  { destruct l as [| c t]; [reflexivity|]. simpl in *.
    destruct (c =? 45)%N eqn:Hc; [|reflexivity]. apply N.eqb_eq in Hc. contradiction. }
  rewrite Hstart. fold (strip_end l).
  destruct l as [| c t] using rev_ind; [reflexivity|].
  rewrite strip_end_snoc. rewrite last_last in Hlast.
  destruct (c =? 45)%N eqn:Hc; [|reflexivity]. apply N.eqb_eq in Hc. contradiction.
Qed.

Lemma slugify_fixes U r :
  toLowerCase U r = r -> normalizeNFD U r = r -> well_formed_slug r -> slugify U r = r.
Proof.
  intros Hlow Hnfd (Hchars & Hnd & Hhd & Hlast). unfold slugify. rewrite Hlow, Hnfd.
  assert (Hd : remove_diacritics r = r).
  { apply filter_all. eapply Forall_impl; [exact Hchars|]. apply slug_char_kept. }
  rewrite Hd, (hyphenate_fixes r Hchars Hnd). apply strip_hyphens_fixes; assumption.
Qed.

Lemma ascii_lower_slug_char c : slug_char c -> ascii_lower c = c.
Proof.
  unfold slug_char, is_slug_char, ascii_lower, is_upper, is_lower, is_digit.
  intros [-> | H]; [reflexivity|].
  destruct ((65 <=? c)%N && (c <=? 90)%N) eqn:E; [|reflexivity]. n_bool.
Qed.

Lemma AsciiUnicode_fixes_slugs r :
  Forall slug_char r -> toLowerCase AsciiUnicode r = r /\ normalizeNFD AsciiUnicode r = r.
Proof.
  intros H. split; [|reflexivity]. simpl.
  induction H as [| c t Hc _ IH]; [reflexivity|]. simpl.
  rewrite (ascii_lower_slug_char c Hc), IH. reflexivity.
Qed.

(** X4: whatever the text and the Unicode tables, a slug is made of a-z, 0-9
    and hyphens, has no two hyphens in a row and no hyphen at either end. It
    is empty exactly when the text, once lower-cased, decomposed and stripped
    of its diacritics, has no character a-z or 0-9. *)
Theorem slugify_well_formed (U : Unicode) (text : list N) :
  Forall slug_char (slugify U text)
  /\ no_double_hyphen (slugify U text)
  /\ List.hd 0%N (slugify U text) <> 45%N
  /\ List.last (slugify U text) 0%N <> 45%N
  /\ (slugify U text = []
      <-> Forall (fun c => is_slug_char c = false)
                 (remove_diacritics (normalizeNFD U (toLowerCase U text)))).
Proof.
  destruct (slugify_well_formed_slug U text) as (H1 & H2 & H3 & H4).
  repeat (split; [assumption|]).
  unfold slugify. rewrite strip_hyphens_nil. apply hyphenate_only_hyphens.
Qed.

(** X5: when lower-casing and decomposition leave the strings of a-z, 0-9 and
    hyphens alone, [slugify] returns every well-formed slug as it is; so the
    slug of a slug is that slug. *)
Theorem slugify_idempotent (U : Unicode) (text : list N) :
  (forall r, Forall slug_char r -> toLowerCase U r = r /\ normalizeNFD U r = r) ->
  (forall r, well_formed_slug r -> slugify U r = r)
  /\ slugify U (slugify U text) = slugify U text.
Proof.
  intros HU.
  assert (Hfix : forall r, well_formed_slug r -> slugify U r = r).
  { intros r Hr. destruct (HU r (proj1 Hr)) as [Hlow Hnfd].
    apply slugify_fixes; assumption. }
  split; [exact Hfix|]. apply Hfix, slugify_well_formed_slug.
Qed.

(** X5 on a name with capitals, spaces and punctuation, under the ASCII tables. *)
Lemma slugify_idempotent_witness :
  (forall r, Forall slug_char r ->
             toLowerCase AsciiUnicode r = r /\ normalizeNFD AsciiUnicode r = r)
  /\ slugify AsciiUnicode (js "  Moulay Idriss -- Zerhoun! ") = js "moulay-idriss-zerhoun"
  /\ slugify AsciiUnicode (slugify AsciiUnicode (js "  Moulay Idriss -- Zerhoun! "))
     = slugify AsciiUnicode (js "  Moulay Idriss -- Zerhoun! ").
Proof.
  split; [exact AsciiUnicode_fixes_slugs|]. split; [vm_compute; reflexivity|].
  exact (proj2 (slugify_idempotent AsciiUnicode (js "  Moulay Idriss -- Zerhoun! ")
                  AsciiUnicode_fixes_slugs)).
Defined.

End SlugProps.

(** ** Counting loops *)

Module TallyProps.
Import JsString SheetsClient SheetsQueries Scan ScanProps TallySpec SheetsClientProps.

Lemma Map_get_set_same {V : Type} (m : JsMap V) k v : Map_get (Map_set m k v) k = Some v.
Proof.
  induction m as [| [k' w] m IH]; simpl.
  - rewrite bool_decide_eq_true_2 by reflexivity. reflexivity.
  - destruct (bool_decide (k' = k)) eqn:E; simpl; rewrite E; [reflexivity | exact IH].
Qed.

Lemma Map_get_set_other {V : Type} (m : JsMap V) k k' v :
  k <> k' -> Map_get (Map_set m k v) k' = Map_get m k'.
Proof.
  intros Hne. induction m as [| [k0 w] m IH]; simpl.
  - rewrite bool_decide_eq_false_2 by exact Hne. reflexivity.
  - destruct (bool_decide (k0 = k)) eqn:E; simpl.
    + apply bool_decide_eq_true in E. subst k0.
      rewrite bool_decide_eq_false_2 by exact Hne. reflexivity.
    + destruct (bool_decide (k0 = k')); [reflexivity | exact IH].
Qed.

Lemma Map_set_keys {V : Type} (m : JsMap V) k v :
  List.map fst (Map_set m k v)
  = match Map_get m k with
    | Some _ => List.map fst m
    | None => List.map fst m ++ [k]
    end.
Proof.
  induction m as [| [k0 w] m IH]; simpl; [reflexivity|].
  destruct (bool_decide (k0 = k)) eqn:E; simpl; [reflexivity|].
  rewrite IH. destruct (Map_get m k); reflexivity.
Qed.

Lemma Map_get_None {V : Type} (m : JsMap V) k :
  Map_get m k = None <-> ~ In k (List.map fst m).
Proof.
  induction m as [| [k0 w] m IH]; simpl; [tauto|].
  destruct (bool_decide (k0 = k)) eqn:E.
  - apply bool_decide_eq_true in E. split; [discriminate | tauto].
  - apply bool_decide_eq_false in E. rewrite IH. tauto.
Qed.

Lemma Map_get_In {V : Type} (m : JsMap V) k v :
  Map_get m k = Some v -> In (k, v) m.
Proof.
  induction m as [| [k0 w] m IH]; simpl; [discriminate|].
  destruct (bool_decide (k0 = k)) eqn:E.
  - apply bool_decide_eq_true in E. intros [= ->]. left. congruence.
  - intros H. right. exact (IH H).
Qed.

Lemma In_Map_get {V : Type} (m : JsMap V) k v :
  List.NoDup (List.map fst m) -> In (k, v) m -> Map_get m k = Some v.
Proof.
  induction m as [| [k0 w] m IH]; simpl; [tauto|].
  intros Hnd [Hin | Hin].
  - injection Hin as -> ->. rewrite bool_decide_eq_true_2 by reflexivity. reflexivity.
  - inversion Hnd as [| ? ? Hk0 Hnd']; subst.
    destruct (bool_decide (k0 = k)) eqn:E; [|exact (IH Hnd' Hin)].
    apply bool_decide_eq_true in E. subst k0. exfalso. apply Hk0.
    apply in_map_iff. exists (k, v). split; [reflexivity | exact Hin].
Qed.

Section Tally.
Context {A V : Type} (key : A -> list N) (init : A -> V) (bump : V -> V).

Lemma tally_step_keys_NoDup m x :
  List.NoDup (List.map fst m) -> List.NoDup (List.map fst (tally_step key init bump m x)).
Proof.
  intros Hnd. unfold tally_step.
  destruct (Map_get m (key x)) eqn:E; rewrite Map_set_keys, E; [exact Hnd|].
  apply NoDup_ListNoDup. apply NoDup_ListNoDup in Hnd.
  apply NoDup_app. split; [exact Hnd|]. split.
  - intros k Hk Hk'. apply list_elem_of_singleton in Hk'. subst k.
    apply Map_get_None in E. apply E. apply list_elem_of_In. exact Hk.
  - apply NoDup_singleton.
Qed.

Lemma tally_keys_NoDup items : forall m,
  List.NoDup (List.map fst m) ->
  List.NoDup (List.map fst (fold_left (tally_step key init bump) items m)).
Proof.
  induction items as [| x items IH]; intros m Hnd; simpl; [exact Hnd|].
  apply IH, tally_step_keys_NoDup, Hnd.
Qed.

(** What the loop leaves under a key: the entry that was there, bumped once
    per item filed under the key; or the entry of the first such item,
    bumped once per later one. *)
Lemma tally_get items : forall m k,
  Map_get (fold_left (tally_step key init bump) items m) k
  = match Map_get m k with
    | Some v => Some (Nat.iter (List.length (filed key k items)) bump v)
    | None =>
        match filed key k items with
        | [] => None
        | x0 :: rest => Some (Nat.iter (List.length rest) bump (init x0))
        end
    end.
Proof.
  induction items as [| x items IH]; intros m k.
  - simpl. destruct (Map_get m k); reflexivity.
  - cbn [fold_left]. rewrite IH. unfold filed. cbn [List.filter].
    destruct (bool_decide (key x = k)) eqn:E.
    + apply bool_decide_eq_true in E. subst k. unfold tally_step.
      destruct (Map_get m (key x)) as [v|] eqn:Hget; rewrite Map_get_set_same.
      * cbn [List.length]. rewrite Nat.iter_succ_r. reflexivity.
      * reflexivity.
    + apply bool_decide_eq_false in E.
      assert (Hsame : Map_get (tally_step key init bump m x) k = Map_get m k).
      { unfold tally_step. destruct (Map_get m (key x)); apply Map_get_set_other; exact E. }
      rewrite Hsame. reflexivity.
Qed.

Variable cnt : V -> Z.
Hypothesis cnt_bump : forall v, cnt (bump v) = cnt v + 1.
Hypothesis cnt_init : forall x, cnt (init x) = 1.

Lemma total_Map_set_fresh (m : JsMap V) k v :
  Map_get m k = None ->
  total (List.map cnt (Map_values (Map_set m k v))) = total (List.map cnt (Map_values m)) + cnt v.
Proof.
  unfold Map_values. induction m as [| [k0 w] m IH]; simpl; [lia|].
  destruct (bool_decide (k0 = k)); [discriminate|]. intros H. simpl. rewrite (IH H). lia.
Qed.

Lemma total_Map_set_there (m : JsMap V) k v w :
  Map_get m k = Some w ->
  total (List.map cnt (Map_values (Map_set m k v)))
  = total (List.map cnt (Map_values m)) - cnt w + cnt v.
Proof.
  unfold Map_values. induction m as [| [k0 w0] m IH]; simpl; [discriminate|].
  destruct (bool_decide (k0 = k)).
  - intros [= ->]. simpl. lia.
  - intros H. simpl. rewrite (IH H). lia.
Qed.

Lemma tally_total items : forall m,
  total (List.map cnt (Map_values (fold_left (tally_step key init bump) items m)))
  = total (List.map cnt (Map_values m)) + Z.of_nat (List.length items).
Proof.
  induction items as [| x items IH]; intros m; [simpl; lia|].
  cbn [fold_left List.length]. rewrite IH. unfold tally_step.
  destruct (Map_get m (key x)) as [w|] eqn:E.
  - rewrite (total_Map_set_there m _ _ w E), cnt_bump. lia.
  - rewrite (total_Map_set_fresh m _ _ E), cnt_init. lia.
Qed.

Lemma cnt_iter n v : cnt (Nat.iter n bump v) = cnt v + Z.of_nat n.
Proof.
  induction n as [| n IH]; [simpl; lia|].
  rewrite Nat.iter_succ, cnt_bump, IH. lia.
Qed.

End Tally.

Lemma filed_first_such {A : Type} (key : A -> list N) k (items : list A) x0 rest :
  filed key k items = x0 :: rest -> first_such (fun x => key x = k) items x0.
Proof.
  unfold filed. induction items as [| x items IH]; simpl; [discriminate|].
  destruct (bool_decide (key x = k)) eqn:E.
  - intros [= -> _]. apply bool_decide_eq_true in E.
    exists [], items. split; [reflexivity|]. split; [exact E | constructor].
  - intros H. apply bool_decide_eq_false in E.
    destruct (IH H) as (l1 & l2 & -> & Hk & Hall).
    exists (x :: l1), l2. split; [reflexivity|]. split; [exact Hk|].
    constructor; [exact E | exact Hall].
Qed.

Lemma total_Permutation l l' : Permutation l l' -> total l = total l'.
Proof. induction 1; simpl; lia. Qed.

Lemma sorted_by_count {V : Type} (cnt : V -> Z) (l : list V) :
  StronglySorted (fun a b => cnt b <= cnt a) (Array_sort (fun a b => cnt b - cnt a) l).
Proof.
  assert (H : StronglySorted (fun a b => cnt b - cnt a <= 0)
                (Array_sort (fun a b => cnt b - cnt a) l))
    by (apply (Array_sort_sorted (fun a b => cnt b - cnt a)); intros; lia).
  induction H as [| a l' _ IH Ha]; constructor; [exact IH|].
  eapply Forall_impl; [exact Ha|]. simpl. intros b Hb. lia.
Qed.

End TallyProps.

(** ** The aggregation helpers of the data client *)

Module AggregateProps.
Import JsString SheetsClient SheetsQueries Scan ScanProps TallySpec SheetsClientProps TallyProps.
Import SheetsQueriesSpec SlugProps.

Section TallyResult.
Context {A V : Type} (key : A -> list N) (init : A -> V) (bump : V -> V).
Variable cnt : V -> Z.
Variable slug_of : V -> list N.
Hypothesis cnt_bump : forall v, cnt (bump v) = cnt v + 1.
Hypothesis cnt_init : forall x, cnt (init x) = 1.
Hypothesis slug_bump : forall v, slug_of (bump v) = slug_of v.
Hypothesis slug_init : forall x, slug_of (init x) = key x.

Lemma slug_iter n v : slug_of (Nat.iter n bump v) = slug_of v.
Proof. induction n as [| n IH]; [reflexivity|]. rewrite Nat.iter_succ, slug_bump. exact IH. Qed.

Lemma tally_entry items k v :
  In (k, v) (fold_left (tally_step key init bump) items []) ->
  exists x0 rest, filed key k items = x0 :: rest
                  /\ v = Nat.iter (List.length rest) bump (init x0)
                  /\ slug_of v = k.
Proof.
  intros Hin.
  apply In_Map_get in Hin; [|apply tally_keys_NoDup; constructor].
  rewrite tally_get in Hin. simpl in Hin.
  destruct (filed key k items) as [| x0 rest] eqn:E; [discriminate|].
  injection Hin as <-. exists x0, rest. split; [reflexivity|]. split; [reflexivity|].
  rewrite slug_iter, slug_init.
  assert (H : In x0 (filed key k items)) by (rewrite E; left; reflexivity).
  apply filter_In in H as [_ H]. apply bool_decide_eq_true in H. exact H.
Qed.

Lemma tally_result items :
  let r := Array_sort (fun a b => cnt b - cnt a)
             (Map_values (fold_left (tally_step key init bump) items [])) in
  List.NoDup (List.map slug_of r)
  /\ (forall x, In x items -> exists c, In c r /\ slug_of c = key x)
  /\ (forall c, In c r ->
        exists x0 rest, filed key (slug_of c) items = x0 :: rest
                        /\ c = Nat.iter (List.length rest) bump (init x0))
  /\ StronglySorted (fun a b => cnt b <= cnt a) r
  /\ total (List.map cnt r) = Z.of_nat (List.length items).
Proof.
  intros r. set (m := fold_left (tally_step key init bump) items []) in *.
  assert (Hperm : Permutation r (Map_values m)) by apply Array_sort_Permutation.
  assert (Hslugs : List.map slug_of (Map_values m) = List.map fst m).
  { unfold Map_values. rewrite List.map_map. apply List.map_ext_in. intros [k v] Hin.
    destruct (tally_entry items k v Hin) as (_ & _ & _ & _ & H). exact H. }
  split; [|split; [|split; [|split]]].
  - apply NoDup_ListNoDup.
    rewrite (Permutation_map slug_of Hperm), Hslugs.
    apply NoDup_ListNoDup, tally_keys_NoDup. constructor.
  - intros x Hx.
    assert (Hget : exists c, Map_get m (key x) = Some c).
    { unfold m. rewrite tally_get. simpl.
      destruct (filed key (key x) items) as [| x0 rest] eqn:E; [|eexists; reflexivity].
      exfalso. assert (H : In x (filed key (key x) items)).
      { apply filter_In. split; [exact Hx|]. apply bool_decide_eq_true. reflexivity. }
      rewrite E in H. exact H. }
    destruct Hget as (c & Hc). apply Map_get_In in Hc. exists c. split.
    + eapply Permutation_in; [symmetry; exact Hperm|].
      unfold Map_values. apply in_map_iff. exists (key x, c). split; [reflexivity | exact Hc].
    + destruct (tally_entry items _ _ Hc) as (_ & _ & _ & _ & H). exact H.
  - intros c Hc. eapply Permutation_in in Hc; [|exact Hperm].
    unfold Map_values in Hc. apply in_map_iff in Hc as ([k v] & <- & Hin). simpl.
    destruct (tally_entry items k v Hin) as (x0 & rest & Hf & Hv & Hs).
    exists x0, rest. rewrite Hs. split; assumption.
  - apply sorted_by_count.
  - rewrite (total_Permutation _ _ (Permutation_map cnt Hperm)).
    unfold m. rewrite (tally_total key init bump cnt cnt_bump cnt_init). simpl. lia.
Qed.

End TallyResult.

Lemma cc_iter n v :
  cc_name (Nat.iter n cc_increment v) = cc_name v
  /\ cc_region (Nat.iter n cc_increment v) = cc_region v.
Proof.
  induction n as [| n IH]; [split; reflexivity|]. rewrite Nat.iter_succ. exact IH.
Qed.

Lemma c_iter n v : c_name (Nat.iter n c_increment v) = c_name v.
Proof. induction n as [| n IH]; [reflexivity|]. rewrite Nat.iter_succ. exact IH. Qed.

(** X6: [getUniqueCities] lists every city slug of the events once. The
    count of an entry is the number of events of that slug, which is what
    [getEventsByCity] returns for it, and is at least 1; its name and region
    are those of the first event of the slug. The list is in descending order
    of count, and the counts add up to the number of events. *)
Theorem getUniqueCities_counts (events : list SheetEvent) :
  let cities := getUniqueCities events in
  List.NoDup (List.map cc_slug cities)
  /\ (forall e, In e events -> exists c, In c cities /\ cc_slug c = city_slug e)
  /\ (forall c, In c cities ->
        cc_count c = Z.of_nat (List.length (getEventsByCity events (cc_slug c)))
        /\ 1 <= cc_count c
        /\ exists e, first_such (fun e => city_slug e = cc_slug c) events e
                     /\ cc_name c = city e /\ cc_region c = region e)
  /\ StronglySorted (fun a b => cc_count b <= cc_count a) cities
  /\ total (List.map cc_count cities) = Z.of_nat (List.length events).
Proof.
  intros cities.
  pose proof (tally_result city_slug
                (fun event => {| cc_name := city event; cc_slug := city_slug event;
                                 cc_region := region event; cc_count := 1 |})
                cc_increment cc_count cc_slug
                (fun v => eq_refl) (fun x => eq_refl) (fun v => eq_refl) (fun x => eq_refl)
                events) as (H1 & H2 & H3 & H4 & H5).
  change (Array_sort _ _) with cities in H1, H2, H3, H4, H5.
  split; [exact H1|]. split; [exact H2|]. split; [|split; [exact H4 | exact H5]].
  intros c Hc. destruct (H3 c Hc) as (x0 & rest & Hf & Hv).
  assert (Hcount : cc_count c = Z.of_nat (List.length (getEventsByCity events (cc_slug c)))).
  { unfold getEventsByCity. fold (filed city_slug (cc_slug c) events). rewrite Hf.
    rewrite Hv at 1.
    rewrite (cnt_iter cc_increment cc_count (fun v => eq_refl)). simpl. lia. }
  split; [exact Hcount|]. split.
  - rewrite Hcount. unfold getEventsByCity. fold (filed city_slug (cc_slug c) events).
    rewrite Hf. simpl. lia.
  - exists x0. split; [exact (filed_first_such _ _ _ _ _ Hf)|].
    rewrite Hv. destruct (cc_iter (List.length rest)
      {| cc_name := city x0; cc_slug := city_slug x0; cc_region := region x0; cc_count := 1 |})
      as [-> ->]. split; reflexivity.
Qed.

(** X7: [getUniqueRegions] lists every region slug of the events once. The
    count of an entry is the number of events of that slug, at least 1; its
    name is the region of the first event of the slug. The list is in
    descending order of count, and the counts add up to the number of
    events. *)
Theorem getUniqueRegions_counts (events : list SheetEvent) :
  let regions := getUniqueRegions events in
  List.NoDup (List.map c_slug regions)
  /\ (forall e, In e events -> exists c, In c regions /\ c_slug c = region_slug e)
  /\ (forall c, In c regions ->
        c_count c
        = Z.of_nat (List.length
                      (List.filter (fun e => bool_decide (region_slug e = c_slug c)) events))
        /\ 1 <= c_count c
        /\ exists e, first_such (fun e => region_slug e = c_slug c) events e
                     /\ c_name c = region e)
  /\ StronglySorted (fun a b => c_count b <= c_count a) regions
  /\ total (List.map c_count regions) = Z.of_nat (List.length events).
Proof.
  intros regions.
  pose proof (tally_result region_slug
                (fun event => {| c_name := region event; c_slug := region_slug event;
                                 c_count := 1 |})
                c_increment c_count c_slug
                (fun v => eq_refl) (fun x => eq_refl) (fun v => eq_refl) (fun x => eq_refl)
                events) as (H1 & H2 & H3 & H4 & H5).
  change (Array_sort _ _) with regions in H1, H2, H3, H4, H5.
  split; [exact H1|]. split; [exact H2|]. split; [|split; [exact H4 | exact H5]].
  intros c Hc. destruct (H3 c Hc) as (x0 & rest & Hf & Hv).
  fold (filed region_slug (c_slug c) events). rewrite Hf.
  assert (Hcount : c_count c = Z.of_nat (List.length (x0 :: rest))).
  { rewrite Hv at 1. rewrite (cnt_iter c_increment c_count (fun v => eq_refl)). simpl. lia. }
  split; [exact Hcount|]. split; [rewrite Hcount; simpl; lia|].
  exists x0. split; [exact (filed_first_such _ _ _ _ _ Hf)|].
  rewrite Hv, c_iter. reflexivity.
Qed.

Lemma fold_left_concat {A B : Type} (f : B -> A -> B) (ls : list (list A)) : forall b,
  fold_left (fun acc l => fold_left f l acc) ls b = fold_left f (List.concat ls) b.
Proof.
  induction ls as [| l ls IH]; intros b; simpl; [reflexivity|].
  rewrite fold_left_app. apply IH.
Qed.

Lemma getUniqueGenres_tally U events :
  getUniqueGenres U events
  = Array_sort (fun a b => c_count b - c_count a)
      (Map_values
         (fold_left
            (tally_step (slugify U)
               (fun genre => {| c_name := genre; c_slug := slugify U genre; c_count := 1 |})
               c_increment)
            (genre_entries events) [])).
Proof.
  unfold getUniqueGenres, genre_entries. do 2 f_equal.
  rewrite <- fold_left_concat.
  generalize (@nil (list N * Count)).
  induction events as [| e events IH]; intros m; simpl; [reflexivity|]. apply IH.
Qed.

Lemma getUniqueGenres_entry U events c :
  In c (getUniqueGenres U events) ->
  exists g0 rest,
    filed (slugify U) (c_slug c) (genre_entries events) = g0 :: rest
    /\ c_count c = Z.of_nat (List.length (g0 :: rest))
    /\ c_name c = g0.
Proof.
  intros Hc. rewrite getUniqueGenres_tally in Hc.
  destruct (tally_result (slugify U)
              (fun genre => {| c_name := genre; c_slug := slugify U genre; c_count := 1 |})
              c_increment c_count c_slug
              (fun v => eq_refl) (fun x => eq_refl) (fun v => eq_refl) (fun x => eq_refl)
              (genre_entries events)) as (_ & _ & H3 & _).
  destruct (H3 c Hc) as (g0 & rest & Hf & Hv). exists g0, rest. split; [exact Hf|]. split.
  - rewrite Hv at 1. rewrite (cnt_iter c_increment c_count (fun v => eq_refl)). simpl. lia.
  - rewrite Hv, c_iter. reflexivity.
Qed.

(** X8: [getUniqueGenres] groups the genre entries of all the events by
    their slug and lists every slug once. The count of an entry is the number
    of genre entries of that slug, at least 1; its name is the first spelling
    met. The list is in descending order of count, and the counts add up to
    the number of genre entries. *)
Theorem getUniqueGenres_counts (U : Unicode) (events : list SheetEvent) :
  let entries := genre_entries events in
  let listed := getUniqueGenres U events in
  List.NoDup (List.map c_slug listed)
  /\ (forall g, In g entries -> exists c, In c listed /\ c_slug c = slugify U g)
  /\ (forall c, In c listed ->
        c_count c
        = Z.of_nat (List.length
                      (List.filter (fun g => bool_decide (slugify U g = c_slug c)) entries))
        /\ 1 <= c_count c
        /\ exists g, first_such (fun g => slugify U g = c_slug c) entries g /\ c_name c = g)
  /\ StronglySorted (fun a b => c_count b <= c_count a) listed
  /\ total (List.map c_count listed) = Z.of_nat (List.length entries).
Proof.
  intros entries listed.
  pose proof (tally_result (slugify U)
                (fun genre => {| c_name := genre; c_slug := slugify U genre; c_count := 1 |})
                c_increment c_count c_slug
                (fun v => eq_refl) (fun x => eq_refl) (fun v => eq_refl) (fun x => eq_refl)
                entries) as (H1 & H2 & H3 & H4 & H5).
  unfold entries in H1, H2, H3, H4, H5.
  rewrite <- getUniqueGenres_tally in H1, H2, H3, H4, H5.
  fold listed in H1, H2, H3, H4, H5. fold entries in H2, H3, H5.
  split; [exact H1|]. split; [exact H2|]. split; [|split; [exact H4 | exact H5]].
  intros c Hc. destruct (getUniqueGenres_entry U events c Hc) as (g0 & rest & Hf & Hcount & Hn).
  fold (filed (slugify U) (c_slug c) entries). fold entries in Hf. rewrite Hf.
  split; [exact Hcount|]. split; [rewrite Hcount; simpl; lia|].
  exists g0. split; [exact (filed_first_such _ _ _ _ _ Hf) | exact Hn].
Qed.

End AggregateProps.

(** ** The query helpers of the data client *)

Module QueryProps.
Import JsString SheetsClient SheetsQueries Scan ScanProps TallySpec SheetsClientProps TallyProps.
Import SheetsQueriesSpec SlugProps AggregateProps QuerySpec SearchSyncProps.

(** *** [fetchCities] *)

(** X12: [fetchCities] never throws and agrees with [getUniqueCities]: it
    returns the list [getUniqueCities] computes from the events [fetchEvents]
    returns, and leaves the cache as [fetchEvents] leaves it. *)
Theorem fetchCities_tallies_fetched_events
    (Row : Type) (rowToEvent : Row -> Completion SheetEvent) (c : Cache) (w : World Row) :
  exists events,
    fetchEvents rowToEvent c w = (Return events, snd (fetchEvents rowToEvent c w))
    /\ fetchCities rowToEvent c w
       = (Return (getUniqueCities events), snd (fetchEvents rowToEvent c w)).
Proof.
  unfold fetchCities, fetchEvents.
  destruct (cache_is_fresh c (now_at_check w)); [eexists; split; reflexivity|].
  destruct (queryEvents rowToEvent (response w)); [eexists; split; reflexivity|].
  destruct (_cachedEvents c); eexists; split; reflexivity.
Qed.

(** *** [getEventsByGenre] *)

Lemma slugify_of_lower U g s :
  toLowerCase U s = s -> normalizeNFD U s = s -> well_formed_slug s ->
  toLowerCase U g = s -> slugify U g = s.
Proof.
  intros Hlow Hnfd Hwf Hg.
  transitivity (slugify U s); [|exact (slugify_fixes U s Hlow Hnfd Hwf)].
  unfold slugify. rewrite Hg, Hlow. reflexivity.
Qed.

Lemma filter_existsb_length {A B : Type} (p : B -> bool) (f : A -> list B) (l : list A) :
  (List.length (List.filter (fun x => List.existsb p (f x)) l)
   <= List.length (List.filter p (List.concat (List.map f l))))%nat.
Proof.
  induction l as [| x l IH]; simpl; [lia|].
  rewrite List.filter_app, List.length_app.
  destruct (List.existsb p (f x)) eqn:E; [|lia].
  apply List.existsb_exists in E as (y & Hy & Hp).
  assert (Hin : In y (List.filter p (f x))) by (apply filter_In; split; assumption).
  destruct (List.filter p (f x)); [destruct Hin|]. simpl. lia.
Qed.

Lemma concat_map_In {A B : Type} (f : A -> list B) (l : list A) y :
  In y (List.concat (List.map f l)) -> exists x, In x l /\ In y (f x).
Proof.
  intros H. apply in_concat in H as (ys & Hys & Hy).
  apply in_map_iff in Hys as (x & <- & Hx). exists x. split; assumption.
Qed.

(** X9: when lower-casing and decomposition leave the strings of a-z, 0-9
    and hyphens alone, the slug of every entry of [getUniqueGenres] is a
    genre [getEventsByGenre] finds: called with the slug it returns the events
    that have a genre of that slug, of which there is at least one and no more
    than the count of the entry. *)
Theorem getEventsByGenre_finds_listed_genres (U : Unicode) (events : list SheetEvent) :
  (forall r, Forall slug_char r -> toLowerCase U r = r /\ normalizeNFD U r = r) ->
  forall c, In c (getUniqueGenres U events) ->
    getEventsByGenre U events (c_slug c)
    = List.filter
        (fun e => List.existsb (fun g => bool_decide (slugify U g = c_slug c)) (genres e))
        events
    /\ (1 <= List.length (getEventsByGenre U events (c_slug c)))%nat
    /\ Z.of_nat (List.length (getEventsByGenre U events (c_slug c))) <= c_count c.
Proof.
  intros HU c Hc.
  destruct (getUniqueGenres_entry U events c Hc) as (g0 & rest & Hf & Hcount & _).
  unfold filed in Hcount, Hf. rewrite <- Hf in Hcount.
  destruct (filed_first_such _ _ _ _ _ Hf) as (l1 & l2 & Hentries & Hg0 & _).
  assert (Hwf : well_formed_slug (c_slug c)).
  { rewrite <- Hg0. apply slugify_well_formed_slug. }
  destruct (HU (c_slug c) (proj1 Hwf)) as [Hlow Hnfd].
  assert (Heq : getEventsByGenre U events (c_slug c)
                = List.filter
                    (fun e => List.existsb
                                (fun g => bool_decide (slugify U g = c_slug c)) (genres e))
                    events).
  { unfold getEventsByGenre. rewrite Hlow. apply List.filter_ext. intros e.
    induction (genres e) as [| g gs IH]; [reflexivity|]. simpl. rewrite IH. f_equal.
    destruct (bool_decide (slugify U g = c_slug c)) eqn:E; [apply orb_true_r|].
    rewrite orb_false_r. apply bool_decide_eq_false_2. intros Hg.
    apply bool_decide_eq_false in E. apply E.
    exact (slugify_of_lower U g (c_slug c) Hlow Hnfd Hwf Hg). }
  split; [exact Heq|]. rewrite Heq. split.
  - assert (Hin : In g0 (genre_entries events)).
    { rewrite Hentries. apply in_or_app. right. left. reflexivity. }
    apply concat_map_In in Hin as (e & He & Hge).
    assert (Hm : In e (List.filter
                         (fun e => List.existsb
                                     (fun g => bool_decide (slugify U g = c_slug c)) (genres e))
                         events)).
    { apply filter_In. split; [exact He|]. apply List.existsb_exists.
      exists g0. split; [exact Hge|]. apply bool_decide_eq_true. exact Hg0. }
    destruct (List.filter _ events); [destruct Hm|]. simpl. lia.
  - rewrite Hcount. apply Nat2Z.inj_le.
    apply (filter_existsb_length (fun g => bool_decide (slugify U g = c_slug c)) genres).
Qed.

(** X9 on two events that spell one genre differently. *)
Lemma getEventsByGenre_finds_listed_genres_witness :
  let events := [gnaoua_2026; timitar_2026] in
  let world := {| c_name := js "World Music"; c_slug := js "world-music"; c_count := 2 |} in
  (forall r, Forall slug_char r ->
             toLowerCase AsciiUnicode r = r /\ normalizeNFD AsciiUnicode r = r)
  /\ In world (getUniqueGenres AsciiUnicode events)
  /\ getEventsByGenre AsciiUnicode events (js "world-music") = [gnaoua_2026; timitar_2026]
  /\ (1 <= List.length (getEventsByGenre AsciiUnicode events (c_slug world)))%nat
  /\ Z.of_nat (List.length (getEventsByGenre AsciiUnicode events (c_slug world)))
     <= c_count world.
Proof.
  intros events world.
  assert (Hin : In world (getUniqueGenres AsciiUnicode events))
    by (vm_compute; left; reflexivity).
  split; [exact AsciiUnicode_fixes_slugs|]. split; [exact Hin|].
  split; [vm_compute; reflexivity|].
  exact (proj2 (getEventsByGenre_finds_listed_genres AsciiUnicode events
                  AsciiUnicode_fixes_slugs world Hin)).
Defined.

(** *** [getEventsByMonth] *)

Lemma startsWith_take s p : startsWith s p = true <-> take (List.length p) s = p.
Proof.
  revert s. induction p as [| c p IH]; intros s; simpl.
  - rewrite take_0. split; reflexivity.
  - destruct s as [| d s]; simpl; [split; discriminate|].
    rewrite andb_true_iff, N.eqb_eq, IH. split.
    + intros [-> ->]. reflexivity.
    + intros [= -> H]. split; [reflexivity | exact H].
Qed.

Lemma decimal_value_acc d : forall acc,
  Dedup.decimal_value (Zpos acc) (js (NilEmpty.string_of_uint d)) = Zpos (Pos.of_uint_acc d acc).
Proof.
  induction d; intros acc; [reflexivity|..];
    cbn [NilEmpty.string_of_uint js list_ascii_of_string List.map Dedup.decimal_value
         Pos.of_uint_acc];
    rewrite <- IHd; f_equal; cbn; lia.
Qed.

Lemma decimal_value_of_uint d :
  Dedup.decimal_value 0 (js (NilEmpty.string_of_uint d)) = Z.of_N (Pos.of_uint d).
Proof.
  induction d; [reflexivity|..];
    cbn [NilEmpty.string_of_uint js list_ascii_of_string List.map Dedup.decimal_value Pos.of_uint];
    [exact IHd|..]; cbn [Z.of_N]; rewrite <- decimal_value_acc; f_equal.
Qed.

Lemma decimal_value_String_of_Z y : 0 <= y -> Dedup.decimal_value 0 (String_of_Z y) = y.
Proof.
  intros Hy. destruct y as [| p | p]; [reflexivity | | lia].
  unfold String_of_Z. cbn [Z.to_int NilZero.string_of_int]. unfold NilZero.string_of_uint.
  pose proof (Unsigned.to_uint_nonnil p) as Hnn.
  destruct (Pos.to_uint p) eqn:E; [contradiction|..];
    rewrite <- E, decimal_value_of_uint, DecimalPos.Unsigned.of_to; reflexivity.
Qed.

Lemma decimal_value_bound s : forall acc,
  Forall (fun c => is_digit c = true) s -> 0 <= acc ->
  Dedup.decimal_value acc s < (acc + 1) * 10 ^ Z.of_nat (List.length s).
Proof.
  induction s as [| c s IH]; intros acc Hs Hacc; [simpl; lia|].
  inversion Hs as [| ? ? Hc Hs']; subst.
  cbn [Dedup.decimal_value List.length]. rewrite Nat2Z.inj_succ, Z.pow_succ_r by lia.
  assert (Hd : 0 <= Z.of_N c - 48 <= 9).
  { unfold is_digit in Hc. apply andb_true_iff in Hc as [H1 H2].
    apply N.leb_le in H1, H2. lia. }
  specialize (IH (10 * acc + (Z.of_N c - 48)) Hs' ltac:(lia)).
  assert (Hp : 0 < 10 ^ Z.of_nat (List.length s)) by (apply Z.pow_pos_nonneg; lia).
  nia.
Qed.

Lemma decimal_value_lower s : forall acc,
  Forall (fun c => is_digit c = true) s -> 0 <= acc ->
  acc * 10 ^ Z.of_nat (List.length s) <= Dedup.decimal_value acc s.
Proof.
  induction s as [| c s IH]; intros acc Hs Hacc; [simpl; lia|].
  inversion Hs as [| ? ? Hc Hs']; subst.
  cbn [Dedup.decimal_value List.length]. rewrite Nat2Z.inj_succ, Z.pow_succ_r by lia.
  assert (Hd : 0 <= Z.of_N c - 48 <= 9).
  { unfold is_digit in Hc. apply andb_true_iff in Hc as [H1 H2].
    apply N.leb_le in H1, H2. lia. }
  specialize (IH (10 * acc + (Z.of_N c - 48)) Hs' ltac:(lia)).
  assert (Hp : 0 < 10 ^ Z.of_nat (List.length s)) by (apply Z.pow_pos_nonneg; lia).
  nia.
Qed.

(** The decimal writing of a positive number does not start with a zero. *)
Lemma String_of_Z_head p :
  exists c t, String_of_Z (Z.pos p) = c :: t /\ (49 <= c <= 57)%N.
Proof.
  unfold String_of_Z. cbn [Z.to_int NilZero.string_of_int]. unfold NilZero.string_of_uint.
  pose proof (DecimalPos.Unsigned.to_of (Pos.to_uint p)) as Hnorm.
  rewrite DecimalPos.Unsigned.of_to in Hnorm. cbn [N.to_uint] in Hnorm.
  pose proof (DecimalPos.Unsigned.to_uint_nonzero p) as Hnz.
  unfold Decimal.unorm in Hnorm.
  pose proof (DecimalFacts.nzhead_nonzero (Pos.to_uint p)) as Hhead.
  destruct (Decimal.nzhead (Pos.to_uint p)) eqn:E;
    try (rewrite Hnorm; cbn [NilEmpty.string_of_uint js list_ascii_of_string List.map];
         eexists _, _; split; [reflexivity|]; cbn; lia).
  - exfalso. exact (Hnz Hnorm).
  - exfalso. exact (Hhead _ eq_refl).
Qed.

Lemma String_of_Z_length_le y n :
  0 < y < 10 ^ Z.of_nat n -> (List.length (String_of_Z y) <= n)%nat.
Proof.
  intros Hy. destruct y as [| p | p]; [lia | | lia].
  destruct (String_of_Z_head p) as (c & t & Hs & Hc).
  destruct (String_of_Z_abs_digits (Z.pos p)) as [Hd _].
  change (Z.abs (Z.pos p)) with (Z.pos p) in Hd.
  pose proof (decimal_value_String_of_Z (Z.pos p) ltac:(lia)) as Hv.
  rewrite Hs in Hd, Hv |- *. inversion Hd as [| ? ? _ Ht]; subst.
  cbn [Dedup.decimal_value] in Hv.
  pose proof (decimal_value_lower t (10 * 0 + (Z.of_N c - 48)) Ht ltac:(lia)) as Hlow.
  rewrite Hv in Hlow. cbn [List.length].
  destruct (le_lt_dec (S (List.length t)) n) as [H | H]; [exact H|]. exfalso.
  assert (Hpow : 10 ^ Z.of_nat n <= 10 ^ Z.of_nat (List.length t))
    by (apply Z.pow_le_mono_r; lia).
  assert (Hp : 0 < 10 ^ Z.of_nat (List.length t)) by (apply Z.pow_pos_nonneg; lia).
  nia.
Qed.

Lemma String_of_Z_four_digits y :
  1000 <= y <= 9999 -> String_of_Z y = pad 4 y /\ List.length (String_of_Z y) = 4%nat.
Proof.
  intros Hy.
  assert (Hlen : List.length (String_of_Z y) = 4%nat).
  { pose proof (String_of_Z_length_le y 4 ltac:(change (10 ^ Z.of_nat 4) with 10000; lia))
      as Hle.
    destruct (String_of_Z_abs_digits y) as [Hd _]. rewrite Z.abs_eq in Hd by lia.
    pose proof (decimal_value_bound (String_of_Z y) 0 Hd ltac:(lia)) as Hb.
    rewrite decimal_value_String_of_Z in Hb by lia.
    destruct (le_lt_dec 4 (List.length (String_of_Z y))) as [H | H]; [lia|]. exfalso.
    assert (Hpow : 10 ^ Z.of_nat (List.length (String_of_Z y)) <= 10 ^ 3)
      by (apply Z.pow_le_mono_r; lia).
    change (10 ^ 3) with 1000 in Hpow. lia. }
  split; [|exact Hlen]. unfold pad. rewrite Z.abs_eq by lia. rewrite Hlen. reflexivity.
Qed.

Lemma month_two_digits m :
  1 <= m <= 12 ->
  padStart0 2 (String_of_Z m) = pad 2 m
  /\ List.length (padStart0 2 (String_of_Z m)) = 2%nat
  /\ Dedup.decimal_value 0 (padStart0 2 (String_of_Z m)) = m.
Proof.
  intros Hm.
  assert (H : m = 1 \/ m = 2 \/ m = 3 \/ m = 4 \/ m = 5 \/ m = 6 \/ m = 7 \/ m = 8
              \/ m = 9 \/ m = 10 \/ m = 11 \/ m = 12) by lia.
  repeat (destruct H as [-> | H]; [vm_compute; auto|]). subst m. vm_compute. auto.
Qed.

Lemma monthStr_calendar y m :
  calendar_month y m ->
  monthStr y m = pad 4 y ++ js "-" ++ pad 2 m /\ List.length (monthStr y m) = 7%nat.
Proof.
  intros [Hy Hm]. unfold monthStr.
  destruct (String_of_Z_four_digits y Hy) as [Hy1 Hy2].
  destruct (month_two_digits m Hm) as (Hm1 & Hm2 & _).
  split; [rewrite Hy1, Hm1; reflexivity|].
  rewrite !List.length_app, Hy2, Hm2. reflexivity.
Qed.

Lemma monthStr_inj y m y' m' :
  calendar_month y m -> calendar_month y' m' -> monthStr y m = monthStr y' m' ->
  y = y' /\ m = m'.
Proof.
  intros [Hy Hm] [Hy' Hm'] H. unfold monthStr in H.
  apply app_inj_1 in H as [H1 H2];
    [|rewrite (proj2 (String_of_Z_four_digits y Hy)),
              (proj2 (String_of_Z_four_digits y' Hy')); reflexivity].
  split; [exact (String_of_Z_inj _ _ H1)|].
  injection H2 as H2.
  rewrite <- (proj2 (proj2 (month_two_digits m Hm))),
          <- (proj2 (proj2 (month_two_digits m' Hm'))), H2. reflexivity.
Qed.

(** X10: for a year from 1000 to 9999 and a month from 1 to 12 the prefix
    [getEventsByMonth] looks for is the year on four digits, a hyphen and the
    month on two digits; it returns exactly the events whose start date begins
    with these seven characters, and no event is returned for two different
    months. *)
Theorem getEventsByMonth_selects_the_month (events : list SheetEvent) (year month : Z) :
  calendar_month year month ->
  monthStr year month = pad 4 year ++ js "-" ++ pad 2 month
  /\ (forall e, In e (getEventsByMonth events year month)
                <-> In e events /\ take 7 (start_date e) = monthStr year month)
  /\ (forall year' month', calendar_month year' month' ->
        (year', month') <> (year, month) ->
        forall e, In e (getEventsByMonth events year month) ->
                  ~ In e (getEventsByMonth events year' month')).
Proof.
  intros Hcal. destruct (monthStr_calendar year month Hcal) as [Hstr Hlen].
  assert (Hin : forall y m, calendar_month y m ->
            forall e, In e (getEventsByMonth events y m)
                      <-> In e events /\ take 7 (start_date e) = monthStr y m).
  { intros y m Hc e. unfold getEventsByMonth. rewrite filter_In, startsWith_take.
    rewrite (proj2 (monthStr_calendar y m Hc)). reflexivity. }
  split; [exact Hstr|]. split; [exact (Hin year month Hcal)|].
  intros y' m' Hcal' Hne e He He'.
  apply (Hin year month Hcal) in He as [_ He].
  apply (Hin y' m' Hcal') in He' as [_ He'].
  apply Hne. rewrite He in He'.
  destruct (monthStr_inj _ _ _ _ Hcal Hcal' He') as [-> ->]. reflexivity.
Qed.

(** X10 for June 2026. *)
Lemma getEventsByMonth_selects_the_month_witness :
  let events := [gnaoua_2026; timitar_2026; jazz_2026; day_first] in
  calendar_month 2026 6
  /\ monthStr 2026 6 = js "2026-06"
  /\ getEventsByMonth events 2026 6 = [gnaoua_2026]
  /\ (forall e, In e (getEventsByMonth events 2026 6)
                <-> In e events /\ take 7 (start_date e) = monthStr 2026 6).
Proof.
  intros events.
  assert (Hcal : calendar_month 2026 6) by (unfold calendar_month; lia).
  split; [exact Hcal|]. split; [vm_compute; reflexivity|]. split; [vm_compute; reflexivity|].
  exact (proj1 (proj2 (getEventsByMonth_selects_the_month events 2026 6 Hcal))).
Defined.

End QueryProps.

(** ** Years outside the calendar *)

Module MonthProps.
Import JsString SheetsClient SheetsQueries Scan ScanProps TallySpec SheetsClientProps TallyProps.
Import SheetsQueriesSpec SlugProps AggregateProps QuerySpec SearchSyncProps QueryProps.
Import Dedup.

Lemma String_of_Z_long y : 10000 <= y -> (5 <= List.length (String_of_Z y))%nat.
Proof.
  intros Hy.
  destruct (String_of_Z_abs_digits y) as [Hd _]. rewrite Z.abs_eq in Hd by lia.
  pose proof (decimal_value_bound (String_of_Z y) 0 Hd ltac:(lia)) as Hb.
  rewrite decimal_value_String_of_Z in Hb by lia.
  destruct (le_lt_dec 5 (List.length (String_of_Z y))) as [H | H]; [exact H|]. exfalso.
  assert (Hpow : 10 ^ Z.of_nat (List.length (String_of_Z y)) <= 10 ^ 4)
    by (apply Z.pow_le_mono_r; lia).
  change (10 ^ 4) with 10000 in Hpow. lia.
Qed.

Lemma String_of_Z_negative y : y < 0 -> exists t, String_of_Z y = 45%N :: t.
Proof.
  intros Hy. destruct y as [| p | p]; [lia | lia |]. eexists. reflexivity.
Qed.

Lemma startsWith_nth s p i d :
  startsWith s p = true -> (i < List.length p)%nat -> nth i s d = nth i p d.
Proof.
  revert s i. induction p as [| c p IH]; intros s i H Hi; [simpl in Hi; lia|].
  destruct s as [| e s]; [discriminate|]. simpl in H.
  apply andb_true_iff in H as [H1 H2]. apply N.eqb_eq in H1. subst e.
  destruct i as [| i]; [reflexivity|]. simpl. apply IH; [exact H2 | simpl in Hi; lia].
Qed.

Lemma four_digit_year_nth s :
  four_digit_year s ->
  (forall i, (i < 4)%nat -> is_digit (nth i s 0%N) = true) /\ nth 4 s 0%N = 45%N.
Proof.
  intros (a & b & c & d & rest & -> & Ha & Hb & Hc & Hd). split; [|reflexivity].
  intros i Hi. do 4 (destruct i as [| i]; [assumption|]). lia.
Qed.

(** X11: for a year below 1000 or above 9999, which its caller does not
    rule out, [getEventsByMonth] returns no event whose start date begins with
    a year on four digits and a hyphen: whatever it returns has a start date
    that is not written [YYYY-MM-DD]. *)
Theorem getEventsByMonth_year_out_of_range (events : list SheetEvent) (year month : Z) :
  safe_integer year -> safe_integer month ->
  year < 1000 \/ 9999 < year ->
  forall e, In e (getEventsByMonth events year month) -> ~ four_digit_year (start_date e).
Proof.
  intros _ _ Hy e He Hiso. unfold getEventsByMonth in He. apply filter_In in He as [_ He].
  destruct (four_digit_year_nth _ Hiso) as [Hdigits Hhyphen].
  unfold monthStr in He.
  assert (Hyear : year < 0 \/ 0 <= year < 1000 \/ 9999 < year) by lia.
  destruct Hyear as [Hneg | [Hshort | Hlong]].
  - destruct (String_of_Z_negative year Hneg) as (t & Ht). rewrite Ht in He.
    pose proof (startsWith_nth _ _ O 0%N He ltac:(simpl; lia)) as H0.
    specialize (Hdigits O ltac:(lia)). rewrite H0 in Hdigits. discriminate Hdigits.
  - assert (Hle : (List.length (String_of_Z year) <= 3)%nat).
    { destruct (Z.eq_dec year 0) as [-> | Hn]; [simpl; lia|].
      apply String_of_Z_length_le. change (10 ^ Z.of_nat 3) with 1000. lia. }
    set (i := List.length (String_of_Z year)) in *.
    assert (Hpre : nth i (String_of_Z year ++ js "-" ++ padStart0 2 (String_of_Z month)) 0%N
                   = 45%N).
    { rewrite app_nth2 by (unfold i; lia). unfold i. rewrite Nat.sub_diag. reflexivity. }
    assert (Hi' : (i < List.length (String_of_Z year ++ js "-"
                                    ++ padStart0 2 (String_of_Z month)))%nat).
    { change (js "-" ++ padStart0 2 (String_of_Z month))
        with (45%N :: padStart0 2 (String_of_Z month)).
      rewrite List.length_app. cbn [List.length]. unfold i. lia. }
    pose proof (startsWith_nth _ _ i 0%N He Hi') as Hs.
    specialize (Hdigits i ltac:(lia)). rewrite Hs, Hpre in Hdigits. discriminate Hdigits.
  - pose proof (String_of_Z_long year ltac:(lia)) as Hlen.
    destruct (String_of_Z_abs_digits year) as [Hd _]. rewrite Z.abs_eq in Hd by lia.
    pose proof (startsWith_nth _ _ 4%nat 0%N He
                  ltac:(rewrite List.length_app; lia)) as Hs.
    rewrite app_nth1 in Hs by lia. rewrite Hhyphen in Hs.
    rewrite List.Forall_forall in Hd.
    specialize (Hd (nth 4 (String_of_Z year) 0%N) ltac:(apply nth_In; lia)).
    rewrite <- Hs in Hd. discriminate Hd.
Qed.

(** X11 for the year 26: the event returned has its date written day first. *)
Lemma getEventsByMonth_year_out_of_range_witness :
  let events := [gnaoua_2026; day_first] in
  safe_integer 26 /\ safe_integer 6
  /\ (26 < 1000 \/ 9999 < 26)
  /\ getEventsByMonth events 26 6 = [day_first]
  /\ start_date day_first = js "26-06-2026"
  /\ ~ four_digit_year (start_date day_first).
Proof.
  intros events.
  assert (Hy : 26 < 1000 \/ 9999 < 26) by (left; lia).
  assert (H26 : safe_integer 26) by (unfold safe_integer; lia).
  assert (H6 : safe_integer 6) by (unfold safe_integer; lia).
  split; [exact H26|]. split; [exact H6|].
  split; [exact Hy|]. split; [vm_compute; reflexivity|]. split; [reflexivity|].
  apply (getEventsByMonth_year_out_of_range events 26 6 H26 H6 Hy day_first).
  vm_compute. left. reflexivity.
Defined.

End MonthProps.

(** ** The site's data layer *)

Module SiteDataProps.
Import JsString Types SheetsClient SheetsQueries SiteData SiteDataSpec Scan ScanProps TallyProps.

(** *** [getLegalPages] *)

Lemma uniquePages_step_get data : forall m id,
  id <> [] ->
  Map_get
    (fold_left
       (fun (uniquePages : JsMap (list N)) p =>
          match page_id p, page_title p with
          | Some (c :: i), Some (d :: t) =>
              match Map_get uniquePages (c :: i) with
              | Some _ => uniquePages
              | None => Map_set uniquePages (c :: i) (d :: t)
              end
          | _, _ => uniquePages
          end)
       data m) id
  = match Map_get m id with
    | Some t => Some t
    | None => List.find (titled id) data ≫= page_title
    end.
Proof.
  induction data as [| p data IH]; intros m id Hid.
  - simpl. destruct (Map_get m id); reflexivity.
  - cbn [fold_left List.find]. rewrite IH by exact Hid. unfold titled at 2.
    destruct (page_id p) as [[| c i] |] eqn:Hp.
    + rewrite bool_decide_eq_false_2 by congruence. reflexivity.
    + destruct (page_title p) as [[| d t] |] eqn:Ht.
      * rewrite andb_false_r. reflexivity.
      * destruct (decide (c :: i = id)) as [Heq | Hne]; [subst id|].
        -- rewrite bool_decide_eq_true_2 by reflexivity. cbn [andb truthy_string].
           destruct (Map_get m (c :: i)) eqn:Hm; [cbv beta iota; rewrite ?Hm; reflexivity|].
           rewrite Map_get_set_same. cbn [mbind option_bind]. rewrite Ht. reflexivity.
        -- rewrite bool_decide_eq_false_2 by congruence. cbn [andb].
           destruct (Map_get m (c :: i)); [reflexivity|].
           rewrite Map_get_set_other by exact Hne. reflexivity.
      * rewrite andb_false_r. reflexivity.
    + rewrite bool_decide_eq_false_2 by congruence. reflexivity.
Qed.

Lemma uniquePages_get data id :
  id <> [] -> Map_get (uniquePages data) id = List.find (titled id) data ≫= page_title.
Proof. intros Hid. unfold uniquePages. rewrite uniquePages_step_get by exact Hid. reflexivity. Qed.

Lemma legalLinks_sublist pages :
  List.map href (legalLinks pages) `sublist_of` List.map href getFallbackLegalPages.
Proof.
  unfold legalLinks, contentLegalPageIds, getFallbackLegalPages. simpl.
  repeat match goal with
         | |- context [Map_get pages ?k] => destruct (Map_get pages k) as [[| ? ?] |]
         end; simpl; repeat first [apply sublist_nil | apply sublist_skip | apply sublist_cons].
Qed.

Lemma legalLinks_In pages p :
  In p (legalLinks pages) ->
  exists pageId, In pageId contentLegalPageIds /\ href p = js "/" ++ pageId
                 /\ label p <> [] /\ Map_get pages pageId = Some (label p).
Proof.
  unfold legalLinks. intros H. apply in_flat_map in H as (pageId & Hid & Hp).
  exists pageId. split; [exact Hid|].
  destruct (Map_get pages pageId) as [[| c t] |];
    [destruct Hp | destruct Hp as [<- | []] | destruct Hp].
  simpl. repeat split. discriminate.
Qed.

(** X18: on its first call [getLegalPages] never returns an empty list.
    The links it returns are among [/privacy], [/terms], [/disclaimer] and
    [/intellectual-property], in this order; either they are the four fallback
    links, or the store answered and each link is labelled with the title of
    the first row of its page that has one. The list, the fallback included,
    is cached, and every later call returns it whatever the store answers;
    the other fields of the cache are left alone. *)
Theorem getLegalPages_links_never_empty
    (E : Type) (cache : BuildCache E) (response : StoreResponse LegalRow) :
  legalPages cache = None ->
  let pages := fst (getLegalPages cache response) in
  let cache' := snd (getLegalPages cache response) in
  pages <> []
  /\ List.map href pages `sublist_of` List.map href getFallbackLegalPages
  /\ (pages = getFallbackLegalPages
      \/ exists data, response = StoreAnswers (Some data) None
           /\ forall p, In p pages ->
                exists pageId row,
                  href p = js "/" ++ pageId
                  /\ first_such (fun r => titled pageId r = true) data row
                  /\ page_title row = Some (label p))
  /\ cache' = {| siteSettings := siteSettings cache; events := events cache;
                 legalPages := Some pages |}
  /\ (forall response', getLegalPages cache' response' = (pages, cache')).
Proof.
  intros Hnone pages cache'. unfold pages, cache', getLegalPages. rewrite Hnone.
  cbn [fst snd].
  set (ps := match response with
             | StoreAnswers (Some data) None =>
                 if (0 <? length (legalLinks (uniquePages data)))%nat
                 then legalLinks (uniquePages data) else getFallbackLegalPages
             | _ => getFallbackLegalPages
             end).
  assert (Hcases : ps = getFallbackLegalPages
                   \/ exists data, response = StoreAnswers (Some data) None
                        /\ ps = legalLinks (uniquePages data) /\ ps <> []).
  { unfold ps. destruct response as [| [data|] [err|]]; auto.
    destruct (0 <? length (legalLinks (uniquePages data)))%nat eqn:Hlen; [|auto].
    right. exists data. split; [reflexivity|]. split; [reflexivity|].
    apply Nat.ltb_lt in Hlen. intros Hnil. rewrite Hnil in Hlen. simpl in Hlen. lia. }
  split; [|split; [|split; [|split]]].
  - destruct Hcases as [-> | (data & _ & _ & Hne)]; [discriminate | exact Hne].
  - destruct Hcases as [-> | (data & _ & -> & _)]; [reflexivity | apply legalLinks_sublist].
  - destruct Hcases as [H | (data & Hresp & Hps & _)]; [left; exact H|].
    right. exists data. split; [exact Hresp|]. intros p Hp. rewrite Hps in Hp.
    apply legalLinks_In in Hp as (pageId & Hid & Hhref & Hlabel & Hget).
    assert (Hne : pageId <> []).
    { intros ->. unfold contentLegalPageIds in Hid. simpl in Hid.
      destruct Hid as [H | [H | [H | [H | []]]]]; discriminate H. }
    rewrite uniquePages_get in Hget by exact Hne.
    destruct (find_first_such (titled pageId) data) as [(row & Hfind & Hfirst) | [Hfind _]];
      rewrite Hfind in Hget; [|discriminate].
    exists pageId, row. split; [exact Hhref|]. split; [exact Hfirst | exact Hget].
  - reflexivity.
  - intros response'. reflexivity.
Qed.

(** X18 on rows that title two of the four pages, and on a store that rejects. *)
Lemma getLegalPages_links_never_empty_witness :
  let cache := {| siteSettings := None; events := @None (list unit); legalPages := None |} in
  let response := StoreAnswers (Some sample_legal_rows) None in
  legalPages cache = None
  /\ fst (getLegalPages cache response)
     = [ {| label := js "Privacy"; href := js "/privacy" |};
         {| label := js "Terms"; href := js "/terms" |} ]
  /\ fst (getLegalPages cache StoreRejects) = getFallbackLegalPages
  /\ fst (getLegalPages cache response) <> []
  /\ forall response',
       getLegalPages (snd (getLegalPages cache StoreRejects)) response'
       = (getFallbackLegalPages, snd (getLegalPages cache StoreRejects)).
Proof.
  intros cache response.
  split; [reflexivity|]. split; [vm_compute; reflexivity|]. split; [reflexivity|]. split.
  - exact (proj1 (getLegalPages_links_never_empty unit cache response eq_refl)).
  - exact (proj2 (proj2 (proj2 (proj2
             (getLegalPages_links_never_empty unit cache StoreRejects eq_refl))))).
Defined.

(** *** [getSheetEvents] *)

(** X19: [getSheetEvents] never throws and pins its first answer. With
    events in the cache it returns them and leaves the cache alone. With none
    it returns the decoded rows when the store answers with rows that decode,
    and the empty list when the store rejects, answers with an error or with
    no rows, or when a row does not decode; what it returns is cached, the
    empty list too, and every later call returns it whatever the store
    answers. *)
Theorem getSheetEvents_pins_first_answer
    (Row E : Type) (toSheetEvent : Row -> Completion E)
    (cache : BuildCache E) (response : StoreResponse Row) :
  let result := fst (getSheetEvents toSheetEvent cache response) in
  let cache' := snd (getSheetEvents toSheetEvent cache response) in
  (forall cached, events cache = Some cached -> result = cached /\ cache' = cache)
  /\ (events cache = None ->
      cache' = {| siteSettings := siteSettings cache; events := Some result;
                  legalPages := legalPages cache |}
      /\ (forall rows decoded,
            response = StoreAnswers (Some rows) None ->
            SiteData.map_rows toSheetEvent rows = Return decoded -> result = decoded)
      /\ (no_rows response -> result = [])
      /\ (forall rows e,
            response = StoreAnswers (Some rows) None ->
            SiteData.map_rows toSheetEvent rows = Throw e -> result = []))
  /\ (forall response', getSheetEvents toSheetEvent cache' response' = (result, cache')).
Proof.
  cbv zeta. unfold getSheetEvents. destruct (events cache) as [cached|] eqn:Hc.
  - cbn [fst snd]. split; [intros ? [= <-]; auto|]. split; [discriminate|].
    intros response'. rewrite Hc. reflexivity.
  - cbn [fst snd events]. split; [discriminate|]. split; [|reflexivity].
    intros _. split; [reflexivity|]. split; [|split].
    + intros rows decoded -> Hd. destruct rows as [| r rows].
      * simpl in Hd. injection Hd as <-. reflexivity.
      * rewrite Hd. reflexivity.
    + intros Hn. destruct response as [| [[| r rows] |] [err|]]; try reflexivity.
      destruct Hn.
    + intros rows e -> Hd. destruct rows as [| r rows]; [reflexivity|].
      rewrite Hd. reflexivity.
Qed.

(** *** [getSiteSettings] *)

Lemma find_app_last {A : Type} (f : A -> bool) (l l' : list A) :
  List.find f (l ++ l') = match List.find f l with Some x => Some x | None => List.find f l' end.
Proof. induction l as [| x l IH]; simpl; [reflexivity|]. destruct (f x); auto. Qed.

Lemma assign_settings_get rows : forall settings name,
  name <> js "__proto__" ->
  Map_get (fold_left assign_setting rows settings) name
  = match List.find (sets name) (rev rows) with
    | Some r => Some (value r)
    | None => Map_get settings name
    end.
Proof.
  induction rows as [| row rows IH]; intros settings name Hname; [reflexivity|].
  cbn [fold_left rev]. rewrite IH by exact Hname. rewrite find_app_last.
  destruct (List.find (sets name) (rev rows)) as [r|]; [reflexivity|].
  cbn [List.find]. unfold sets at 1, assign_setting.
  destruct (decide (default (js "null") (key row) = name)) as [Heq | Hne].
  - rewrite (bool_decide_eq_true_2 (_ = name)) by exact Heq.
    rewrite (bool_decide_eq_false_2 (_ = js "__proto__")) by (rewrite Heq; exact Hname).
    rewrite Heq. apply Map_get_set_same.
  - rewrite (bool_decide_eq_false_2 (_ = name)) by exact Hne.
    destruct (bool_decide (default (js "null") (key row) = js "__proto__")); [reflexivity|].
    apply Map_get_set_other. exact Hne.
Qed.

Lemma setting_or_last rows name fallback :
  name <> js "__proto__" ->
  setting_or (fold_left assign_setting rows []) name fallback = last_value rows name fallback.
Proof.
  intros Hname. unfold setting_or, last_value. rewrite assign_settings_get by exact Hname.
  destruct (List.find (sets name) (rev rows)) as [r|]; [|reflexivity].
  destruct (value r) as [[| c t] |]; reflexivity.
Qed.

Lemma last_value_nonempty rows name fallback :
  fallback <> [] -> last_value rows name fallback <> [].
Proof.
  intros Hf. unfold last_value. destruct (List.find (sets name) (rev rows)) as [r|]; [|exact Hf].
  destruct (value r) as [[| c t] |]; simpl; try exact Hf. discriminate.
Qed.

(** X20: on its first call [getSiteSettings] returns the default
    settings when the store rejects, answers with an error or with no rows.
    When it answers with rows, each of the nine fields is the value of the
    last row of that key if it is a non-empty string, and the default of the
    field otherwise, an earlier non-empty value notwithstanding. The seven
    fields whose default is not empty are never empty. The settings are
    cached and every later call returns them whatever the store answers. *)
Theorem getSiteSettings_falls_back_per_field
    (E : Type) (cache : BuildCache E) (response : StoreResponse SettingRow) :
  siteSettings cache = None ->
  let settings := fst (getSiteSettings cache response) in
  let cache' := snd (getSiteSettings cache response) in
  (no_rows response -> settings = DEFAULT_SETTINGS)
  /\ (forall rows, response = StoreAnswers (Some rows) None -> rows <> [] ->
        hero_image settings = last_value rows (js "hero_image") []
        /\ hero_title settings = last_value rows (js "hero_title") (hero_title DEFAULT_SETTINGS)
        /\ hero_subtitle settings
           = last_value rows (js "hero_subtitle") (hero_subtitle DEFAULT_SETTINGS)
        /\ hero_label settings = last_value rows (js "hero_label") (hero_label DEFAULT_SETTINGS)
        /\ newsletter_title settings
           = last_value rows (js "newsletter_title") (newsletter_title DEFAULT_SETTINGS)
        /\ newsletter_description settings
           = last_value rows (js "newsletter_description")
               (newsletter_description DEFAULT_SETTINGS)
        /\ newsletter_background_image settings
           = last_value rows (js "newsletter_background_image") []
        /\ site_name settings = last_value rows (js "site_name") (site_name DEFAULT_SETTINGS)
        /\ site_tagline settings
           = last_value rows (js "site_tagline") (site_tagline DEFAULT_SETTINGS))
  /\ (hero_title settings <> [] /\ hero_subtitle settings <> [] /\ hero_label settings <> []
      /\ newsletter_title settings <> [] /\ newsletter_description settings <> []
      /\ site_name settings <> [] /\ site_tagline settings <> [])
  /\ cache' = {| siteSettings := Some settings; events := events cache;
                 legalPages := legalPages cache |}
  /\ (forall response', getSiteSettings cache' response' = (settings, cache')).
Proof.
  intros Hnone settings cache'. unfold settings, cache', getSiteSettings. rewrite Hnone.
  cbn [fst snd].
  assert (Hrows : forall rows, rows <> [] ->
            match rows with
            | row :: rows0 =>
                {| hero_image := setting_or (fold_left assign_setting (row :: rows0) [])
                                   (js "hero_image") (hero_image DEFAULT_SETTINGS);
                   hero_title := setting_or (fold_left assign_setting (row :: rows0) [])
                                   (js "hero_title") (hero_title DEFAULT_SETTINGS);
                   hero_subtitle := setting_or (fold_left assign_setting (row :: rows0) [])
                                      (js "hero_subtitle") (hero_subtitle DEFAULT_SETTINGS);
                   hero_label := setting_or (fold_left assign_setting (row :: rows0) [])
                                   (js "hero_label") (hero_label DEFAULT_SETTINGS);
                   newsletter_title :=
                     setting_or (fold_left assign_setting (row :: rows0) [])
                       (js "newsletter_title") (newsletter_title DEFAULT_SETTINGS);
                   newsletter_description :=
                     setting_or (fold_left assign_setting (row :: rows0) [])
                       (js "newsletter_description") (newsletter_description DEFAULT_SETTINGS);
                   newsletter_background_image :=
                     setting_or (fold_left assign_setting (row :: rows0) [])
                       (js "newsletter_background_image")
                       (newsletter_background_image DEFAULT_SETTINGS);
                   site_name := setting_or (fold_left assign_setting (row :: rows0) [])
                                  (js "site_name") (site_name DEFAULT_SETTINGS);
                   site_tagline := setting_or (fold_left assign_setting (row :: rows0) [])
                                     (js "site_tagline") (site_tagline DEFAULT_SETTINGS) |}
            | [] => DEFAULT_SETTINGS
            end
            = {| hero_image := last_value rows (js "hero_image") [];
                 hero_title := last_value rows (js "hero_title") (hero_title DEFAULT_SETTINGS);
                 hero_subtitle :=
                   last_value rows (js "hero_subtitle") (hero_subtitle DEFAULT_SETTINGS);
                 hero_label := last_value rows (js "hero_label") (hero_label DEFAULT_SETTINGS);
                 newsletter_title :=
                   last_value rows (js "newsletter_title") (newsletter_title DEFAULT_SETTINGS);
                 newsletter_description :=
                   last_value rows (js "newsletter_description")
                     (newsletter_description DEFAULT_SETTINGS);
                 newsletter_background_image :=
                   last_value rows (js "newsletter_background_image") [];
                 site_name := last_value rows (js "site_name") (site_name DEFAULT_SETTINGS);
                 site_tagline :=
                   last_value rows (js "site_tagline") (site_tagline DEFAULT_SETTINGS) |}).
  { intros [| row rows0] Hne; [contradiction|].
    rewrite !setting_or_last by discriminate. reflexivity. }
  split; [|split; [|split; [|split]]].
  - intros Hn. destruct response as [| [[| r rows] |] [err|]]; try reflexivity. destruct Hn.
  - intros rows -> Hne. destruct rows as [| row rows0]; [contradiction|].
    rewrite (Hrows (row :: rows0) Hne). cbn. repeat split.
  - destruct response as [| [[| row rows0] |] [err|]];
      try (repeat split; discriminate).
    rewrite (Hrows (row :: rows0) ltac:(discriminate)). cbn.
    repeat split; apply last_value_nonempty; discriminate.
  - reflexivity.
  - intros response'. reflexivity.
Qed.

(** X20 on rows whose last value for the hero title is empty. *)
Lemma getSiteSettings_falls_back_per_field_witness :
  let cache := {| siteSettings := None; events := @None (list unit); legalPages := None |} in
  let rows := [ {| key := Some (js "hero_title"); value := Some (js "Moussem") |};
                {| key := Some (js "site_name"); value := Some (js "Agenda") |};
                {| key := Some (js "hero_title"); value := Some [] |} ] in
  siteSettings cache = None
  /\ hero_title (fst (getSiteSettings cache (StoreAnswers (Some rows) None)))
     = hero_title DEFAULT_SETTINGS
  /\ site_name (fst (getSiteSettings cache (StoreAnswers (Some rows) None))) = js "Agenda"
  /\ (no_rows (StoreAnswers (Some rows) None) ->
      fst (getSiteSettings cache (StoreAnswers (Some rows) None)) = DEFAULT_SETTINGS)
  /\ (no_rows (@StoreRejects SettingRow) ->
      fst (getSiteSettings cache StoreRejects) = DEFAULT_SETTINGS).
Proof.
  intros cache rows.
  split; [reflexivity|]. split; [vm_compute; reflexivity|]. split; [vm_compute; reflexivity|].
  split.
  - exact (proj1 (getSiteSettings_falls_back_per_field unit cache
                    (StoreAnswers (Some rows) None) eq_refl)).
  - exact (proj1 (getSiteSettings_falls_back_per_field unit cache StoreRejects eq_refl)).
Defined.

End SiteDataProps.

(** ** Schema management and the documents of the index *)

Module SearchSchemaProps.
Import JsString SearchSync SearchSyncSpec SearchSyncProps SearchSchema.

(** *** What a full reindex leaves in the collection *)

Lemma upsert_accepted_lookup batch : forall success docs key d,
  upsert_accepted batch success docs !! key = Some d ->
  docs !! key = Some d \/ (In d batch /\ doc_id d = key).
Proof.
  induction batch as [| x batch IH]; intros success docs key d; simpl; [auto|].
  destruct success as [| ok success]; [auto|].
  intros H. apply IH in H as [H | [H1 H2]]; [|right; auto].
  destruct ok; [|left; exact H].
  destruct (decide (doc_id x = key)) as [Heq | Hne].
  - subst key. rewrite lookup_insert_eq in H. injection H as <-. right. auto.
  - rewrite lookup_insert_ne in H by exact Hne. left. exact H.
Qed.

Lemma replay_lookup B batches : forall log counters docs key d,
  (replay B log batches counters docs).2 !! key = Some d ->
  docs !! key = Some d \/ (In d (concat batches) /\ doc_id d = key).
Proof.
  induction batches as [| b rest IH]; intros log counters docs key d; simpl; [auto|].
  intros H. apply IH in H as [H | [H1 H2]].
  - destruct (import_outcome B log b) as [| success]; simpl in H; [left; exact H|].
    apply upsert_accepted_lookup in H as [H | [H1 H2]]; [left; exact H|].
    right. split; [apply in_or_app; left; exact H1 | exact H2].
  - right. split; [apply in_or_app; right; exact H1 | exact H2].
Qed.

Lemma joinEvent_fields db e r :
  joinEvent db e = Some r ->
  status r = e_status e /\ id r = e_id e
  /\ geo_lat r = JsUndefined /\ geo_lng r = JsUndefined.
Proof.
  unfold joinEvent. destruct (cities db !! e_city_id e); [|discriminate].
  destruct (regions db !! e_region_id e); [|discriminate]. simpl.
  intros [= <-]. simpl. auto.
Qed.

Lemma buildDocuments_In D db d :
  In d (buildDocuments D db) ->
  exists e, In e (events db) /\ indexable (e_status e) = true
            /\ doc_id d = String_of_Z (e_id e) /\ doc_status d = e_status e
            /\ doc_geo_location d = Some (JsUndefined, JsUndefined).
Proof.
  unfold buildDocuments, selectIndexable. intros H.
  apply in_map_iff in H as (r & <- & Hr).
  apply list_elem_of_In, list_elem_of_omap in Hr as (e & He & Hjoin).
  apply list_elem_of_In, filter_In in He as [He Hst].
  destruct (joinEvent_fields db e r Hjoin) as (Hs & Hi & Hlat & Hlng).
  exists e. split; [exact He|]. split; [exact Hst|].
  simpl. rewrite Hs, Hi, Hlat, Hlng. auto.
Qed.

(** X13: whatever the engine answers to the import requests and
    whatever the store holds, [fullReindex] returns, and every document of the
    collection it leaves is kept under its own id, is one of the documents built from the
    store, has a status that is announced or confirmed, and has for key the
    decimal id of an event of that status. Its [geo_location] is the pair of
    two [undefined]: the query of the reindex selects no coordinates. *)
Theorem fullReindex_leaves_only_indexable_documents
    (B : Behaviour) (D : DateOps) (db : Database) (s : Engine) :
  exists counters docs log,
    fullReindex B D db s = (Return counters, {| collection := Some docs; calls := log |})
    /\ forall key d, docs !! key = Some d ->
         doc_id d = key
         /\ In d (buildDocuments D db)
         /\ indexable (doc_status d) = true
         /\ (exists e, In e (events db) /\ indexable (e_status e) = true
                       /\ key = String_of_Z (e_id e))
         /\ doc_geo_location d = Some (JsUndefined, JsUndefined).
Proof.
  set (documents := buildDocuments D db).
  set (log := calls s ++ [CollectionDelete; CollectionCreate]).
  destruct (importLoop_replay B (length documents) documents O (0, 0)
              {| collection := Some ∅; calls := log |} ∅ eq_refl)
    as (batches & Hcat & _ & _ & Hrun); [lia|].
  rewrite drop_0 in Hcat. simpl in Hrun.
  eexists _, _, _. split.
  - unfold fullReindex. unfold bind at 1. rewrite try_collection_delete.
    unfold bind at 1. rewrite collection_create_fresh.
    rewrite <- app_assoc. exact Hrun.
  - intros key d H. apply replay_lookup in H as [H | [H1 H2]].
    + rewrite lookup_empty in H. discriminate.
    + rewrite Hcat in H1.
      destruct (buildDocuments_In D db d H1) as (e & He & Hst & Hid & Hds & Hgeo).
      split; [exact H2|]. split; [exact H1|]. split; [rewrite Hds; exact Hst|].
      split; [|exact Hgeo]. exists e. split; [exact He|]. split; [exact Hst|].
      rewrite <- H2. exact Hid.
Qed.

(** *** [ensureSchema] *)

Lemma ensureSchema_run (s : Engine) :
  ensureSchema s
  = (Return tt,
     {| collection := Some (default ∅ (collection s));
        calls := calls s ++ match collection s with
                            | Some _ => []
                            | None => [CollectionCreate]
                            end |}).
Proof.
  destruct s as [[docs|] log]; unfold ensureSchema, try_catch, collection_retrieve; simpl.
  - rewrite app_nil_r. reflexivity.
  - reflexivity.
Qed.

(** X14: on an engine that is reached, where a request fails only for
    a collection that is missing or there already, [ensureSchema] never throws
    and never drops a document: a collection that exists is left as it is, a
    missing one is created empty by one call of the engine; a second call
    changes nothing. After it, indexing an event that is in the store with a
    status announced or confirmed, whose references resolve, stores the
    event's document under its decimal id. *)
Theorem ensureSchema_keeps_documents
    (D : DateOps) (db : Database) (eventId : Z) (s : Engine) :
  let s' := snd (ensureSchema s) in
  ensureSchema s = (Return tt, s')
  /\ collection s' = Some (default ∅ (collection s))
  /\ calls s' = calls s ++ match collection s with
                            | Some _ => []
                            | None => [CollectionCreate]
                            end
  /\ ensureSchema s' = (Return tt, s')
  /\ (forall e, List.find (fun e => bool_decide (e_id e = eventId)) (events db) = Some e ->
        references_resolve db e -> indexable (e_status e) = true ->
        exists doc docs,
          indexEvent D db eventId s'
          = (Return tt, {| collection := Some docs; calls := calls s' ++ [DocumentUpsert doc] |})
          /\ docs !! String_of_Z eventId = Some doc
          /\ doc_status doc = e_status e /\ doc_name doc = e_name e).
Proof.
  intros s'. unfold s'. rewrite ensureSchema_run. simpl.
  split; [reflexivity|]. split; [reflexivity|]. split; [destruct (collection s); reflexivity|].
  split.
  - rewrite ensureSchema_run. simpl. rewrite app_nil_r. reflexivity.
  - intros e Hfind Hfk Hst.
    assert (Hid : e_id e = eventId).
    { apply List.find_some in Hfind as [_ H]. apply bool_decide_eq_true in H. exact H. }
    destruct (joinEvent_Some db e Hfk) as (r & Hr & Hrid & Hrst & Hrn).
    assert (Hsel : selectEvent db eventId = Some r).
    { unfold selectEvent. clear -Hfind Hr.
      induction (events db) as [| x l IH]; simpl in *; [discriminate|].
      destruct (bool_decide (e_id x = eventId)).
      - injection Hfind as ->. simpl. rewrite Hr. reflexivity.
      - apply IH. exact Hfind. }
    unfold indexEvent. rewrite Hsel, Hrst, Hst. simpl.
    match goal with |- context [document_upsert ?d] => set (doc := d) end.
    assert (Hkey : doc_id doc = String_of_Z eventId).
    { unfold doc. simpl. rewrite Hrid, Hid. reflexivity. }
    exists doc. eexists. split; [reflexivity|]. split.
    + rewrite <- Hkey. apply lookup_insert_eq.
    + split; [exact Hrst | exact Hrn].
Qed.

End SearchSchemaProps.

(** ** Fingerprints *)

Module IngestionProps.
Import JsString Normalizer Types Dedup Ingestion IngestionSpec SearchSyncProps.

(** *** [generateFingerprints] *)

Lemma split_nonempty sep s : split sep s <> [].
Proof.
  destruct s as [| c t]; simpl; [discriminate|].
  destruct (c =? sep)%N; [discriminate|]. destruct (split sep t); discriminate.
Qed.

Lemma join_split sep s : join sep (split sep s) = s.
Proof.
  induction s as [| c t IH]; [reflexivity|]. simpl.
  destruct (c =? sep)%N eqn:E.
  - apply N.eqb_eq in E. subst c.
    pose proof (split_nonempty sep t) as Hne.
    destruct (split sep t) as [| w ws]; [contradiction|].
    change (join sep ([] :: w :: ws)) with ([] ++ sep :: join sep (w :: ws)).
    rewrite IH. reflexivity.
  - pose proof (split_nonempty sep t) as Hne.
    destruct (split sep t) as [| w ws]; [contradiction|].
    destruct ws as [| w' ws'].
    + simpl in *. rewrite IH. reflexivity.
    + change (join sep ((c :: w) :: w' :: ws')) with ((c :: w) ++ sep :: join sep (w' :: ws')).
      change (join sep (w :: w' :: ws')) with (w ++ sep :: join sep (w' :: ws')) in IH.
      simpl. rewrite <- IH. reflexivity.
Qed.

Lemma split_length sep s :
  List.length (split sep s) = S (List.length (List.filter (fun c => (c =? sep)%N) s)).
Proof.
  induction s as [| c t IH]; [reflexivity|]. simpl.
  destruct (c =? sep)%N; simpl; [rewrite IH; reflexivity|].
  pose proof (split_nonempty sep t) as Hne.
  destruct (split sep t) as [| w ws]; [contradiction|]. exact IH.
Qed.

Lemma firstWords_short c : (spaces (normalizedName c) <= 2)%nat -> firstWords c = normalizedName c.
Proof.
  intros H. unfold firstWords, spaces in *.
  rewrite take_ge by (rewrite split_length; lia). apply join_split.
Qed.

Lemma app_sep_inj (sep : N) l1 r1 l2 r2 :
  ~ In sep l1 -> ~ In sep l2 -> l1 ++ sep :: r1 = l2 ++ sep :: r2 -> l1 = l2 /\ r1 = r2.
Proof.
  revert l2. induction l1 as [| a l1 IH]; intros l2 H1 H2 H.
  - destruct l2 as [| b l2]; simpl in H.
    + injection H as H. auto.
    + injection H as Hb _. exfalso. apply H2. left. congruence.
  - destruct l2 as [| b l2]; simpl in H.
    + injection H as Ha _. exfalso. apply H1. left. exact Ha.
    + injection H as -> H. destruct (IH l2) as [-> ->]; [| |exact H|auto].
      * intros Hin. apply H1. right. exact Hin.
      * intros Hin. apply H2. right. exact Hin.
Qed.

Lemma String_of_Z_chars n : Forall (fun c => is_digit c = true \/ c = 45%N) (String_of_Z n).
Proof.
  destruct n as [| p | p].
  - repeat constructor.
  - destruct (SheetsClientProps.String_of_Z_abs_digits (Z.pos p)) as [H _].
    eapply Forall_impl; [exact H|]. auto.
  - destruct (SheetsClientProps.String_of_Z_abs_digits (Z.pos p)) as [H _].
    change (String_of_Z (Z.neg p)) with (45%N :: String_of_Z (Z.abs (Z.pos p))).
    constructor; [right; reflexivity|]. eapply Forall_impl; [exact H|]. auto.
Qed.

Lemma template_number_inj a b : template_number a = template_number b -> a = b.
Proof.
  assert (Hnull : forall k, String_of_Z k <> js "null").
  { intros k H. pose proof (String_of_Z_chars k) as Hc. rewrite H in Hc.
    inversion Hc as [| ? ? [Hd | Hd] _]; discriminate Hd. }
  destruct a as [a|], b as [b|]; simpl; intros H.
  - f_equal. exact (String_of_Z_inj _ _ H).
  - exfalso. exact (Hnull _ H).
  - exfalso. symmetry in H. exact (Hnull _ H).
  - reflexivity.
Qed.

(** X16: [generateFingerprints] returns four fingerprints, of types exact,
    fuzzy name, date and location, week and location in this order: the
    hashes of [name|date|city], [first three words|date|city], [date|city] and
    [week start|city]. For a name of at most three words the fuzzy key is the
    exact key. For names and dates without a vertical bar, two candidates have
    the same exact key exactly when they have the same normalized name, start
    date and city id; and [normalizeName] never returns a bar. *)
Theorem generateFingerprints_keys
    (sha256 getWeekStart : list N -> list N) (c : NormalizedCandidate) :
  List.map fp_type (generateFingerprints sha256 getWeekStart c)
  = [fp_exact; fp_fuzzy_name; fp_date_location; fp_week_location]
  /\ List.map fp_value (generateFingerprints sha256 getWeekStart c)
     = [sha256 (exact_key c); sha256 (fuzzy_key c); sha256 (date_location_key c);
        sha256 (getWeekStart (startDate c) ++ js "|" ++ template_number (cityId c))]
  /\ ((spaces (normalizedName c) <= 2)%nat -> fuzzy_key c = exact_key c)
  /\ (forall c', bar_free (normalizedName c) -> bar_free (normalizedName c') ->
                 bar_free (startDate c) -> bar_free (startDate c') ->
                 (exact_key c = exact_key c'
                  <-> normalizedName c = normalizedName c' /\ startDate c = startDate c'
                      /\ cityId c = cityId c'))
  /\ (forall U raw, bar_free (normalizeName U raw)).
Proof.
  split; [reflexivity|]. split; [reflexivity|]. split; [|split].
  - intros H. unfold fuzzy_key, exact_key. rewrite (firstWords_short c H). reflexivity.
  - intros c' Hn Hn' Hd Hd'. unfold exact_key. split.
    + intros H. change (js "|") with [124%N] in H. simpl in H.
      apply app_sep_inj in H as [H1 H]; [|assumption|assumption].
      apply app_sep_inj in H as [H2 H3]; [|assumption|assumption].
      split; [exact H1|]. split; [exact H2|]. exact (template_number_inj _ _ H3).
    + intros (-> & -> & ->). reflexivity.
  - intros U raw Hbar.
    destruct (NormalizerProps.normalizeName_canonical U raw) as (Hchars & _).
    rewrite List.Forall_forall in Hchars. destruct (Hchars _ Hbar) as [H | H]; discriminate H.
Qed.

End IngestionProps.

(** ** The pipeline run *)

Module PipelineProps.
Import JsString Normalizer Types Dedup Ingestion IngestionSpec.

Section Run.
Context {W RawEvent EventCandidate : Type}.
Variable U : Unicode.
Variable S : Services W RawEvent EventCandidate.

(** Splits a [bind] that returned. *)
Lemma bind_Return {A B : Type} (m : P W A) (k : A -> P W B) w b w' :
  bind W m k w = (Return b, w') ->
  exists a w1, m w = (Return a, w1) /\ k a w1 = (Return b, w').
Proof.
  unfold bind. destruct (m w) as [[a | e] w1]; [|discriminate].
  intros H. exists a, w1. split; [reflexivity | exact H].
Qed.

Lemma processRawEvents_counts adapter rawEvents : forall sourceReport w sourceReport' w',
  processRawEvents W RawEvent EventCandidate U S adapter rawEvents sourceReport w
  = (Return sourceReport', w') ->
  sr_sourceId sourceReport' = sr_sourceId sourceReport
  /\ sr_sourceName sourceReport' = sr_sourceName sourceReport
  /\ fetched sourceReport' = fetched sourceReport
  /\ created sourceReport <= created sourceReport'
  /\ merged sourceReport <= merged sourceReport'
  /\ reviewNeeded sourceReport <= reviewNeeded sourceReport'
  /\ created sourceReport' + merged sourceReport' + reviewNeeded sourceReport'
     = created sourceReport + merged sourceReport + reviewNeeded sourceReport
       + Z.of_nat (List.length rawEvents).
Proof.
  induction rawEvents as [| raw rest IH]; intros sr w sr' w' H.
  - injection H as <- _. simpl. repeat split; lia.
  - cbn [processRawEvents] in H.
    apply bind_Return in H as (candidate & w1 & _ & H).
    apply bind_Return in H as (normalized & w2 & _ & H).
    apply bind_Return in H as (candidateId & w3 & _ & H).
    apply bind_Return in H as (result & w4 & _ & H).
    apply bind_Return in H as (sr1 & w5 & Hstep & H).
    apply bind_Return in H as (_ & w6 & _ & H).
    apply IH in H as (H1 & H2 & H3 & H4 & H5 & H6 & H7).
    assert (Hsr1 : sr_sourceId sr1 = sr_sourceId sr /\ sr_sourceName sr1 = sr_sourceName sr
                   /\ fetched sr1 = fetched sr
                   /\ created sr <= created sr1 /\ merged sr <= merged sr1
                   /\ reviewNeeded sr <= reviewNeeded sr1
                   /\ created sr1 + merged sr1 + reviewNeeded sr1
                      = created sr + merged sr + reviewNeeded sr + 1).
    { destruct (action result);
        apply bind_Return in Hstep as (_ & w7 & _ & Hstep);
        injection Hstep as <- _; simpl; repeat split; lia. }
    destruct Hsr1 as (G1 & G2 & G3 & G4 & G5 & G6 & G7).
    cbn [List.length]. rewrite Nat2Z.inj_succ.
    repeat split; try congruence; lia.
Qed.

Lemma processSource_Return source report w report' w' :
  processSource W RawEvent EventCandidate U S source report w = (Return report', w') ->
  exists sourceReport,
    sr_sourceId sourceReport = src_id source
    /\ sr_sourceName sourceReport = src_name source
    /\ balanced sourceReport
    /\ report'
       = {| startedAt := startedAt report;
            completedAt := completedAt report;
            sources := sources report ++ [sourceReport];
            totalFetched := totalFetched report + fetched sourceReport;
            totalCreated := totalCreated report + created sourceReport;
            totalMerged := totalMerged report + merged sourceReport;
            totalReviewNeeded := totalReviewNeeded report + reviewNeeded sourceReport;
            errors := errors report |}.
Proof.
  unfold processSource. intros H.
  apply bind_Return in H as (adapter & w1 & _ & H).
  apply bind_Return in H as (rawEvents & w2 & _ & H).
  apply bind_Return in H as (sr & w3 & Hloop & H).
  apply bind_Return in H as (_ & w4 & _ & H).
  injection H as <- _.
  apply processRawEvents_counts in Hloop as (H1 & H2 & H3 & H4 & H5 & H6 & H7).
  simpl in *. exists sr. split; [exact H1|]. split; [exact H2|].
  split; [unfold balanced; lia | reflexivity].
Qed.

(** What a run over some sources adds to a report: the reports of the
    sources that went through, the errors of those that threw, and the
    totals of the former. *)
Lemma processSources_adds activeSources : forall report w,
  exists done failed w',
    processSources W RawEvent EventCandidate U S activeSources report w
    = (Return {| startedAt := startedAt report;
                 completedAt := completedAt report;
                 sources := sources report ++ done;
                 totalFetched := totalFetched report + sum fetched done;
                 totalCreated := totalCreated report + sum created done;
                 totalMerged := totalMerged report + sum merged done;
                 totalReviewNeeded := totalReviewNeeded report + sum reviewNeeded done;
                 errors := errors report ++ failed |}, w')
    /\ Forall balanced done
    /\ List.map sr_sourceId done `sublist_of` List.map src_id activeSources
    /\ List.map ie_sourceId failed `sublist_of` List.map src_id activeSources
    /\ Permutation (List.map sr_sourceId done ++ List.map ie_sourceId failed)
                   (List.map src_id activeSources).
Proof.
  induction activeSources as [| source rest IH]; intros report w.
  - exists [], [], w. unfold sum. simpl. rewrite !app_nil_r, !Z.add_0_r.
    split; [destruct report; reflexivity|]. repeat split; constructor.
  - cbn [processSources]. unfold bind at 1, try_catch.
    destruct (processSource W RawEvent EventCandidate U S source report w)
      as [[report1 | e] w1] eqn:Hsrc.
    + destruct (processSource_Return _ _ _ _ _ Hsrc) as (sr & Hid & _ & Hbal & ->).
      destruct (IH {| startedAt := startedAt report;
                      completedAt := completedAt report;
                      sources := sources report ++ [sr];
                      totalFetched := totalFetched report + fetched sr;
                      totalCreated := totalCreated report + created sr;
                      totalMerged := totalMerged report + merged sr;
                      totalReviewNeeded := totalReviewNeeded report + reviewNeeded sr;
                      errors := errors report |} w1)
        as (done & failed & w' & Hrun & Hbals & Hsub1 & Hsub2 & Hperm).
      exists (sr :: done), failed, w'. rewrite Hrun. simpl. unfold sum. simpl.
      split; [rewrite <- app_assoc, <- !Z.add_assoc; reflexivity|].
      split; [constructor; assumption|].
      split; [rewrite Hid; apply sublist_skip; exact Hsub1|].
      split; [apply sublist_cons; exact Hsub2|].
      rewrite Hid. constructor. exact Hperm.
    + cbn [ret].
      destruct (IH {| startedAt := startedAt report;
                      completedAt := completedAt report;
                      sources := sources report;
                      totalFetched := totalFetched report;
                      totalCreated := totalCreated report;
                      totalMerged := totalMerged report;
                      totalReviewNeeded := totalReviewNeeded report;
                      errors := errors report
                                ++ [{| ie_sourceId := src_id source;
                                       ie_error := message W RawEvent EventCandidate S e |}] |}
                   w1)
        as (done & failed & w' & Hrun & Hbals & Hsub1 & Hsub2 & Hperm).
      exists done, ({| ie_sourceId := src_id source;
                       ie_error := message W RawEvent EventCandidate S e |} :: failed), w'.
      unfold ret. rewrite Hrun. simpl.
      split; [rewrite <- app_assoc; reflexivity|].
      split; [exact Hbals|].
      split; [apply sublist_cons; exact Hsub1|].
      split; [apply sublist_skip; exact Hsub2|].
      rewrite <- Permutation_middle. constructor. exact Hperm.
Qed.

End Run.


End PipelineProps.

(** ** Agreement of the sources *)

Module AgreementProps.
Import JsString Normalizer Types Confidence ConfidenceSpec ConfidenceProps AgreementSpec.
Local Open Scope Q_scope.

Lemma remove_dups_single {A : Type} `{EqDecision A} (l : list A) :
  (List.length (remove_dups l) =? 1)%nat = true <-> l <> [] /\ unanimous l.
Proof.
  rewrite Nat.eqb_eq. split.
  - intros H. destruct (remove_dups l) as [| x [| y r]] eqn:E; try discriminate.
    assert (Hall : forall z, In z l -> z = x).
    { intros z Hz. apply list_elem_of_In in Hz.
      apply (proj2 (elem_of_remove_dups l z)) in Hz. rewrite E in Hz.
      apply list_elem_of_singleton in Hz. exact Hz. }
    split.
    + intros ->. discriminate E.
    + intros a b Ha Hb. rewrite (Hall a Ha), (Hall b Hb). reflexivity.
  - intros [Hne Hun]. destruct l as [| x l]; [contradiction|].
    assert (Hsub : forall z, z ∈ remove_dups (x :: l) -> z = x).
    { intros z Hz. apply (proj1 (elem_of_remove_dups (x :: l) z)) in Hz.
      apply list_elem_of_In in Hz. apply Hun; [exact Hz | left; reflexivity]. }
    pose proof (NoDup_remove_dups (x :: l)) as Hnd.
    assert (Hx : x ∈ remove_dups (x :: l)) by (apply elem_of_remove_dups; left).
    destruct (remove_dups (x :: l)) as [| a [| b r]]; [inversion Hx | reflexivity |].
    exfalso. assert (a = x) by (apply Hsub; left).
    assert (b = x) by (apply Hsub; right; left). subst.
    apply NoDup_cons in Hnd as [Hnd _]. apply Hnd. left.
Qed.

Lemma forallb_hd_unanimous (l : list (list N)) :
  List.forallb (fun v => bool_decide (v = List.hd [] l)) l = true <-> unanimous l.
Proof.
  rewrite List.forallb_forall. split.
  - intros H x y Hx Hy. apply H, bool_decide_eq_true in Hx. apply H, bool_decide_eq_true in Hy.
    congruence.
  - intros H x Hx. apply bool_decide_eq_true. destruct l as [| a l]; [destruct Hx|].
    apply H; [exact Hx | left; reflexivity].
Qed.

Lemma agreement_ratio_cases (dc da vc va : bool) :
  let agreements := count_true [dc && da; vc && va] in
  let comparisons := count_true [dc; vc] in
  let r := if Qlt_le_dec 0 comparisons then agreements / comparisons else 0.5 in
  (r == 0 \/ r == 1 # 2 \/ r == 1)
  /\ (dc = false -> vc = false -> r = 0.5)
  /\ (r == 1 <-> (dc = true \/ vc = true) /\ (dc = true -> da = true) /\ (vc = true -> va = true))
  /\ (r == 0 <-> (dc = true \/ vc = true) /\ (dc = true -> da = false)
                 /\ (vc = true -> va = false)).
Proof.
  destruct dc, da, vc, va; cbv zeta;
    match goal with |- context [Qlt_le_dec ?a ?b] => destruct (Qlt_le_dec a b) as [H | H] end;
    try (exfalso; vm_compute in H; first [discriminate H | apply H; reflexivity]);
    (split; [vm_compute; auto|]); (split; [intros; try discriminate; reflexivity|]);
    split; (split; [intros Hq; vm_compute in Hq; try discriminate Hq; intuition congruence
                   | intros (H1 & H2 & H3); vm_compute;
                     try reflexivity; intuition congruence]).
Qed.

(** X15: [calculateSourceAgreement] returns 0, 1/2 or 1 and does not read
    the event it is given. It returns 1/2 when the sources report at most one
    date and at most one venue. With two sources or more it returns 1 exactly
    when the dates or the venues are reported at least twice and all reported
    dates agree and all reported venues agree. *)
Theorem calculateSourceAgreement_values
    (U : Unicode) (E : Env) (event : Event) (sources : list EventSource) :
  let a := calculateSourceAgreement U E event sources in
  let dates := reported_dates E sources in
  let venues := reported_venues U sources in
  (a == 0 \/ a == 1 # 2 \/ a == 1)
  /\ (forall event', calculateSourceAgreement U E event' sources = a)
  /\ ((List.length dates <= 1)%nat -> (List.length venues <= 1)%nat -> a = 0.5)
  /\ ((2 <= List.length sources)%nat ->
      (a == 1 <-> ((2 <= List.length dates)%nat \/ (2 <= List.length venues)%nat)
                  /\ unanimous dates /\ unanimous venues)).
Proof.
  cbv zeta. split; [|split; [reflexivity|]].
  - unfold calculateSourceAgreement.
    destruct (length sources <=? 1)%nat; [right; left; reflexivity|].
    cbv zeta. apply agreement_ratio_cases.
  - unfold calculateSourceAgreement, reported_dates, reported_venues.
    rewrite !List.length_map.
    set (ds := List.filter _ (List.map (fun s => or_string (raw_start_date _) _) sources)).
    set (vs := List.filter _ (List.map (fun s => or_string (raw_venue_name _) _) sources)).
    destruct (length sources <=? 1)%nat eqn:Hlen.
    + split; [reflexivity|]. apply Nat.leb_le in Hlen. intros H. lia.
    + cbv zeta.
      match goal with
      | |- context [count_true [?dc && ?da; ?vc && ?va]] =>
          pose proof (agreement_ratio_cases dc da vc va) as (_ & Hhalf & Hone & _);
          set (dcompared := dc) in *; set (dagree := da) in *;
          set (vcompared := vc) in *; set (vagree := va) in *
      end.
      cbv zeta in Hhalf, Hone.
      assert (Hdc : dcompared = true <-> (2 <= length ds)%nat).
      { unfold dcompared. rewrite Nat.ltb_lt. lia. }
      assert (Hvc : vcompared = true <-> (2 <= length vs)%nat).
      { unfold vcompared. rewrite Nat.ltb_lt. lia. }
      split.
      * intros Hd Hv. apply Hhalf.
        -- destruct dcompared; [|reflexivity]. destruct Hdc as [Hdc _].
           specialize (Hdc eq_refl). lia.
        -- destruct vcompared; [|reflexivity]. destruct Hvc as [Hvc _].
           specialize (Hvc eq_refl). lia.
      * intros _.
        assert (Hda : dcompared = true ->
                  (dagree = true
                   <-> unanimous (List.map (fun d => normalizeDate E (default [] d)) ds))).
        { intros Hc. unfold dagree. rewrite remove_dups_single.
          split; [tauto|]. intros Hu. split; [|exact Hu].
          apply Hdc in Hc. destruct ds; [simpl in Hc; lia | discriminate]. }
        assert (Hva : vcompared = true ->
                  (vagree = true
                   <-> unanimous (List.map (fun v => normalizeName U (default [] v)) vs))).
        { intros Hc. unfold vagree. apply forallb_hd_unanimous. }
        assert (Hshort : forall (A : Type) (l : list A), ~ (2 <= length l)%nat -> unanimous l).
        { intros A l Hl x y Hx Hy. destruct l as [| a [| b l]]; [destruct Hx | | simpl in Hl; lia].
          destruct Hx as [<- | []]. destruct Hy as [<- | []]. reflexivity. }
        rewrite Hone, Hdc, Hvc. split.
        -- intros (Hsome & Hd & Hv). split; [exact Hsome|]. split.
           ++ destruct (le_lt_dec 2 (length ds)) as [H2 | H2].
              ** apply Hda; [apply Hdc; exact H2 | apply Hd; exact H2].
              ** apply Hshort. rewrite List.length_map. lia.
           ++ destruct (le_lt_dec 2 (length vs)) as [H2 | H2].
              ** apply Hva; [apply Hvc; exact H2 | apply Hv; exact H2].
              ** apply Hshort. rewrite List.length_map. lia.
        -- intros (Hsome & Hd & Hv). split; [exact Hsome|]. split.
           ++ intros H2. apply Hda; [apply Hdc; exact H2 | exact Hd].
           ++ intros H2. apply Hva; [apply Hvc; exact H2 | exact Hv].
Qed.

End AgreementProps.

(** ** The HTTP handlers *)

Module ApiProps.
Import JsString SheetsClient SheetsClientSpec SheetsQueries Api ApiSpec.
Import Scan ScanProps SheetsClientProps TallySpec TallyProps.

Lemma StronglySorted_weaken {A : Type} (R S : A -> A -> Prop) (l : list A) :
  (forall a b, R a b -> S a b) -> StronglySorted R l -> StronglySorted S l.
Proof.
  intros HRS. induction 1 as [| a l _ IH Ha]; constructor; [exact IH|].
  eapply Forall_impl; [exact Ha | exact (HRS a)].
Qed.

Lemma filter_true {A : Type} (l : list A) : List.filter (fun _ => true) l = l.
Proof. induction l as [| x l IH]; simpl; congruence. Qed.

Lemma filter_filter_andb {A : Type} (f g : A -> bool) (l : list A) :
  List.filter g (List.filter f l) = List.filter (fun x => f x && g x) l.
Proof.
  induction l as [| x l IH]; simpl; [reflexivity|].
  destruct (f x); simpl; [destruct (g x)|]; rewrite IH; reflexivity.
Qed.

Lemma filter_Permutation {A : Type} (f : A -> bool) (l l' : list A) :
  Permutation l l' -> Permutation (List.filter f l) (List.filter f l').
Proof.
  induction 1 as [| x l l' _ IH | x y l | l l' l'' _ IH1 _ IH2]; simpl.
  - reflexivity.
  - destruct (f x); [constructor|]; exact IH.
  - destruct (f x), (f y); try reflexivity. apply perm_swap.
  - etransitivity; eassumption.
Qed.

(** *** What [fetchEvents] returns and what it leaves in the cache *)

Section Fetch.
Context {Row : Type} (rowToEvent : Row -> Completion SheetEvent).

Lemma fetchEvents_returns c w : exists events, fst (fetchEvents rowToEvent c w) = Return events.
Proof.
  unfold fetchEvents.
  destruct (cache_is_fresh c (now_at_check w)); [eexists; reflexivity|].
  destruct (queryEvents rowToEvent (response w)); [eexists; reflexivity|].
  destruct (_cachedEvents c); eexists; reflexivity.
Qed.

Lemma fetchEvents_cached c w events c1 :
  fetchEvents rowToEvent c w = (Return events, c1) ->
  forall l, _cachedEvents c1 = Some l -> l = events.
Proof.
  unfold fetchEvents, cache_is_fresh. intros H l Hl.
  destruct (_cachedEvents c) as [cached|] eqn:Hc.
  - destruct (bool_decide _).
    + injection H as <- <-. rewrite Hc in Hl. simpl. congruence.
    + destruct (queryEvents rowToEvent (response w)); injection H as <- <-.
      * simpl in Hl. congruence.
      * congruence.
  - destruct (queryEvents rowToEvent (response w)); injection H as <- <-.
    + simpl in Hl. congruence.
    + congruence.
Qed.

Lemma fetchEvents_array_elements c w events c1 :
  fetchEvents rowToEvent c w = (Return events, c1) ->
  exists a, fetchEvents_array rowToEvent c w = (Return a, c1)
            /\ elements_of c1 a = events
            /\ (a = CachedArray <-> _cachedEvents c1 <> None).
Proof.
  intros H. unfold fetchEvents_array. rewrite H.
  destruct (_cachedEvents c1) as [l|] eqn:Hl.
  - exists CachedArray. split; [reflexivity|]. split.
    + simpl. rewrite Hl. simpl. exact (fetchEvents_cached c w events c1 H l Hl).
    + split; [discriminate | reflexivity].
  - exists (OwnArray events). split; [reflexivity|]. split; [reflexivity|].
    split; [discriminate | congruence].
Qed.

Lemma fetchEvents_fresh_hit c w cached :
  _cachedEvents c = Some cached -> now_at_check w - _cacheTimestamp c < CACHE_TTL ->
  fetchEvents rowToEvent c w = (Return cached, c).
Proof.
  intros Hc Hage. unfold fetchEvents, cache_is_fresh. rewrite Hc.
  rewrite bool_decide_eq_true_2 by exact Hage. reflexivity.
Qed.

End Fetch.

(** *** The comparators *)

Section Comparators.
Variable localeCompare : list N -> list N -> Z.
Hypothesis collation : consistent localeCompare.

Lemma pinned_then_date_total a b :
  pinned_then_date localeCompare a b <= 0 \/ pinned_then_date localeCompare b a <= 0.
Proof.
  unfold pinned_then_date. destruct (is_pinned a), (is_pinned b); simpl; try lia;
    apply (proj1 collation).
Qed.

Lemma pinned_then_date_trans a b c :
  pinned_then_date localeCompare a b <= 0 -> pinned_then_date localeCompare b c <= 0 ->
  pinned_then_date localeCompare a c <= 0.
Proof.
  unfold pinned_then_date. destruct (is_pinned a), (is_pinned b), (is_pinned c); simpl;
    try lia; apply (proj2 collation).
Qed.

Lemma pinned_then_date_order a b :
  pinned_then_date localeCompare a b <= 0 -> pinned_first_then_date localeCompare a b.
Proof.
  unfold pinned_then_date, pinned_first_then_date.
  destruct (is_pinned a), (is_pinned b); simpl; intros H; split; intros; try lia; congruence.
Qed.

Lemma pinned_significance_date_total a b :
  pinned_significance_date localeCompare a b <= 0
  \/ pinned_significance_date localeCompare b a <= 0.
Proof.
  unfold pinned_significance_date.
  destruct (is_pinned a), (is_pinned b); simpl; try lia;
    destruct (decide (cultural_significance b = cultural_significance a)) as [He | Hne];
    try (rewrite (bool_decide_eq_true_2 _ He),
           (bool_decide_eq_true_2 (cultural_significance a = cultural_significance b))
           by congruence; simpl; apply (proj1 collation));
    rewrite (bool_decide_eq_false_2 _ Hne),
      (bool_decide_eq_false_2 (cultural_significance a = cultural_significance b))
      by congruence; simpl; lia.
Qed.

Lemma pinned_significance_date_trans a b c :
  pinned_significance_date localeCompare a b <= 0 ->
  pinned_significance_date localeCompare b c <= 0 ->
  pinned_significance_date localeCompare a c <= 0.
Proof.
  unfold pinned_significance_date.
  destruct (is_pinned a), (is_pinned b), (is_pinned c); simpl; try lia;
    repeat match goal with
           | |- context [bool_decide (?x = ?y)] =>
               destruct (bool_decide_reflect (x = y)); simpl
           end; try lia; try apply (proj2 collation).
Qed.

Lemma pinned_significance_date_order a b :
  pinned_significance_date localeCompare a b <= 0 ->
  pinned_first_then_significance localeCompare a b.
Proof.
  unfold pinned_significance_date, pinned_first_then_significance.
  destruct (is_pinned a), (is_pinned b); simpl;
    destruct (bool_decide_reflect (cultural_significance b = cultural_significance a));
    simpl; intros H; repeat split; intros; try lia; congruence.
Qed.

End Comparators.

(** *** [api/events.ts] *)

Section Events.
Context {Row : Type} (rowToEvent : Row -> Completion SheetEvent).
Variable U : Unicode.
Variable localeCompare : list N -> list N -> Z.

Lemma events_handler_GET query now c w events c1 a :
  fetchEvents_array rowToEvent c w = (Return a, c1) ->
  elements_of c1 a = events ->
  events_handler rowToEvent U localeCompare (js "GET") query now c w
  = match string_param (eq_slug query) with
    | Some slug_ =>
        match List.find (fun e => bool_decide (slug e = slug_) || bool_decide (id e = slug_))
                events with
        | None => ({| res_status := 404; res_json := EventsError (js "Event not found") |}, c1)
        | Some event => ({| res_status := 200; res_json := EventsOne event |}, c1)
        end
    | None =>
        let a1 := match string_param (eq_city query) with
                  | Some city_ =>
                      OwnArray (List.filter (fun e => bool_decide (city_slug e = city_))
                                  (elements_of c1 a))
                  | None => a
                  end in
        let a2 := match string_param (eq_genre query) with
                  | Some genre =>
                      OwnArray (List.filter (has_genre U (toLowerCase U genre))
                                  (elements_of c1 a1))
                  | None => a1
                  end in
        let a3 := match string_param (eq_status query) with
                  | Some status_ =>
                      OwnArray (List.filter (fun e => bool_decide (status e = status_))
                                  (elements_of c1 a2))
                  | None => a2
                  end in
        let a4 := match string_param (eq_type query) with
                  | Some type_ =>
                      OwnArray (List.filter (fun e => bool_decide (event_type e = type_))
                                  (elements_of c1 a3))
                  | None => a3
                  end in
        let a5 := if is_string (eq_upcoming query) (js "true")
                     || is_string (eq_upcoming query) (js "1")
                  then OwnArray (getUpcomingEvents localeCompare now (elements_of c1 a4))
                  else a4 in
        let sorted := sort_in_place (pinned_then_date localeCompare) c1 a5 in
        ({| res_status := 200;
            res_json := EventsList (elements_of (snd sorted) (fst sorted))
                          (Z.of_nat (List.length (elements_of (snd sorted) (fst sorted)))) |},
         snd sorted)
    end.
Proof.
  intros Ha He. unfold events_handler. rewrite Ha, He. cbv zeta.
  destruct (string_param (eq_slug query)); [reflexivity|].
  destruct (sort_in_place _ _ _). reflexivity.
Qed.

Lemma sort_in_place_own cmp c l :
  sort_in_place cmp c (OwnArray l) = (OwnArray (Array_sort cmp l), c).
Proof. reflexivity. Qed.

Lemma sort_in_place_elements cmp c a :
  elements_of (snd (sort_in_place cmp c a)) (fst (sort_in_place cmp c a))
  = Array_sort cmp (elements_of c a).
Proof.
  destruct a as [| l]; [|reflexivity]. simpl. destruct (_cachedEvents c); reflexivity.
Qed.

(** X21: a GET of the event listing with no parameter that selects
    sorts the array of the cache where it stands: it answers 200 with the
    events [fetchEvents] returned, sorted pinned first and then by date, and
    the cache holds them in that order afterwards, so that [fetchEvents]
    serves that order, and not the one of the store, for as long as the cache
    is fresh. With any selecting parameter the cache is left as [fetchEvents]
    left it. *)
Theorem events_handler_unfiltered_listing_sorts_the_cache
    (query : EventsQuery) (now : UtcTime) (c : Cache) (w : World Row) :
  let c1 := snd (fetchEvents rowToEvent c w) in
  let answer := fst (events_handler rowToEvent U localeCompare (js "GET") query now c w) in
  let c2 := snd (events_handler rowToEvent U localeCompare (js "GET") query now c w) in
  exists events,
    fst (fetchEvents rowToEvent c w) = Return events
    /\ (unfiltered query = false -> c2 = c1)
    /\ (unfiltered query = true ->
        let sorted := Array_sort (pinned_then_date localeCompare) events in
        answer = {| res_status := 200;
                    res_json := EventsList sorted (Z.of_nat (List.length sorted)) |}
        /\ c2 = {| _cachedEvents := option_map (fun _ => sorted) (_cachedEvents c1);
                   _cacheTimestamp := _cacheTimestamp c1 |}
        /\ (forall w', _cachedEvents c1 <> None ->
              now_at_check w' - _cacheTimestamp c1 < CACHE_TTL ->
              fetchEvents rowToEvent c2 w' = (Return sorted, c2))).
Proof.
  intros c1 answer c2. subst c1 answer c2.
  destruct (fetchEvents_returns rowToEvent c w) as (events & Hret).
  destruct (fetchEvents rowToEvent c w) as [r c1] eqn:Hf. simpl in Hret. subst r.
  destruct (fetchEvents_array_elements rowToEvent c w events c1 Hf) as (a & Ha & He & Hcached).
  exists events. split; [reflexivity|].
  rewrite (events_handler_GET query now c w events c1 a Ha He). cbn [snd].
  unfold unfiltered.
  destruct (string_param (eq_slug query)) as [slug_|].
  { split; [|discriminate]. intros _. destruct (List.find _ events); reflexivity. }
  destruct (string_param (eq_city query)), (string_param (eq_genre query)),
    (string_param (eq_status query)), (string_param (eq_type query)),
    (is_string (eq_upcoming query) (js "true") || is_string (eq_upcoming query) (js "1"));
    try (split; [intros _; reflexivity | discriminate]).
  split; [discriminate|]. intros _. cbv zeta. cbn [fst snd negb].
  rewrite sort_in_place_elements, He.
  assert (Hc2 : snd (sort_in_place (pinned_then_date localeCompare) c1 a)
                = {| _cachedEvents :=
                       option_map (fun _ => Array_sort (pinned_then_date localeCompare) events)
                         (_cachedEvents c1);
                     _cacheTimestamp := _cacheTimestamp c1 |}).
  { destruct a as [| l]; simpl.
    - simpl in He. destruct (_cachedEvents c1) as [l|]; simpl in *; [subst l; reflexivity|].
      exfalso. apply (proj1 Hcached); reflexivity.
    - destruct (_cachedEvents c1) eqn:Hc1.
      + exfalso. assert (H : OwnArray l = CachedArray) by (apply Hcached; discriminate).
        discriminate H.
      + destruct c1; simpl in *. subst. reflexivity. }
  split; [reflexivity|]. split; [exact Hc2|].
  intros w' Hsome Hage. rewrite Hc2. apply fetchEvents_fresh_hit; simpl.
  - destruct (_cachedEvents c1); [reflexivity | contradiction].
  - exact Hage.
Qed.

(** After one listing without parameters the cache holds the pinned event
    first, and that is the order [fetchEvents] serves a minute later. *)
Example events_handler_reorders_the_cache :
  let c1 := snd (fetchEvents decode initial_cache two_events) in
  let c2 := snd (events_handler decode AsciiUnicode codeUnitCompare (js "GET") no_query clock
                   initial_cache two_events) in
  fst (fetchEvents decode c1 a_minute_later) = Return [timitar; pinned gnaoua]
  /\ fst (fetchEvents decode c2 a_minute_later) = Return [pinned gnaoua; timitar].
Proof. vm_compute. auto. Qed.

(** X22: under a consistent collation a GET of the event listing never
    answers 500. With a [slug] it answers 404 when no event has that slug or
    id, and 200 with the first such event otherwise. Without one it answers
    200 with the events that pass every filter given (city, genre, status,
    type, and upcoming when it is [true] or [1]), each once, pinned events
    first and each group in ascending order of start date; parameters that are
    empty or repeated do not filter. *)
Theorem events_handler_lists_the_selected_events
    (query : EventsQuery) (now : UtcTime) (c : Cache) (w : World Row) :
  consistent localeCompare ->
  let answer := fst (events_handler rowToEvent U localeCompare (js "GET") query now c w) in
  exists events,
    fst (fetchEvents rowToEvent c w) = Return events
    /\ (forall slug_, string_param (eq_slug query) = Some slug_ ->
          (Forall (fun e => slug e <> slug_ /\ id e <> slug_) events
           /\ answer = {| res_status := 404; res_json := EventsError (js "Event not found") |})
          \/ (exists e, first_such (fun e => slug e = slug_ \/ id e = slug_) events e
                        /\ answer = {| res_status := 200; res_json := EventsOne e |}))
    /\ (string_param (eq_slug query) = None ->
          exists data,
            answer = {| res_status := 200;
                        res_json := EventsList data (Z.of_nat (List.length data)) |}
            /\ Permutation data (List.filter (selected U now query) events)
            /\ StronglySorted (pinned_first_then_date localeCompare) data).
Proof.
  intros Hcoll answer. subst answer.
  destruct (fetchEvents_returns rowToEvent c w) as (events & Hret).
  destruct (fetchEvents rowToEvent c w) as [r c1] eqn:Hf. simpl in Hret. subst r.
  destruct (fetchEvents_array_elements rowToEvent c w events c1 Hf) as (a & Ha & He & _).
  exists events. split; [reflexivity|].
  rewrite (events_handler_GET query now c w events c1 a Ha He). split.
  - intros slug_ ->.
    destruct (find_first_such
                (fun e => bool_decide (slug e = slug_) || bool_decide (id e = slug_)) events)
      as [(e & -> & l1 & l2 & Hsplit & He1 & Hl1) | [-> Hall]].
    + right. exists e. split; [|reflexivity]. exists l1, l2. split; [exact Hsplit|]. split.
      * apply orb_true_iff in He1 as [H | H]; apply bool_decide_eq_true in H; tauto.
      * eapply Forall_impl; [exact Hl1|]. simpl. intros x Hx [H | H]; apply Hx;
          apply orb_true_iff; [left | right]; apply bool_decide_eq_true; exact H.
    + left. split; [|reflexivity]. eapply Forall_impl; [exact Hall|]. simpl. intros x Hx.
      split; intros H; apply Hx; apply orb_true_iff; [left | right];
        apply bool_decide_eq_true; exact H.
  - intros ->. cbv zeta. cbn [fst snd]. rewrite sort_in_place_elements.
    eexists. split; [reflexivity|]. split.
    + rewrite Array_sort_Permutation.
      assert (He' : elements_of c1 a = List.filter (fun _ => true) events)
        by (rewrite filter_true; exact He).
      unfold selected, when_given.
      destruct (string_param (eq_city query)), (string_param (eq_genre query)),
        (string_param (eq_status query)), (string_param (eq_type query)),
        (is_string (eq_upcoming query) (js "true") || is_string (eq_upcoming query) (js "1"));
        cbn [elements_of]; unfold getUpcomingEvents; rewrite ?Array_sort_Permutation;
        cbn [elements_of]; rewrite He', ?filter_filter_andb;
        match goal with
        | |- Permutation (List.filter ?F _) (List.filter ?G _) =>
            rewrite (List.filter_ext F G);
              [reflexivity
              | intros e; simpl; rewrite ?andb_true_r, ?andb_assoc, ?andb_true_r;
                reflexivity]
        end.
    + eapply StronglySorted_weaken; [apply (pinned_then_date_order localeCompare)|].
      apply (Array_sort_sorted (pinned_then_date localeCompare)).
      * apply pinned_then_date_total. exact Hcoll.
      * apply pinned_then_date_trans. exact Hcoll.
Qed.

End Events.

Lemma consistent_codeUnitCompare : consistent codeUnitCompare.
Proof. split; [exact codeUnitCompare_total | exact codeUnitCompare_trans]. Qed.

(** X22 on a listing without parameters, under the code-unit collation. *)
Lemma events_handler_lists_the_selected_events_witness :
  consistent codeUnitCompare
  /\ exists events,
       fst (fetchEvents decode initial_cache two_events) = Return events
       /\ (string_param (eq_slug no_query) = None ->
           exists data,
             fst (events_handler decode AsciiUnicode codeUnitCompare (js "GET") no_query clock
                    initial_cache two_events)
             = {| res_status := 200;
                  res_json := EventsList data (Z.of_nat (List.length data)) |}
             /\ Permutation data (List.filter (selected AsciiUnicode clock no_query) events)
             /\ StronglySorted (pinned_first_then_date codeUnitCompare) data).
Proof.
  split; [exact consistent_codeUnitCompare|].
  destruct (events_handler_lists_the_selected_events decode AsciiUnicode codeUnitCompare
              no_query clock initial_cache two_events consistent_codeUnitCompare)
    as (events & Hret & _ & Hlist).
  exists events. split; [exact Hret | exact Hlist].
Defined.

(** *** [api/festivals.ts] *)

Section Festivals.
Context {Row : Type} (rowToEvent : Row -> Completion SheetEvent).
Variable localeCompare : list N -> list N -> Z.

(** X23: under a consistent collation a GET of the festival listing
    answers 200 with the events of type [festival], each once, kept when
    [all] is the string [true] or when their start date is not before today;
    pinned events come first, then the higher cultural significance, then the
    earlier start date. The handler leaves the cache as [fetchEvents] left
    it. *)
Theorem festivals_handler_lists_festivals
    (all : QueryValue) (now : UtcTime) (c : Cache) (w : World Row) :
  consistent localeCompare ->
  let answer := fst (festivals_handler rowToEvent localeCompare (js "GET") all now c w) in
  let c2 := snd (festivals_handler rowToEvent localeCompare (js "GET") all now c w) in
  exists events data,
    fst (fetchEvents rowToEvent c w) = Return events
    /\ c2 = snd (fetchEvents rowToEvent c w)
    /\ answer = {| res_status := 200;
                   res_json := FestivalsList data (Z.of_nat (List.length data)) |}
    /\ Permutation data
         (List.filter
            (fun e => bool_decide (event_type e = js "festival")
                      && (is_string all (js "true") || geb (start_date e) (today now)))
            events)
    /\ StronglySorted (pinned_first_then_significance localeCompare) data.
Proof.
  intros Hcoll answer c2. subst answer c2.
  destruct (fetchEvents_returns rowToEvent c w) as (events & Hret).
  destruct (fetchEvents rowToEvent c w) as [r c1] eqn:Hf. simpl in Hret. subst r.
  destruct (fetchEvents_array_elements rowToEvent c w events c1 Hf) as (a & Ha & He & _).
  unfold festivals_handler. rewrite Ha. cbv zeta. cbn [bool_decide negb elements_of].
  rewrite bool_decide_eq_true_2 by reflexivity. cbn [negb]. rewrite He.
  set (festivals := if negb (is_string all (js "true"))
                    then getUpcomingEvents localeCompare now
                           (List.filter (fun e => bool_decide (event_type e = js "festival"))
                              events)
                    else List.filter (fun e => bool_decide (event_type e = js "festival"))
                           events).
  exists events, (Array_sort (pinned_significance_date localeCompare) festivals).
  split; [reflexivity|].
  assert (Hperm : Permutation festivals
            (List.filter
               (fun e => bool_decide (event_type e = js "festival")
                         && (is_string all (js "true") || geb (start_date e) (today now)))
               events)).
  { unfold festivals. destruct (is_string all (js "true")); simpl.
    - match goal with
      | |- Permutation ?x (List.filter ?G ?l) =>
          replace (List.filter G l) with x;
            [reflexivity
            | apply List.filter_ext; intros e; rewrite andb_true_r; reflexivity]
      end.
    - unfold getUpcomingEvents. rewrite Array_sort_Permutation, filter_filter_andb.
      reflexivity. }
  destruct (negb (is_string all (js "true"))); subst festivals; simpl;
    (split; [reflexivity|]; split; [reflexivity|]; split;
     [rewrite Array_sort_Permutation; exact Hperm|]);
    (eapply StronglySorted_weaken; [apply (pinned_significance_date_order localeCompare)|];
     apply (Array_sort_sorted (pinned_significance_date localeCompare));
     [apply pinned_significance_date_total | apply pinned_significance_date_trans];
     exact Hcoll).
Qed.

End Festivals.

(** X23 with [all=1], which is not the string [true]: only the upcoming festival is listed. *)
Lemma festivals_handler_lists_festivals_witness :
  consistent codeUnitCompare
  /\ fst (festivals_handler decode codeUnitCompare (js "GET") (QueryString (js "1")) clock
            initial_cache two_events)
     = {| res_status := 200; res_json := FestivalsList [pinned gnaoua] 1 |}
  /\ exists events data,
       fst (fetchEvents decode initial_cache two_events) = Return events
       /\ snd (festivals_handler decode codeUnitCompare (js "GET") (QueryString (js "1")) clock
                 initial_cache two_events)
          = snd (fetchEvents decode initial_cache two_events)
       /\ fst (festivals_handler decode codeUnitCompare (js "GET") (QueryString (js "1")) clock
                 initial_cache two_events)
          = {| res_status := 200;
               res_json := FestivalsList data (Z.of_nat (List.length data)) |}
       /\ Permutation data
            (List.filter
               (fun e => bool_decide (event_type e = js "festival")
                         && (is_string (QueryString (js "1")) (js "true")
                             || geb (start_date e) (today clock)))
               events)
       /\ StronglySorted (pinned_first_then_significance codeUnitCompare) data.
Proof.
  split; [exact consistent_codeUnitCompare|]. split; [vm_compute; reflexivity|].
  exact (festivals_handler_lists_festivals decode codeUnitCompare (QueryString (js "1")) clock
           initial_cache two_events consistent_codeUnitCompare).
Defined.

(** *** [api/cities.ts] *)

Section Bump.
Context {A V : Type} (key : A -> list N) (bump : V -> V).

Lemma bump_step_keys m x : List.map fst (bump_step key bump m x) = List.map fst m.
Proof.
  unfold bump_step. destruct (Map_get m (key x)) eqn:E; [|reflexivity].
  rewrite Map_set_keys, E. reflexivity.
Qed.

Lemma bump_keys items : forall m,
  List.map fst (fold_left (bump_step key bump) items m) = List.map fst m.
Proof.
  induction items as [| x items IH]; intros m; [reflexivity|].
  cbn [fold_left]. rewrite IH. apply bump_step_keys.
Qed.

Lemma bump_get items : forall m k,
  Map_get (fold_left (bump_step key bump) items m) k
  = option_map (Nat.iter (List.length (filed key k items)) bump) (Map_get m k).
Proof.
  induction items as [| x items IH]; intros m k.
  - simpl. destruct (Map_get m k); reflexivity.
  - cbn [fold_left]. rewrite IH. unfold filed. cbn [List.filter].
    destruct (bool_decide (key x = k)) eqn:E.
    + apply bool_decide_eq_true in E. subst k. unfold bump_step.
      destruct (Map_get m (key x)) as [v|] eqn:Hget.
      * rewrite Map_get_set_same. cbn [List.length option_map].
        rewrite Nat.iter_succ_r. reflexivity.
      * rewrite Hget. reflexivity.
    + apply bool_decide_eq_false in E.
      assert (Hsame : Map_get (bump_step key bump m x) k = Map_get m k).
      { unfold bump_step. destruct (Map_get m (key x)); [|reflexivity].
        apply Map_get_set_other. exact E. }
      rewrite Hsame. reflexivity.
Qed.

Variable cnt : V -> Z.

Lemma total_Map_set_replace (m : JsMap V) k v w :
  Map_get m k = Some w ->
  total (List.map cnt (Map_values (Map_set m k v)))
  = total (List.map cnt (Map_values m)) - cnt w + cnt v.
Proof.
  unfold Map_values. induction m as [| [k0 w0] m IH]; simpl; [discriminate|].
  destruct (bool_decide (k0 = k)).
  - intros [= ->]. simpl. lia.
  - intros H. simpl. rewrite (IH H). lia.
Qed.

(** A counter the bump leaves alone keeps its total. *)
Lemma bump_total_kept items : forall m,
  (forall v, cnt (bump v) = cnt v) ->
  total (List.map cnt (Map_values (fold_left (bump_step key bump) items m)))
  = total (List.map cnt (Map_values m)).
Proof.
  induction items as [| x items IH]; intros m Hkept; [reflexivity|].
  cbn [fold_left]. rewrite IH by exact Hkept. unfold bump_step.
  destruct (Map_get m (key x)) as [w|] eqn:E; [|reflexivity].
  rewrite (total_Map_set_replace m _ _ w E), Hkept. lia.
Qed.

(** The counter the bump raises grows by one per item, when every item
    has an entry. *)
Lemma bump_total_raised items : forall m,
  (forall v, cnt (bump v) = cnt v + 1) ->
  Forall (fun x => In (key x) (List.map fst m)) items ->
  total (List.map cnt (Map_values (fold_left (bump_step key bump) items m)))
  = total (List.map cnt (Map_values m)) + Z.of_nat (List.length items).
Proof.
  induction items as [| x items IH]; intros m Hraised Hall; [simpl; lia|].
  inversion Hall as [| ? ? Hx Hrest]; subst.
  cbn [fold_left List.length]. rewrite IH; [|exact Hraised|].
  - unfold bump_step. destruct (Map_get m (key x)) as [w|] eqn:E.
    + rewrite (total_Map_set_replace m _ _ w E), Hraised. lia.
    + exfalso. apply Map_get_None in E. exact (E Hx).
  - eapply Forall_impl; [exact Hrest|]. simpl. intros y Hy. rewrite bump_step_keys. exact Hy.
Qed.

End Bump.

Lemma fold_left_ext {A B : Type} (f g : A -> B -> A) (l : list B) :
  (forall a b, f a b = g a b) -> forall a, fold_left f l a = fold_left g l a.
Proof.
  intros Hfg. induction l as [| b l IH]; intros a; [reflexivity|].
  simpl. rewrite Hfg. apply IH.
Qed.

Lemma filter_length_andb {A : Type} (f g : A -> bool) (l : list A) :
  (List.length (List.filter (fun x => f x && g x) l) <= List.length (List.filter f l))%nat.
Proof.
  induction l as [| x l IH]; simpl; [lia|].
  destruct (f x); simpl; [destruct (g x); simpl; lia | exact IH].
Qed.

Lemma entry_fields n2 n1 (x0 : SheetEvent) :
  let v := Nat.iter n2 count_upcoming (Nat.iter n1 count_event (first_entry x0)) in
  ce_name v = city x0 /\ ce_slug v = city_slug x0 /\ ce_region v = region x0
  /\ ce_region_slug v = region_slug x0
  /\ event_count v = Z.of_nat n1 + 1 /\ upcoming_count v = Z.of_nat n2.
Proof.
  induction n2 as [| n2 IH].
  - simpl. induction n1 as [| n1 IH1]; [simpl; tauto|].
    rewrite Nat.iter_succ. destruct IH1 as (H1 & H2 & H3 & H4 & H5 & H6).
    simpl. repeat split; try assumption. rewrite H5. lia.
  - intros v. subst v. rewrite Nat.iter_succ. destruct IH as (H1 & H2 & H3 & H4 & H5 & H6).
    simpl. repeat split; try assumption. rewrite H6. lia.
Qed.

Section Cities.
Context {Row : Type} (rowToEvent : Row -> Completion SheetEvent).
Variable localeCompare : list N -> list N -> Z.

(** The city list the handler computes from the events. *)
Lemma city_list_entries (now : UtcTime) (events : list SheetEvent) :
  let upcoming := getUpcomingEvents localeCompare now events in
  let m1 := fold_left (tally_step city_slug first_entry count_event) events [] in
  let m2 := fold_left (bump_step city_slug count_upcoming) upcoming m1 in
  let cities := Array_sort (fun a b => upcoming_count b - upcoming_count a) (Map_values m2) in
  List.NoDup (List.map ce_slug cities)
  /\ (forall e, In e events -> exists entry, In entry cities /\ ce_slug entry = city_slug e)
  /\ (forall entry, In entry cities ->
        exists x0 rest,
          filed city_slug (ce_slug entry) events = x0 :: rest
          /\ ce_name entry = city x0 /\ ce_region entry = region x0
          /\ ce_region_slug entry = region_slug x0
          /\ event_count entry = Z.of_nat (List.length (x0 :: rest))
          /\ upcoming_count entry
             = Z.of_nat (List.length (filed city_slug (ce_slug entry) upcoming)))
  /\ StronglySorted (fun a b => upcoming_count b <= upcoming_count a) cities
  /\ total (List.map event_count cities) = Z.of_nat (List.length events)
  /\ total (List.map upcoming_count cities) = Z.of_nat (List.length upcoming).
Proof.
  intros upcoming m1 m2 cities.
  assert (Hperm : Permutation cities (Map_values m2)) by apply Array_sort_Permutation.
  assert (Hnd1 : List.NoDup (List.map fst m1)) by (apply tally_keys_NoDup; constructor).
  assert (Hkeys : List.map fst m2 = List.map fst m1) by apply bump_keys.
  assert (Hentry : forall k v, In (k, v) m2 ->
            exists x0 rest,
              filed city_slug k events = x0 :: rest
              /\ v = Nat.iter (List.length (filed city_slug k upcoming)) count_upcoming
                       (Nat.iter (List.length rest) count_event (first_entry x0))
              /\ ce_slug v = k).
  { intros k v Hin. apply In_Map_get in Hin; [|rewrite Hkeys; exact Hnd1].
    unfold m2 in Hin. rewrite bump_get in Hin. unfold m1 in Hin. rewrite tally_get in Hin.
    simpl in Hin. destruct (filed city_slug k events) as [| x0 rest] eqn:E; [discriminate|].
    simpl in Hin. injection Hin as <-. exists x0, rest. split; [reflexivity|].
    split; [reflexivity|].
    destruct (entry_fields (List.length (filed city_slug k upcoming)) (List.length rest) x0)
      as (_ & -> & _).
    assert (H : In x0 (filed city_slug k events)) by (rewrite E; left; reflexivity).
    apply filter_In in H as [_ H]. apply bool_decide_eq_true in H. exact H. }
  assert (Hslugs : List.map ce_slug (Map_values m2) = List.map fst m2).
  { unfold Map_values. rewrite List.map_map. apply List.map_ext_in. intros [k v] Hin.
    destruct (Hentry k v Hin) as (_ & _ & _ & _ & H). exact H. }
  assert (Hm1 : forall e, In e events -> In (city_slug e) (List.map fst m1)).
  { intros e He. destruct (Map_get m1 (city_slug e)) eqn:E.
    - apply Map_get_In in E. apply in_map_iff. exists (city_slug e, c). split; [reflexivity|].
      exact E.
    - exfalso. unfold m1 in E. rewrite tally_get in E. simpl in E.
      destruct (filed city_slug (city_slug e) events) eqn:Hf; [|discriminate].
      assert (H : In e (filed city_slug (city_slug e) events)).
      { apply filter_In. split; [exact He|]. apply bool_decide_eq_true. reflexivity. }
      rewrite Hf in H. exact H. }
  split; [|split; [|split; [|split; [|split]]]].
  - apply NoDup_ListNoDup. rewrite (Permutation_map ce_slug Hperm), Hslugs, Hkeys.
    apply NoDup_ListNoDup. exact Hnd1.
  - intros e He. apply Hm1 in He. rewrite <- Hkeys in He.
    apply in_map_iff in He as ([k v] & Hk & Hin). simpl in Hk. subst k.
    exists v. split.
    + eapply Permutation_in; [symmetry; exact Hperm|]. unfold Map_values.
      apply in_map_iff. exists (city_slug e, v). split; [reflexivity | exact Hin].
    + destruct (Hentry _ _ Hin) as (_ & _ & _ & _ & H). exact H.
  - intros entry Hin. eapply Permutation_in in Hin; [|exact Hperm].
    unfold Map_values in Hin. apply in_map_iff in Hin as ([k v] & <- & Hin). simpl.
    destruct (Hentry k v Hin) as (x0 & rest & Hf & Hv & Hs).
    exists x0, rest. rewrite Hs. split; [exact Hf|].
    destruct (entry_fields (List.length (filed city_slug k upcoming)) (List.length rest) x0)
      as (H1 & _ & H3 & H4 & H5 & H6).
    rewrite <- Hv in H1, H3, H4, H5, H6.
    repeat split; try assumption. rewrite H5. simpl. lia.
  - apply sorted_by_count.
  - rewrite (total_Permutation _ _ (Permutation_map event_count Hperm)). unfold m2.
    rewrite (bump_total_kept city_slug count_upcoming event_count) by reflexivity.
    unfold m1.
    rewrite (tally_total city_slug first_entry count_event event_count
               (fun v => eq_refl) (fun x => eq_refl)).
    simpl. lia.
  - rewrite (total_Permutation _ _ (Permutation_map upcoming_count Hperm)). unfold m2.
    assert (Hup : Forall (fun x => In (city_slug x) (List.map fst m1)) upcoming).
    { apply List.Forall_forall. intros e He. apply Hm1.
      apply (Permutation_in e (Array_sort_Permutation _ _)) in He.
      apply filter_In in He. tauto. }
    rewrite (bump_total_raised city_slug count_upcoming upcoming_count _ m1
               (fun v => eq_refl) Hup).
    assert (Hzero : forall items m,
              Forall (fun kv : list N * CityEntry => upcoming_count (snd kv) = 0) m ->
              Forall (fun kv : list N * CityEntry => upcoming_count (snd kv) = 0)
                (fold_left (tally_step city_slug first_entry count_event) items m)).
    { induction items as [| x items IH]; intros m Hm; [exact Hm|].
      cbn [fold_left]. apply IH. unfold tally_step.
      assert (Hset : forall k v, upcoming_count v = 0 ->
                Forall (fun kv : list N * CityEntry => upcoming_count (snd kv) = 0)
                  (Map_set m k v)).
      { intros k v Hv. induction Hm as [| [k0 w0] m0 Hw0 Hm0 IHm]; simpl.
        - repeat constructor. exact Hv.
        - destruct (bool_decide (k0 = k)); constructor; try assumption. }
      destruct (Map_get m (city_slug x)) as [w|] eqn:E; apply Hset; [|reflexivity].
      apply Map_get_In in E. rewrite List.Forall_forall in Hm. exact (Hm _ E). }
    assert (Htotal0 : forall m : JsMap CityEntry,
              Forall (fun kv : list N * CityEntry => upcoming_count (snd kv) = 0) m ->
              total (List.map upcoming_count (Map_values m)) = 0).
    { unfold Map_values. induction 1 as [| [k v] m0 Hv _ IH0]; simpl; [reflexivity|].
      simpl in Hv. rewrite IH0, Hv. reflexivity. }
    assert (H0 : total (List.map upcoming_count (Map_values m1)) = 0)
      by (apply Htotal0, Hzero; constructor).
    rewrite H0. lia.
Qed.

Lemma upcoming_of_city now events k :
  List.length (getUpcomingEvents localeCompare now (getEventsByCity events k))
  = List.length (getEventsByCity (getUpcomingEvents localeCompare now events) k).
Proof.
  unfold getUpcomingEvents, getEventsByCity.
  rewrite (Permutation_length (Array_sort_Permutation _ _)).
  rewrite (Permutation_length (filter_Permutation _ _ _ (Array_sort_Permutation _ _))).
  rewrite !filter_filter_andb. f_equal. apply List.filter_ext. intros e. apply andb_comm.
Qed.

Lemma upcoming_in_city_le now events k :
  (List.length (getEventsByCity (getUpcomingEvents localeCompare now events) k)
   <= List.length (getEventsByCity events k))%nat.
Proof.
  rewrite <- upcoming_of_city. unfold getUpcomingEvents.
  rewrite (Permutation_length (Array_sort_Permutation _ _)).
  apply List.filter_length_le.
Qed.

Lemma cities_handler_list slug_ now c w events c1 :
  string_param slug_ = None ->
  fetchEvents rowToEvent c w = (Return events, c1) ->
  cities_handler rowToEvent localeCompare (js "GET") slug_ now c w
  = (let cities :=
       Array_sort (fun a b => upcoming_count b - upcoming_count a)
         (Map_values
            (fold_left (bump_step city_slug count_upcoming)
               (getUpcomingEvents localeCompare now events)
               (fold_left (tally_step city_slug first_entry count_event) events []))) in
     {| res_status := 200; res_json := CityList cities (Z.of_nat (List.length cities)) |},
     c1).
Proof.
  intros Hslug Hf. unfold cities_handler. rewrite Hslug, Hf. cbv zeta.
  rewrite bool_decide_eq_true_2 by reflexivity. cbn [negb].
  rewrite (fold_left_ext _ (tally_step city_slug first_entry count_event) events).
  - reflexivity.
  - intros m e. unfold tally_step. destruct (Map_get m (city_slug e)); reflexivity.
Qed.

(** X24: a GET of the city list answers 200 with one entry per
    city slug of the events. The event count of an entry is the number of
    events of the city, at least 1, and its upcoming count the number of
    upcoming events of the city, between 0 and the event count; its name and
    region are those of the first event of the city. The entries are in
    descending order of upcoming count; the event counts add up to the number
    of events and the upcoming counts to the number of upcoming events. *)
Theorem cities_handler_counts_events_and_upcoming
    (slug_ : QueryValue) (now : UtcTime) (c : Cache) (w : World Row) :
  string_param slug_ = None ->
  let answer := fst (cities_handler rowToEvent localeCompare (js "GET") slug_ now c w) in
  exists events cities,
    fst (fetchEvents rowToEvent c w) = Return events
    /\ answer = {| res_status := 200;
                   res_json := CityList cities (Z.of_nat (List.length cities)) |}
    /\ List.NoDup (List.map ce_slug cities)
    /\ (forall e, In e events -> exists entry, In entry cities /\ ce_slug entry = city_slug e)
    /\ (forall entry, In entry cities ->
          event_count entry
          = Z.of_nat (List.length (getEventsByCity events (ce_slug entry)))
          /\ upcoming_count entry
             = Z.of_nat (List.length
                           (getEventsByCity (getUpcomingEvents localeCompare now events)
                              (ce_slug entry)))
          /\ 0 <= upcoming_count entry <= event_count entry
          /\ 1 <= event_count entry
          /\ exists e, first_such (fun e => city_slug e = ce_slug entry) events e
                       /\ ce_name entry = city e /\ ce_region entry = region e
                       /\ ce_region_slug entry = region_slug e)
    /\ StronglySorted (fun a b => upcoming_count b <= upcoming_count a) cities
    /\ total (List.map event_count cities) = Z.of_nat (List.length events)
    /\ total (List.map upcoming_count cities)
       = Z.of_nat (List.length (getUpcomingEvents localeCompare now events)).
Proof.
  intros Hslug answer. subst answer.
  destruct (fetchEvents_returns rowToEvent c w) as (events & Hret).
  destruct (fetchEvents rowToEvent c w) as [r c1] eqn:Hf. simpl in Hret. subst r.
  rewrite (cities_handler_list slug_ now c w events c1 Hslug Hf). cbv zeta. cbn [fst].
  destruct (city_list_entries now events) as (H1 & H2 & H3 & H4 & H5 & H6).
  eexists events, _. split; [reflexivity|]. split; [reflexivity|].
  split; [exact H1|]. split; [exact H2|]. split; [|split; [exact H4|split; [exact H5|exact H6]]].
  intros entry Hin. destruct (H3 entry Hin) as (x0 & rest & Hf0 & Hn & Hr & Hrs & Hec & Huc).
  pose proof (upcoming_in_city_le now events (ce_slug entry)) as Hle.
  unfold getEventsByCity in *. fold (filed city_slug (ce_slug entry) events) in *.
  fold (filed city_slug (ce_slug entry) (getUpcomingEvents localeCompare now events)) in *.
  rewrite Hf0 in *. split; [exact Hec|]. split; [exact Huc|].
  split; [rewrite Hec, Huc; lia|]. split; [rewrite Hec; simpl; lia|].
  exists x0. split; [exact (filed_first_such _ _ _ _ _ Hf0)|]. tauto.
Qed.

Lemma cities_handler_page slug_ s now c w events c1 :
  string_param slug_ = Some s ->
  fetchEvents rowToEvent c w = (Return events, c1) ->
  cities_handler rowToEvent localeCompare (js "GET") slug_ now c w
  = (match getEventsByCity events s with
     | [] => {| res_status := 404; res_json := CitiesError (js "City not found") |}
     | first :: _ =>
         {| res_status := 200;
            res_json :=
              CityPage
                {| ch_name := city first; ch_slug := city_slug first;
                   ch_region := region first; ch_region_slug := region_slug first |}
                (getUpcomingEvents localeCompare now (getEventsByCity events s))
                (Z.of_nat (List.length (getEventsByCity events s)))
                (Z.of_nat (List.length
                             (getUpcomingEvents localeCompare now
                                (getEventsByCity events s)))) |}
     end, c1).
Proof.
  intros Hslug Hf. unfold cities_handler. rewrite Hslug, Hf. cbv zeta.
  rewrite bool_decide_eq_true_2 by reflexivity. cbn [negb]. unfold getEventsByCity.
  destruct (List.filter _ events); reflexivity.
Qed.

(** X25: a GET of a city page answers 404 when no event has the slug.
    Otherwise it answers 200 with the name and region of the first event of
    the city, the upcoming events of the city, which may be none, and the two
    counts; and these counts are the ones the entry of the city has in the
    city list computed from the same events. *)
Theorem cities_handler_city_page
    (slug_ : QueryValue) (s : list N) (now : UtcTime) (c : Cache) (w : World Row) :
  string_param slug_ = Some s ->
  let answer := fst (cities_handler rowToEvent localeCompare (js "GET") slug_ now c w) in
  exists events,
    fst (fetchEvents rowToEvent c w) = Return events
    /\ ((Forall (fun e => city_slug e <> s) events
         /\ answer = {| res_status := 404; res_json := CitiesError (js "City not found") |})
        \/ (exists first upcoming,
              first_such (fun e => city_slug e = s) events first
              /\ upcoming = getUpcomingEvents localeCompare now (getEventsByCity events s)
              /\ answer
                 = {| res_status := 200;
                      res_json :=
                        CityPage
                          {| ch_name := city first; ch_slug := s;
                             ch_region := region first;
                             ch_region_slug := region_slug first |}
                          upcoming
                          (Z.of_nat (List.length (getEventsByCity events s)))
                          (Z.of_nat (List.length upcoming)) |}
              /\ (1 <= List.length (getEventsByCity events s))%nat
              /\ (List.length upcoming <= List.length (getEventsByCity events s))%nat
              /\ (forall cities total_,
                    fst (cities_handler rowToEvent localeCompare (js "GET") QueryUndefined
                           now c w)
                    = {| res_status := 200; res_json := CityList cities total_ |} ->
                    exists entry,
                      In entry cities /\ ce_slug entry = s
                      /\ event_count entry
                         = Z.of_nat (List.length (getEventsByCity events s))
                      /\ upcoming_count entry = Z.of_nat (List.length upcoming)))).
Proof.
  intros Hslug answer. subst answer.
  destruct (fetchEvents_returns rowToEvent c w) as (events & Hret).
  destruct (fetchEvents rowToEvent c w) as [r c1] eqn:Hf. simpl in Hret. subst r.
  rewrite (cities_handler_page slug_ s now c w events c1 Hslug Hf). cbn [fst].
  exists events. split; [reflexivity|].
  destruct (getEventsByCity events s) as [| first rest] eqn:Hcity.
  - left. split; [|reflexivity]. apply List.Forall_forall. intros e He Hs.
    assert (H : In e (getEventsByCity events s)).
    { apply filter_In. split; [exact He|]. apply bool_decide_eq_true. exact Hs. }
    rewrite Hcity in H. exact H.
  - right. pose proof (filed_first_such city_slug s events first rest Hcity) as Hfirst.
    assert (Hs : city_slug first = s) by (destruct Hfirst as (? & ? & _ & H & _); exact H).
    exists first, (getUpcomingEvents localeCompare now (first :: rest)).
    split; [exact Hfirst|]. split; [reflexivity|]. rewrite Hs. split; [reflexivity|].
    split; [simpl; lia|]. split.
    + unfold getUpcomingEvents. rewrite (Permutation_length (Array_sort_Permutation _ _)).
      apply List.filter_length_le.
    + intros cities total_.
      rewrite (cities_handler_list QueryUndefined now c w events c1 eq_refl Hf).
      cbv zeta. cbn [fst]. intros [= <- _].
      destruct (city_list_entries now events) as (_ & H2 & H3 & _).
      assert (Hin : In first events).
      { destruct Hfirst as (l1 & l2 & -> & _). apply in_or_app. right. left. reflexivity. }
      destruct (H2 first Hin) as (entry & Hentry & Hslug'). exists entry.
      split; [exact Hentry|]. rewrite Hs in Hslug'. split; [exact Hslug'|].
      destruct (H3 entry Hentry) as (x0 & rest0 & Hf0 & _ & _ & _ & Hec & Huc).
      rewrite Hslug' in Hf0, Huc. unfold filed in Hf0, Huc.
      fold (getEventsByCity events s) in Hf0.
      fold (getEventsByCity (getUpcomingEvents localeCompare now events) s) in Huc.
      rewrite Hcity in Hf0. injection Hf0 as <- <-. split; [exact Hec|].
      rewrite Huc. rewrite <- upcoming_of_city, Hcity. reflexivity.
Qed.

End Cities.

(** X24 on two events of one city, one of them past. *)
Lemma cities_handler_counts_events_and_upcoming_witness :
  string_param QueryUndefined = None
  /\ fst (cities_handler decode codeUnitCompare (js "GET") QueryUndefined clock initial_cache
            two_events)
     = {| res_status := 200;
          res_json :=
            CityList
              [ {| ce_name := js "Essaouira"; ce_slug := js "essaouira";
                   ce_region := js "Marrakech-Safi"; ce_region_slug := js "marrakech-safi";
                   event_count := 2; upcoming_count := 1 |} ] 1 |}
  /\ exists events cities,
       fst (fetchEvents decode initial_cache two_events) = Return events
       /\ fst (cities_handler decode codeUnitCompare (js "GET") QueryUndefined clock
                 initial_cache two_events)
          = {| res_status := 200;
               res_json := CityList cities (Z.of_nat (List.length cities)) |}
       /\ total (List.map event_count cities) = Z.of_nat (List.length events).
Proof.
  split; [reflexivity|]. split; [vm_compute; reflexivity|].
  destruct (cities_handler_counts_events_and_upcoming decode codeUnitCompare QueryUndefined
              clock initial_cache two_events eq_refl)
    as (events & cities & H1 & H2 & _ & _ & _ & _ & H7 & _).
  exists events, cities. split; [exact H1|]. split; [exact H2 | exact H7].
Defined.

(** X25 on a city with events and on one with none. *)
Lemma cities_handler_city_page_witness :
  string_param (QueryString (js "essaouira")) = Some (js "essaouira")
  /\ string_param (QueryString (js "agadir")) = Some (js "agadir")
  /\ res_status (fst (cities_handler decode codeUnitCompare (js "GET")
                        (QueryString (js "agadir")) clock initial_cache two_events)) = 404
  /\ exists events,
       fst (fetchEvents decode initial_cache two_events) = Return events
       /\ ((Forall (fun e => city_slug e <> js "essaouira") events
            /\ fst (cities_handler decode codeUnitCompare (js "GET")
                      (QueryString (js "essaouira")) clock initial_cache two_events)
               = {| res_status := 404; res_json := CitiesError (js "City not found") |})
           \/ (exists first upcoming,
                 first_such (fun e => city_slug e = js "essaouira") events first
                 /\ upcoming
                    = getUpcomingEvents codeUnitCompare clock
                        (getEventsByCity events (js "essaouira"))
                 /\ fst (cities_handler decode codeUnitCompare (js "GET")
                           (QueryString (js "essaouira")) clock initial_cache two_events)
                    = {| res_status := 200;
                         res_json :=
                           CityPage
                             {| ch_name := city first; ch_slug := js "essaouira";
                                ch_region := region first;
                                ch_region_slug := region_slug first |}
                             upcoming
                             (Z.of_nat (List.length
                                          (getEventsByCity events (js "essaouira"))))
                             (Z.of_nat (List.length upcoming)) |})).
Proof.
  split; [reflexivity|]. split; [reflexivity|]. split; [vm_compute; reflexivity|].
  destruct (cities_handler_city_page decode codeUnitCompare (QueryString (js "essaouira"))
              (js "essaouira") clock initial_cache two_events eq_refl)
    as (events & H1 & [H2 | (first & upcoming & H3 & H4 & H5 & _)]).
  - exists events. split; [exact H1|]. left. exact H2.
  - exists events. split; [exact H1|]. right. exists first, upcoming. tauto.
Defined.

End ApiProps.

(** ** The search handler *)

Module SearchApiProps.
Import JsString Normalizer SheetsClient SheetsClientSpec SheetsQueries Api ApiSpec SearchApi.
Import SearchApiSpec Scan ScanProps SheetsClientProps TallySpec TallyProps ApiProps.

(** *** Substrings *)

Lemma startsWith_prefix s p : startsWith s p = true <-> exists rest, s = p ++ rest.
Proof.
  revert s. induction p as [| c p IH]; intros s; simpl.
  - split; [intros _; exists s; reflexivity | reflexivity].
  - destruct s as [| d s].
    + split; [discriminate | intros (rest & H); discriminate H].
    + rewrite andb_true_iff, IH, N.eqb_eq. split.
      * intros (-> & rest & ->). exists rest. reflexivity.
      * intros (rest & [= -> ->]). split; [reflexivity | exists rest; reflexivity].
Qed.

Lemma includes_occurs s word : includes s word = true <-> occurs_in word s.
Proof.
  unfold occurs_in. induction s as [| c s IH]; simpl.
  - rewrite orb_false_r, startsWith_prefix. split.
    + intros (rest & H). exists [], rest. exact H.
    + intros (before & after & H). symmetry in H. apply app_eq_nil in H as [-> H].
      exists after. symmetry. exact H.
  - rewrite orb_true_iff, startsWith_prefix, IH. split.
    + intros [(rest & H) | (before & after & H)].
      * exists [], rest. exact H.
      * exists (c :: before), after. rewrite H. reflexivity.
    + intros ([| d before] & after & H).
      * left. exists after. exact H.
      * right. injection H as -> ->. exists before, after. reflexivity.
Qed.

(** *** The words of a query *)

Lemma split_spaces_from_words in_run piece s :
  Forall (fun c => is_space c = false) piece ->
  (in_run = true -> piece = []) ->
  Forall (fun w => Forall (fun c => is_space c = false) w) (split_spaces_from in_run piece s).
Proof.
  revert in_run piece. induction s as [| c s IH]; intros in_run piece Hp Hrun; simpl.
  - constructor; [|constructor]. apply Forall_rev. exact Hp.
  - destruct (is_space c) eqn:Hc.
    + destruct in_run.
      * apply IH; [exact Hp | exact Hrun].
      * constructor; [apply Forall_rev; exact Hp|]. apply IH; [constructor | reflexivity].
    + apply IH; [constructor; assumption | discriminate].
Qed.

(** No piece is empty, but for the first when the text starts with white
    space and the last when it ends with it. *)
Lemma split_spaces_from_nonempty s : forall in_run piece,
  (in_run = false -> piece <> [] \/ exists c t, s = c :: t /\ is_space c = false) ->
  (s <> [] -> is_space (List.last s 0%N) = false) ->
  (s = [] -> piece <> []) ->
  Forall (fun w => w <> []) (split_spaces_from in_run piece s).
Proof.
  induction s as [| c s IH]; intros in_run piece Hstart Hlast Hend; simpl.
  - constructor; [|constructor]. intros H. apply (Hend eq_refl).
    apply (f_equal (@rev N)) in H. rewrite rev_involutive in H. exact H.
  - assert (Hlast' : s <> [] -> is_space (List.last s 0%N) = false).
    { intros Hs. specialize (Hlast ltac:(discriminate)). destruct s; [contradiction|].
      exact Hlast. }
    destruct (is_space c) eqn:Hc.
    + assert (Hs : s <> []).
      { intros ->. specialize (Hlast ltac:(discriminate)). simpl in Hlast. congruence. }
      destruct in_run.
      * apply IH; [discriminate | exact Hlast' | intros ->; contradiction].
      * constructor.
        -- destruct (Hstart eq_refl) as [Hp | (c' & t & [= <- _] & Hc')]; [|congruence].
           intros H. apply Hp. apply (f_equal (@rev N)) in H.
           rewrite rev_involutive in H. exact H.
        -- apply IH; [discriminate | exact Hlast' | intros ->; contradiction].
    + apply IH; [intros _; left; discriminate | exact Hlast' | intros _; discriminate].
Qed.

Lemma trim_start_first s : forall c t, trim_start s = c :: t -> is_space c = false.
Proof.
  induction s as [| d s IH]; intros c t; simpl; [discriminate|].
  destruct (is_space d) eqn:Hd; [apply IH|]. intros [= <- _]. exact Hd.
Qed.

Lemma trim_start_drops s : exists l, s = l ++ trim_start s.
Proof.
  induction s as [| d s (l & IH)]; simpl; [exists []; reflexivity|].
  destruct (is_space d); [|exists []; reflexivity].
  exists (d :: l). simpl. rewrite <- IH. reflexivity.
Qed.

Lemma trim_ends s c t :
  trim s = c :: t -> is_space c = false /\ is_space (List.last (c :: t) 0%N) = false.
Proof.
  unfold trim. intros H.
  destruct (trim_start (rev (trim_start s))) as [| d r] eqn:Hr; [discriminate|].
  pose proof (trim_start_first _ _ _ Hr) as Hd.
  split.
  - (* the first character is the first one of [trim_start s] *)
    destruct (trim_start_drops (rev (trim_start s))) as (l & Hl). rewrite Hr in Hl.
    apply (f_equal (@rev N)) in Hl. rewrite rev_involutive, rev_app_distr in Hl.
    simpl in H, Hl. rewrite H in Hl.
    destruct (trim_start s) as [| c0 t0] eqn:Hs; [destruct t; discriminate Hl|].
    simpl in Hl. injection Hl as <- _. exact (trim_start_first _ _ _ Hs).
  - rewrite <- H. simpl. rewrite List.last_last. exact Hd.
Qed.

Lemma words_of_words U text :
  Forall (fun w => w <> [] /\ Forall (fun c => is_space c = false) w) (words_of U text).
Proof.
  unfold words_of. destruct text as [| a text]; [constructor|].
  destruct (trim (toLowerCase U (a :: text))) as [| c t] eqn:Hq; [constructor|].
  destruct (trim_ends _ _ _ Hq) as [Hc Hlast].
  apply Forall_and. split.
  - apply split_spaces_from_nonempty.
    + intros _. right. exists c, t. split; [reflexivity | exact Hc].
    + intros _. exact Hlast.
    + discriminate.
  - apply split_spaces_from_words; [constructor | discriminate].
Qed.

(** *** Distinct values *)

Lemma Set_values_from (values : list (list N)) : forall seen,
  List.NoDup seen ->
  let r := fold_left (fun seen v => if bool_decide (v ∈ seen) then seen else seen ++ [v])
             values seen in
  List.NoDup r /\ (forall x, In x r <-> In x seen \/ In x values).
Proof.
  induction values as [| v values IH]; intros seen Hnd; simpl.
  - split; [exact Hnd | tauto].
  - destruct (bool_decide_reflect (v ∈ seen)) as [Hin | Hnin].
    + destruct (IH seen Hnd) as [H1 H2]. split; [exact H1|]. intros x. rewrite H2.
      apply list_elem_of_In in Hin. split; [tauto|]. intros [H | [<- | H]]; tauto.
    + assert (Hnd' : List.NoDup (seen ++ [v])).
      { apply NoDup_ListNoDup, NoDup_app. apply NoDup_ListNoDup in Hnd.
        split; [exact Hnd|]. split; [|apply NoDup_singleton].
        intros x Hx Hx'. apply list_elem_of_singleton in Hx'. subst x. exact (Hnin Hx). }
      destruct (IH (seen ++ [v]) Hnd') as [H1 H2]. split; [exact H1|]. intros x.
      rewrite H2, in_app_iff. simpl. tauto.
Qed.

Lemma Set_values_distinct values :
  List.NoDup (Set_values values) /\ (forall x, In x (Set_values values) <-> In x values).
Proof.
  destruct (Set_values_from values [] (List.NoDup_nil _)) as [H1 H2].
  split; [exact H1|]. intros x. unfold Set_values. rewrite H2. simpl. tauto.
Qed.

Lemma take_NoDup {A : Type} n (l : list A) : List.NoDup l -> List.NoDup (take n l).
Proof.
  intros H. apply NoDup_ListNoDup. apply NoDup_ListNoDup in H.
  eapply sublist_NoDup; [exact H | apply sublist_take].
Qed.

Lemma take_In {A : Type} n (l : list A) x : In x (take n l) -> In x l.
Proof.
  intros H. rewrite <- (take_drop n l). apply in_or_app. left. exact H.
Qed.

(** *** Ranking by score *)

Lemma ranked_by_score {A : Type} (score : A -> Z) (l : list A) :
  let ranked := List.map fst (Array_sort (fun a b : A * Z => snd b - snd a)
                                (List.map (fun e => (e, score e)) l)) in
  Permutation ranked l /\ StronglySorted (fun a b => score b <= score a) ranked.
Proof.
  intros ranked.
  set (pairs := List.map (fun e => (e, score e)) l).
  set (sorted := Array_sort (fun a b : A * Z => snd b - snd a) pairs).
  assert (Hperm : Permutation sorted pairs) by apply Array_sort_Permutation.
  split.
  - unfold ranked. fold pairs. fold sorted. rewrite (Permutation_map fst Hperm).
    unfold pairs. rewrite List.map_map. simpl. rewrite List.map_id. reflexivity.
  - assert (Hinv : Forall (fun p : A * Z => snd p = score (fst p)) sorted).
    { apply List.Forall_forall. intros p Hp. eapply Permutation_in in Hp; [|exact Hperm].
      apply in_map_iff in Hp as (e & <- & _). reflexivity. }
    assert (Hsorted : StronglySorted (fun a b : A * Z => snd b - snd a <= 0) sorted)
      by (apply (Array_sort_sorted (fun a b : A * Z => snd b - snd a)); intros; lia).
    unfold ranked. fold pairs. fold sorted. clearbody sorted. clear Hperm.
    induction Hsorted as [| p rest Hrest IH Hp]; simpl; constructor.
    + apply IH. inversion Hinv; assumption.
    + inversion Hinv as [| ? ? Hp0 Hrest0]; subst.
      apply List.Forall_forall. intros b Hb. apply in_map_iff in Hb as (q & <- & Hq).
      rewrite List.Forall_forall in Hp, Hrest0.
      specialize (Hp q Hq). specialize (Hrest0 q Hq). lia.
Qed.

Section Search.
Context {Row : Type} (rowToEvent : Row -> Completion SheetEvent).
Variable U : Unicode.
Variable localeCompare : list N -> list N -> Z.

Lemma handler_GET query now c w c1 a :
  fetchEvents_array rowToEvent c w = (Return a, c1) ->
  (forall l, sq_q query <> QueryArray l) ->
  handler rowToEvent U localeCompare (js "GET") query now c w
  = (let sorted :=
       match text_of (sq_q query) with
       | _ :: _ =>
           (OwnArray
              (List.map fst
                 (Array_sort (fun a b => snd b - snd a)
                    (List.map (fun e => (e, scoreEvent U e (text_of (sq_q query))))
                       (elements_of c1 (narrowed U localeCompare query now c1 a))))), c1)
       | [] =>
           sort_in_place (pinned_then_date localeCompare) c1
             (narrowed U localeCompare query now c1 a)
       end in
     let data := elements_of (snd sorted) (fst sorted) in
     ({| res_status := 200;
         res_json :=
           SearchResults data (Z.of_nat (List.length data))
             (match text_of (sq_q query) with
              | _ :: _ => Some (text_of (sq_q query))
              | [] => None
              end)
             (facets_of data) |}, snd sorted)).
Proof.
  intros Ha Hq. unfold handler. rewrite Ha.
  rewrite bool_decide_eq_true_2 by reflexivity. cbn [negb]. unfold narrowed, facets_of.
  destruct (sq_q query) as [| s | l] eqn:Hs; [| |exfalso; exact (Hq l eq_refl)];
    cbv zeta; cbn [text_of].
  - destruct (sort_in_place _ _ _). reflexivity.
  - destruct s as [| ch s]; [destruct (sort_in_place _ _ _)|]; reflexivity.
Qed.

Lemma narrowed_elements query now c a events :
  elements_of c a = events ->
  Permutation (elements_of c (narrowed U localeCompare query now c a))
    (List.filter (search_selected U now query) events).
Proof.
  intros He.
  assert (He' : elements_of c a = List.filter (fun _ => true) events)
    by (rewrite filter_true; exact He).
  unfold narrowed, search_selected, when_given, words_of, searchEvents.
  destruct (text_of (sq_q query)) as [| ch text];
    [|destruct (trim (toLowerCase U (ch :: text)))];
    destruct (string_param (sq_city query)), (string_param (sq_genre query)),
      (string_param (sq_type query)), (string_param (sq_from query)),
      (string_param (sq_to query)), (is_string (sq_upcoming query) (js "true"));
    cbv zeta; cbn [elements_of]; unfold getUpcomingEvents; rewrite ?Array_sort_Permutation;
    cbn [elements_of]; rewrite He', ?filter_filter_andb;
    match goal with
    | |- Permutation (List.filter ?F _) (List.filter ?G _) =>
        rewrite (List.filter_ext F G);
          [reflexivity
          | intros e; cbn [List.forallb andb]; rewrite ?andb_true_r, ?andb_assoc, ?andb_true_r;
            reflexivity]
    end.
Qed.

Lemma sort_in_place_fetched cmp c w events c1 a :
  fetchEvents rowToEvent c w = (Return events, c1) ->
  fetchEvents_array rowToEvent c w = (Return a, c1) ->
  snd (sort_in_place cmp c1 a)
  = {| _cachedEvents := option_map (fun _ => Array_sort cmp events) (_cachedEvents c1);
       _cacheTimestamp := _cacheTimestamp c1 |}.
Proof.
  intros Hf Ha.
  destruct (fetchEvents_array_elements rowToEvent c w events c1 Hf) as (a' & Ha' & He & Hc).
  rewrite Ha in Ha'. injection Ha' as <-.
  destruct a as [| l]; simpl.
  - simpl in He. destruct (_cachedEvents c1) as [l|]; simpl in *; [subst l; reflexivity|].
    exfalso. apply (proj1 Hc); reflexivity.
  - destruct (_cachedEvents c1) eqn:Hc1.
    + exfalso. assert (H : OwnArray l = CachedArray) by (apply Hc; discriminate).
      discriminate H.
    + destruct c1; simpl in *. subst. reflexivity.
Qed.

(** X26: the search handler answers 405 to any method but GET and
    leaves the cache alone. To a GET with a repeated [q] it answers 500, after
    the events were fetched. To any other GET it answers 200; when no
    parameter selects, it sorts the array of the cache where it stands, pinned
    first and then by date, and otherwise it leaves the cache as [fetchEvents]
    left it. *)
Theorem search_handler_fails_on_repeated_q
    (method : list N) (query : SearchQuery) (now : UtcTime) (c : Cache) (w : World Row) :
  let answer := fst (handler rowToEvent U localeCompare method query now c w) in
  let c2 := snd (handler rowToEvent U localeCompare method query now c w) in
  let c1 := snd (fetchEvents rowToEvent c w) in
  (method <> js "GET" ->
   answer = {| res_status := 405; res_json := SearchError (js "Method not allowed") |}
   /\ c2 = c)
  /\ (method = js "GET" ->
      (forall values, sq_q query = QueryArray values ->
         answer = {| res_status := 500; res_json := SearchError (js "Search failed") |}
         /\ c2 = c1)
      /\ ((forall values, sq_q query <> QueryArray values) ->
          res_status answer = 200
          /\ (blank query = false -> c2 = c1)
          /\ (blank query = true ->
              exists events,
                fst (fetchEvents rowToEvent c w) = Return events
                /\ c2 = {| _cachedEvents :=
                             option_map
                               (fun _ => Array_sort (pinned_then_date localeCompare) events)
                               (_cachedEvents c1);
                           _cacheTimestamp := _cacheTimestamp c1 |}))).
Proof.
  intros answer c2 c1. subst answer c2 c1. split.
  - intros Hm. unfold handler. rewrite bool_decide_eq_false_2 by exact Hm. split; reflexivity.
  - intros ->.
    destruct (fetchEvents_returns rowToEvent c w) as (events & Hret).
    destruct (fetchEvents rowToEvent c w) as [r c1] eqn:Hf. simpl in Hret. subst r.
    destruct (fetchEvents_array_elements rowToEvent c w events c1 Hf) as (a & Ha & He & _).
    split.
    + intros values Hq. unfold handler. rewrite Ha, Hq.
      rewrite bool_decide_eq_true_2 by reflexivity. split; reflexivity.
    + intros Hq. rewrite (handler_GET query now c w c1 a Ha Hq). cbv zeta. cbn [fst snd].
      split; [reflexivity|]. unfold blank, narrowed.
      destruct (text_of (sq_q query)) as [| ch text].
      * destruct (string_param (sq_city query)), (string_param (sq_genre query)),
          (string_param (sq_type query)), (string_param (sq_from query)),
          (string_param (sq_to query)), (is_string (sq_upcoming query) (js "true"));
          try (split; [intros _; reflexivity | discriminate]).
        split; [discriminate|]. intros _. exists events. split; [reflexivity|].
        cbv zeta. cbn [negb]. exact (sort_in_place_fetched _ c w events c1 a Hf Ha).
      * split; [intros _; reflexivity | discriminate].
Qed.

Lemma scoreEvent_bounds (e : SheetEvent) (text : list N) :
  cultural_significance e
  + (if is_pinned e then 5 else 0) + (if is_verified e then 2 else 0)
  <= scoreEvent U e text
  <= cultural_significance e
     + (if is_pinned e then 5 else 0) + (if is_verified e then 2 else 0) + 23.
Proof.
  unfold scoreEvent. cbv zeta.
  repeat match goal with
         | |- context [if ?b then _ else _] => destruct b
         end; lia.
Qed.

(** X27: under a consistent collation, a GET of the search whose [q] is
    not repeated answers 200 with the events that pass every filter given and
    whose text contains every word of the query, each once. The words are the
    pieces of the lower-cased, trimmed query between runs of white space: none
    is empty and none has white space. With a query the results are in
    descending order of score, and without one pinned first and then by date.
    The score of an event is its cultural significance, plus 5 when pinned and
    2 when verified, plus at most 23 for the matches. *)
Theorem search_handler_results
    (query : SearchQuery) (now : UtcTime) (c : Cache) (w : World Row) :
  (forall values, sq_q query <> QueryArray values) ->
  consistent localeCompare ->
  let answer := fst (handler rowToEvent U localeCompare (js "GET") query now c w) in
  let text := text_of (sq_q query) in
  exists events data facets,
    fst (fetchEvents rowToEvent c w) = Return events
    /\ answer = {| res_status := 200;
                   res_json :=
                     SearchResults data (Z.of_nat (List.length data))
                       (match text with
                        | [] => None
                        | _ :: _ => Some text
                        end)
                       facets |}
    /\ Permutation data (List.filter (search_selected U now query) events)
    /\ Forall (fun word => word <> [] /\ Forall (fun ch => is_space ch = false) word)
         (words_of U text)
    /\ (forall e, In e data ->
          Forall (fun word => occurs_in word (searchable U e)) (words_of U text))
    /\ (text <> [] ->
        StronglySorted (fun a b => scoreEvent U b text <= scoreEvent U a text) data)
    /\ (text = [] -> StronglySorted (pinned_first_then_date localeCompare) data)
    /\ (forall e,
          cultural_significance e
          + (if is_pinned e then 5 else 0) + (if is_verified e then 2 else 0)
          <= scoreEvent U e text
          <= cultural_significance e
             + (if is_pinned e then 5 else 0) + (if is_verified e then 2 else 0) + 23).
Proof.
  intros Hq Hcoll answer text. subst answer.
  destruct (fetchEvents_returns rowToEvent c w) as (events & Hret).
  destruct (fetchEvents rowToEvent c w) as [r c1] eqn:Hf. simpl in Hret. subst r.
  destruct (fetchEvents_array_elements rowToEvent c w events c1 Hf) as (a & Ha & He & _).
  rewrite (handler_GET query now c w c1 a Ha Hq). cbv zeta. cbn [fst snd].
  pose proof (narrowed_elements query now c1 a events He) as Hnarrow.
  set (data := elements_of _ _).
  assert (Hdata : Permutation data (elements_of c1 (narrowed U localeCompare query now c1 a))
                  /\ (text <> [] ->
                      StronglySorted (fun a b => scoreEvent U b text <= scoreEvent U a text)
                        data)
                  /\ (text = [] -> StronglySorted (pinned_first_then_date localeCompare) data)).
  { unfold data. fold text. destruct text as [| ch t] eqn:Ht.
    - rewrite sort_in_place_elements. split; [apply Array_sort_Permutation|].
      split; [congruence|]. intros _.
      eapply StronglySorted_weaken; [apply (pinned_then_date_order localeCompare)|].
      apply (Array_sort_sorted (pinned_then_date localeCompare)).
      + apply pinned_then_date_total. exact Hcoll.
      + apply pinned_then_date_trans. exact Hcoll.
    - cbn [fst snd elements_of].
      destruct (ranked_by_score (fun e => scoreEvent U e (ch :: t))
                  (elements_of c1 (narrowed U localeCompare query now c1 a))) as [H1 H2].
      split; [exact H1|]. split; [intros _; exact H2 | discriminate]. }
  destruct Hdata as (Hperm & Hscore & Hpinned).
  exists events, data, (facets_of data). split; [reflexivity|]. split.
  { fold text. destruct text; reflexivity. }
  assert (Hsel : Permutation data (List.filter (search_selected U now query) events))
    by (etransitivity; eassumption).
  split; [exact Hsel|]. split; [apply words_of_words|]. split.
  - intros e Hin. eapply Permutation_in in Hin; [|exact Hsel].
    apply filter_In in Hin as [_ Hin]. unfold search_selected in Hin.
    repeat (apply andb_true_iff in Hin as [Hin _]).
    apply List.Forall_forall. intros word Hword.
    rewrite List.forallb_forall in Hin. apply includes_occurs. exact (Hin word Hword).
  - split; [exact Hscore|]. split; [exact Hpinned|]. intros e. apply scoreEvent_bounds.
Qed.

(** X28: the facets of a search answer have no duplicates and list
    only cities, genres and types of the events returned. The types are all
    listed; the cities and the genres are cut at 20, and when fewer than 20
    are listed none is missing. *)
Theorem search_handler_facets
    (query : SearchQuery) (now : UtcTime) (c : Cache) (w : World Row) :
  (forall values, sq_q query <> QueryArray values) ->
  let answer := fst (handler rowToEvent U localeCompare (js "GET") query now c w) in
  exists data total_ text facets,
    answer = {| res_status := 200; res_json := SearchResults data total_ text facets |}
    /\ List.NoDup (f_cities facets) /\ List.NoDup (f_genres facets)
    /\ List.NoDup (f_types facets)
    /\ (List.length (f_cities facets) <= 20)%nat /\ (List.length (f_genres facets) <= 20)%nat
    /\ (forall x, In x (f_cities facets) -> exists e, In e data /\ city e = x)
    /\ (forall x, In x (f_genres facets) -> exists e, In e data /\ In x (genres e))
    /\ (forall x, In x (f_types facets) <-> exists e, In e data /\ event_type e = x)
    /\ (List.length (f_cities facets) = 20%nat
        \/ forall e, In e data -> In (city e) (f_cities facets))
    /\ (List.length (f_genres facets) = 20%nat
        \/ forall e x, In e data -> In x (genres e) -> In x (f_genres facets)).
Proof.
  intros Hq answer. subst answer.
  destruct (fetchEvents_returns rowToEvent c w) as (events & Hret).
  destruct (fetchEvents rowToEvent c w) as [r c1] eqn:Hf. simpl in Hret. subst r.
  destruct (fetchEvents_array_elements rowToEvent c w events c1 Hf) as (a & Ha & He & _).
  rewrite (handler_GET query now c w c1 a Ha Hq). cbv zeta. cbn [fst snd].
  set (data := elements_of _ _). clearbody data.
  exists data. eexists _, _, (facets_of data). split; [reflexivity|].
  unfold facets_of. cbn [f_cities f_genres f_types].
  destruct (Set_values_distinct (List.map city data)) as [Hc1 Hc2].
  destruct (Set_values_distinct (List.concat (List.map genres data))) as [Hg1 Hg2].
  destruct (Set_values_distinct (List.map event_type data)) as [Ht1 Ht2].
  assert (Hcap : forall l : list (list N),
            (List.length (take 20 l) <= 20)%nat
            /\ (List.length (take 20 l) = 20%nat \/ take 20 l = l)).
  { intros l. rewrite length_take. split; [lia|].
    destruct (le_lt_dec 20 (List.length l)); [left; lia|].
    right. apply take_ge. lia. }
  split; [apply take_NoDup; exact Hc1|]. split; [apply take_NoDup; exact Hg1|].
  split; [exact Ht1|]. split; [apply Hcap|]. split; [apply Hcap|]. split.
  { intros x Hx. apply take_In, Hc2, in_map_iff in Hx as (e & Hcity & Hin).
    exists e. split; assumption. }
  split.
  { intros x Hx. apply take_In, Hg2, in_concat in Hx as (gs & Hgs & Hx).
    apply in_map_iff in Hgs as (e & <- & Hin). exists e. split; assumption. }
  split.
  { intros x. rewrite Ht2, in_map_iff. split; intros (e & H1 & H2); exists e; tauto. }
  split.
  - destruct (proj2 (Hcap (Set_values (List.map city data)))) as [H | H]; [left; exact H|].
    right. intros e Hin. rewrite H. apply Hc2. apply in_map. exact Hin.
  - destruct (proj2 (Hcap (Set_values (List.concat (List.map genres data))))) as [H | H];
      [left; exact H|].
    right. intros e x Hin Hx. rewrite H. apply Hg2. apply in_concat.
    exists (genres e). split; [apply in_map; exact Hin | exact Hx].
Qed.

End Search.

Lemma search_for_text text values : sq_q (search_for text) <> QueryArray values.
Proof. discriminate. Qed.

(** X27 on a query of two words with white space around them. *)
Lemma search_handler_results_witness :
  (forall values, sq_q (search_for " Gnaoua  2027 ") <> QueryArray values)
  /\ consistent codeUnitCompare
  /\ words_of AsciiUnicode (js " Gnaoua  2027 ") = [js "gnaoua"; js "2027"]
  /\ fst (handler decode AsciiUnicode codeUnitCompare (js "GET")
            (search_for " Gnaoua  2027 ") clock initial_cache two_events)
     = {| res_status := 200;
          res_json :=
            SearchResults [pinned gnaoua] 1 (Some (js " Gnaoua  2027 "))
              {| f_cities := [js "Essaouira"]; f_genres := [];
                 f_types := [js "festival"] |} |}
  /\ exists events data facets,
       fst (fetchEvents decode initial_cache two_events) = Return events
       /\ fst (handler decode AsciiUnicode codeUnitCompare (js "GET")
                 (search_for " Gnaoua  2027 ") clock initial_cache two_events)
          = {| res_status := 200;
               res_json :=
                 SearchResults data (Z.of_nat (List.length data))
                   (Some (js " Gnaoua  2027 ")) facets |}
       /\ Permutation data
            (List.filter
               (search_selected AsciiUnicode clock (search_for " Gnaoua  2027 ")) events).
Proof.
  split; [apply search_for_text|]. split; [exact consistent_codeUnitCompare|].
  split; [vm_compute; reflexivity|]. split; [vm_compute; reflexivity|].
  destruct (search_handler_results decode AsciiUnicode codeUnitCompare
              (search_for " Gnaoua  2027 ") clock initial_cache two_events
              (search_for_text " Gnaoua  2027 ") consistent_codeUnitCompare)
    as (events & data & facets & H1 & H2 & H3 & _).
  exists events, data, facets. split; [exact H1|]. split; [exact H2 | exact H3].
Defined.

(** X28 on a search without a query. *)
Lemma search_handler_facets_witness :
  (forall values, sq_q (search_for "") <> QueryArray values)
  /\ exists data total_ text facets,
       fst (handler decode AsciiUnicode codeUnitCompare (js "GET") (search_for "") clock
              initial_cache two_events)
       = {| res_status := 200; res_json := SearchResults data total_ text facets |}
       /\ List.NoDup (f_cities facets)
       /\ (List.length (f_cities facets) <= 20)%nat
       /\ (forall x, In x (f_cities facets) -> exists e, In e data /\ city e = x).
Proof.
  split; [apply search_for_text|].
  destruct (search_handler_facets decode AsciiUnicode codeUnitCompare (search_for "") clock
              initial_cache two_events (search_for_text ""))
    as (data & total_ & text & facets & H1 & H2 & _ & _ & H5 & _ & H7 & _).
  exists data, total_, text, facets. tauto.
Defined.

End SearchApiProps.
